(* ===== verification/_CoqProject ===== *)
-Q . S2P
Prelude.v
ByteString.v
Double.v
DoubleError.v
Color.v
Operation.v
OT.v
Ladder.v
Document.v
AccessControl.v
AuthManager.v
TokenBucket.v
Json.v
Frames.v
Protocol.v
Codec.v
ClientSession.v
DocumentSession.v
NetworkManager.v
OTController.v
Convergence.v
ManyClients.v
Quiescence.v
DocumentManager.v
TcpServer.v
MessageHandler.v
Server.v
Autosave.v
RemoteCursors.v
MpscQueue.v
ThreadPool.v
Qt.v
Widgets.v
CursorAnimation.v
EditorWidget.v
Painting.v
EditorWindow.v
ManyEditors.v
DocumentListWindow.v
ConnectionDialog.v
ClientApp.v
StyleSheet.v
Layout.v
ServerConfig.v
Logger.v
Shutdown.v
Interleaving.v
Background.v
Concurrency.v
ServerPool.v
Startup.v
Hosting.v
EndToEnd.v
