(* ===== verification/Prelude.v ===== *)
(** * Verification of the collaborative text editor

    The program is a text editor for several users: a server keeps the documents, each
    client keeps a copy of the document it has open, and edits travel as operations
    that are transformed against each other (operational transformation, OT). This
    library models its core in Rocq, file by file, and proves what makes it correct;
    where the code does not do what it means to, the theorem says so.

    ** The program and the files of this library

    Core (core/): the algebra of edits and the data the server is made of.
    - [Operation]: core/src/operation.cpp. [OT]: core/src/ot.cpp, [transform] and
      [apply] with 32-bit wrap-around, on byte strings. [Ladder]: an operation against a
      list of concurrent ones (client/src/ot_controller.cpp, core/src/document.cpp).
    - [Document]: core/src/document.cpp, a document with its history of transformed
      operations, the incoming queue and the counters for saving.
    - [AccessControl], [AuthManager], [TokenBucket]: the files of those names in
      core/src/ (with hash_utils.cpp in [AuthManager]).
    - [MpscQueue]: core/include/collab/mpsc_queue.h, the lock-free queue of a document's
      commands, atomic access by atomic access, with the slot caches of the threads.
      [ThreadPool]: core/src/thread_pool.cpp, with the condition variable its workers sleep
      on and its notifications.
    Protocol (protocol/): what goes over the wire.
    - [Protocol]: protocol/src/protocol.cpp, every message with its conversions to and
      from JSON. [Json] states what is used of nlohmann::json as a class with laws, and
      an instance of it. [Frames]: the four-byte length header. [Codec]:
      client/src/protocol_codec.cpp and the server's reading of an envelope.
    Server (server/):
    - [ClientSession]: one connection. [DocumentSession]: the thread that owns a
      document. [DocumentManager]: the maps of documents and sessions and the files,
      some of which cannot be opened, with a heap for the objects they share. [TcpServer]: the table of connections.
      [MessageHandler]: one function per message, in a monad of state and
      exceptions. [Server]: the callbacks of main.cpp and the steps of the running
      server. [Autosave]: autosave.cpp and cursor_aggregator.cpp. [Color]:
      the colour [generate_color] of message_handler.cpp gives a user. [ServerConfig]:
      server_config.cpp. [Logger]: async_logger.cpp and log_sink.cpp, with the sinks as
      instances of one interface. [Shutdown]: the sinks and the level of main.cpp, its
      [shutdown_server], and the destructor of document_session.cpp.
    - [Interleaving]: the handlers of message_handler.cpp once more, as programs of their
      critical sections. [Background]: the same for the two periodic threads, with the
      waiting between their rounds and the request to stop. [Concurrency]: any number of
      handlers, both threads and the io thread, interleaved at those sections.
      [ServerPool]: the server with the io thread, the pool whose workers run those
      programs, the signal, and the order in which main destroys its objects. [Startup]:
      main up to the running of the io context, and what can keep it from getting there.
    Client (client/):
    - [NetworkManager]: the socket and the reassembly of frames. [OTController]:
      ot_controller.cpp and local_document.cpp, the client's state machine.
      [RemoteCursors]: remote_cursors_model.cpp and cursor_translator.cpp.
    - [Qt] states what is used of Qt's strings, colours and translations as a class with
      laws, and an instance of it. [EditorWidget]: editor_widget.cpp and utf8_codec.cpp,
      edits between UTF-16 text and operations on bytes, with the animation of the
      cursors in [CursorAnimation] and their drawing in [Painting]. [Widgets]: the user panel, the status bar and the
      functions of theme.cpp. [EditorWindow]: editor_window.cpp, the window that
      connects controller, editor, cursors, panel and status bar.
      [DocumentListWindow], [ConnectionDialog]: the files of those names.
    - [ClientApp]: client/src/main.cpp, all windows together with the queue of events
      between the network thread and the main thread. [Layout]: each window as a tree of
      widgets and layouts, a function of its state, and what its buttons do;
      [StyleSheet]: the style sheet of theme.cpp and the rules in it.
    - [Convergence] puts the client's controller, the server's document thread and the
      two channels between them together, [ManyClients] any number of such clients
      around one document, who come and go, [Quiescence] counts the steps that are left
      when their users stop, and [ManyEditors] gives each of them its window.
    The whole:
    - [Hosting] says what the server's functions do to one document, its session and the
      bytes sent to a connection. [EndToEnd] is the server with all its parts and the
      clients of one document, down to the bytes: handlers with logins and rights, the
      manager's heap, write queues, frames cut into chunks, network managers, editors that
      open from the answer to a join, lost connections; what happens to other documents
      meanwhile is one of its steps.
    [Prelude] has the machine integers and shared automation, [ByteString] the edits of
    byte strings and the laws by which two edits commute, [Double] and [DoubleError]
    binary64 numbers and the rounding errors of their operations.

    How they interact: a frame that arrives on a connection ([ClientSession.on_body])
    is handed to the pool ([ServerPool.read_body]), whose workers call
    [MessageHandler.handle_message], which answers on the same connection
    and puts commands into the queue of a document's session; the session's thread
    ([DocumentSession.process_command]) applies them with [Document.apply_with_ot] and
    sends an acknowledgement to the author and a broadcast to everyone else. A client
    reads them with [NetworkManager.onReadyRead]; each window that is connected gets its
    own queued event ([ClientApp.emit], [ClientApp.deliver]). [EditorWindow.onNetworkMessage]
    gives a message to [OTController.onNetworkMessage] and runs its own slots on the signals
    that come back; what the user types comes the other way, from
    [EditorWidget.onContentsChange] through [EditorWindow.edited] to
    [OTController.onLocalOperations].

    ** What the theorems show

    - Convergence. [OT.transform_convergence] is the diamond of two operations,
      [Ladder.transform_ladder_convergence] the one of an operation and a list, and
      [Document.apply_with_ot_converges] lifts it to the server's document.
      [Convergence.client_server_convergence] is the statement for one client: when it
      and the server have no message in flight, the client's text is the server's.
      [ManyClients.all_clients_converge] is the statement for all clients of a document
      at once, with the commands that wait, joins, leaves and rejected operations, and
      [ManyEditors.all_editors_show_one_text] for what the users see: a simulation of the
      windows by the clients, with [EditorWindow.editor_stays_in_sync]'s lemmas.
      [EndToEnd.all_copies_agree] is the statement about the whole system, where nothing is
      left of the abstraction of [ManyClients]: its channels are write queues, bytes and
      network managers, its commands are put in place by message handlers.
      [Quiescence.editing_settles] is the liveness beside it: once the users stop, the
      messages are used up after a number of steps that is known beforehand, whatever
      their order, and the system is then at rest. They
      hold as long as the diamonds they are made of do; [OT.hollow_delete_wipes_tail],
      [OT.same_user_tie] and [Document.concurrent_deletes_wipe_document] are the inputs
      on which they do not, and show that the premises are not idle. The steps of
      [ManyClients.NetStep], [ManyEditors.DeskStep] and [EndToEnd.HostStep] exclude these
      inputs and the other conflicts by premises, which are listed where they are defined
      and in each theorem's comment.
    - Refinement. [EndToEnd.system_refines_clients]: every step of the whole system is a
      sequence of steps of [ManyClients], most often one or none.
      [Document.document_refines_log]: the document is the replay of its log of
      transformed operations. [AccessControl.access_control_refines_policy]: the
      map under packed 64-bit keys is a relation between documents and users.
    - State machines. [OTController.controller_invariant],
      [ClientSession.writes_in_order] and [ClientSession.reads_in_order],
      [DocumentManager.manager_consistent] and [Server.server_invariant] are invariants
      of step relations; the last one says that, as long as no two handlers overlap, only
      accounts are logged in, rights exist for loaded documents and each has one owner.
    - Concurrency. [MpscQueue.queue_refines_fifo]: under every interleaving the
      lock-free queue behaves as the list that [DocumentSession] takes it for;
      [MpscQueue.queue_memory_safe], [MpscQueue.queue_frees_all] and
      [MpscQueue.enqueue_never_waits] are what the hazard pointers are for.
      These assume an address at which its threads have used no earlier queue;
      [MpscQueue.reused_address_use_after_free] is what happens at one where they have.
      [ThreadPool.pool_runs_each_task_once], [ThreadPool.no_lost_wakeup] and
      [ThreadPool.pool_serves] are lifted to the server by
      [ServerPool.pooled_server_refines] and [ServerPool.received_messages_are_handled]:
      behind the pool it is the interleaved server of [Concurrency], each message is the
      message of one call, and every message received is handled, however the threads are
      scheduled, if only each of them has its turns. [Interleaving.uninterrupted_handler]
      and [Background.uninterrupted_rounds] say that
      the programs of critical sections, run alone, are the functions of [MessageHandler]
      and [Autosave]; [Server.server_invariant] is about whole handlers, and
      [Concurrency.concurrent_invariant] says what of it survives every interleaving of
      their critical sections; [Interleaving.handlers_end] and
      [Background.stop_returns] that handlers end and that a thread told to stop does.
    - The client's windows. [EditorWidget.local_edit_in_bytes] and
      [EditorWidget.remote_edit_in_sync]: edits of UTF-16 text are the operations on UTF-8
      bytes, both ways, and what is shown of a remote operation is not emitted as an edit.
      [EditorWindow.editor_stays_in_sync]: what the editor shows is, byte for byte, the local
      document of the controller, after any sequence of edits and messages on characters a
      Qt text document keeps, and nothing is echoed. [EditorWindow.editor_window_invariant],
      [EditorWindow.window_leaves_at_close]: what the window shows agrees with its role and
      its controller, and up to its first close it is left only then.
      [ConnectionDialog.identity_after_success] and [DocumentListWindow.opens_selected_document].
      [ClientApp.app_has_window] and [ClientApp.editor_gets_every_message]: some window is
      always on the screen, and an open editor is handed every message in order.
    - Floating point. [Color.color_is_hex]: no user id makes a conversion overflow, rounding
      included; [CursorAnimation.animation_settles]: the timer stops after 74 ticks at most,
      with every cursor where it belongs. Both rest on the error bounds of [DoubleError].
    - Drawing. [Painting.selection_band_covers]: the bands of a selection cover it line by
      line and use positions of the document only, whatever offsets arrive;
      [Painting.paint_defined] and [Painting.label_beside_caret] are about the rest.
      [Layout.dialog_styled], [Layout.documents_styled], [Layout.editor_styled] and
      [Layout.names_used]: whatever the state, the names that the windows give their widgets
      are those the style sheet has rules for (but for the tool bar's, which has none);
      [Layout.buttons_connected]: every button does something.
    - Running the server. [Startup.server_starts]: exactly when main comes to its event
      loop. [ServerConfig.config_errors], [Logger.log_reaches_sinks],
      [Logger.logger_shutdown_ends]. [Autosave.autosave_round_saves] and
      [Shutdown.shutdown_saves_everything]: a document whose file can be opened is saved
      with all its queued operations, and one whose file cannot stays dirty.
    - Guards. [Server.operation_message_spec] and [Server.unauthenticated_is_harmless] say
      what the message handler lets through.
    - Round trips: frames, envelopes, every message both ways, and the byte stream.
    - Defects of the code, each as a theorem about the model: a restart overwrites saved
      documents, a join can miss operations on the server
      ([Server.join_misses_queued_operation]) and on the client
      ([ClientApp.operation_lost_before_editor]), a revoked user stays connected, a save can
      lose the mark of an edit, [wait_idle] can return too early, a refused join blocks the
      documents window ([DocumentListWindow.refused_join_blocks_window]), a no-break space
      shifts the offsets of an editor ([EditorWidget.nbsp_reorders_typing]), numbers out of
      range in the configuration are wrapped ([ServerConfig.config_wraps_port]), an
      operation can be overtaken by the message that leaves its document
      ([ServerPool.operation_overtaken_by_leave]), messages pending at the shutdown call a
      destroyed handler ([ServerPool.pending_messages_call_destroyed_handler]), a join
      reads text and revision apart ([Concurrency.join_reads_torn_document]), a role can
      outlive its document ([Concurrency.share_outlives_document]), an owner can demote
      herself ([Concurrency.owner_demotes_herself]), a deleted document can come back
      ([Concurrency.deleted_document_comes_back]), a queue at the address of an earlier one
      frees nodes in use ([MpscQueue.reused_address_use_after_free]).

    ** Modelling decisions

    - [uint32_t], [uint64_t] and [int32_t] values are in [Z]; each operation is followed
      by the wrap-around of its width ([u32], [u64], [i32]). Theorems that need a size
      to stay below a width say so: documents and texts below 2 GiB ([OT.room]),
      counters that have not reached their last value.
    - [std::string] and [QByteArray] are byte strings, so that positions are byte
      offsets, as in the code.
    - nlohmann::json, SHA-256, Qt's strings and colours, and the clock are not in the
      repository: [Json.Json] is a class whose laws are the documented behaviour used
      ([Json.json_tree] is an instance, with which the witnesses run), and so is [Qt.Qt]
      (with [Qt.qt_basic]); the rest are arguments.
    - A [double] is a binary64 number of the Standard Library's specification, with one
      rounding to nearest even for each operation of the source.
    - A message box runs other events while it is open: opening one is an output, and the
      code behind it is a step of its own ([box_closed]). A window that has closed takes no
      more events; with [onFatalError] over a notice, the code calls [close()] once more.
    - The slot that runs while the editor's own document changes returns the operations it
      would emit; they are outputs of the editor and of the window ([WinEcho]), and that
      there are none is a theorem.
    - Opening a file fails for the paths in [fs_denied]; writing to an open file, closing,
      renaming and removing it succeed. What can end [main] before its event loop is in
      [Startup.Environment].
    - A function that throws returns [option]. In [MessageHandler] the state of the
      time of the throw is kept, as in the code.
    - Recursion that is not structural has fuel: [NetworkManager.rx_loop] takes the
      length of its buffer, and each frame is at least four bytes long;
      [ClientSession.deliver] takes two steps for each frame. The theorems are about
      the functions with that fuel, so that they include termination.
    - Each critical section is a step; in [MpscQueue] each atomic access is one, in
      sequentially consistent memory (the orderings named in the source are weaker).
      [MpscQueue.run_alone] has a number of steps that is part of the theorem. A message
      handler is one step of [Server] and of what is built on it ([Hosting], [EndToEnd]); in
      [Interleaving] it is a program ([Prog]) of one
      action for each lock it takes, and a member function that holds its lock throughout
      is one action there; that is the level of [Concurrency] and [ServerPool].
    - Threads are scheduled by the steps of a relation; where a theorem needs fairness, it
      is about rounds in which everybody has a turn ([ThreadPool.fair]). A worker sleeps
      when it finds no task and goes on when it is notified, asked to stop, or for no reason.
    - [ManyClients] lets a user open the document when no operation waits in its queue:
      the answer to a join is made before the join is queued, and the operations in
      between are the defect [Server.join_misses_queued_operation].
    - [EndToEnd] keeps two things that no program does: the messages on their way in bytes
      ([cn_pending]) and the base of [ManyClients]. The messages of a client to the server
      are payloads there; that the read side hands over what was sent is
      [ClientSession.reads_in_order]. Its steps assume, beside what [ManyClients] does, that
      the author of an operation may edit when it is handled, that only news of other users
      are behind the answer to a join when the editor opens (otherwise operations are lost,
      see the defects), and that a step for something else leaves the document, its session
      and its clients' logins alone, which is what other handlers do unless they delete the
      document or log a client in again.

    ** Not modelled

    The log lines written by the other components change no state of the program and are
    left out; so are a window behind its first close, the effect of creating a directory,
    where Qt puts the widgets of a
    layout and how it draws a style, and QSettings' storage. The constructors and destructors
    that only store references or join a thread have no definition of their own, and neither
    have declarations in headers whose definitions are modelled. *)
From Stdlib Require Export ZArith Lia String Ascii.
From stdpp Require Export base numbers list strings gmap.

(** ** Machine integers

    [uint32_t], [uint64_t] and [int32_t] values are integers of [Z]; every
    arithmetic operation the source performs at a width is followed by the
    wrap-around of that width. *)
Declare Scope collab_scope.
Delimit Scope collab_scope with collab.

Abbreviation u8_mod := 256%Z.
Abbreviation u32_mod := 4294967296%Z.
Abbreviation u64_mod := 18446744073709551616%Z.
Abbreviation i32_half := 2147483648%Z.

Definition u8 (x : Z) : Z := x mod u8_mod.
Definition u32 (x : Z) : Z := x mod u32_mod.
Definition u64 (x : Z) : Z := x mod u64_mod.
Definition i32 (x : Z) : Z := (x + i32_half) mod u32_mod - i32_half.
#[global] Arguments u8 : simpl never.
#[global] Arguments u32 : simpl never.
#[global] Arguments u64 : simpl never.
#[global] Arguments i32 : simpl never.

Notation "x +₃₂ y" := (u32 (x + y)%Z) (at level 50, left associativity) : collab_scope.
Notation "x -₃₂ y" := (u32 (x - y)%Z) (at level 50, left associativity) : collab_scope.
Open Scope collab_scope.

Definition is_u8 (x : Z) : Prop := (0 <= x < u8_mod)%Z.
Definition is_u32 (x : Z) : Prop := (0 <= x < u32_mod)%Z.
Definition is_u64 (x : Z) : Prop := (0 <= x < u64_mod)%Z.

#[export] Instance is_u8_dec x : Decision (is_u8 x).
Proof. unfold is_u8. apply _. Defined.
#[export] Instance is_u32_dec x : Decision (is_u32 x).
Proof. unfold is_u32. apply _. Defined.
#[export] Instance is_u64_dec x : Decision (is_u64 x).
Proof. unfold is_u64. apply _. Defined.

(** [width_lia] is [lia] with the widths unfolded and the wrap-arounds turned into
    quotient and remainder equations. *)
Ltac unfold_widths :=
  unfold is_u8, is_u32, is_u64, u8, u32, u64, i32 in *.
Ltac width_lia := unfold_widths; Z.to_euclidean_division_equations; lia.

Create HintDb collab.
Create Rewrite HintDb collab.

Lemma u32_small x : is_u32 x -> u32 x = x.
Proof. unfold is_u32, u32. intros. now apply Z.mod_small. Qed.
Lemma u64_small x : is_u64 x -> u64 x = x.
Proof. unfold is_u64, u64. intros. now apply Z.mod_small. Qed.
Lemma u8_small x : is_u8 x -> u8 x = x.
Proof. unfold is_u8, u8. intros. now apply Z.mod_small. Qed.
Lemma i32_small x : (- i32_half <= x < i32_half)%Z -> i32 x = x.
Proof. intros. width_lia. Qed.
Lemma is_u32_u32 x : is_u32 (u32 x).
Proof. apply Z.mod_pos_bound. reflexivity. Qed.
Lemma is_u64_u64 x : is_u64 (u64 x).
Proof. apply Z.mod_pos_bound. reflexivity. Qed.
Lemma u32_idemp x : u32 (u32 x) = u32 x.
Proof. apply u32_small, is_u32_u32. Qed.
#[export] Hint Resolve u32_small u64_small u8_small is_u32_u32 is_u64_u64 : collab.
#[export] Hint Rewrite u32_idemp : collab.

(** [unwrap] removes every wrap-around whose argument the context shows to be
    in range. *)
Ltac unwrap :=
  repeat match goal with
  | |- context [u32 ?x] => rewrite (u32_small x) by (unfold is_u32 in *; lia)
  | |- context [u64 ?x] => rewrite (u64_small x) by (unfold is_u64 in *; lia)
  | |- context [i32 ?x] => rewrite (i32_small x) by (lia)
  end.

(** ** Bit fields *)

Lemma land_shiftl_low d u n :
  (0 <= n)%Z -> (0 <= u < 2 ^ n)%Z -> Z.land (Z.shiftl d n) u = 0%Z.
Proof.
  intros Hn Hu. apply Z.bits_inj'. intros i Hi. rewrite Z.land_spec, Z.bits_0.
  destruct (Z.lt_ge_cases i n) as [Hlt|Hge]; [by rewrite Z.shiftl_spec_low|].
  destruct (Z.eq_dec u 0%Z) as [->|Hu0]; [by rewrite Z.bits_0, andb_false_r|].
  rewrite (Z.bits_above_log2 u i), andb_false_r; [done|lia|].
  apply Z.lt_le_trans with n; [|lia]. apply Z.log2_lt_pow2; lia.
Qed.

(** Placing a value below a shifted one is addition. *)
Lemma lor_shiftl_low d u n :
  (0 <= n)%Z -> (0 <= u < 2 ^ n)%Z -> Z.lor (Z.shiftl d n) u = (d * 2 ^ n + u)%Z.
Proof.
  intros Hn Hu. pose proof (Z.add_lor_land (Z.shiftl d n) u) as H.
  rewrite land_shiftl_low, Z.shiftl_mul_pow2 in H by done.
  rewrite Z.shiftl_mul_pow2 by done. lia.
Qed.

(** Case analysis on every comparison of the goal. *)
Ltac zcases :=
  repeat match goal with
  | |- context [(?a <? ?b)%Z] => destruct (Z.ltb_spec a b)
  | |- context [(?a <=? ?b)%Z] => destruct (Z.leb_spec a b)
  | |- context [(?a =? ?b)%Z] => destruct (Z.eqb_spec a b)
  end.

(** What every step preserves holds in every state reached. *)
Lemma rtc_preserved {A} (R : A -> A -> Prop) (P : A -> Prop) x y :
  (forall x y, P x -> R x y -> P y) -> rtc R x y -> P x -> P y.
Proof. intros H Hs. induction Hs; eauto. Qed.

(** [decide_now] closes a decidable closed goal by evaluation. *)
Ltac decide_now :=
  repeat match goal with x := _ |- _ => subst x end;
  match goal with |- ?P => apply (bool_decide_eq_true_1 P); vm_compute; reflexivity end.
