(* ===== verification/ByteString.v ===== *)
(** * Byte strings

    [std::string] and [QByteArray] values as sequences of bytes, the edits the
    source performs on them, and how two edits of one string commute. *)
From S2P Require Import Prelude.
Local Open Scope Z_scope.

(** ** Offsets and edits

    A [std::string] is a Rocq [string]: a sequence of bytes. Positions are byte
    offsets. *)
Abbreviation bytes_of := String.list_ascii_of_string.
Abbreviation of_bytes := String.string_of_list_ascii.

Definition slen (s : string) : Z := Z.of_nat (String.length s).
#[global] Arguments slen : simpl never.

(** [std::string::insert(pos, t)] and [std::string::erase(pos, n)] for
    [pos <= size()]. *)
Definition str_insert (s : string) (pos : Z) (t : string) : string :=
  of_bytes (take (Z.to_nat pos) (bytes_of s) ++ bytes_of t
              ++ drop (Z.to_nat pos) (bytes_of s)).
Definition str_erase (s : string) (pos n : Z) : string :=
  of_bytes (take (Z.to_nat pos) (bytes_of s)
              ++ drop (Z.to_nat pos + Z.to_nat n) (bytes_of s)).
(** [QByteArray::mid] and [std::string::substr] for [pos <= size()]. *)
Definition str_mid (s : string) (pos n : Z) : string :=
  of_bytes (take (Z.to_nat n) (drop (Z.to_nat pos) (bytes_of s))).

Lemma bytes_of_of_bytes l : bytes_of (of_bytes l) = l.
Proof. apply String.list_ascii_of_string_of_list_ascii. Qed.
Lemma of_bytes_bytes_of s : of_bytes (bytes_of s) = s.
Proof. apply String.string_of_list_ascii_of_string. Qed.
Lemma bytes_of_inj s t : bytes_of s = bytes_of t -> s = t.
Proof. intros H. rewrite <- (of_bytes_bytes_of s), H. apply of_bytes_bytes_of. Qed.
Lemma length_bytes_of s : length (bytes_of s) = String.length s.
Proof. induction s as [|c s IH]; [done|]. cbn. now rewrite IH. Qed.
Lemma slen_bytes s : slen s = Z.of_nat (length (bytes_of s)).
Proof. unfold slen. now rewrite length_bytes_of. Qed.
Lemma slen_nonneg s : (0 <= slen s)%Z.
Proof. unfold slen. lia. Qed.
Lemma slen_empty : slen "" = 0%Z.
Proof. reflexivity. Qed.
Lemma slen_zero s : slen s = 0%Z -> s = ""%string.
Proof. destruct s; [done|]. unfold slen. cbn. lia. Qed.
Lemma bytes_of_app s t : bytes_of (s +:+ t) = bytes_of s ++ bytes_of t.
Proof. induction s as [|c s IH]; [done|]. exact (f_equal (cons c) IH). Qed.
Lemma append_assoc (s t u : string) : (s +:+ t) +:+ u = s +:+ (t +:+ u).
Proof. apply bytes_of_inj. by rewrite !bytes_of_app, app_assoc. Qed.
Lemma append_nil_r (s : string) : s +:+ "" = s.
Proof. apply bytes_of_inj. by rewrite bytes_of_app, app_nil_r. Qed.
Lemma slen_app s t : slen (s +:+ t) = slen s + slen t.
Proof. rewrite !slen_bytes, bytes_of_app, length_app. lia. Qed.

(** A string with a prefix of at least the length of [s] in common starts with [s]. *)
Lemma append_prefix s t b rest :
  b +:+ rest = s +:+ t -> slen s <= slen b -> exists u, b = s +:+ u /\ u +:+ rest = t.
Proof.
  rewrite !slen_bytes. intros H Hl. apply (f_equal bytes_of) in H. rewrite !bytes_of_app in H.
  exists (of_bytes (drop (length (bytes_of s)) (bytes_of b))).
  assert (take (length (bytes_of s)) (bytes_of b) = bytes_of s) as Ht.
  { apply (f_equal (take (length (bytes_of s)))) in H. rewrite take_app_le in H by lia.
    by rewrite take_app_length in H. }
  split; apply bytes_of_inj; rewrite bytes_of_app, bytes_of_of_bytes.
  - rewrite <- Ht at 1. by rewrite take_drop.
  - apply (f_equal (drop (length (bytes_of s)))) in H. rewrite drop_app_le in H by lia.
    by rewrite drop_app_length in H.
Qed.
(** Edits at the seams of a concatenation. *)
Lemma str_insert_app s t u : str_insert (s +:+ u) (slen s) t = s +:+ t +:+ u.
Proof.
  apply bytes_of_inj. unfold str_insert. rewrite bytes_of_of_bytes, !bytes_of_app, slen_bytes, Nat2Z.id.
  by rewrite take_app_length, drop_app_length.
Qed.
Lemma str_erase_app s t u : str_erase (s +:+ t +:+ u) (slen s) (slen t) = s +:+ u.
Proof.
  apply bytes_of_inj. unfold str_erase. rewrite bytes_of_of_bytes, !bytes_of_app, !slen_bytes, !Nat2Z.id.
  rewrite take_app_length, drop_app_ge by lia. by rewrite (drop_app_length' _ _ (_ - _)) by lia.
Qed.
Lemma str_mid_app s t : str_mid (s +:+ t) 0 (slen s) = s.
Proof.
  apply bytes_of_inj. unfold str_mid. rewrite bytes_of_of_bytes, bytes_of_app, drop_0, slen_bytes, Nat2Z.id.
  apply take_app_length.
Qed.
#[export] Hint Rewrite bytes_of_of_bytes of_bytes_bytes_of slen_empty bytes_of_app : collab.
#[export] Hint Resolve slen_nonneg : collab.

(** Two byte strings are equal when they agree at every offset. *)
Lemma string_eq_lookup s t : (forall i, bytes_of s !! i = bytes_of t !! i) -> s = t.
Proof. intros H. apply bytes_of_inj, list_eq, H. Qed.

Lemma lookup_str_insert s pos t i :
  (0 <= pos <= slen s)%Z ->
  bytes_of (str_insert s pos t) !! i =
    if (Z.of_nat i <? pos)%Z then bytes_of s !! i
    else if (Z.of_nat i <? pos + slen t)%Z then bytes_of t !! (i - Z.to_nat pos)%nat
    else bytes_of s !! Z.to_nat (Z.of_nat i - slen t).
Proof.
  rewrite !slen_bytes. intros Hp. unfold str_insert. autorewrite with collab.
  destruct (Z.ltb_spec (Z.of_nat i) pos); [|destruct (Z.ltb_spec (Z.of_nat i) (pos + Z.of_nat (length (bytes_of t))))].
  - rewrite lookup_app_l by (rewrite length_take; lia). apply lookup_take_lt. lia.
  - rewrite lookup_app_r by (rewrite length_take; lia).
    rewrite length_take, lookup_app_l by lia. f_equal. lia.
  - rewrite lookup_app_r by (rewrite length_take; lia).
    rewrite length_take, lookup_app_r by lia. rewrite lookup_drop. f_equal. lia.
Qed.

Lemma lookup_str_erase s pos n i :
  (0 <= pos)%Z -> (0 <= n)%Z -> (pos + n <= slen s)%Z ->
  bytes_of (str_erase s pos n) !! i =
    if (Z.of_nat i <? pos)%Z then bytes_of s !! i
    else bytes_of s !! Z.to_nat (Z.of_nat i + n).
Proof.
  rewrite slen_bytes. intros Hp Hn Hb. unfold str_erase. autorewrite with collab.
  destruct (Z.ltb_spec (Z.of_nat i) pos).
  - rewrite lookup_app_l by (rewrite length_take; lia). apply lookup_take_lt. lia.
  - rewrite lookup_app_r by (rewrite length_take; lia).
    rewrite length_take, lookup_drop. f_equal. lia.
Qed.

Lemma slen_str_insert s pos t :
  (0 <= pos <= slen s)%Z -> slen (str_insert s pos t) = (slen s + slen t)%Z.
Proof.
  rewrite !slen_bytes. intros. unfold str_insert. autorewrite with collab.
  rewrite !length_app, length_take, length_drop. lia.
Qed.
Lemma slen_str_erase s pos n :
  (0 <= pos)%Z -> (0 <= n)%Z -> (pos + n <= slen s)%Z ->
  slen (str_erase s pos n) = (slen s - n)%Z.
Proof.
  rewrite !slen_bytes. intros. unfold str_erase. autorewrite with collab.
  rewrite !length_app, length_take, length_drop. lia.
Qed.
Lemma str_insert_empty s pos : str_insert s pos "" = s.
Proof.
  apply bytes_of_inj. unfold str_insert. autorewrite with collab. cbn. apply take_drop.
Qed.
Lemma str_erase_zero s pos : str_erase s pos 0 = s.
Proof.
  apply bytes_of_inj. unfold str_erase. autorewrite with collab.
  rewrite Nat.add_0_r. apply take_drop.
Qed.
#[export] Hint Rewrite str_insert_empty str_erase_zero : collab.


(** ** Commuting edits

    [by_offset] proves an equation between edited strings by comparing the byte
    found at every offset. *)
Ltac side_lia :=
  repeat first [ rewrite slen_str_insert by side_lia | rewrite slen_str_erase by side_lia ];
  lia.
Ltac by_offset :=
  apply string_eq_lookup; intros i;
  repeat first [ rewrite lookup_str_insert by side_lia | rewrite lookup_str_erase by side_lia ];
  zcases; try lia; try (f_equal; lia);
  repeat first [ rewrite lookup_str_insert by side_lia | rewrite lookup_str_erase by side_lia ];
  zcases; try lia; try (f_equal; lia).

Section Commute.
Context (d t u : string) (p q m n : Z).
Hypothesis (Hp : 0 <= p) (Hq : 0 <= q) (Hm : 0 <= m) (Hn : 0 <= n).

Lemma insert_insert_comm :
  p <= q <= slen d ->
  str_insert (str_insert d p t) (q + slen t) u = str_insert (str_insert d q u) p t.
Proof. pose proof (slen_nonneg t); pose proof (slen_nonneg u). intros. by_offset. Qed.

Lemma erase_insert_left :
  p <= q -> q + n <= slen d ->
  str_erase (str_insert d p t) (q + slen t) n = str_insert (str_erase d q n) p t.
Proof. pose proof (slen_nonneg t). intros. by_offset. Qed.

Lemma erase_insert_right :
  q + n <= p <= slen d ->
  str_erase (str_insert d p t) q n = str_insert (str_erase d q n) (p - n) t.
Proof. pose proof (slen_nonneg t). intros. by_offset. Qed.

Lemma erase_insert_inside :
  q <= p <= q + n -> q + n <= slen d ->
  str_erase (str_insert d p t) q (n + slen t) = str_erase d q n.
Proof. pose proof (slen_nonneg t). intros. by_offset. Qed.

Lemma erase_erase_disjoint :
  p + m <= q -> q + n <= slen d ->
  str_erase (str_erase d p m) (q - m) n = str_erase (str_erase d q n) p m.
Proof. intros. by_offset. Qed.

Lemma erase_erase_overlap (o := Z.min (p + m) (q + n) - Z.max p q) :
  0 <= o -> p + m <= slen d -> q + n <= slen d ->
  str_erase (str_erase d p m) (Z.min p q) (n - o)
  = str_erase (str_erase d q n) (Z.min p q) (m - o).
Proof. subst o. intros. by_offset. Qed.
End Commute.

Lemma str_insert_insert_same d p t u :
  0 <= p <= slen d -> str_insert (str_insert d p t) p u = str_insert d p (u +:+ t).
Proof.
  intros Hp. rewrite slen_bytes in Hp. apply bytes_of_inj. unfold str_insert.
  autorewrite with collab.
  rewrite take_app_le, take_take, drop_app_le by (rewrite length_take; lia).
  rewrite Nat.min_id, (drop_ge (take _ _)) by (rewrite length_take; lia).
  by rewrite <- app_assoc.
Qed.

Lemma str_insert_inj d p t u : str_insert d p t = str_insert d p u -> t = u.
Proof.
  intros H. apply (f_equal bytes_of) in H. unfold str_insert in H. autorewrite with collab in H.
  apply app_inv_head, app_inv_tail in H. by apply bytes_of_inj.
Qed.
