(* ===== verification/Double.v ===== *)
(** * Double precision numbers

    The parts that compute with [double] (the colour of a user in
    server/src/message_handler.cpp, the animation of cursors in
    client/src/editor_widget.cpp) use the Standard Library's specification of binary64
    arithmetic, rounded to nearest even. This file adds the conversions the code uses and
    the model of rounding errors the proofs need. The value of a number is an integer, in
    units of the smallest positive number, [2 ^ -1074]. *)
From Stdlib Require Import SpecFloat.
From S2P Require Import Prelude.
Local Open Scope Z_scope.

Abbreviation double := spec_float.
Abbreviation prec := 53.
Abbreviation emax := 1024.

Definition of_int (n : Z) : double := binary_normalize prec emax n 0 false.
Definition dadd (x y : double) : double := SFadd prec emax x y.
Definition dsub (x y : double) : double := SFsub prec emax x y.
Definition dmul (x y : double) : double := SFmul prec emax x y.
Definition ddiv (x y : double) : double := SFdiv prec emax x y.
Definition dabs (x : double) : double := SFabs x.
Definition dlt (x y : double) : bool := SFltb x y.

(** The literal [n / d]: the nearest number, for [n] and [d] below [2 ^ 53]. *)
Definition literal (n d : Z) : double := ddiv (of_int n) (of_int d).

Definition ulp0 : Z := 2 ^ 1074.
Definition signed (s : bool) (x : Z) : Z := if s then - x else x.
Definition scaled (x : double) : option Z :=
  match x with
  | S754_zero _ => Some 0
  | S754_finite s m e => Some (signed s (Z.pos m * 2 ^ (e + 1074)))
  | _ => None
  end.

(** [std::lround]: to the nearest, halves away from zero; [None] where the result is
    unspecified. *)
Definition lround (x : double) : option Z :=
  v ← scaled x;
  let n := Z.sgn v * ((2 * Z.abs v + ulp0) / (2 * ulp0)) in
  if bool_decide (- 2 ^ 63 <= n < 2 ^ 63) then Some n else None.
(** [static_cast<int>]: [None] where it is undefined. *)
Definition to_int (x : double) : option Z :=
  v ← scaled x;
  let n := Z.quot v ulp0 in
  if bool_decide (- 2 ^ 31 <= n < 2 ^ 31) then Some n else None.
Definition sign (x : double) : bool :=
  match x with S754_zero s | S754_infinity s | S754_finite s _ _ => s | S754_nan => false end.
(** [std::fmod(x, 1.0)], which is exact. *)
Definition fmod1 (x : double) : double :=
  match scaled x with
  | Some v => binary_normalize prec emax (Z.rem v ulp0) (-1074) (sign x)
  | None => S754_nan
  end.

Lemma ulp0_pos : 0 < ulp0.
Proof. by apply Z.pow_pos_nonneg. Qed.

(** ** Shifting and rounding

    [shifted M k r]: the record [r] is [M] shifted right by [k] bits, with the bit and the
    sticky bit that place [M] against the middle. *)
Definition shifted (M k : Z) (r : shr_record) : Prop :=
  0 <= k /\ 0 <= shr_m r /\ 2 ^ k * shr_m r <= M < 2 ^ k * (shr_m r + 1)
  /\ match shr_r r, shr_s r with
     | false, false => M = 2 ^ k * shr_m r
     | false, true => 2 ^ k * shr_m r < M /\ 2 * M < 2 ^ k * (2 * shr_m r + 1)
     | true, false => 2 * M = 2 ^ k * (2 * shr_m r + 1)
     | true, true => 2 ^ k * (2 * shr_m r + 1) < 2 * M
     end.

Lemma shifted_1 M k r : shifted M k r -> shifted M (k + 1) (shr_1 r).
Proof.
  destruct r as [m r s]. intros (Hk & Hm & H1 & H2). cbn in *.
  assert (2 ^ (k + 1) = 2 * 2 ^ k) as Hp by (rewrite Z.pow_add_r by lia; lia).
  assert (0 < 2 ^ k) by (by apply Z.pow_pos_nonneg).
  destruct m as [|p|p]; [|destruct p as [p|p|]|lia]; destruct r, s; unfold shifted; cbn [shr_1 orb shr_m shr_r shr_s] in *;
    rewrite Hp; split_and?; try nia.
Qed.

Lemma shifted_iter p M k r : shifted M k r -> shifted M (k + Z.pos p) (SpecFloat.iter_pos shr_1 p r).
Proof.
  revert k r. induction p as [p IH|p IH|]; intros k r H; cbn [SpecFloat.iter_pos].
  - replace (k + Z.pos p~1) with (k + 1 + Z.pos p + Z.pos p) by lia. by apply IH, IH, shifted_1.
  - replace (k + Z.pos p~0) with (k + Z.pos p + Z.pos p) by lia. by apply IH, IH.
  - by apply shifted_1.
Qed.

(** [shr_fexp] when it shifts to the right, or not at all. *)
Lemma shr_fexp_spec M e :
  0 <= M -> e <= fexp prec emax (Zdigits2 M + e) ->
  let n := fexp prec emax (Zdigits2 M + e) - e in
  exists r, shr_fexp prec emax M e loc_Exact = (r, e + n) /\ shifted M n r.
Proof.
  intros HM Hle n. unfold shr_fexp. fold n. cbn [shr_record_of_loc].
  assert (shifted M 0 (Build_shr_record M false false)) as H0 by (unfold shifted; cbn; lia).
  destruct n as [|p|p] eqn:En; cbn [shr]; [|..].
  - eexists. split; [by rewrite Z.add_0_r|done].
  - eexists. split; [done|]. by apply (shifted_iter p) in H0.
  - unfold n in En. lia.
Qed.

Lemma round_shifted M k r : shifted M k r ->
  let N := round_nearest_even (shr_m r) (loc_of_shr_record r) in
  (N = shr_m r \/ N = shr_m r + 1) /\ - 2 ^ k <= 2 * (2 ^ k * N - M) <= 2 ^ k.
Proof.
  destruct r as [m r s]. intros (Hk & Hm & H1 & H2). cbn in *.
  assert (0 < 2 ^ k) by (by apply Z.pow_pos_nonneg).
  destruct r, s; cbn; try (split; [lia|nia]). destruct (Z.even m); split; lia || nia.
Qed.

Lemma digits_bound (p : positive) :
  let d := Z.pos (digits2_pos p) in 2 ^ (d - 1) <= Z.pos p < 2 ^ d.
Proof.
  induction p as [p IH|p IH|]; cbn [digits2_pos]; [| |lia];
    cbv zeta in *; rewrite Pos2Z.inj_succ;
    replace (Z.succ (Z.pos (digits2_pos p)) - 1) with (Z.succ (Z.pos (digits2_pos p) - 1)) by lia;
    rewrite !Z.pow_succ_r by lia; lia.
Qed.

Lemma digits_unique M d : 0 < d -> 2 ^ (d - 1) <= M < 2 ^ d -> Zdigits2 M = d.
Proof.
  intros Hd H. assert (0 < 2 ^ (d - 1)) by (apply Z.pow_pos_nonneg; lia).
  destruct M as [|p|p]; [lia| |lia]. cbn [Zdigits2]. pose proof (digits_bound p) as B. cbv zeta in B.
  destruct (Z.lt_trichotomy (Z.pos (digits2_pos p)) d) as [C|[C|C]]; [|done|].
  - assert (2 ^ Z.pos (digits2_pos p) <= 2 ^ (d - 1)) by (apply Z.pow_le_mono_r; lia). lia.
  - assert (2 ^ d <= 2 ^ (Z.pos (digits2_pos p) - 1)) by (apply Z.pow_le_mono_r; lia). lia.
Qed.

Lemma digits_le M k : 0 <= k -> 0 <= M < 2 ^ k -> Zdigits2 M <= k.
Proof.
  intros Hk H. destruct M as [|p|p]; [done| |lia]. pose proof (digits_bound p) as B. cbv zeta in B. cbn [Zdigits2].
  apply Z.nlt_ge. intros C. assert (2 ^ k <= 2 ^ (Z.pos (digits2_pos p) - 1)) by (apply Z.pow_le_mono_r; lia). lia.
Qed.

Lemma fexp_max x : fexp prec emax x = Z.max (x - 53) (-1074).
Proof. reflexivity. Qed.

(** A mantissa that fits is not shifted again; one bit too many is shifted out. *)
Lemma shr_fexp_fits N e : -1074 <= e -> 0 <= N < 2 ^ 53 ->
  shr_fexp prec emax N e loc_Exact = (Build_shr_record N false false, e).
Proof.
  intros He HN%digits_le; [|done]. unfold shr_fexp. rewrite fexp_max.
  by destruct (Z.max (Zdigits2 N + e - 53) (-1074) - e) eqn:En; [|lia|].
Qed.
Lemma shr_fexp_over e : -1074 <= e ->
  shr_fexp prec emax (2 ^ 53) e loc_Exact = (Build_shr_record (2 ^ 52) false false, e + 1).
Proof.
  intros He. unfold shr_fexp. rewrite fexp_max.
  by replace (Z.max (Zdigits2 (2 ^ 53) + e - 53) (-1074) - e) with 1 by (change (Zdigits2 (2 ^ 53)) with 54; lia).
Qed.

(** ** Rounding a mantissa

    A number as [binary_round_aux] builds it. *)
Definition make (s : bool) (M e : Z) : double :=
  match M with
  | Z.pos m => if e <=? emax - prec then S754_finite s m e else S754_infinity s
  | _ => S754_zero s
  end.

(** The result is canonical, its exponent [k + e], and it is as near to [m * 2 ^ e] as the
    format allows: the error is half a unit in the last place at most. *)
Record rounds (M e N e' : Z) : Prop := mkRounds {
  rn_exponent : e <= e' /\ -1074 <= e';
  rn_mantissa : 0 <= N < 2 ^ prec;
  rn_canonical : 0 < N -> fexp prec emax (Zdigits2 N + e') = e';
  rn_error : 2 * Z.abs (N * 2 ^ (e' - e) - M) <= 2 ^ (fexp prec emax (Zdigits2 M + e) - e);
  rn_exact : fexp prec emax (Zdigits2 M + e) = e -> N * 2 ^ (e' - e) = M;
}.

Lemma round_aux_spec s (m : positive) e :
  e <= fexp prec emax (Zdigits2 (Z.pos m) + e) ->
  exists N e', binary_round_aux prec emax s (Z.pos m) e loc_Exact = make s N e' /\ rounds (Z.pos m) e N e'.
Proof.
  intros Hle. unfold binary_round_aux.
  destruct (shr_fexp_spec (Z.pos m) e) as (r & E1 & Hr); [lia|done|]. rewrite E1.
  pose proof (digits_bound m) as Bd. cbv zeta in Bd. cbn [Zdigits2] in *.
  set (d := Z.pos (digits2_pos m)) in *. rewrite fexp_max in *.
  set (n := Z.max (d + e - 53) (-1074) - e) in *.
  destruct (round_shifted _ _ _ Hr) as [HN1 HN2].
  set (N := round_nearest_even (shr_m r) (loc_of_shr_record r)) in *.
  destruct Hr as (Hn & Hm0 & Hm & Hrs).
  assert (0 < 2 ^ n) as Hpn by (by apply Z.pow_pos_nonneg).
  assert (shr_m r < 2 ^ 53) as Hm53.
  { assert (2 ^ d <= 2 ^ (n + 53)) by (apply Z.pow_le_mono_r; lia). rewrite Z.pow_add_r in H by lia. nia. }
  assert (n = 0 -> N = Z.pos m) as Hex.
  { intros En. rewrite En in *. cbn in Hm. clear - HN1 HN2 Hm. lia. }
  assert (0 < N -> -1074 < e + n -> 2 ^ 52 <= N) as Hbig.
  { intros _ He. assert (n = d - 53) as En by lia.
    assert (2 ^ (d - 1) = 2 ^ 52 * 2 ^ n) as Ep by (rewrite <- Z.pow_add_r by lia; f_equal; lia).
    assert (2 ^ 52 <= shr_m r) by nia. lia. }
  cbn [Zdigits2]. destruct (Z.eq_dec N (2 ^ 53)) as [E53|N53].
  - (* one more bit *)
    exists (2 ^ 52), (e + n + 1). rewrite E53, shr_fexp_over by lia. split; [reflexivity|].
    split; cbn [Zdigits2]; fold d; rewrite ?fexp_max; fold n.
    + lia.
    + split; [by apply Z.pow_nonneg|by apply Z.pow_lt_mono_r].
    + intros _. change (Zdigits2 (2 ^ 52)) with 53. lia.
    + replace (e + n + 1 - e) with (n + 1) by lia.
      replace (2 ^ 52 * 2 ^ (n + 1)) with (2 ^ n * N); [lia|]. rewrite E53, Z.pow_add_r by lia. lia.
    + intros En. replace (e + n + 1 - e) with 1 by lia. rewrite <- Hex by lia. by rewrite E53.
  - exists N, (e + n). rewrite shr_fexp_fits by lia. split; [destruct N; try done; lia|].
    split; cbn [Zdigits2]; fold d; rewrite ?fexp_max; fold n.
    + lia.
    + lia.
    + intros HNp. destruct (Z.eq_dec (e + n) (-1074)) as [E0|E0].
      * assert (Zdigits2 N <= 53) by (apply digits_le; lia). lia.
      * rewrite (digits_unique N 53); [lia|lia|]. split; [apply Hbig; lia|lia].
    + replace (e + n - e) with n by lia. lia.
    + intros En. replace (e + n - e) with 0 by lia. rewrite Hex by lia. lia.
Qed.

(** ** Values and errors *)

(** A number that is not infinite and has the mantissa and exponent of its format. *)
Definition valid (x : double) : Prop :=
  match x with
  | S754_zero _ => True
  | S754_finite _ m e => fexp prec emax (Zdigits2 (Z.pos m) + e) = e /\ e <= emax - prec
  | _ => False
  end.
Definition value (x : double) : Z := default 0 (scaled x).

(** [r] is [w] rounded, [w] in units of [2 ^ -2148]: a relative error of [2 ^ -53], or half
    of the smallest number. *)
Record approx (r : double) (w : Z) : Prop := mkApprox {
  ap_valid : valid r;
  ap_error : 2 ^ 53 * Z.abs (value r * ulp0 - w) <= Z.abs w + 2 ^ 52 * ulp0;
  ap_sign : (0 <= w -> 0 <= value r) /\ (w <= 0 -> value r <= 0);
}.

Lemma make_value s N e' : 0 <= N -> -1074 <= e' -> valid (make s N e') ->
  value (make s N e') * ulp0 = signed s (N * 2 ^ (e' + 2148)).
Proof.
  intros HN He' Hv. destruct N as [|q|q]; [by destruct s| |lia]. cbn [make] in *.
  destruct (e' <=? emax - prec); [|done]. change (value _) with (signed s (Z.pos q * 2 ^ (e' + 1074))).
  replace (e' + 2148) with (e' + 1074 + 1074) by lia. rewrite (Z.pow_add_r 2 (e' + 1074) 1074) by lia.
  change (2 ^ 1074) with ulp0. generalize (2 ^ (e' + 1074)), ulp0. intros. destruct s; unfold signed; lia.
Qed.

Lemma make_approx s M e N e' :
  0 < M -> -2148 <= e -> M * 2 ^ (e + 2148) <= 2 ^ 3148 -> rounds M e N e' ->
  approx (make s N e') (signed s (M * 2 ^ (e + 2148))).
Proof.
  intros HM He HW [[H1 H2] H3 H4 H5 _].
  set (W := M * 2 ^ (e + 2148)) in *. set (P := 2 ^ (e + 2148)) in *.
  assert (0 < P) as HP by (apply Z.pow_pos_nonneg; lia).
  assert (N * 2 ^ (e' + 2148) = N * 2 ^ (e' - e) * P) as EN.
  { unfold P. rewrite <- Z.mul_assoc, <- Z.pow_add_r by lia. do 2 f_equal. lia. }
  assert (2 ^ 53 * Z.abs (N * 2 ^ (e' + 2148) - W) <= W + 2 ^ 52 * ulp0) as Herr.
  { rewrite EN. unfold W. rewrite <- Z.mul_sub_distr_r, Z.abs_mul, (Z.abs_eq P) by lia.
    rewrite fexp_max in H5. destruct M as [|m|m]; [lia| |lia]. cbn [Zdigits2] in H5.
    pose proof (digits_bound m) as Bd. cbv zeta in Bd. set (d := Z.pos (digits2_pos m)) in *.
    set (D := Z.abs (N * 2 ^ (e' - e) - Z.pos m)) in *.
    destruct (Z.le_gt_cases (-1074) (d + e - 53)) as [C|C].
    - rewrite Z.max_l in H5 by lia. replace (d + e - 53 - e) with (d - 53) in H5 by lia.
      destruct (Z.le_gt_cases 53 d) as [C'|C'].
      + assert (2 ^ (d - 1) = 2 ^ 52 * 2 ^ (d - 53)) by (rewrite <- Z.pow_add_r by lia; f_equal; lia).
        assert (2 ^ 53 * D <= Z.pos m) by lia. pose proof ulp0_pos. nia.
      + rewrite (Z.pow_neg_r 2 (d - 53)) in H5 by lia. pose proof ulp0_pos. assert (D = 0) by lia. nia.
    - rewrite Z.max_r in H5 by lia. destruct (Z.le_gt_cases e (-1074)) as [C'|C'].
      + assert (2 ^ (-1074 - e) * P = ulp0) by (unfold P, ulp0; rewrite <- Z.pow_add_r by lia; f_equal; lia). nia.
      + rewrite (Z.pow_neg_r 2 (-1074 - e)) in H5 by lia. pose proof ulp0_pos. assert (D = 0) by lia. nia. }
  clearbody W P.
  assert (0 < N -> e' <= emax - prec) as Hov.
  { intros HN0. apply Z.nlt_ge. intros C. specialize (H4 HN0). rewrite fexp_max in H4.
    assert (Zdigits2 N = 53) as E53 by lia. destruct N as [|q|q]; [lia| |lia]. pose proof (digits_bound q) as B.
    cbv zeta in B. cbn [Zdigits2] in E53. rewrite E53 in B. cbn [Z.sub] in B.
    assert (2 ^ 3172 <= Z.pos q * 2 ^ (e' + 2148)) as C1.
    { replace 3172 with (52 + 3120) by lia. rewrite Z.pow_add_r by lia.
      assert (2 ^ 3120 <= 2 ^ (e' + 2148)) by (apply Z.pow_le_mono_r; lia).
      apply Z.mul_le_mono_nonneg; [by apply Z.pow_nonneg|apply B|by apply Z.pow_nonneg|done]. }
    assert (2 ^ 52 * ulp0 <= 2 ^ 3148) as C2.
    { unfold ulp0. rewrite <- Z.pow_add_r by lia. by apply Z.pow_le_mono_r. }
    assert (2 ^ 3172 = 2 ^ 24 * 2 ^ 3148) as C3 by (rewrite <- Z.pow_add_r by lia; f_equal).
    assert (0 < 2 ^ 3148) as C4 by (by apply Z.pow_pos_nonneg).
    revert C1 C2 C3 C4 Herr HW. clear. generalize (Z.pos q * 2 ^ (e' + 2148)), (2 ^ 52 * ulp0), (2 ^ 3148), (2 ^ 3172). lia. }
  assert (valid (make s N e')) as Hv.
  { destruct N as [|q|q]; [by destruct s| |lia]. cbn [make]. rewrite (proj2 (Z.leb_le _ _)) by (apply Hov; lia).
    split; [by apply H4|apply Hov; lia]. }
  pose proof (make_value s N e' ltac:(lia) H2 Hv) as Hval.
  assert (0 <= N * 2 ^ (e' + 2148)) by (apply Z.mul_nonneg_nonneg; [lia|by apply Z.pow_nonneg]).
  pose proof ulp0_pos.
  split; [done| |]; rewrite ?Hval.
  - destruct s; cbn [signed]; lia.
  - destruct s; cbn [signed] in *; split; intros; nia.
Qed.

Lemma iter_xO m p : Z.pos (Pos.iter xO m p) = Z.pos m * 2 ^ Z.pos p.
Proof.
  induction p as [|p IH] using Pos.peano_ind; [change (Z.pos m~0 = Z.pos m * 2); lia|].
  rewrite Pos.iter_succ, Pos2Z.inj_succ, Z.pow_succ_r by lia. lia.
Qed.

Lemma digits_pow M k : 0 < M -> 0 <= k -> Zdigits2 (M * 2 ^ k) = Zdigits2 M + k.
Proof.
  intros HM Hk. destruct M as [|m|m]; [lia| |lia]. pose proof (digits_bound m) as B. cbv zeta in B. cbn [Zdigits2].
  apply digits_unique; [lia|].
  replace (Z.pos (digits2_pos m) + k - 1) with (Z.pos (digits2_pos m) - 1 + k) by lia.
  rewrite !Z.pow_add_r by lia. assert (0 < 2 ^ k) by (by apply Z.pow_pos_nonneg). nia.
Qed.

(** [binary_round], exact when the mantissa fits. *)
Lemma binary_round_spec s (m : positive) e :
  -2148 <= e -> Z.pos m * 2 ^ (e + 2148) <= 2 ^ 3148 ->
  approx (binary_round prec emax s m e) (signed s (Z.pos m * 2 ^ (e + 2148)))
  /\ (-1074 <= e -> Z.pos m < 2 ^ 53 ->
      value (binary_round prec emax s m e) * ulp0 = signed s (Z.pos m * 2 ^ (e + 2148))).
Proof.
  intros He HW. unfold binary_round. change (Z.pos (digits2_pos m)) with (Zdigits2 (Z.pos m)).
  set (ex := fexp prec emax (Zdigits2 (Z.pos m) + e)).
  assert (exists mz ez, shl_align m e ex = (mz, ez) /\ -2148 <= ez
            /\ Z.pos mz * 2 ^ (ez + 2148) = Z.pos m * 2 ^ (e + 2148)
            /\ ez <= fexp prec emax (Zdigits2 (Z.pos mz) + ez)
            /\ (-1074 <= e -> Z.pos m < 2 ^ 53 -> fexp prec emax (Zdigits2 (Z.pos mz) + ez) = ez))
    as (mz & ez & Ea & Hez & Em & Hle & Hex).
  { unfold shl_align. destruct (ex - e) as [|p|p] eqn:Ed.
    - exists m, e. fold ex. split_and!; [done|done|done|lia|lia].
    - exists m, e. fold ex. split_and!; [done|done|done|lia|]. intros He' Hm.
      assert (Zdigits2 (Z.pos m) <= 53) by (apply digits_le; lia). unfold ex in Ed. rewrite fexp_max in Ed. lia.
    - assert (e = ex + Z.pos p) as Ee by lia.
      assert (fexp prec emax (Zdigits2 (Z.pos (Pos.iter xO m p)) + ex) = ex) as Ef.
      { rewrite iter_xO, digits_pow by lia. unfold ex at 2. f_equal. lia. }
      exists (Pos.iter xO m p), ex. rewrite Ef. split_and!; [done| | |lia|done].
      + unfold ex. rewrite fexp_max. lia.
      + assert (-1074 <= ex) by (unfold ex; rewrite fexp_max; lia).
        rewrite iter_xO, <- Z.mul_assoc, <- Z.pow_add_r by lia. do 2 f_equal. lia. }
  rewrite Ea. destruct (round_aux_spec s mz ez Hle) as (N & e' & -> & Hr). split.
  - rewrite <- Em. apply make_approx; [lia|done|by rewrite Em|done].
  - intros He' Hm. pose proof (rn_exact _ _ _ _ Hr (Hex He' Hm)) as Hx.
    rewrite <- Em, make_value; [|apply Hr|apply Hr|].
    + pose proof (rn_exponent _ _ _ _ Hr) as [Hx1 Hx2]. f_equal.
      rewrite <- Hx, <- Z.mul_assoc, <- Z.pow_add_r by lia. do 2 f_equal. lia.
    + apply (ap_valid _ (signed s (Z.pos mz * 2 ^ (ez + 2148)))), make_approx; [lia|done|by rewrite Em|done].
Qed.
