(* ===== verification/DoubleError.v ===== *)
(** * Rounding errors of the operations

    The error model of Double.v for addition, subtraction, multiplication and comparison
    of finite numbers, the exactness of integers, and what the conversions give. *)
From Stdlib Require Import SpecFloat.
From S2P Require Import Prelude Double.
Local Open Scope Z_scope.

Lemma normalize_spec M e z :
  -2148 <= e -> Z.abs M * 2 ^ (e + 2148) <= 2 ^ 3148 ->
  approx (binary_normalize prec emax M e z) (M * 2 ^ (e + 2148))
  /\ (-1074 <= e -> Z.abs M < 2 ^ 53 ->
      value (binary_normalize prec emax M e z) * ulp0 = M * 2 ^ (e + 2148)).
Proof.
  intros He HW. destruct M as [|m|m]; cbn [binary_normalize Z.abs] in *.
  - split; [|done]. pose proof ulp0_pos. split; [done| |done]. change (value _) with 0. lia.
  - by apply (binary_round_spec false).
  - destruct (binary_round_spec true m e He HW) as [H1 H2]. cbn [signed] in *.
    rewrite <- Pos2Z.opp_pos, Z.mul_opp_l. done.
Qed.

Lemma valid_exponent s m e : valid (S754_finite s m e) -> -1074 <= e.
Proof. intros [H _]. rewrite fexp_max in H. lia. Qed.

Lemma value_finite s m e : value (S754_finite s m e) = signed s (Z.pos m * 2 ^ (e + 1074)).
Proof. reflexivity. Qed.

Lemma value_zero s : value (S754_zero s) = 0.
Proof. reflexivity. Qed.

Lemma shl_align_spec m e ez : ez <= e -> Z.pos (fst (shl_align m e ez)) = Z.pos m * 2 ^ (e - ez).
Proof.
  intros H. unfold shl_align. destruct (ez - e) as [|p|p] eqn:E; cbn [fst].
  - replace (e - ez) with 0 by lia. lia.
  - lia.
  - rewrite iter_xO. do 2 f_equal. lia.
Qed.

(** Both operations are this one on finite numbers. *)
Lemma sum_spec sx mx ex sy my ey :
  let ez := Z.min ex ey in
  let M := signed sx (Z.pos (fst (shl_align mx ex ez))) + signed sy (Z.pos (fst (shl_align my ey ez))) in
  -1074 <= ex -> -1074 <= ey ->
  M * 2 ^ (ez + 2148) = (signed sx (Z.pos mx * 2 ^ (ex + 1074)) + signed sy (Z.pos my * 2 ^ (ey + 1074))) * ulp0.
Proof.
  intros ez M Hx Hy. unfold M. rewrite !shl_align_spec by lia.
  assert (forall s m e, ez <= e -> signed s (Z.pos m * 2 ^ (e - ez)) * 2 ^ (ez + 2148)
            = signed s (Z.pos m * 2 ^ (e + 1074)) * ulp0) as H.
  { intros s m e He. assert (2 ^ (e - ez) * 2 ^ (ez + 2148) = 2 ^ (e + 1074) * ulp0) as E
      by (unfold ulp0; rewrite <- !Z.pow_add_r by lia; f_equal; lia).
    revert E. generalize (2 ^ (e - ez)), (2 ^ (ez + 2148)), (2 ^ (e + 1074)), ulp0. intros. destruct s; cbn [signed]; nia. }
  rewrite !Z.mul_add_distr_r, !H by lia. done.
Qed.

Definition bound : Z := 2 ^ 1000 * ulp0.

Lemma bound_scale M e v : M * 2 ^ (e + 2148) = v * ulp0 -> Z.abs v <= bound -> Z.abs M * 2 ^ (e + 2148) <= 2 ^ 3148.
Proof.
  intros E Hv. replace (Z.abs M * 2 ^ (e + 2148)) with (Z.abs v * ulp0).
  - replace (2 ^ 3148) with (bound * ulp0) by (unfold bound, ulp0; rewrite <- !Z.pow_add_r by lia; done).
    pose proof ulp0_pos. nia.
  - assert (0 <= 2 ^ (e + 2148)) by (by apply Z.pow_nonneg). pose proof ulp0_pos. 
    rewrite <- (Z.abs_eq (2 ^ (e + 2148))), <- (Z.abs_eq ulp0), <- !Z.abs_mul by lia. by rewrite E.
Qed.

Lemma sum_approx sx mx ex sy my ey :
  let ez := Z.min ex ey in
  let M := signed sx (Z.pos (fst (shl_align mx ex ez))) + signed sy (Z.pos (fst (shl_align my ey ez))) in
  let v := signed sx (Z.pos mx * 2 ^ (ex + 1074)) + signed sy (Z.pos my * 2 ^ (ey + 1074)) in
  -1074 <= ex -> -1074 <= ey -> Z.abs v <= bound ->
  approx (binary_normalize prec emax M ez false) (v * ulp0).
Proof.
  intros ez M v Hx Hy Hv. pose proof (sum_spec sx mx ex sy my ey Hx Hy) as E. cbv zeta in E. fold ez M v in E.
  rewrite <- E. apply normalize_spec; [lia|]. by apply (bound_scale _ _ v).
Qed.

Lemma approx_exact x : valid x -> approx x (value x * ulp0).
Proof. intros H. pose proof ulp0_pos. split; [done| |nia]. rewrite Z.sub_diag. lia. Qed.

Lemma dadd_spec x y : valid x -> valid y -> Z.abs (value x + value y) <= bound ->
  approx (dadd x y) ((value x + value y) * ulp0).
Proof.
  intros Hx Hy Hb. destruct x as [sx|sx| |sx mx ex], y as [sy|sy| |sy my ey]; try done; unfold dadd; cbn [SFadd].
  - destruct sx, sy; (by apply (approx_exact (S754_zero false))) || by apply (approx_exact (S754_zero true)).
  - rewrite Z.add_0_l. by apply approx_exact.
  - rewrite Z.add_0_r. by apply approx_exact.
  - rewrite !value_finite in *. apply (sum_approx sx mx ex sy my ey); [by eapply valid_exponent..|done].
Qed.

Lemma dsub_spec x y : valid x -> valid y -> Z.abs (value x - value y) <= bound ->
  approx (dsub x y) ((value x - value y) * ulp0).
Proof.
  intros Hx Hy Hb.
  assert (value (SFopp y) = - value y /\ valid (SFopp y)) as [E1 E2].
  { destruct y as [| | |s m e]; try done. cbn [SFopp]. rewrite !value_finite. split; [|done].
    generalize (Z.pos m * 2 ^ (e + 1074)). intros. destruct s; cbn; lia. }
  assert (dsub x y = dadd x (SFopp y)) as ->.
  { destruct x as [sx|sx| |sx mx ex], y as [sy|sy| |sy my ey]; try done; unfold dsub, dadd; cbn [SFadd SFsub SFopp];
      [by destruct sx, sy|]. f_equal. destruct sy; cbn [cond_Zopp negb]; lia. }
  replace (value x - value y) with (value x + value (SFopp y)) in * by lia. by apply dadd_spec.
Qed.

Lemma digits_ge M k : 2 ^ (k - 1) <= M -> 0 < M -> k <= Zdigits2 M.
Proof.
  intros H HM. destruct M as [|m|m]; [lia| |lia]. pose proof (digits_bound m) as B. cbv zeta in B. cbn [Zdigits2].
  apply Z.nlt_ge. intros C. assert (2 ^ Z.pos (digits2_pos m) <= 2 ^ (k - 1)) by (apply Z.pow_le_mono_r; lia). lia.
Qed.

Lemma dmul_spec x y : valid x -> valid y -> Z.abs (value x * value y) <= 2 ^ 3148 ->
  approx (dmul x y) (value x * value y).
Proof.
  intros Hx Hy Hb. pose proof ulp0_pos.
  destruct x as [sx|sx| |sx mx ex], y as [sy|sy| |sy my ey]; try done; unfold dmul; cbn [SFmul].
  1: replace (value _ * value _) with (value (S754_zero (xorb sx sy)) * ulp0) by (rewrite !value_zero; lia);
    by apply approx_exact.
  pose proof (valid_exponent _ _ _ Hx) as Hex. pose proof (valid_exponent _ _ _ Hy) as Hey.
  destruct Hx as [Cx _], Hy as [Cy _]. rewrite !value_finite in *.
  assert (Z.pos (mx * my) * 2 ^ (ex + ey + 2148) = (Z.pos mx * 2 ^ (ex + 1074)) * (Z.pos my * 2 ^ (ey + 1074))) as Em.
  { replace (ex + ey + 2148) with (ex + 1074 + (ey + 1074)) by lia. rewrite Z.pow_add_r, Pos2Z.inj_mul by lia. lia. }
  assert (signed sx (Z.pos mx * 2 ^ (ex + 1074)) * signed sy (Z.pos my * 2 ^ (ey + 1074))
          = signed (xorb sx sy) (Z.pos (mx * my) * 2 ^ (ex + ey + 2148))) as Es.
  { rewrite Em. generalize (Z.pos mx * 2 ^ (ex + 1074)), (Z.pos my * 2 ^ (ey + 1074)). intros. destruct sx, sy; cbn [signed xorb]; lia. }
  rewrite Es in *.
  assert (ex + ey <= fexp prec emax (Zdigits2 (Z.pos (mx * my)) + (ex + ey))) as Hle.
  { rewrite fexp_max in *.
    assert (Zdigits2 (Z.pos mx) <= Zdigits2 (Z.pos (mx * my))).
    { apply digits_ge; [|lia]. pose proof (digits_bound mx) as B. cbv zeta in B. cbn [Zdigits2]. rewrite Pos2Z.inj_mul. nia. }
    assert (Zdigits2 (Z.pos my) <= Zdigits2 (Z.pos (mx * my))).
    { apply digits_ge; [|lia]. pose proof (digits_bound my) as B. cbv zeta in B. cbn [Zdigits2]. rewrite Pos2Z.inj_mul. nia. }
    lia. }
  destruct (round_aux_spec (xorb sx sy) (mx * my) (ex + ey) Hle) as (N & e' & -> & Hr).
  apply (make_approx _ (Z.pos (mx * my))); [lia|lia| |done].
  assert (0 <= Z.pos (mx * my) * 2 ^ (ex + ey + 2148)) by (apply Z.mul_nonneg_nonneg; [lia|by apply Z.pow_nonneg]).
  destruct (xorb sx sy); cbn [signed] in Hb; lia.
Qed.

Lemma dmul_comm x y : dmul x y = dmul y x.
Proof.
  destruct x as [sx|sx| |sx mx ex], y as [sy|sy| |sy my ey]; unfold dmul; cbn [SFmul];
    rewrite ?(xorb_comm sx), ?(Pos.mul_comm mx), ?(Z.add_comm ex); reflexivity.
Qed.

(** ** Comparison *)

Lemma smaller_exponent m1 e1 m2 e2 :
  fexp prec emax (Zdigits2 (Z.pos m1) + e1) = e1 -> fexp prec emax (Zdigits2 (Z.pos m2) + e2) = e2 -> e1 < e2 ->
  Z.pos m1 * 2 ^ (e1 + 1074) < Z.pos m2 * 2 ^ (e2 + 1074).
Proof.
  rewrite !fexp_max. cbn [Zdigits2]. intros H1 H2 Hlt. assert (-1074 <= e1) by lia.
  pose proof (digits_bound m1) as B1. pose proof (digits_bound m2) as B2. cbv zeta in B1, B2.
  assert (Z.pos (digits2_pos m2) = 53) as E2 by lia. rewrite E2 in B2. cbn [Z.sub] in B2.
  assert (Z.pos m1 < 2 ^ 53).
  { assert (2 ^ Z.pos (digits2_pos m1) <= 2 ^ 53) by (apply Z.pow_le_mono_r; lia). lia. }
  assert (2 ^ (e1 + 1074) * 2 <= 2 ^ (e2 + 1074)).
  { replace (2 ^ (e1 + 1074) * 2) with (2 ^ (e1 + 1074 + 1)) by (rewrite Z.pow_add_r by lia; lia).
    apply Z.pow_le_mono_r; lia. }
  assert (0 < 2 ^ (e1 + 1074)) by (apply Z.pow_pos_nonneg; lia). nia.
Qed.

Lemma compare_mantissa m1 e1 m2 e2 :
  fexp prec emax (Zdigits2 (Z.pos m1) + e1) = e1 -> fexp prec emax (Zdigits2 (Z.pos m2) + e2) = e2 ->
  match e1 ?= e2 with Lt => Lt | Gt => Gt | Eq => Pos.compare_cont Eq m1 m2 end
  = (Z.pos m1 * 2 ^ (e1 + 1074) ?= Z.pos m2 * 2 ^ (e2 + 1074)).
Proof.
  intros H1 H2. destruct (Z.compare_spec e1 e2) as [->|C|C].
  - assert (-1074 <= e2) by (rewrite fexp_max in H2; lia).
    rewrite <- Zmult_compare_compat_r; [done|]. apply Z.lt_gt, Z.pow_pos_nonneg; lia.
  - symmetry. by apply Z.compare_lt_iff, smaller_exponent.
  - symmetry. by apply Z.compare_gt_iff, smaller_exponent.
Qed.

Lemma dlt_spec x y : valid x -> valid y -> dlt x y = (value x <? value y).
Proof.
  intros Hx Hy.
  assert (SFcompare x y = Some (value x ?= value y)) as E.
  { assert (forall m e, fexp prec emax (Zdigits2 (Z.pos m) + e) = e -> 0 < Z.pos m * 2 ^ (e + 1074)) as Hp.
    { intros m e H. rewrite fexp_max in H. apply Z.mul_pos_pos; [lia|apply Z.pow_pos_nonneg; lia]. }
    destruct x as [sx|sx| |sx mx ex], y as [sy|sy| |sy my ey]; try done; cbn [SFcompare]; rewrite ?value_finite, ?value_zero.
    - destruct Hy as [Hy _]. specialize (Hp _ _ Hy). f_equal. symmetry.
      destruct sy; cbn [signed]; [apply Z.compare_gt_iff|apply Z.compare_lt_iff]; lia.
    - destruct Hx as [Hx _]. specialize (Hp _ _ Hx). f_equal. symmetry.
      destruct sx; cbn [signed]; [apply Z.compare_lt_iff|apply Z.compare_gt_iff]; lia.
    - destruct Hx as [Hx _], Hy as [Hy _]. pose proof (Hp _ _ Hx). pose proof (Hp _ _ Hy).
      pose proof (compare_mantissa mx ex my ey Hx Hy) as C. f_equal.
      destruct sx, sy; cbn [signed].
      + rewrite Z.compare_opp, (Z.compare_antisym (Z.pos mx * _)), <- C. by destruct (ex ?= ey).
      + symmetry. apply Z.compare_lt_iff. lia.
      + symmetry. apply Z.compare_gt_iff. lia.
      + exact C. }
  unfold dlt, SFltb. rewrite E. unfold Z.ltb. by destruct (value x ?= value y).
Qed.

Lemma dabs_spec x : valid x -> valid (dabs x) /\ value (dabs x) = Z.abs (value x).
Proof.
  destruct x as [| | |s m e]; try done. intros Hx. split; [done|]. unfold dabs. cbn [SFabs].
  pose proof (valid_exponent _ _ _ Hx). rewrite !value_finite.
  assert (0 <= Z.pos m * 2 ^ (e + 1074)) by (apply Z.mul_nonneg_nonneg; [lia|by apply Z.pow_nonneg]).
  destruct s; cbn [signed]; lia.
Qed.

(** ** Conversions *)

Lemma scaled_value x : valid x -> scaled x = Some (value x).
Proof. by destruct x. Qed.

Lemma of_int_spec n : Z.abs n < 2 ^ 53 -> valid (of_int n) /\ value (of_int n) = n * ulp0.
Proof.
  intros Hn. pose proof ulp0_pos as Hu.
  assert (2 ^ (0 + 2148) = ulp0 * ulp0) as E2 by (unfold ulp0; rewrite <- Z.pow_add_r by lia; done).
  destruct (normalize_spec n 0 false) as [H1 H2]; [lia| |].
  - apply (bound_scale n 0 (n * ulp0)); [rewrite E2; lia|]. unfold bound.
    rewrite Z.abs_mul, (Z.abs_eq ulp0) by lia. apply Z.mul_le_mono_nonneg_r; [lia|].
    transitivity (2 ^ 53); [lia|by apply Z.pow_le_mono_r].
  - split; [apply H1|]. specialize (H2 ltac:(lia) Hn). rewrite E2, Z.mul_assoc in H2.
    apply Z.mul_cancel_r in H2; [done|lia].
Qed.

Lemma lround_spec x n : valid x -> value x = n * ulp0 -> - 2 ^ 63 <= n < 2 ^ 63 -> lround x = Some n.
Proof.
  intros Hx Hv Hn. unfold lround. rewrite scaled_value, Hv by done. cbn [mbind option_bind]. pose proof ulp0_pos.
  assert (Z.sgn (n * ulp0) * ((2 * Z.abs (n * ulp0) + ulp0) / (2 * ulp0)) = n) as ->.
  { rewrite Z.abs_mul, (Z.abs_eq ulp0), Z.sgn_mul, (Z.sgn_pos ulp0), Z.mul_1_r by lia.
    replace ((2 * (Z.abs n * ulp0) + ulp0) / (2 * ulp0)) with (Z.abs n); [by rewrite Z.mul_comm, Z.abs_sgn|].
    apply (Z.div_unique_pos _ _ _ ulp0); lia. }
  by rewrite bool_decide_true.
Qed.

Lemma to_int_spec x k : valid x -> 0 <= value x < k * ulp0 -> k <= 2 ^ 31 -> exists n, to_int x = Some n /\ 0 <= n < k.
Proof.
  intros Hx Hv Hk. unfold to_int. rewrite scaled_value by done. cbn [mbind option_bind]. pose proof ulp0_pos.
  rewrite Z.quot_div_nonneg by lia.
  assert (0 <= value x / ulp0 < k) by (split; [apply Z.div_pos; lia|apply Z.div_lt_upper_bound; lia]).
  exists (value x / ulp0). split; [|done]. rewrite bool_decide_true; [done|lia].
Qed.

(** Deciding validity, for constants. *)
Definition is_valid (x : double) : bool :=
  match x with
  | S754_zero _ => true
  | S754_finite _ m e => (fexp prec emax (Zdigits2 (Z.pos m) + e) =? e) && (e <=? emax - prec)
  | _ => false
  end.
Lemma is_valid_spec x : is_valid x = true -> valid x.
Proof. destruct x as [| | |s m e]; try done. cbn [is_valid]. intros [H1 H2]%andb_prop. split; lia. Qed.

Lemma fmod1_spec x : valid x -> approx (fmod1 x) (Z.rem (value x) ulp0 * ulp0).
Proof.
  intros Hx. unfold fmod1. rewrite scaled_value by done. apply normalize_spec; [lia|].
  change (2 ^ (-1074 + 2148)) with ulp0. pose proof ulp0_pos. pose proof (Z.rem_bound_abs (value x) ulp0 ltac:(lia)).
  transitivity (ulp0 * ulp0); [nia|]. unfold ulp0. rewrite <- Z.pow_add_r by lia. by apply Z.pow_le_mono_r.
Qed.
