(* ===== verification/Color.v ===== *)
(** * The colour of a user (server/src/message_handler.cpp, [generate_color])

    A hue from the user's id by the golden ratio, then red, green and blue, in binary64
    arithmetic. The conversions to [int] are undefined on numbers that do not fit; the
    theorem shows that all fit, whatever the id. *)
From S2P Require Import Prelude ByteString Double DoubleError.
Local Open Scope Z_scope.

Definition golden : double := literal 618033988749895 (10 ^ 15).
Definition saturation : double := literal 7 10.
Definition lightness : double := literal 1 2.

Definition chroma_q : double :=
  if dlt lightness (literal 1 2) then dmul lightness (dadd (of_int 1) saturation)
  else dsub (dadd lightness saturation) (dmul lightness saturation).
Definition chroma_p : double := dsub (dmul (of_int 2) lightness) chroma_q.

Definition hue2rgb (t : double) : double :=
  let t := if dlt t (of_int 0) then dadd t (of_int 1) else t in
  let t := if dlt (of_int 1) t then dsub t (of_int 1) else t in
  if dlt t (literal 1 6) then dadd chroma_p (dmul (dmul (dsub chroma_q chroma_p) (of_int 6)) t)
  else if dlt t (literal 1 2) then chroma_q
  else if dlt t (literal 2 3) then
    dadd chroma_p (dmul (dmul (dsub chroma_q chroma_p) (dsub (literal 2 3) t)) (of_int 6))
  else chroma_p.

Definition hue (userId : Z) : double := fmod1 (dmul (of_int userId) golden).
Definition channels (userId : Z) : option (Z * Z * Z) :=
  let h := hue userId in
  r ← to_int (dmul (hue2rgb (dadd h (literal 1 3))) (of_int 255));
  g ← to_int (dmul (hue2rgb h) (of_int 255));
  b ← to_int (dmul (hue2rgb (dsub h (literal 1 3))) (of_int 255));
  Some (r, g, b).

(** [{:02X}] of a number of two digits. *)
Definition hex_upper (d : Z) : ascii := ascii_of_N (Z.to_N (if d <? 10 then 48 + d else 55 + d)).
Definition format_02X (n : Z) : string := String (hex_upper (n / 16)) (String (hex_upper (n mod 16)) "").

Definition generate_color (userId : Z) : string :=
  match channels userId with
  | Some (r, g, b) => "#" +:+ format_02X r +:+ format_02X g +:+ format_02X b
  | None => ""
  end.

Example colors :
  generate_color <$> [0; 1; 2; 3; 4294967295; 123456789]
  = ["#D82626"; "#265AD8"; "#8ED826"; "#D826C2"; "#D826A7"; "#7826D8"]%string.
Proof. vm_compute. reflexivity. Qed.

(** ** Ranges: bounds of a value, in millionths *)

Definition million : Z := 10 ^ 6.
Definition in_range (x : double) (lo hi : Z) : Prop :=
  valid x /\ lo * ulp0 <= million * value x <= hi * ulp0.
Definition small (n : Z) : Prop := - 10 ^ 9 <= n <= 10 ^ 9.

Lemma error_small r w k : approx r w -> Z.abs w <= k * (ulp0 * ulp0) -> 0 <= k < 2 ^ 30 ->
  million * Z.abs (value r * ulp0 - w) <= ulp0 * ulp0.
Proof.
  intros [_ H _] Hw Hk. pose proof ulp0_pos.
  assert (2 ^ 52 * ulp0 <= ulp0 * ulp0).
  { apply Z.mul_le_mono_nonneg_r; [lia|]. unfold ulp0. by apply Z.pow_le_mono_r. }
  unfold million. revert H Hw Hk H1. generalize (ulp0 * ulp0), (2 ^ 52 * ulp0), (value r * ulp0 - w), w. intros. nia.
Qed.

Lemma sum_range r s lo hi :
  approx r (s * ulp0) -> lo * ulp0 <= million * s <= hi * ulp0 -> small lo -> small hi ->
  in_range r (lo - 1) (hi + 1).
Proof.
  intros Ha Hs Hl Hh. split; [apply Ha|]. pose proof ulp0_pos.
  assert (million * Z.abs (value r * ulp0 - s * ulp0) <= ulp0 * ulp0) as He.
  { apply (error_small _ _ 1000 Ha); [|done]. rewrite Z.abs_mul, (Z.abs_eq ulp0) by lia.
    rewrite Z.mul_assoc. apply Z.mul_le_mono_nonneg_r; [lia|]. unfold small, million in *. nia. }
  rewrite <- Z.mul_sub_distr_r, Z.abs_mul, (Z.abs_eq ulp0), Z.mul_assoc in He by lia.
  apply Z.mul_le_mono_pos_r in He; [|done]. unfold million in *. lia.
Qed.
Lemma small_abs v lo hi : lo * ulp0 <= million * v <= hi * ulp0 -> small lo -> small hi -> Z.abs v <= 1000 * ulp0.
Proof. intros Hv Hl Hh. pose proof ulp0_pos. unfold small, million in *. nia. Qed.
Lemma small_bound v lo hi : lo * ulp0 <= million * v <= hi * ulp0 -> small lo -> small hi -> Z.abs v <= bound.
Proof.
  intros Hv Hl Hh. pose proof ulp0_pos. transitivity (1000 * ulp0); [by eapply small_abs|].
  unfold bound. apply Z.mul_le_mono_nonneg_r; [lia|]. transitivity (2 ^ 10); [done|by apply Z.pow_le_mono_r].
Qed.

Lemma dadd_range x y a b c d :
  in_range x a b -> in_range y c d -> small (a + c) -> small (b + d) -> in_range (dadd x y) (a + c - 1) (b + d + 1).
Proof.
  intros [Hx Bx] [Hy By] Hl Hh. assert ((a + c) * ulp0 <= million * (value x + value y) <= (b + d) * ulp0) as B by lia.
  apply (sum_range _ (value x + value y)); [|done..]. apply dadd_spec; [done..|by eapply small_bound].
Qed.
Lemma dsub_range x y a b c d :
  in_range x a b -> in_range y c d -> small (a - d) -> small (b - c) -> in_range (dsub x y) (a - d - 1) (b - c + 1).
Proof.
  intros [Hx Bx] [Hy By] Hl Hh. assert ((a - d) * ulp0 <= million * (value x - value y) <= (b - c) * ulp0) as B by lia.
  apply (sum_range _ (value x - value y)); [|done..]. apply dsub_spec; [done..|by eapply small_bound].
Qed.

(** A product of a factor that is not negative, and one that may be. *)
Lemma product_range r x y a b c d lo hi :
  approx r (x * y) -> a * ulp0 <= million * x <= b * ulp0 -> c * ulp0 <= million * y <= d * ulp0 ->
  0 <= a -> c <= 0 <= d -> small b -> small c -> small d ->
  million * lo <= b * c - million -> b * d + million <= million * hi -> in_range r lo hi.
Proof.
  intros Ha Bx By H0 Hcd Hb Hc Hd Hlo Hhi. split; [apply Ha|]. pose proof ulp0_pos as Hu.
  set (X := million * x) in *. set (Y := million * y) in *.
  assert (0 <= X <= b * ulp0) as BX by nia.
  assert (b * c * (ulp0 * ulp0) <= X * Y <= b * d * (ulp0 * ulp0)) as B.
  { replace (b * c * (ulp0 * ulp0)) with ((b * ulp0) * (c * ulp0)) by lia.
    replace (b * d * (ulp0 * ulp0)) with ((b * ulp0) * (d * ulp0)) by lia.
    assert (c * ulp0 <= 0 <= d * ulp0) by nia. split.
    - transitivity (X * (c * ulp0)); [nia|]. apply Z.mul_le_mono_nonneg_l; lia.
    - transitivity (X * (d * ulp0)); [apply Z.mul_le_mono_nonneg_l; lia|nia]. }
  assert (0 < ulp0 * ulp0) as HU by nia.
  replace (X * Y) with (million * million * (x * y)) in B by (unfold X, Y; lia).
  assert (- 10 ^ 18 <= b * c /\ b * d <= 10 ^ 18) as [Kc Kd] by (unfold small in *; split; nia).
  assert (million * Z.abs (value r * ulp0 - x * y) <= ulp0 * ulp0) as He.
  { apply (error_small _ _ (10 ^ 6) Ha); [|done]. revert B HU Kc Kd. clear. unfold million.
    generalize (ulp0 * ulp0), (x * y), (b * c), (b * d). intros V w l h B HV Hl Hh.
    assert (- 10 ^ 18 * V <= l * V /\ h * V <= 10 ^ 18 * V) by nia. lia. }
  assert (million * lo * (ulp0 * ulp0) <= million * million * value r * ulp0 <= million * hi * (ulp0 * ulp0)) as Hr.
  { assert (million * lo * (ulp0 * ulp0) <= (b * c - million) * (ulp0 * ulp0)) by (apply Z.mul_le_mono_nonneg_r; lia).
    assert ((b * d + million) * (ulp0 * ulp0) <= million * hi * (ulp0 * ulp0)) by (apply Z.mul_le_mono_nonneg_r; lia).
    replace (million * million * value r * ulp0) with (million * million * (value r * ulp0)) by lia.
    rewrite Z.mul_sub_distr_r in *. rewrite Z.mul_add_distr_r in *. unfold million in *. lia. }
  split.
  - apply (Z.mul_le_mono_pos_r _ _ (million * ulp0)); [unfold million; lia|lia].
  - apply (Z.mul_le_mono_pos_r _ _ (million * ulp0)); [unfold million; lia|lia].
Qed.

(** ** Constants *)

Lemma constant_range x lo hi :
  is_valid x && (lo * ulp0 <=? million * value x) && (million * value x <=? hi * ulp0) = true -> in_range x lo hi.
Proof. intros [[Hx%is_valid_spec Hlo]%andb_prop Hhi]%andb_prop. split; [done|lia]. Qed.

Lemma int_range n : small (million * n) -> in_range (of_int n) (million * n) (million * n).
Proof.
  intros H. destruct (of_int_spec n) as [H1 H2]; [unfold small, million in *; lia|]. split; [done|]. rewrite H2. lia.
Qed.

Ltac constant := apply constant_range; vm_compute; reflexivity.

Lemma third_range : in_range (literal 1 3) 333333 333334. Proof. constant. Qed.
Lemma sixth_range : in_range (literal 1 6) 166666 166667. Proof. constant. Qed.
Lemma two_thirds_range : in_range (literal 2 3) 666666 666667. Proof. constant. Qed.
Lemma golden_range : in_range golden 618033 618034. Proof. constant. Qed.
Lemma chroma_q_range : in_range chroma_q 849999 850001. Proof. constant. Qed.
Lemma chroma_p_range : in_range chroma_p 149999 150001. Proof. constant. Qed.
Lemma slope_range : in_range (dmul (dsub chroma_q chroma_p) (of_int 6)) 4199998 4200002. Proof. constant. Qed.
Lemma span_range : in_range (dsub chroma_q chroma_p) 699999 700001. Proof. constant. Qed.
Lemma half_range : in_range (literal 1 2) 500000 500000. Proof. constant. Qed.
Lemma one_range : in_range (of_int 1) 1000000 1000000. Proof. constant. Qed.
Lemma zero_range : in_range (of_int 0) 0 0. Proof. constant. Qed.

Lemma range_weaken x a b lo hi : in_range x a b -> lo <= a -> b <= hi -> in_range x lo hi.
Proof. intros [Hx B] Ha Hb. split; [done|]. pose proof ulp0_pos. nia. Qed.

(** What a comparison with a constant says of a range. *)
Lemma dlt_range x y a b c d : in_range x a b -> in_range y c d ->
  if dlt x y then in_range x a (Z.min b d) else in_range x (Z.max a c) b.
Proof.
  intros [Hx Bx] [Hy By]. rewrite dlt_spec by done. pose proof ulp0_pos. unfold million in *.
  destruct (Z.ltb_spec (value x) (value y)); split; try done; unfold million; nia.
Qed.
Lemma dlt_range_r x y a b c d : in_range x a b -> in_range y c d ->
  if dlt x y then in_range y (Z.max a c) d else in_range y c (Z.min b d).
Proof.
  intros [Hx Bx] [Hy By]. rewrite dlt_spec by done. pose proof ulp0_pos. unfold million in *.
  destruct (Z.ltb_spec (value x) (value y)); split; try done; unfold million; nia.
Qed.

(** ** The channels *)

Ltac small := unfold small, million; lia.

Lemma mul_range x y a b c d lo hi :
  in_range x a b -> in_range y c d -> 0 <= a -> c <= 0 <= d -> small b -> small c -> small d ->
  million * lo <= b * c - million -> b * d + million <= million * hi -> in_range (dmul x y) lo hi.
Proof.
  intros [Hx Bx] [Hy By] ? ? ? ? ? ? ?. eapply (product_range _ (value x) (value y)); try done.
  apply dmul_spec; [done..|]. pose proof ulp0_pos as Hu. rewrite Z.abs_mul.
  assert (a <= b) by (apply (Z.mul_le_mono_pos_r _ _ ulp0); lia).
  pose proof (small_abs (value x) a b Bx ltac:(unfold small in *; lia) ltac:(done)).
  pose proof (small_abs (value y) c d By ltac:(done) ltac:(done)).
  transitivity (2 ^ 20 * (ulp0 * ulp0)); [nia|]. unfold ulp0. rewrite <- !Z.pow_add_r by lia. by apply Z.pow_le_mono_r.
Qed.

Lemma hue_range userId : is_u32 userId -> in_range (hue userId) 0 1000001.
Proof.
  intros Hu. unfold hue. pose proof ulp0_pos as Hp. unfold is_u32 in Hu.
  destruct (of_int_spec userId) as [Hv Ev]; [lia|]. destruct golden_range as [Hg Bg].
  assert (approx (dmul (of_int userId) golden) (value (of_int userId) * value golden)) as [Ha _ [Hs _]].
  { apply dmul_spec; [done..|]. rewrite Ev, Z.abs_mul, Z.abs_mul, (Z.abs_eq ulp0) by lia.
    assert (value golden <= ulp0) by (unfold million in *; lia). assert (0 <= value golden) by (unfold million in *; lia).
    rewrite (Z.abs_eq userId), (Z.abs_eq (value golden)) by lia. change u32_mod with (2 ^ 32) in Hu.
    transitivity (2 ^ 32 * ulp0 * ulp0).
    - apply Z.mul_le_mono_nonneg; [nia|nia|lia|lia].
    - unfold ulp0. rewrite <- !Z.pow_add_r by lia. by apply Z.pow_le_mono_r. }
  assert (0 <= value (of_int userId) * value golden) as Hs0.
  { rewrite Ev. unfold million in *. apply Z.mul_nonneg_nonneg; nia. }
  specialize (Hs Hs0). pose proof (fmod1_spec _ Ha) as Hn.
  pose proof (Z.rem_bound_pos _ ulp0 Hs Hp) as Hr.
  destruct (sum_range _ _ 0 1000000 Hn) as [H1 H2]; [unfold million; lia|small|small|].
  split; [done|]. assert (0 <= value (fmod1 (dmul (of_int userId) golden))) by (apply Hn; nia).
  unfold million in *. lia.
Qed.

Lemma hue2rgb_range t : in_range t (-333400) 1333400 -> in_range (hue2rgb t) 149900 850100.
Proof.
  intros Ht. unfold hue2rgb.
  assert (in_range (if dlt t (of_int 0) then dadd t (of_int 1) else t) 0 1333400) as Ht1.
  { pose proof (dlt_range _ _ _ _ _ _ Ht zero_range) as H. destruct (dlt t (of_int 0)).
    - eapply range_weaken; [apply (dadd_range _ _ _ _ _ _ H one_range); small|lia|lia].
    - eapply range_weaken; [exact H|lia|lia]. }
  set (t1 := if dlt t (of_int 0) then _ else t) in *. clearbody t1. clear t Ht.
  assert (in_range (if dlt (of_int 1) t1 then dsub t1 (of_int 1) else t1) (-1) 1000000) as Ht2.
  { pose proof (dlt_range_r _ _ _ _ _ _ one_range Ht1) as H. destruct (dlt (of_int 1) t1).
    - eapply range_weaken; [apply (dsub_range _ _ _ _ _ _ H one_range); small|lia|lia].
    - eapply range_weaken; [exact H|lia|lia]. }
  set (t2 := if dlt (of_int 1) t1 then _ else t1) in *. clearbody t2. clear t1 Ht1.
  pose proof (dlt_range _ _ _ _ _ _ Ht2 sixth_range) as H6. destruct (dlt t2 (literal 1 6)).
  { assert (in_range (dmul (dmul (dsub chroma_q chroma_p) (of_int 6)) t2) (-6) 700005) as Hm
      by (eapply (mul_range _ _ _ _ _ _ _ _ slope_range H6); small).
    eapply range_weaken; [apply (dadd_range _ _ _ _ _ _ chroma_p_range Hm); small|lia|lia]. }
  pose proof (dlt_range _ _ _ _ _ _ H6 half_range) as H2. destruct (dlt t2 (literal 1 2));
    [eapply range_weaken; [apply chroma_q_range|lia|lia]|].
  pose proof (dlt_range _ _ _ _ _ _ H2 two_thirds_range) as H3. destruct (dlt t2 (literal 2 3));
    [|eapply range_weaken; [apply chroma_p_range|lia|lia]].
  assert (in_range (dsub (literal 2 3) t2) (-2) 166670) as Hd
    by (eapply range_weaken; [apply (dsub_range _ _ _ _ _ _ two_thirds_range H3); small|lia|lia]).
  assert (in_range (dmul (dsub chroma_q chroma_p) (dsub (literal 2 3) t2)) (-4) 116673) as Hm
    by (eapply (mul_range _ _ _ _ _ _ _ _ span_range Hd); small).
  assert (in_range (dmul (dmul (dsub chroma_q chroma_p) (dsub (literal 2 3) t2)) (of_int 6)) (-26) 700050) as Hm6.
  { rewrite dmul_comm. eapply (mul_range _ _ _ _ _ _ _ _ (int_range 6 ltac:(small)) Hm); small. }
  eapply range_weaken; [apply (dadd_range _ _ _ _ _ _ chroma_p_range Hm6); small|lia|lia].
Qed.

(** C33: a user's colour is well defined. In the arithmetic of the machine, rounding
    included, no user id makes a conversion to [int] overflow: the three channels are
    numbers of one byte, and the colour is a [#] and six hexadecimal digits. *)
Theorem color_is_hex userId :
  is_u32 userId ->
  exists r g b, channels userId = Some (r, g, b) /\ is_u8 r /\ is_u8 g /\ is_u8 b
  /\ generate_color userId = "#" +:+ format_02X r +:+ format_02X g +:+ format_02X b
  /\ slen (generate_color userId) = 7.
Proof.
  intros Hu. pose proof (hue_range userId Hu) as Hh.
  assert (forall t, in_range t (-333400) 1333400 ->
            exists n, to_int (dmul (hue2rgb t) (of_int 255)) = Some n /\ 0 <= n < 256) as Hc.
  { intros t [Hv B]%hue2rgb_range. pose proof ulp0_pos.
    destruct (of_int_spec 255) as [H1 H2]; [done|].
    assert (in_range (dmul (hue2rgb t) (of_int 255)) (-1) 216775502) as [Hm Bm].
    { rewrite dmul_comm. eapply (mul_range _ _ _ _ 0 850100 _ _ (int_range 255 ltac:(small))); [|small..].
      eapply range_weaken; [split; [done|exact B]|lia|lia]. }
    apply to_int_spec; [done| |done]. split; [|unfold million in *; lia].
    apply dmul_spec; [done..| |]; rewrite H2.
    - rewrite Z.abs_eq by (unfold million in *; nia).
      transitivity (2 ^ 8 * (ulp0 * ulp0)); [unfold million in *; nia|]. unfold ulp0. rewrite <- !Z.pow_add_r by lia.
      by apply Z.pow_le_mono_r.
    - unfold million in *. nia. }
  destruct (Hc (dadd (hue userId) (literal 1 3))) as (r & Er & Hr).
  { eapply range_weaken; [apply (dadd_range _ _ _ _ _ _ Hh third_range); small|lia|lia]. }
  destruct (Hc (hue userId)) as (g & Eg & Hg); [eapply range_weaken; [exact Hh|lia|lia]|].
  destruct (Hc (dsub (hue userId) (literal 1 3))) as (b & Eb & Hb).
  { eapply range_weaken; [apply (dsub_range _ _ _ _ _ _ Hh third_range); small|lia|lia]. }
  exists r, g, b. assert (channels userId = Some (r, g, b)) as E by (unfold channels; by rewrite Er, Eg, Eb).
  unfold generate_color. rewrite E. done.
Qed.

Lemma color_is_hex_witness :
  exists r g b, channels 4294967295 = Some (r, g, b) /\ r = 216 /\ is_u8 g.
Proof.
  destruct (color_is_hex 4294967295) as (r & g & b & E & _ & Hg & _); [unfold is_u32; lia|].
  exists r, g, b. split; [exact E|split; [|exact Hg]].
  assert (channels 4294967295 = Some (216, 38, 167)) as E' by (vm_compute; reflexivity). congruence.
Defined.
