(* ===== verification/Operation.v ===== *)
(** * Operations (core/include/collab/operation.h, core/src/operation.cpp) *)
From stdpp Require Import pretty.
From S2P Require Import Prelude ByteString.

Inductive OpType := Insert | Delete.

Record Operation := mkOp {
  op_type : OpType;
  op_position : Z;
  op_text : string;
  op_length : Z;
  op_userId : Z;
  op_revision : Z;
}.

#[export] Instance OpType_eq_dec : EqDecision OpType.
Proof. solve_decision. Defined.
(** [operator==] is defaulted: field-wise equality. *)
#[export] Instance Operation_eq_dec : EqDecision Operation.
Proof. solve_decision. Defined.

Definition is_noop (o : Operation) : bool :=
  match op_type o with
  | Insert => bool_decide (op_text o = ""%string)
  | Delete => (op_length o =? 0)%Z
  end.

Definition make_insert (pos : Z) (text : string) (userId rev : Z) : Operation :=
  mkOp Insert pos text (u32 (slen text)) userId rev.
Definition make_delete (pos length : Z) (text : string) (userId rev : Z) : Operation :=
  mkOp Delete pos text length userId rev.

(** The double quote character of the source's format strings. *)
Definition dquote : string := String (Ascii.ascii_of_nat 34) EmptyString.

(** [std::format] prints an unsigned integer in decimal. *)
Definition fmt_u32 (x : Z) : string := pretty (Z.to_N x).

Definition to_string (o : Operation) : string :=
  match op_type o with
  | Insert =>
      "Insert(pos=" +:+ fmt_u32 (op_position o) +:+ ", text=" +:+ dquote +:+ op_text o
        +:+ dquote +:+ ", uid=" +:+ fmt_u32 (op_userId o)
        +:+ ", rev=" +:+ fmt_u32 (op_revision o) +:+ ")"
  | Delete =>
      "Delete(pos=" +:+ fmt_u32 (op_position o) +:+ ", len=" +:+ fmt_u32 (op_length o)
        +:+ ", text=" +:+ dquote +:+ op_text o +:+ dquote
        +:+ ", uid=" +:+ fmt_u32 (op_userId o)
        +:+ ", rev=" +:+ fmt_u32 (op_revision o) +:+ ")"
  end.
