(* ===== verification/OT.v ===== *)
(** * Operational transformation (core/include/collab/ot.h, core/src/ot.cpp) *)
From S2P Require Import Prelude ByteString Operation.
Local Open Scope Z_scope.

(** ** The transformation functions *)

Definition with_position (o : Operation) (p : Z) : Operation :=
  mkOp (op_type o) p (op_text o) (op_length o) (op_userId o) (op_revision o).

Definition transform_insert_insert (a b : Operation) : Operation * Operation :=
  if op_position a <? op_position b then
    (a, with_position b (op_position b +₃₂ op_length a))
  else if op_position b <? op_position a then
    (with_position a (op_position a +₃₂ op_length b), b)
  else if op_userId a <? op_userId b then
    (a, with_position b (op_position b +₃₂ op_length a))
  else if op_userId b <? op_userId a then
    (with_position a (op_position a +₃₂ op_length b), b)
  else (a, b).

Definition transform_insert_delete (ins del : Operation) : Operation * Operation :=
  let pos_ins := op_position ins in
  let pos_del := op_position del in
  if pos_ins <=? pos_del then
    (ins, with_position del (pos_del +₃₂ op_length ins))
  else if pos_del +₃₂ op_length del <=? pos_ins then
    (with_position ins (pos_ins -₃₂ op_length del), del)
  else
    (mkOp (op_type ins) pos_del "" 0 (op_userId ins) (op_revision ins),
     mkOp (op_type del) pos_del (op_text del) (op_length del +₃₂ op_length ins)
          (op_userId del) (op_revision del)).

(** The signed overlap of two deletes. The source subtracts two [int32_t]
    values; where that subtraction overflows (undefined behaviour in C++) the
    model wraps around, as the hardware does. *)
Definition delete_overlap (a b : Operation) : Z :=
  let end_a := op_position a +₃₂ op_length a in
  let end_b := op_position b +₃₂ op_length b in
  let overlap := i32 (i32 (Z.min end_a end_b) - i32 (Z.max (op_position a) (op_position b))) in
  if overlap <? 0 then 0 else overlap.

Definition transform_delete_delete (a b : Operation) : Operation * Operation :=
  let overlap := delete_overlap a b in
  if overlap =? 0 then
    if op_position a <? op_position b then
      (a, with_position b (op_position b -₃₂ op_length a))
    else if op_position b <? op_position a then
      (with_position a (op_position a -₃₂ op_length b), b)
    else (a, b)
  else
    let min_pos := Z.min (op_position a) (op_position b) in
    (mkOp (op_type a) min_pos (op_text a) (op_length a -₃₂ overlap) (op_userId a) (op_revision a),
     mkOp (op_type b) min_pos (op_text b) (op_length b -₃₂ overlap) (op_userId b) (op_revision b)).

Definition transform (a b : Operation) : Operation * Operation :=
  match op_type a, op_type b with
  | Insert, Insert => transform_insert_insert a b
  | Insert, Delete => transform_insert_delete a b
  | Delete, Insert => let '(ins', del') := transform_insert_delete b a in (del', ins')
  | Delete, Delete => transform_delete_delete a b
  end.

Definition apply (document : string) (op : Operation) : string :=
  if is_noop op then document
  else match op_type op with
  | Insert =>
      let pos := Z.min (op_position op) (u32 (slen document)) in
      str_insert document pos (op_text op)
  | Delete =>
      let pos := Z.min (op_position op) (u32 (slen document)) in
      let actual_len := Z.min (op_length op) (u32 (slen document - pos)) in
      str_erase document pos actual_len
  end.

Definition apply_all (document : string) (ops : list Operation) : string :=
  foldl apply document ops.

(** ** Operations that fit a document

    [fits n o]: [o] was made against a document of [n] bytes. An insertion point
    is inside the document or at its end, a deleted range lies inside it, and an
    insertion's [length] is the size of its text. *)
Definition fits (n : Z) (o : Operation) : Prop :=
  0 <= op_position o /\
  match op_type o with
  | Insert => op_position o <= n /\ op_length o = slen (op_text o)
  | Delete => 0 <= op_length o /\ op_position o + op_length o <= n
  end.

(** What a fitting operation does to a document's length. *)
Definition grow (o : Operation) : Z :=
  match op_type o with Insert => op_length o | Delete => - op_length o end.

(** The tie of two insertions at one offset is broken by the user id. *)
Definition no_tie (a b : Operation) : Prop :=
  match op_type a, op_type b with
  | Insert, Insert => op_position a = op_position b -> op_userId a <> op_userId b
  | _, _ => True
  end.

(** A deletion of zero bytes strictly inside the range of the other one, at an
    offset smaller than that one's length: subtracting the length from the
    position wraps around below zero. *)
Definition hollow_in (a b : Operation) : Prop :=
  match op_type a, op_type b with
  | Delete, Delete =>
      op_length a = 0 /\ op_position b < op_position a < op_position b + op_length b
      /\ op_position a < op_length b
  | _, _ => False
  end.

#[export] Instance fits_dec n o : Decision (fits n o).
Proof. unfold fits. destruct (op_type o); apply _. Defined.
#[export] Instance no_tie_dec a b : Decision (no_tie a b).
Proof. unfold no_tie. destruct (op_type a), (op_type b); apply _. Defined.
#[export] Instance hollow_in_dec a b : Decision (hollow_in a b).
Proof. unfold hollow_in. destruct (op_type a), (op_type b); apply _. Defined.

(** The size below which no [uint32_t] or [int32_t] computation wraps around. *)
Definition room (n : Z) (a b : Operation) : Prop :=
  n + slen (op_text a) + slen (op_text b) < i32_half.
#[export] Instance room_dec n a b : Decision (room n a b).
Proof. unfold room. apply _. Defined.

(** ** Lemmas *)

Lemma slen_fits n o : fits n o -> op_type o = Insert -> op_length o = slen (op_text o).
Proof. unfold fits. intros [_ H] E. rewrite E in H. apply H. Qed.

(** On a fitting operation [apply] clamps nothing: it is one edit. *)
Lemma apply_fits d o :
  fits (slen d) o -> slen d < u32_mod ->
  apply d o = match op_type o with
              | Insert => str_insert d (op_position o) (op_text o)
              | Delete => str_erase d (op_position o) (op_length o)
              end.
Proof.
  pose proof (slen_nonneg d) as Hd. unfold fits, apply, is_noop.
  destruct o as [[] p t l u r]; cbn; intros [Hp Hl] Hs.
  - unwrap. rewrite Z.min_l by lia.
    case_bool_decide; [subst t; now autorewrite with collab | done].
  - unwrap. rewrite !Z.min_l by lia.
    destruct (Z.eqb_spec l 0) as [->|]; [now autorewrite with collab | done].
Qed.

Lemma slen_apply_fits d o :
  fits (slen d) o -> slen d < u32_mod -> slen (apply d o) = slen d + grow o.
Proof.
  intros Hf Hs. rewrite apply_fits by done. unfold fits, grow in *.
  destruct (op_type o); [rewrite slen_str_insert by lia | rewrite slen_str_erase by lia]; lia.
Qed.

Lemma apply_noop d o : is_noop o = true -> apply d o = d.
Proof. unfold apply. now intros ->. Qed.

(** The overlap of two deletes inside one document is the size of the common
    range: the [int32_t] subtraction does not overflow. *)
Lemma delete_overlap_fits n a b :
  op_type a = Delete -> op_type b = Delete -> fits n a -> fits n b -> n < i32_half ->
  delete_overlap a b =
    Z.max 0 (Z.min (op_position a + op_length a) (op_position b + op_length b)
             - Z.max (op_position a) (op_position b)).
Proof.
  unfold fits, delete_overlap. intros -> -> Ha Hb Hn. unwrap.
  destruct (Z.ltb_spec (Z.min (op_position a + op_length a) (op_position b + op_length b)
                        - Z.max (op_position a) (op_position b)) 0); lia.
Qed.

(** [transform] does not depend on the order of its arguments. *)
Lemma delete_overlap_comm a b : delete_overlap a b = delete_overlap b a.
Proof. unfold delete_overlap. now rewrite (Z.min_comm (_ +₃₂ _)), (Z.max_comm (op_position a)). Qed.

Lemma transform_swap a b : transform b a = (snd (transform a b), fst (transform a b)).
Proof.
  unfold transform. destruct (op_type a) eqn:Ea, (op_type b) eqn:Eb.
  - unfold transform_insert_insert.
    destruct (Z.ltb_spec (op_position a) (op_position b)),
      (Z.ltb_spec (op_position b) (op_position a)), (Z.ltb_spec (op_userId a) (op_userId b)),
      (Z.ltb_spec (op_userId b) (op_userId a)); (lia || reflexivity).
  - now destruct (transform_insert_delete a b).
  - now destruct (transform_insert_delete b a).
  - unfold transform_delete_delete. rewrite (delete_overlap_comm b a).
    destruct (delete_overlap a b =? 0); [|now rewrite Z.min_comm].
    destruct (Z.ltb_spec (op_position a) (op_position b)),
      (Z.ltb_spec (op_position b) (op_position a)); (lia || reflexivity).
Qed.

Lemma op_type_transform_fst a b : op_type (fst (transform a b)) = op_type a.
Proof.
  unfold transform, transform_insert_insert, transform_insert_delete, transform_delete_delete.
  destruct (op_type a) eqn:Ea, (op_type b) eqn:Eb; repeat case_match; cbn; simplify_eq; auto.
Qed.
Lemma op_userId_transform_fst a b : op_userId (fst (transform a b)) = op_userId a.
Proof.
  unfold transform, transform_insert_insert, transform_insert_delete, transform_delete_delete.
  destruct (op_type a) eqn:Ea, (op_type b) eqn:Eb; repeat case_match; cbn; simplify_eq; auto.
Qed.
Lemma op_type_transform_snd a b : op_type (snd (transform a b)) = op_type b.
Proof. pose proof (op_type_transform_fst b a) as H. now rewrite transform_swap in H. Qed.
Lemma op_userId_transform_snd a b : op_userId (snd (transform a b)) = op_userId b.
Proof. pose proof (op_userId_transform_fst b a) as H. now rewrite transform_swap in H. Qed.
#[export] Hint Rewrite op_type_transform_fst op_type_transform_snd
  op_userId_transform_fst op_userId_transform_snd : collab.

(** ** Transforming keeps operations inside the document *)

(** [wrap_lia]: linear arithmetic after removing the wrap-arounds that are
    known to be the identity. *)
Ltac wrap_lia := unwrap; lia.

Lemma transform_insert_delete_fits d ins del :
  op_type ins = Insert -> op_type del = Delete ->
  fits (slen d) ins -> fits (slen d) del -> room (slen d) ins del ->
  let '(ins', del') := transform_insert_delete ins del in
  fits (slen d + grow del) ins' /\ fits (slen d + grow ins) del'.
Proof.
  unfold fits, grow, room, transform_insert_delete. intros Ei Ed. rewrite Ei, Ed. intros Hi Hd Hr.
  pose proof (slen_nonneg (op_text ins)). pose proof (slen_nonneg (op_text del)).
  destruct (Z.leb_spec (op_position ins) (op_position del)); [cbn; rewrite Ei, Ed; wrap_lia|].
  rewrite (u32_small (op_position del + op_length del)) by (unfold is_u32 in *; lia).
  destruct (Z.leb_spec (op_position del + op_length del) (op_position ins)); cbn;
    rewrite ?Ei, ?Ed, ?slen_empty; wrap_lia.
Qed.

Lemma transform_fits_fst d a b :
  fits (slen d) a -> fits (slen d) b -> room (slen d) a b -> ~ hollow_in a b ->
  fits (slen d + grow b) (fst (transform a b)).
Proof.
  intros Ha Hb Hr Hh. pose proof (slen_nonneg (op_text a)). pose proof (slen_nonneg (op_text b)).
  unfold transform. destruct (op_type a) eqn:Ea, (op_type b) eqn:Eb.
  - unfold fits, grow, room, transform_insert_insert in *. rewrite ?Ea, ?Eb in *.
    destruct (Z.ltb_spec (op_position a) (op_position b));
      [|destruct (Z.ltb_spec (op_position b) (op_position a));
        [|destruct (Z.ltb_spec (op_userId a) (op_userId b));
          [|destruct (Z.ltb_spec (op_userId b) (op_userId a))]]];
      cbn; rewrite ?Ea; wrap_lia.
  - pose proof (transform_insert_delete_fits d a b Ea Eb Ha Hb Hr) as H1.
    destruct (transform_insert_delete a b). apply H1.
  - assert (room (slen d) b a) as Hr' by (unfold room in *; lia).
    pose proof (transform_insert_delete_fits d b a Eb Ea Hb Ha Hr') as H1.
    destruct (transform_insert_delete b a). apply H1.
  - unfold transform_delete_delete. unfold room in Hr.
    rewrite (delete_overlap_fits (slen d)) by (done || lia).
    unfold fits, grow, hollow_in in *. rewrite ?Ea, ?Eb in *.
    zcases; cbn; rewrite ?Ea; wrap_lia.
Qed.

(** ** Convergence of one pair *)

Lemma converge_insert_insert d a b :
  op_type a = Insert -> op_type b = Insert ->
  fits (slen d) a -> fits (slen d) b -> room (slen d) a b ->
  op_position a < op_position b \/ (op_position a = op_position b /\ op_userId a < op_userId b) ->
  apply (apply d a) (snd (transform a b)) = apply (apply d b) (fst (transform a b)).
Proof.
  intros Ea Eb Ha Hb Hr Hlt.
  pose proof (slen_nonneg (op_text a)). pose proof (slen_nonneg (op_text b)).
  assert (transform a b = (a, with_position b (op_position b +₃₂ op_length a))) as ->.
  { unfold transform, transform_insert_insert. rewrite Ea, Eb. zcases; (lia || done). }
  pose proof (slen_fits _ _ Ha Ea) as La. pose proof (slen_fits _ _ Hb Eb) as Lb.
  unfold fits, room in *. rewrite Ea in Ha. rewrite Eb in Hb.
  rewrite (apply_fits d a), (apply_fits d b) by (unfold fits; rewrite ?Ea, ?Eb; lia).
  rewrite Ea, Eb. cbn. rewrite !apply_fits; unfold fits; cbn; rewrite ?Ea, ?Eb;
    rewrite ?slen_str_insert by lia; [|unwrap; lia..].
  rewrite La. unwrap. apply insert_insert_comm; lia.
Qed.

Lemma converge_insert_delete d ins del :
  op_type ins = Insert -> op_type del = Delete ->
  fits (slen d) ins -> fits (slen d) del -> room (slen d) ins del ->
  let '(ins', del') := transform_insert_delete ins del in
  apply (apply d ins) del' = apply (apply d del) ins'.
Proof.
  intros Ei Ed Hi Hd Hr.
  pose proof (slen_nonneg (op_text ins)) as Ht. pose proof (slen_nonneg (op_text del)).
  pose proof (transform_insert_delete_fits d ins del Ei Ed Hi Hd Hr) as Hf.
  pose proof (slen_fits _ _ Hi Ei) as Li.
  assert (slen d < u32_mod) as Hs by (unfold room in *; lia).
  pose proof (slen_apply_fits d ins Hi Hs) as Si. pose proof (slen_apply_fits d del Hd Hs) as Sd.
  destruct (transform_insert_delete ins del) as [ins' del'] eqn:E. destruct Hf as [Fi Fd].
  assert (op_type ins' = Insert /\ op_type del' = Delete) as [Ei' Ed'].
  { unfold transform_insert_delete in E. repeat case_match; simplify_eq; cbn; auto. }
  unfold grow, room in *. rewrite Ei in Si, Fd. rewrite Ed in Sd, Fi.
  assert (0 <= op_length del) by (unfold fits in Hd; rewrite Ed in Hd; lia).
  rewrite (apply_fits _ ins'), (apply_fits _ del') by (rewrite ?Si, ?Sd; (done || lia)).
  rewrite (apply_fits d ins), (apply_fits d del) by ((done || lia)).
  rewrite Ei, Ed, Ei', Ed'. unfold fits in Hi, Hd. rewrite Ei in Hi. rewrite Ed in Hd.
  revert E. unfold transform_insert_delete.
  destruct (Z.leb_spec (op_position ins) (op_position del)); [|unwrap;
    destruct (Z.leb_spec (op_position del + op_length del) (op_position ins))];
    intros [= <- <-]; cbn; unwrap; rewrite ?Li.
  - apply erase_insert_left; lia.
  - apply erase_insert_right; lia.
  - autorewrite with collab. apply erase_insert_inside; lia.
Qed.

Lemma apply_delete_zero d p t u r : apply d (mkOp Delete p t 0 u r) = d.
Proof. now apply apply_noop. Qed.

Lemma converge_delete_delete d a b :
  op_type a = Delete -> op_type b = Delete ->
  fits (slen d) a -> fits (slen d) b -> room (slen d) a b ->
  op_position a <= op_position b ->
  apply (apply d a) (snd (transform a b)) = apply (apply d b) (fst (transform a b)).
Proof.
  intros Ea Eb Ha Hb Hr Hab.
  pose proof (slen_nonneg (op_text a)) as Ta. pose proof (slen_nonneg (op_text b)) as Tb.
  unfold transform, transform_delete_delete. rewrite Ea, Eb.
  unfold room in Hr. rewrite (delete_overlap_fits (slen d)) by (done || lia).
  assert (forall o, op_type o = Delete -> op_length o = 0 -> forall x, apply x o = x) as Hnoop.
  { intros o E1 E2 x. apply apply_noop. unfold is_noop. now rewrite E1, E2. }
  assert (slen d < u32_mod) as Hs by (lia).
  pose proof (apply_fits d a Ha Hs) as Aa. pose proof (apply_fits d b Hb Hs) as Ab.
  rewrite Ea in Aa. rewrite Eb in Ab.
  unfold fits in Ha, Hb. rewrite Ea in Ha. rewrite Eb in Hb.
  destruct (Z.eqb_spec (op_length a) 0) as [La|La]; [|destruct (Z.eqb_spec (op_length b) 0) as [Lb|Lb]].
  - rewrite (Hnoop a) by done. zcases; try lia; cbn; rewrite ?(Hnoop a) by done; try done.
    rewrite La, Z.sub_0_r. unwrap. unfold with_position. now destruct b.
  - rewrite (Hnoop b) by done. zcases; try lia; cbn; now apply Hnoop.
  - zcases; try lia; cbn;
      rewrite Ab, Aa, !apply_fits; unfold fits; cbn; rewrite ?Ea, ?Eb, ?slen_str_erase by lia;
      try (unwrap; lia); unwrap.
    1: now rewrite erase_erase_disjoint by lia.
    all: rewrite !(Z.max_r 0) by lia; apply erase_erase_overlap; lia.
Qed.

Lemma transform_converges d a b :
  fits (slen d) a -> fits (slen d) b -> room (slen d) a b -> no_tie a b ->
  apply (apply d a) (snd (transform a b)) = apply (apply d b) (fst (transform a b)).
Proof.
  intros Ha Hb Hr Ht.
  assert (room (slen d) b a) as Hr' by (unfold room in *; lia).
  unfold no_tie in Ht. destruct (op_type a) eqn:Ea, (op_type b) eqn:Eb.
  - destruct (Z.lt_total (op_position a) (op_position b)) as [|[He|]];
      [apply converge_insert_insert; auto| |].
    + destruct (Z.lt_total (op_userId a) (op_userId b)) as [|[|]];
        [apply converge_insert_insert; auto| |]; [now apply Ht in He|].
      pose proof (converge_insert_insert d b a) as C. rewrite transform_swap in C. cbn in C. rewrite C; auto.
    + pose proof (converge_insert_insert d b a) as C. rewrite transform_swap in C. cbn in C. rewrite C; auto.
  - pose proof (converge_insert_delete d a b Ea Eb Ha Hb Hr) as C.
    unfold transform. rewrite Ea, Eb. now destruct (transform_insert_delete a b).
  - pose proof (converge_insert_delete d b a Eb Ea Hb Ha Hr') as C.
    unfold transform. rewrite Ea, Eb. now destruct (transform_insert_delete b a).
  - destruct (Z.le_ge_cases (op_position a) (op_position b)).
    + apply converge_delete_delete; auto.
    + pose proof (converge_delete_delete d b a) as C. rewrite transform_swap in C. cbn in C. rewrite C; auto.
Qed.

(** A zero-length delete strictly inside another delete's range gets a
    wrapped position, which the next transformation against a delete reads as a
    negative offset: the length wraps too. *)
Lemma transform_hollow n a b :
  hollow_in a b -> 0 <= op_position b -> op_position b + op_length b <= n -> n < i32_half ->
  fst (transform a b) = with_position a (op_position a - op_length b + u32_mod).
Proof.
  unfold hollow_in, transform, transform_delete_delete, delete_overlap.
  destruct (op_type a) eqn:Ea, (op_type b) eqn:Eb; try done. intros (La & Hp) Hb Hn Hm.
  rewrite La, Z.add_0_r. unwrap.
  rewrite Z.min_l, Z.max_l, Z.sub_diag by lia. unwrap. zcases; try lia; cbn.
  f_equal. unfold u32. symmetry. apply (Z.mod_unique_pos _ _ (-1)); lia.
Qed.

Lemma transform_after_hollow n a c :
  op_type a = Delete -> op_length a = 0 -> u32_mod - n < op_position a < u32_mod ->
  op_type c = Delete -> fits n c -> 0 < op_length c -> n < 1073741824 ->
  let a' := fst (transform a c) in
  op_type a' = Delete /\ op_position a' = op_position c /\ u32_mod - 2 * n <= op_length a'.
Proof.
  unfold fits, transform, transform_delete_delete, delete_overlap.
  intros -> -> Hp -> Hc Hl Hn. rewrite Z.add_0_r. unwrap.
  rewrite Z.min_r, Z.max_l by lia.
  replace (i32 (op_position a)) with (op_position a - u32_mod) by width_lia.
  unwrap. zcases; try lia; cbn.
  rewrite Z.min_r by lia. repeat split. width_lia.
Qed.

Lemma apply_delete_tail d o :
  op_type o = Delete -> 0 <= op_position o <= slen d -> slen d < u32_mod ->
  slen d <= op_length o -> apply d o = str_erase d (op_position o) (slen d - op_position o).
Proof.
  pose proof (slen_nonneg d). unfold apply, is_noop.
  intros Ho Hp Hs Hl. rewrite Ho. unwrap. rewrite (Z.min_l (op_position o)) by lia. unwrap.
  rewrite Z.min_r by lia. case_match; [|done].
  assert (op_length o = 0) by lia. replace (slen d - op_position o) with 0 by lia.
  by rewrite str_erase_zero.
Qed.

(** ** Properties *)

(** C7: convergence of one concurrent pair (TP1). Two operations made against
    the same document, not two insertions of one user at one offset, lead to the
    same document whichever is applied first, when the second one is replaced by
    its transform. *)
Theorem transform_convergence d a b :
  fits (slen d) a -> fits (slen d) b -> room (slen d) a b -> no_tie a b ->
  apply (apply d a) (snd (transform a b)) = apply (apply d b) (fst (transform a b)).
Proof. apply transform_converges. Qed.

Lemma transform_convergence_witness :
  let a := make_delete 1 3 "" 1 0 in let b := make_insert 2 "X" 2 0 in
  apply (apply "HELLO" a) (snd (transform a b)) = apply (apply "HELLO" b) (fst (transform a b)).
Proof.
  intros a b. apply (transform_convergence "HELLO" a b);
    [by vm_compute | by vm_compute | by vm_compute | done].
Defined.

(** [transform] treats its two arguments symmetrically, so the server (which
    transforms the incoming operation first) and the client (which transforms its
    own pending operation first) compute the same pair. *)
Theorem transform_symmetric a b :
  transform b a = (snd (transform a b), fst (transform a b)).
Proof. apply transform_swap. Qed.

(** Transforming keeps both operations inside the document they are then
    applied to, except for a zero-length delete strictly inside the other
    delete's range and closer to the document's start than that range is long. *)
Theorem transform_stays_in_document d a b :
  fits (slen d) a -> fits (slen d) b -> room (slen d) a b ->
  ~ hollow_in a b -> ~ hollow_in b a ->
  fits (slen (apply d b)) (fst (transform a b)) /\ fits (slen (apply d a)) (snd (transform a b)).
Proof.
  intros Ha Hb Hr Hab Hba.
  pose proof (slen_nonneg (op_text a)). pose proof (slen_nonneg (op_text b)).
  rewrite !slen_apply_fits by (done || (unfold room in *; lia)).
  split; [by apply transform_fits_fst|].
  pose proof (transform_fits_fst d b a) as H1. rewrite transform_swap in H1.
  apply H1; auto. unfold room in *; lia.
Qed.

Lemma transform_stays_in_document_witness :
  let a := make_delete 1 5 "" 1 0 in let b := make_delete 2 2 "" 2 0 in
  fits (slen (apply "HELLO WORLD" b)) (fst (transform a b)) /\
  fits (slen (apply "HELLO WORLD" a)) (snd (transform a b)).
Proof.
  intros a b. apply (transform_stays_in_document "HELLO WORLD" a b);
    [by vm_compute | by vm_compute | by vm_compute | |]; intros [H _]; discriminate H.
Defined.

(** A zero-length delete is not neutral. When it lies strictly inside the
    range of a delete [b], closer to the start than [b] is long, and is then transformed against a further delete [c],
    the result deletes the whole document from the position of [c] on. *)
Theorem hollow_delete_wipes_tail d a b c :
  hollow_in a b -> fits (slen d) c -> op_type c = Delete -> 0 < op_length c ->
  0 <= op_position b -> op_position b + op_length b <= slen d -> slen d < 1073741824 ->
  apply d (fst (transform (fst (transform a b)) c))
  = str_erase d (op_position c) (slen d - op_position c).
Proof.
  intros Hh Hc Tc Lc Hb Hb' Hd.
  rewrite (transform_hollow (slen d) a b) by ((done || lia)).
  unfold hollow_in in Hh. destruct (op_type a) eqn:Ea, (op_type b) eqn:Eb; try done.
  destruct Hh as [La Hp].
  destruct (transform_after_hollow (slen d) (with_position a (op_position a - op_length b + u32_mod)) c)
    as (T & P & L); try done; [cbn; lia|].
  rewrite <- P. unfold fits in Hc. rewrite Tc in Hc.
  apply apply_delete_tail; rewrite ?P; (done || lia).
Qed.

Lemma hollow_delete_wipes_tail_witness :
  apply "ABCDEFGH" (fst (transform (fst (transform (make_delete 1 0 "" 2 0) (make_delete 0 3 "" 1 0)))
                                   (make_delete 3 2 "" 3 0))) = "ABC"%string.
Proof.
  rewrite (hollow_delete_wipes_tail "ABCDEFGH");
    [reflexivity | vm_compute; auto | by vm_compute | done | done | done | done | done].
Defined.

(** Two insertions of one user at one offset are left alone by [transform]:
    the two orders agree exactly when the two texts commute. *)
Theorem same_user_tie d a b :
  fits (slen d) a -> fits (slen d) b -> room (slen d) a b ->
  op_type a = Insert -> op_type b = Insert ->
  op_position a = op_position b -> op_userId a = op_userId b ->
  apply (apply d a) (snd (transform a b)) = apply (apply d b) (fst (transform a b))
  <-> op_text b +:+ op_text a = op_text a +:+ op_text b.
Proof.
  intros Ha Hb Hr Ea Eb Hp Hu.
  pose proof (slen_nonneg (op_text a)) as Ta. pose proof (slen_nonneg (op_text b)) as Tb.
  unfold transform, transform_insert_insert. rewrite Ea, Eb, Hp, Hu, !Z.ltb_irrefl. cbn.
  unfold room in Hr.
  rewrite (apply_fits d a), (apply_fits d b) by ((done || lia)). rewrite Ea, Eb.
  unfold fits in *. rewrite Ea in Ha. rewrite Eb in Hb.
  rewrite !apply_fits; unfold fits; rewrite ?Ea, ?Eb, ?slen_str_insert by lia; [|lia..].
  rewrite Hp, !str_insert_insert_same by lia.
  split; [apply str_insert_inj | by intros ->].
Qed.

Lemma same_user_tie_witness :
  let a := make_insert 2 "X" 1 0 in let b := make_insert 2 "Y" 1 0 in
  apply (apply "HELLO" a) (snd (transform a b)) = apply (apply "HELLO" b) (fst (transform a b))
  <-> ("YX" = "XY")%string.
Proof.
  intros a b. apply (same_user_tie "HELLO" a b); [by vm_compute | by vm_compute | by vm_compute | done..].
Defined.
