(* ===== verification/Ladder.v ===== *)
(** * Transforming one operation across a sequence of operations

    The server transforms an incoming operation across the suffix of its history
    (Document::apply_with_ot); the client transforms a received operation across
    its pending operation and its buffer, and these across the received operation
    (OTController::handleBroadcast). Both are the ladder of this file. *)
From S2P Require Import Prelude ByteString Operation OT.
Local Open Scope Z_scope.

(** The loop of [handleBroadcast]: every operation [p] of the client's queue is
    replaced by its transform against the evolving received operation [s]. *)
Fixpoint transform_ladder (s : Operation) (ps : list Operation) : list Operation * Operation :=
  match ps with
  | [] => ([], s)
  | p :: ps =>
      let '(p', s') := transform p s in
      let '(ps', s'') := transform_ladder s' ps in
      (p' :: ps', s'')
  end.

(** The loop of [apply_with_ot]: the operation evolves, the history does not. *)
Definition transform_against (op : Operation) (hs : list Operation) : Operation :=
  foldl (fun o h => fst (transform o h)) op hs.

(** ** Conditions *)

Definition rung (d : string) (p s : Operation) : Prop :=
  fits (slen d) p /\ fits (slen d) s /\ room (slen d) p s /\ no_tie p s
  /\ ~ hollow_in p s /\ ~ hollow_in s p.
#[export] Instance rung_dec d p s : Decision (rung d p s).
Proof. unfold rung. apply _. Defined.

Fixpoint ladder_ok (d : string) (s : Operation) (ps : list Operation) : Prop :=
  match ps with
  | [] => fits (slen d) s
  | p :: ps => rung d p s /\ ladder_ok (apply d p) (snd (transform p s)) ps
  end.
#[export] Instance ladder_ok_dec d s ps : Decision (ladder_ok d s ps).
Proof. revert d s. induction ps; intros; cbn; apply _. Defined.

(** Each operation fits the document its predecessors lead to. *)
Fixpoint fits_chain (d : string) (ps : list Operation) : Prop :=
  match ps with
  | [] => True
  | p :: ps => fits (slen d) p /\ fits_chain (apply d p) ps
  end.
#[export] Instance fits_chain_dec d ps : Decision (fits_chain d ps).
Proof. revert d. induction ps; intros; cbn; apply _. Defined.

Fixpoint text_total (ps : list Operation) : Z :=
  match ps with
  | [] => 0
  | p :: ps => slen (op_text p) + text_total ps
  end.

(** No pair of deletes meets on the ladder. *)
Definition crosses (s : Operation) (ps : list Operation) : Prop :=
  op_type s = Insert \/ Forall (fun p => op_type p = Insert) ps.

(** ** The ladder commutes *)

Lemma apply_all_cons d p ps : apply_all d (p :: ps) = apply_all (apply d p) ps.
Proof. done. Qed.
Lemma apply_all_app d ps qs : apply_all d (ps ++ qs) = apply_all (apply_all d ps) qs.
Proof. apply foldl_app. Qed.

Lemma rung_converges d p s :
  rung d p s -> apply (apply d p) (snd (transform p s)) = apply (apply d s) (fst (transform p s)).
Proof. intros (Hp & Hs & Hr & Ht & _). by apply transform_converges. Qed.

Lemma slen_apply_rung d p s :
  rung d p s -> slen (apply d p) = slen d + grow p /\ slen (apply d s) = slen d + grow s.
Proof.
  intros (Hp & Hs & Hr & _). unfold room in Hr.
  pose proof (slen_nonneg (op_text p)). pose proof (slen_nonneg (op_text s)).
  split; apply slen_apply_fits; (done || lia).
Qed.

Lemma rung_fits d p s :
  rung d p s ->
  fits (slen (apply d s)) (fst (transform p s)) /\ fits (slen (apply d p)) (snd (transform p s)).
Proof.
  intros H. destruct (slen_apply_rung d p s H) as [-> ->].
  destruct H as (Hp & Hs & Hr & _ & Hps & Hsp). split; [by apply transform_fits_fst|].
  pose proof (transform_fits_fst d s p) as F. rewrite transform_swap in F.
  apply F; auto. unfold room in *. lia.
Qed.

Lemma ladder_converges d s ps :
  ladder_ok d s ps ->
  apply (apply_all d ps) (snd (transform_ladder s ps))
  = apply_all (apply d s) (fst (transform_ladder s ps)).
Proof.
  revert d s. induction ps as [|p ps IH]; intros d s; [done|]. cbn [ladder_ok transform_ladder].
  intros [Hr Hl]. rewrite apply_all_cons.
  pose proof (rung_converges d p s Hr) as Hc. specialize (IH _ _ Hl).
  destruct (transform p s) as [p' s']. cbn in *.
  destruct (transform_ladder s' ps) as [ps' s'']. cbn in *.
  by rewrite IH, Hc.
Qed.

Lemma ladder_fits d s ps :
  ladder_ok d s ps ->
  fits_chain (apply d s) (fst (transform_ladder s ps))
  /\ fits (slen (apply_all d ps)) (snd (transform_ladder s ps)).
Proof.
  revert d s. induction ps as [|p ps IH]; intros d s; [done|]. cbn [ladder_ok transform_ladder].
  intros [Hr Hl]. rewrite apply_all_cons. destruct (IH _ _ Hl) as [I1 I2].
  pose proof (rung_converges d p s Hr) as Hc. destruct (rung_fits d p s Hr) as [F1 F2].
  destruct (transform p s) as [p' s']. cbn in *.
  destruct (transform_ladder s' ps) as [ps' s'']. cbn in *.
  rewrite <- Hc. auto.
Qed.

Lemma transform_against_ladder s ps : transform_against s ps = snd (transform_ladder s ps).
Proof.
  revert s. induction ps as [|p ps IH]; intros s; [done|].
  change (transform_against s (p :: ps)) with (transform_against (fst (transform s p)) ps).
  rewrite IH. cbn. rewrite (transform_swap s p). cbn. destruct (transform p s). cbn.
  by destruct (transform_ladder _ _).
Qed.

Lemma length_transform_ladder s ps : length (fst (transform_ladder s ps)) = length ps.
Proof.
  revert s. induction ps as [|p ps IH]; intros s; [done|].
  cbn. destruct (transform p s) as [p' s']. specialize (IH s').
  destruct (transform_ladder s' ps). cbn in *. by rewrite IH.
Qed.

Lemma op_type_transform_ladder s ps : op_type (snd (transform_ladder s ps)) = op_type s.
Proof.
  revert s. induction ps as [|p ps IH]; intros s; [done|].
  cbn. pose proof (op_type_transform_snd p s) as H. destruct (transform p s) as [p' s'].
  specialize (IH s'). destruct (transform_ladder s' ps). cbn in *. congruence.
Qed.

Lemma op_userId_transform_ladder s ps : op_userId (snd (transform_ladder s ps)) = op_userId s.
Proof.
  revert s. induction ps as [|p ps IH]; intros s; [done|].
  cbn. pose proof (op_userId_transform_snd p s) as H. destruct (transform p s) as [p' s'].
  specialize (IH s'). destruct (transform_ladder s' ps). cbn in *. congruence.
Qed.

(** ** When the conditions hold *)

Lemma slen_text_transform_snd p s : slen (op_text (snd (transform p s))) <= slen (op_text s).
Proof.
  unfold transform, transform_insert_insert, transform_insert_delete, transform_delete_delete.
  destruct (op_type p), (op_type s); repeat case_match; simplify_eq; cbn;
    rewrite ?slen_empty; auto using Z.le_refl, slen_nonneg.
Qed.

Lemma grow_le_text n p : fits n p -> grow p <= slen (op_text p).
Proof. unfold fits, grow. pose proof (slen_nonneg (op_text p)). destruct (op_type p); lia. Qed.

Lemma no_hollow_insert p s :
  op_type p = Insert \/ op_type s = Insert -> ~ hollow_in p s /\ ~ hollow_in s p.
Proof. unfold hollow_in. intros [->| ->]; [destruct (op_type s)|destruct (op_type p)]; auto. Qed.

Lemma text_total_nonneg ps : 0 <= text_total ps.
Proof. induction ps as [|p ps IH]; cbn; [lia|]. pose proof (slen_nonneg (op_text p)). lia. Qed.

Lemma ladder_ok_crosses d s ps :
  fits (slen d) s -> fits_chain d ps -> crosses s ps ->
  Forall (fun p => op_userId p <> op_userId s) ps ->
  slen d + slen (op_text s) + text_total ps < i32_half ->
  ladder_ok d s ps.
Proof.
  revert d s. induction ps as [|p ps IH]; intros d s Hs Hc Hx Hu Hb; [done|].
  destruct Hc as [Hp Hc]. apply Forall_cons in Hu as [Hup Hu].
  cbn [ladder_ok text_total] in Hb |- *.
  pose proof (text_total_nonneg ps). pose proof (grow_le_text _ _ Hp).
  assert (op_type p = Insert \/ op_type s = Insert) as Hps.
  { destruct Hx as [|Hx]; [auto|]. apply Forall_cons in Hx as [? _]. auto. }
  assert (rung d p s) as Hr.
  { refine (conj Hp (conj Hs (conj _ (conj _ (no_hollow_insert _ _ Hps))))).
    - unfold room. lia.
    - unfold no_tie. by destruct (op_type p), (op_type s). }
  split; [done|]. destruct (rung_fits d p s Hr) as [_ Fs].
  pose proof (slen_text_transform_snd p s) as Ht.
  destruct (slen_apply_rung d p s Hr) as [Sp _].
  apply IH; auto; rewrite ?op_userId_transform_snd; auto; [|lia].
  destruct Hx as [Hx|Hx]; [left; by rewrite op_type_transform_snd|right].
  by apply Forall_cons in Hx as [_ Hx].
Qed.

(** ** Operations up to what the wire does not carry

    A broadcast entry carries the type, the offset and, for an insertion, the
    text and, for a deletion, the length. Two operations are equivalent when
    they agree on these and on the user: [transform] and [apply] do not tell
    them apart. *)
#[export] Instance op_equiv : Equiv Operation := fun a b =>
  op_type a = op_type b /\ op_position a = op_position b /\ op_length a = op_length b
  /\ op_userId a = op_userId b /\ (op_type a = Insert -> op_text a = op_text b).

#[export] Instance op_equivalence : Equivalence (≡@{Operation}).
Proof.
  split.
  - intros a. by repeat split.
  - intros a b (H1 & H2 & H3 & H4 & H5). repeat split; auto; try congruence.
    intros. symmetry. apply H5. congruence.
  - intros a b c (H1 & H2 & H3 & H4 & H5) (G1 & G2 & G3 & G4 & G5).
    unfold equiv, op_equiv. rewrite H1, H2, H3, H4. repeat split; try done.
    intros Hb. rewrite H5 by congruence. auto.
Qed.

#[export] Instance transform_proper : Proper ((≡) ==> (≡) ==> (≡)) transform.
Proof.
  intros a a' (H1 & H2 & H3 & H4 & H5) b b' (G1 & G2 & G3 & G4 & G5).
  assert (delete_overlap a b = delete_overlap a' b') as Ho by (unfold delete_overlap; by rewrite H2, H3, G2, G3).
  destruct a as [[] pa ta la ua ra], a' as [[] pa' ta' la' ua' ra']; cbn in *; try discriminate;
  destruct b as [[] pb tb lb ub rb], b' as [[] pb' tb' lb' ub' rb']; cbn in *; try discriminate;
  subst; unfold transform, transform_insert_insert, transform_insert_delete,
    transform_delete_delete; cbn; rewrite ?Ho; repeat case_match; simplify_eq; by repeat split; cbn; auto.
Qed.

#[export] Instance apply_proper : Proper ((=) ==> (≡) ==> (=)) apply.
Proof.
  intros d ? <- a a' (H1 & H2 & H3 & H4 & H5). unfold apply, is_noop.
  rewrite <- H1, <- H2, <- H3. destruct (op_type a); [by rewrite H5|done].
Qed.

#[export] Instance fits_proper n : Proper ((≡) ==> iff) (fits n).
Proof.
  intros a a' (H1 & H2 & H3 & H4 & H5). unfold fits. rewrite <- H1, <- H2, <- H3.
  destruct (op_type a); [by rewrite H5|done].
Qed.

#[export] Instance transform_ladder_proper :
  Proper ((≡) ==> (≡) ==> (≡)) transform_ladder.
Proof.
  intros s s' Hs ps ps' Hps. revert s s' Hs.
  induction Hps as [|p p' ps ps' Hp Hps IH]; intros s s' Hs; [by split; [constructor|]|].
  cbn. pose proof (transform_proper p p' Hp s s' Hs) as [E1 E2].
  destruct (transform p s), (transform p' s'). cbn in *.
  pose proof (IH _ _ E2) as [I1 I2].
  destruct (transform_ladder _ ps), (transform_ladder _ ps'). cbn in *.
  split; cbn; [by constructor|done].
Qed.

#[export] Instance transform_against_proper :
  Proper ((≡) ==> (≡) ==> (≡)) transform_against.
Proof.
  intros s s' Hs ps ps' Hps. rewrite !transform_against_ladder.
  by apply (transform_ladder_proper s s' Hs ps ps' Hps).
Qed.

#[export] Instance apply_all_proper : Proper ((=) ==> (≡) ==> (=)) apply_all.
Proof.
  intros d ? <- ps ps' Hps. revert d. induction Hps as [|p p' ps ps' Hp Hps IH]; intros d; [done|].
  rewrite !apply_all_cons, IH. by rewrite (apply_proper d d eq_refl p p' Hp).
Qed.

(** ** Properties *)

(** C15: an operation [s] transformed across a sequence [ps] has, after the sequence, the
    effect it has before the transformed sequence: applying [ps] and then the evolved [s]
    leads to the document that [s] followed by the transformed [ps] leads to. Assumed
    ([ladder_ok]): at every rung, that is for each operation of [ps] and [s] as evolved so
    far, both fit the document at that point, all lengths together stay below 2 GiB, they
    are not two inserts of one user at one position, and neither is a delete of length 0
    strictly inside the other one ([OT.hollow_delete_wipes_tail] is what happens then). *)
Theorem transform_ladder_convergence d s ps :
  ladder_ok d s ps ->
  apply (apply_all d ps) (transform_against s ps)
  = apply_all (apply d s) (fst (transform_ladder s ps)).
Proof. rewrite transform_against_ladder. apply ladder_converges. Qed.

Lemma transform_ladder_convergence_witness :
  let s := make_insert 1 "X" 1 0 in
  let ps := [make_delete 3 1 "" 2 0; make_insert 4 "Z" 3 1] in
  apply (apply_all "ABCDE" ps) (transform_against s ps)
  = apply_all (apply "ABCDE" s) (fst (transform_ladder s ps)).
Proof.
  intros s ps. apply (transform_ladder_convergence "ABCDE" s ps).
  decide_now.
Defined.

(** The conditions of the ladder hold whenever no two deletes meet on it:
    the operation and the sequence fit, the users differ, and everything stays
    below two gigabytes. *)
Theorem ladder_without_delete_pairs d s ps :
  fits (slen d) s -> fits_chain d ps -> crosses s ps ->
  Forall (fun p => op_userId p <> op_userId s) ps ->
  slen d + slen (op_text s) + text_total ps < i32_half ->
  apply (apply_all d ps) (transform_against s ps)
  = apply_all (apply d s) (fst (transform_ladder s ps))
  /\ fits (slen (apply_all d ps)) (transform_against s ps)
  /\ fits_chain (apply d s) (fst (transform_ladder s ps)).
Proof.
  intros Hs Hc Hx Hu Hb. pose proof (ladder_ok_crosses d s ps Hs Hc Hx Hu Hb) as H.
  rewrite transform_against_ladder. split; [by apply ladder_converges|].
  destruct (ladder_fits d s ps H). auto.
Qed.

Lemma ladder_without_delete_pairs_witness :
  let s := make_insert 1 "X" 1 0 in
  let ps := [make_delete 0 3 "" 2 0; make_delete 0 2 "" 3 1] in
  apply (apply_all "ABCDE" ps) (transform_against s ps)
  = apply_all (apply "ABCDE" s) (fst (transform_ladder s ps)).
Proof.
  intros s ps. refine (proj1 (ladder_without_delete_pairs "ABCDE" s ps _ _ _ _ _));
    [decide_now | decide_now | by left | decide_now | decide_now].
Defined.

(** The information a broadcast does not carry (the text of a deletion, the
    revision) does not influence the transformation of a sequence. *)
Theorem ladder_ignores_unsent_fields s s' ps ps' :
  s ≡ s' -> ps ≡ ps' ->
  transform_ladder s ps ≡ transform_ladder s' ps' /\
  forall d, apply_all d ps = apply_all d ps' /\ apply d s = apply d s'.
Proof.
  intros Hs Hps. split; [by rewrite Hs, Hps|]. intros d.
  split; [by rewrite Hps | by rewrite Hs].
Qed.

Lemma ladder_ignores_unsent_fields_witness :
  transform_ladder (make_delete 0 2 "AB" 1 7) [make_insert 1 "X" 2 3]
  ≡ transform_ladder (make_delete 0 2 "" 1 0) [make_insert 1 "X" 2 4].
Proof.
  apply (ladder_ignores_unsent_fields (make_delete 0 2 "AB" 1 7) (make_delete 0 2 "" 1 0)
           [make_insert 1 "X" 2 3] [make_insert 1 "X" 2 4]);
    repeat constructor; discriminate.
Defined.
