(* ===== verification/Document.v ===== *)
(** * Server documents (core/include/collab/document.h, core/src/document.cpp)

    The state of a [Document], one definition per member function, the invariant
    that ties the history to the revision, and the refinement of an append-only
    log of operations. Every member function takes one lock for its whole body,
    so it is one atomic step; the incoming queue is the FIFO of its contents. *)
From S2P Require Import Prelude ByteString Operation OT Ladder.
Local Open Scope Z_scope.

Record Document := mkDocument {
  doc_id : Z;
  doc_title : string;
  doc_content : string;
  doc_revision : Z;
  doc_history : list Operation;
  doc_history_limit : Z;
  doc_oldest_revision : Z;
  doc_incoming_queue : list Operation;
  doc_subscribers : gset Z;
  doc_dirty : bool;
  doc_snapshot_threshold : Z;
  doc_last_snapshot_revision : Z;
}.

(** The result of [apply_with_ot]; on failure [transformed_op] is the
    value-initialised operation. *)
Record OTResult := mkOTResult {
  ot_success : bool;
  ot_error : string;
  ot_transformed_op : Operation;
}.

Definition default_operation : Operation := mkOp Insert 0 "" 0 0 0.

Definition new_Document (id : Z) (title : string) : Document :=
  mkDocument id title "" 0 [] 10000 0 [] ∅ false 100 0.

(** ** Operations of the class *)

(** The [for] loop of [apply_with_ot]: [i] runs from the operation's revision to
    the document's revision; an index outside the history transforms nothing. *)
Definition ot_loop (d : Document) (op : Operation) : Operation :=
  foldl (fun op i =>
           let history_index := i -₃₂ doc_oldest_revision d in
           match doc_history d !! Z.to_nat history_index with
           | Some h => fst (transform op h)
           | None => op
           end)
        op (seqZ (op_revision op) (doc_revision d - op_revision op)).

(** The [while] loop that drops the oldest history entries. *)
Fixpoint prune_history (limit : Z) (history : list Operation) (oldest : Z)
    : list Operation * Z :=
  match history with
  | [] => ([], oldest)
  | _ :: rest =>
      if limit <? Z.of_nat (length history) then prune_history limit rest (oldest +₃₂ 1)
      else (history, oldest)
  end.

Definition apply_with_ot (d : Document) (op : Operation) : OTResult * Document :=
  if (0 <? doc_revision d) && (op_revision op <? doc_oldest_revision d) then
    (mkOTResult false "revision_too_old" default_operation, d)
  else
    let op := ot_loop d op in
    let content := apply (doc_content d) op in
    let '(history, oldest) :=
      prune_history (doc_history_limit d) (doc_history d ++ [op]) (doc_oldest_revision d) in
    (mkOTResult true "" op,
     mkDocument (doc_id d) (doc_title d) content (doc_revision d +₃₂ 1) history
                (doc_history_limit d) oldest (doc_incoming_queue d) (doc_subscribers d)
                true (doc_snapshot_threshold d) (doc_last_snapshot_revision d)).

Definition with_queue (d : Document) (q : list Operation) : Document :=
  mkDocument (doc_id d) (doc_title d) (doc_content d) (doc_revision d) (doc_history d)
             (doc_history_limit d) (doc_oldest_revision d) q (doc_subscribers d)
             (doc_dirty d) (doc_snapshot_threshold d) (doc_last_snapshot_revision d).

Definition enqueue_operation (d : Document) (op : Operation) : Document :=
  with_queue d (doc_incoming_queue d ++ [op]).

(** [process_queue]: dequeue and apply until the queue is empty; the result is
    the number of operations taken from the queue, rejected ones included. *)
Fixpoint process_loop (q : list Operation) (d : Document) (count : Z) : Z * Document :=
  match q with
  | [] => (count, d)
  | op :: q => process_loop q (snd (apply_with_ot (with_queue d q) op)) (count + 1)
  end.
Definition process_queue (d : Document) : Z * Document :=
  process_loop (doc_incoming_queue d) d 0.

Definition set_content (d : Document) (content : string) : Document :=
  mkDocument (doc_id d) (doc_title d) content (doc_revision d) (doc_history d)
             (doc_history_limit d) (doc_oldest_revision d) (doc_incoming_queue d)
             (doc_subscribers d) (doc_dirty d) (doc_snapshot_threshold d)
             (doc_last_snapshot_revision d).
Definition with_dirty (d : Document) (dirty : bool) : Document :=
  mkDocument (doc_id d) (doc_title d) (doc_content d) (doc_revision d) (doc_history d)
             (doc_history_limit d) (doc_oldest_revision d) (doc_incoming_queue d)
             (doc_subscribers d) dirty (doc_snapshot_threshold d)
             (doc_last_snapshot_revision d).
Definition load_content (d : Document) (content : string) : Document :=
  with_dirty (set_content d content) false.
Definition mark_saved (d : Document) : Document := with_dirty d false.

Definition with_subscribers (d : Document) (s : gset Z) : Document :=
  mkDocument (doc_id d) (doc_title d) (doc_content d) (doc_revision d) (doc_history d)
             (doc_history_limit d) (doc_oldest_revision d) (doc_incoming_queue d) s
             (doc_dirty d) (doc_snapshot_threshold d) (doc_last_snapshot_revision d).
Definition subscribe (d : Document) (userId : Z) : Document :=
  with_subscribers d ({[userId]} ∪ doc_subscribers d).
Definition unsubscribe (d : Document) (userId : Z) : Document :=
  with_subscribers d (doc_subscribers d ∖ {[userId]}).
(** The cast of [size()] to [int]. *)
Definition subscriber_count (d : Document) : Z := i32 (Z.of_nat (size (doc_subscribers d))).

Definition history_size (d : Document) : Z := Z.of_nat (length (doc_history d)).
Definition set_history_limit (d : Document) (limit : Z) : Document :=
  mkDocument (doc_id d) (doc_title d) (doc_content d) (doc_revision d) (doc_history d)
             limit (doc_oldest_revision d) (doc_incoming_queue d) (doc_subscribers d)
             (doc_dirty d) (doc_snapshot_threshold d) (doc_last_snapshot_revision d).

Definition needs_snapshot (d : Document) : bool :=
  (0 <? doc_snapshot_threshold d) && (0 <? doc_revision d)
  && (doc_revision d mod doc_snapshot_threshold d =? 0)
  && negb (doc_revision d =? doc_last_snapshot_revision d).
Definition mark_snapshot_created (d : Document) : Document :=
  mkDocument (doc_id d) (doc_title d) (doc_content d) (doc_revision d) (doc_history d)
             (doc_history_limit d) (doc_oldest_revision d) (doc_incoming_queue d)
             (doc_subscribers d) (doc_dirty d) (doc_snapshot_threshold d) (doc_revision d).
Definition set_snapshot_threshold (d : Document) (threshold : Z) : Document :=
  mkDocument (doc_id d) (doc_title d) (doc_content d) (doc_revision d) (doc_history d)
             (doc_history_limit d) (doc_oldest_revision d) (doc_incoming_queue d)
             (doc_subscribers d) (doc_dirty d) threshold (doc_last_snapshot_revision d).

(** ** Invariant

    The history is the window of revisions from [oldest_revision_] to
    [revision_]; the revision counter has not wrapped around. *)
Definition doc_wf (d : Document) : Prop :=
  0 <= doc_oldest_revision d
  /\ doc_oldest_revision d + Z.of_nat (length (doc_history d)) = doc_revision d
  /\ doc_revision d < u32_mod
  /\ 0 <= doc_history_limit d.
#[export] Instance doc_wf_dec d : Decision (doc_wf d).
Proof. unfold doc_wf. apply _. Defined.

(** The history entries an operation made at revision [r] has not seen. *)
Definition unseen (d : Document) (r : Z) : list Operation :=
  drop (Z.to_nat (r - doc_oldest_revision d)) (doc_history d).

(** ** The append-only log a document implements

    [log]: every accepted operation, in the form it was applied. *)
Record DocLog := mkDocLog { log_base : string; log : list Operation }.

Definition log_content (l : DocLog) : string := apply_all (log_base l) (log l).
Definition log_submit (l : DocLog) (op : Operation) : Operation * DocLog :=
  let op := transform_against op (drop (Z.to_nat (op_revision op)) (log l)) in
  (op, mkDocLog (log_base l) (log l ++ [op])).

Definition refines (d : Document) (l : DocLog) : Prop :=
  doc_wf d
  /\ doc_content d = log_content l
  /\ doc_revision d = Z.of_nat (length (log l))
  /\ doc_history d = drop (Z.to_nat (doc_oldest_revision d)) (log l).

(** ** Lemmas *)

Lemma ot_loop_window d op0 r n :
  doc_wf d -> doc_oldest_revision d <= r -> r + Z.of_nat n = doc_revision d ->
  foldl (fun op i => match doc_history d !! Z.to_nat (i -₃₂ doc_oldest_revision d) with
                     | Some h => fst (transform op h) | None => op end)
        op0 (seqZ r (Z.of_nat n))
  = transform_against op0 (unseen d r).
Proof.
  intros (H0 & Hlen & Hrev & _). revert op0 r. induction n as [|n IH]; intros op0 r Hr Hn.
  - unfold unseen. rewrite drop_ge by lia. done.
  - rewrite seqZ_cons by lia. replace (Z.pred (Z.of_nat (S n))) with (Z.of_nat n) by lia.
    cbn [foldl]. rewrite IH by lia. rewrite u32_small by (unfold is_u32; lia).
    destruct (lookup_lt_is_Some_2 (doc_history d) (Z.to_nat (r - doc_oldest_revision d))) as [h Hh]; [lia|].
    rewrite Hh. unfold unseen. rewrite (drop_S _ _ _ Hh).
    replace (Z.to_nat (Z.succ r - doc_oldest_revision d))
      with (S (Z.to_nat (r - doc_oldest_revision d))) by lia. done.
Qed.

(** The loop transforms the operation against exactly the history it has not
    seen; an operation from the current revision or a later one is unchanged. *)
Lemma ot_loop_unseen d op :
  doc_wf d -> doc_oldest_revision d <= op_revision op ->
  ot_loop d op = transform_against op (unseen d (op_revision op)).
Proof.
  intros Hwf Hr. unfold ot_loop. destruct (Z.le_gt_cases (op_revision op) (doc_revision d)) as [Hle|Hgt].
  - pose proof (ot_loop_window d op (op_revision op) (Z.to_nat (doc_revision d - op_revision op)) Hwf Hr) as H.
    rewrite Z2Nat.id in H by lia. apply H. lia.
  - rewrite seqZ_nil by lia. destruct Hwf as (H0 & Hlen & _). unfold unseen.
    rewrite drop_ge by lia. done.
Qed.

Lemma prune_history_drop limit h oldest :
  0 <= limit -> 0 <= oldest -> oldest + Z.of_nat (length h) < u32_mod ->
  let k := Z.to_nat (Z.of_nat (length h) - limit) in
  prune_history limit h oldest = (drop k h, oldest + Z.of_nat k).
Proof.
  intros Hl. revert oldest. induction h as [|x h IH]; intros oldest Ho Hw.
  - cbn. f_equal; [by rewrite drop_nil | lia].
  - cbn [prune_history]. destruct (Z.ltb_spec limit (Z.of_nat (length (x :: h)))) as [Hlt|Hge].
    + cbn in Hw, Hlt. unwrap. rewrite IH by lia. cbn [length].
      replace (Z.to_nat (Z.of_nat (S (length h)) - limit))
        with (S (Z.to_nat (Z.of_nat (length h) - limit))) by lia.
      cbn. f_equal. lia.
    + replace (Z.to_nat (Z.of_nat (length (x :: h)) - limit)) with 0%nat by lia.
      cbn. f_equal. lia.
Qed.

(** The branches of [apply_with_ot]. *)
Lemma apply_with_ot_too_old d op :
  0 < doc_revision d -> op_revision op < doc_oldest_revision d ->
  apply_with_ot d op = (mkOTResult false "revision_too_old" default_operation, d).
Proof.
  intros H1 H2. unfold apply_with_ot.
  by rewrite (proj2 (Z.ltb_lt _ _) H1), (proj2 (Z.ltb_lt _ _) H2).
Qed.

Lemma apply_with_ot_accepted d op :
  doc_wf d -> doc_revision d + 1 < u32_mod -> doc_oldest_revision d <= op_revision op ->
  let op' := transform_against op (unseen d (op_revision op)) in
  let k := Z.to_nat (history_size d + 1 - doc_history_limit d) in
  apply_with_ot d op =
    (mkOTResult true "" op',
     mkDocument (doc_id d) (doc_title d) (apply (doc_content d) op') (doc_revision d + 1)
       (drop k (doc_history d ++ [op'])) (doc_history_limit d)
       (doc_oldest_revision d + Z.of_nat k) (doc_incoming_queue d) (doc_subscribers d)
       true (doc_snapshot_threshold d) (doc_last_snapshot_revision d)).
Proof.
  intros Hwf Hw Hr op' k. unfold apply_with_ot.
  rewrite (proj2 (Z.ltb_ge (op_revision op) _) Hr), andb_false_r.
  rewrite ot_loop_unseen by done. fold op'. destruct Hwf as (H0 & Hlen & Hrev & Hlim).
  assert (length (doc_history d ++ [op']) = S (length (doc_history d))) as Hl
    by (rewrite length_app; cbn; lia).
  rewrite prune_history_drop by (rewrite ?Hl; lia). rewrite Hl. unwrap.
  unfold k, history_size.
  by replace (Z.of_nat (S (length (doc_history d)))) with (Z.of_nat (length (doc_history d)) + 1) by lia.
Qed.

Lemma apply_with_ot_cases d op :
  doc_wf d -> 0 <= op_revision op ->
  (0 < doc_revision d /\ op_revision op < doc_oldest_revision d)
  \/ doc_oldest_revision d <= op_revision op.
Proof. intros (H0 & Hlen & Hrev & Hlim) Hop. lia. Qed.

Lemma apply_with_ot_wf d op :
  doc_wf d -> 0 <= op_revision op -> doc_revision d + 1 < u32_mod ->
  doc_wf (snd (apply_with_ot d op)).
Proof.
  intros Hwf Hop Hw. destruct (apply_with_ot_cases d op Hwf Hop) as [[Hp Hr]|Hr].
  - by rewrite apply_with_ot_too_old.
  - rewrite apply_with_ot_accepted by done. destruct Hwf as (H0 & Hlen & Hrev & Hlim).
    unfold doc_wf; cbn. rewrite length_drop, length_app. unfold history_size. cbn. lia.
Qed.

(** ** Steps of a document

    The member functions the server calls; [set_content] and [load_content] only
    initialise a document. *)
Inductive DocStep : Document -> Document -> Prop :=
| step_apply d op : is_u32 (op_revision op) -> doc_revision d + 1 < u32_mod ->
    DocStep d (snd (apply_with_ot d op))
| step_enqueue d op : DocStep d (enqueue_operation d op)
| step_subscribe d u : DocStep d (subscribe d u)
| step_unsubscribe d u : DocStep d (unsubscribe d u)
| step_mark_saved d : DocStep d (mark_saved d)
| step_mark_snapshot d : DocStep d (mark_snapshot_created d)
| step_history_limit d limit : is_u32 limit -> DocStep d (set_history_limit d limit)
| step_threshold d t : is_u32 t -> DocStep d (set_snapshot_threshold d t).

Definition doc_init (id : Z) (title content : string) : Document :=
  load_content (new_Document id title) content.

Lemma refines_init id title content :
  refines (doc_init id title content) (mkDocLog content []).
Proof. by repeat split. Qed.

Lemma refines_apply d l op :
  refines d l -> 0 <= op_revision op -> doc_revision d + 1 < u32_mod ->
  doc_oldest_revision d <= op_revision op ->
  ot_transformed_op (fst (apply_with_ot d op)) = fst (log_submit l op)
  /\ refines (snd (apply_with_ot d op)) (snd (log_submit l op)).
Proof.
  intros (Hwf & Hc & Hrev & Hh) Hop Hw Hr.
  pose proof (apply_with_ot_wf d op Hwf Hop Hw) as Hwf'.
  revert Hwf'. rewrite apply_with_ot_accepted by done. cbn.
  assert (unseen d (op_revision op) = drop (Z.to_nat (op_revision op)) (log l)) as Hu.
  { destruct Hwf as (H0 & _). unfold unseen. rewrite Hh, drop_drop. f_equal. lia. }
  rewrite Hu. intros Hwf'. split; [done|]. split; [done|]. cbn. repeat split.
  - unfold log_content. rewrite apply_all_app, Hc. done.
  - rewrite length_app. cbn. lia.
  - destruct Hwf as (H0 & Hlen & _). rewrite Hh at 1. 
    rewrite <- (drop_app_le (log l)) by lia. rewrite drop_drop. f_equal. lia.
Qed.

Lemma refines_step d d' l : refines d l -> DocStep d d' -> exists l', refines d' l' /\ log_base l' = log_base l.
Proof.
  intros Hl Hs. inversion Hs as [? op Hop Hw| | | | | | ? ? [Hlim _] | ]; subst;
    try (exists l; split; [exact Hl|done]).
  - destruct (apply_with_ot_cases d op (proj1 Hl) (proj1 Hop)) as [[Hp Hr]|Hr].
    + rewrite apply_with_ot_too_old by done. by exists l.
    + destruct (refines_apply d l op Hl (proj1 Hop) Hw Hr) as [_ R]. by eexists.
  - exists l. destruct Hl as ((H0 & H1 & H2 & H3) & Hl). by split; [split|].
Qed.

Lemma refines_steps d d' l :
  refines d l -> rtc DocStep d d' -> exists l', refines d' l' /\ log_base l' = log_base l.
Proof.
  intros Hl Hs. revert l Hl. induction Hs as [d|d d1 d' H1 _ IH]; intros l Hl; [by exists l|].
  destruct (refines_step d d1 l Hl H1) as (l1 & R1 & E1).
  destruct (IH l1 R1) as (l' & R & E). exists l'. by rewrite E.
Qed.

Lemma with_queue_apply d q op :
  snd (apply_with_ot (with_queue d q) op) = with_queue (snd (apply_with_ot d op)) q
  /\ fst (apply_with_ot (with_queue d q) op) = fst (apply_with_ot d op).
Proof.
  unfold apply_with_ot. replace (ot_loop (with_queue d q) op) with (ot_loop d op) by done.
  cbn. destruct (_ && _); [done|]. by destruct (prune_history _ _ _).
Qed.

Lemma process_loop_spec q d count :
  process_loop q d count =
    (count + Z.of_nat (length q),
     match q with
     | [] => d
     | _ => with_queue (foldl (fun d op => snd (apply_with_ot d op)) d q) []
     end).
Proof.
  revert d count. induction q as [|op q IH]; intros d count; cbn [process_loop length].
  - f_equal. cbn. lia.
  - rewrite IH. f_equal; [lia|]. destruct (with_queue_apply d q op) as [-> _].
    destruct q as [|op2 q]; [done|]. cbn [foldl].
    set (d1 := snd (apply_with_ot d op)).
    assert (forall ops e p, with_queue (foldl (fun d op => snd (apply_with_ot d op)) (with_queue e p) ops) []
                       = with_queue (foldl (fun d op => snd (apply_with_ot d op)) e ops) []) as Hq.
    { intros ops. induction ops as [|o ops IHo]; intros e p; [done|]. cbn [foldl].
      destruct (with_queue_apply e p o) as [-> _]. apply IHo. }
    apply (Hq (op2 :: q)).
Qed.

(** ** Properties *)

(** C9: a document implements an append-only log. In every state reached by its
    member functions, whatever history was dropped on the way, an operation made
    at a revision the history still covers is transformed exactly as the full log
    would transform it, and the new state implements the extended log; an
    operation older than the history is rejected and changes nothing. *)
Theorem document_refines_log id title content d :
  rtc DocStep (doc_init id title content) d ->
  exists l, log_base l = content /\ refines d l /\
  forall op, is_u32 (op_revision op) -> doc_revision d + 1 < u32_mod ->
    let '(r, d') := apply_with_ot d op in
    if bool_decide (doc_oldest_revision d <= op_revision op) then
      ot_success r = true /\ ot_transformed_op r = fst (log_submit l op) /\ refines d' (snd (log_submit l op))
    else ot_success r = false /\ ot_error r = "revision_too_old"%string /\ d' = d.
Proof.
  intros Hs. destruct (refines_steps _ _ _ (refines_init id title content) Hs) as (l & R & E).
  exists l. split; [exact E|]. split; [exact R|]. intros op Hop Hw.
  case_bool_decide as Hr.
  - destruct (refines_apply d l op R (proj1 Hop) Hw Hr) as [T R'].
    rewrite (apply_with_ot_accepted d op (proj1 R) Hw Hr) in *. auto.
  - destruct (apply_with_ot_cases d op (proj1 R) (proj1 Hop)) as [[Hp Hlt]|]; [|done].
    by rewrite apply_with_ot_too_old.
Qed.

Lemma document_refines_log_witness :
  let d := snd (apply_with_ot (doc_init 1 "t" "ABC") (make_insert 1 "X" 1 0)) in
  exists l, log_base l = "ABC"%string /\ refines d l.
Proof.
  destruct (document_refines_log 1 "t" "ABC"
    (snd (apply_with_ot (doc_init 1 "t" "ABC") (make_insert 1 "X" 1 0)))) as (l & E & R & _).
  { apply rtc_once, step_apply; decide_now. }
  by exists l.
Defined.

(** C6: server convergence, for operations that meet no conflict. Let the content be what
    the history not seen by [op] leads to from the content [c] of the operation's own
    revision, let that history still be kept and the revision not be the last one, and let
    every rung of the ladder of [op] and that history be sound ([ladder_ok]: both
    operations fit the text at that point, all lengths together stay below 2 GiB, no two
    inserts of one user at one position, no delete of length 0 strictly inside the other
    delete). Then the operation is accepted, the revision goes up by one, and the new
    content is that of applying [op] to [c] itself and then the unseen history transformed
    against [op]: what a client computes that applies its own operation first. Without the
    last condition it can fail: [concurrent_deletes_wipe_document]. *)
Theorem apply_with_ot_converges d op c :
  doc_wf d -> doc_revision d + 1 < u32_mod -> doc_oldest_revision d <= op_revision op ->
  let hs := unseen d (op_revision op) in
  doc_content d = apply_all c hs -> ladder_ok c op hs ->
  let '(r, d') := apply_with_ot d op in
  ot_success r = true /\ doc_revision d' = doc_revision d + 1 /\ doc_dirty d' = true /\
  doc_content d' = apply_all (apply c op) (fst (transform_ladder op hs)).
Proof.
  intros Hwf Hw Hr hs Hc Hl. rewrite apply_with_ot_accepted by done. fold hs. cbn.
  repeat split. rewrite Hc, transform_against_ladder. by apply ladder_converges.
Qed.

Lemma apply_with_ot_converges_witness :
  let d := snd (apply_with_ot (doc_init 1 "t" "ABCDE") (make_insert 1 "X" 1 0)) in
  doc_content (snd (apply_with_ot d (make_delete 3 1 "D" 2 0))) = "AXBCE"%string.
Proof.
  intros d.
  pose proof (apply_with_ot_converges d (make_delete 3 1 "D" 2 0) "ABCDE") as H.
  cbv zeta in H. destruct (apply_with_ot d (make_delete 3 1 "D" 2 0)) as [r d'] eqn:E.
  cbn [snd]. destruct H as (_ & _ & _ & ->);
    [decide_now | decide_now | decide_now | by vm_compute | decide_now | by vm_compute].
Defined.

(** The history window. Applying an operation keeps the invariant (the
    history covers exactly the revisions from the oldest to the current one) and
    leaves at most [history_limit_] entries. *)
Theorem apply_with_ot_window d op :
  doc_wf d -> is_u32 (op_revision op) -> doc_revision d + 1 < u32_mod ->
  doc_wf (snd (apply_with_ot d op)) /\
  (ot_success (fst (apply_with_ot d op)) = true ->
   history_size (snd (apply_with_ot d op)) <= doc_history_limit d /\
   doc_revision (snd (apply_with_ot d op)) = doc_revision d + 1).
Proof.
  intros Hwf Hop Hw. split; [by apply apply_with_ot_wf; [|destruct Hop|]|].
  destruct (apply_with_ot_cases d op Hwf (proj1 Hop)) as [[Hp Hr]|Hr].
  - by rewrite apply_with_ot_too_old.
  - intros _. rewrite apply_with_ot_accepted by done. split; [|done]. unfold history_size. cbn.
    rewrite length_drop, length_app. cbn. destruct Hwf as (_ & _ & _ & Hlim). lia.
Qed.

Lemma apply_with_ot_window_witness :
  let d := set_history_limit (doc_init 1 "t" "") 0 in
  doc_wf (snd (apply_with_ot d (make_insert 0 "1" 1 0))).
Proof.
  intros d. refine (proj1 (apply_with_ot_window d (make_insert 0 "1" 1 0) _ _ _)); decide_now.
Defined.

(** No check bounds an operation's revision from above: one that claims the
    current revision or any later one is applied as it was sent. *)
Theorem apply_with_ot_future d op :
  doc_wf d -> doc_revision d + 1 < u32_mod -> doc_revision d <= op_revision op ->
  ot_transformed_op (fst (apply_with_ot d op)) = op /\
  doc_content (snd (apply_with_ot d op)) = apply (doc_content d) op.
Proof.
  intros Hwf Hw Hr. assert (doc_oldest_revision d <= op_revision op) as Ho
    by (destruct Hwf as (? & ? & _); lia).
  rewrite apply_with_ot_accepted by done. cbn. unfold unseen.
  destruct Hwf as (? & ? & _). by rewrite drop_ge by lia.
Qed.

Lemma apply_with_ot_future_witness :
  ot_transformed_op (fst (apply_with_ot (doc_init 1 "t" "AB") (make_insert 1 "X" 1 4000000000)))
  = make_insert 1 "X" 1 4000000000.
Proof.
  refine (proj1 (apply_with_ot_future (doc_init 1 "t" "AB") (make_insert 1 "X" 1 4000000000) _ _ _));
    decide_now.
Defined.

(** Four concurrent deletes, each inside the document its author saw, of
    which the first covers the last one and the second covers what remains of it:
    the last one ends up erasing the whole rest of the document. *)
Example concurrent_deletes_wipe_document :
  let d0 := doc_init 1 "t" "ABCDEFGHIJKLMNOP" in
  let d1 := snd (apply_with_ot d0 (make_delete 1 5 "" 1 0)) in
  let d2 := snd (apply_with_ot d1 (make_delete 0 3 "" 2 1)) in
  let d3 := snd (apply_with_ot d2 (make_delete 0 1 "" 3 2)) in
  let d4 := snd (apply_with_ot d3 (make_delete 2 2 "" 4 0)) in
  doc_content d3 = "JKLMNOP"%string /\ doc_content d4 = ""%string.
Proof. split; vm_compute; reflexivity. Qed.

(** [process_queue] takes every queued operation exactly once, in the order
    of the queue, and leaves the queue empty. *)
Theorem process_queue_drains d :
  fst (process_queue d) = Z.of_nat (length (doc_incoming_queue d)) /\
  snd (process_queue d)
  = with_queue (foldl (fun d op => snd (apply_with_ot d op)) d (doc_incoming_queue d)) [].
Proof.
  unfold process_queue. rewrite process_loop_spec. split; [done|]. cbn.
  destruct (doc_incoming_queue d) eqn:E; [|done]. by destruct d; cbn in *; subst.
Qed.

(** A snapshot is due at most once per revision: right after one is recorded
    none is due, and it stays so until the revision changes. *)
Theorem snapshot_once_per_revision d d' :
  rtc DocStep (mark_snapshot_created d) d' ->
  doc_wf d ->
  doc_revision d' = doc_revision d -> needs_snapshot d' = false.
Proof.
  intros Hs Hwf Hr.
  assert (doc_wf d' /\ doc_revision d <= doc_revision d' /\
          (doc_revision d' = doc_revision d -> doc_last_snapshot_revision d' = doc_revision d))
    as (_ & _ & Hl).
  { clear Hr. remember (mark_snapshot_created d) as d0 eqn:E0.
    assert (doc_wf d0 /\ doc_revision d <= doc_revision d0 /\
            (doc_revision d0 = doc_revision d -> doc_last_snapshot_revision d0 = doc_revision d)) as H0.
    { subst d0. split; [exact Hwf|]. cbn. lia. }
    clear E0. induction Hs as [d1|d0 d1 d' Hst _ IH]; [exact H0|]. apply IH.
    destruct H0 as (W & L & S). inversion Hst as [? op Hop Hw| | | | | | ? ? [Hlim _]|]; subst;
      try (by (split; [exact W|])).
    - split; [by apply apply_with_ot_wf; [|destruct Hop|]|].
      destruct (apply_with_ot_cases d0 op W (proj1 Hop)) as [[Hp Hro]|Hro].
      + by rewrite apply_with_ot_too_old.
      + rewrite apply_with_ot_accepted by done. cbn. lia.
    - destruct W as (? & ? & ? & ?). by split; [split|]. }
  unfold needs_snapshot. rewrite Hl by done. rewrite Hr, Z.eqb_refl. apply andb_false_r.
Qed.

Lemma snapshot_once_per_revision_witness :
  let d := snd (apply_with_ot (set_snapshot_threshold (doc_init 1 "t" "") 1) (make_insert 0 "a" 1 0)) in
  needs_snapshot d = true /\ needs_snapshot (mark_saved (mark_snapshot_created d)) = false.
Proof.
  intros d. split; [by vm_compute|].
  apply (snapshot_once_per_revision d);
    [apply rtc_once, step_mark_saved | decide_now | by vm_compute].
Defined.
