(* ===== verification/AccessControl.v ===== *)
(** * Access rights (core/include/collab/access_control.h, core/src/access_control.cpp)

    Every member function holds the mutex for its whole body: one atomic step on
    the map of rights. The map is keyed by the document id in the upper and the
    user id in the lower 32 bits. *)
From S2P Require Import Prelude.
Local Open Scope Z_scope.

Inductive Role := Owner | Editor | Viewer.
#[export] Instance Role_eq_dec : EqDecision Role.
Proof. solve_decision. Defined.

(** [rights_] *)
Abbreviation AccessControl := (gmap Z Role).

Definition make_key (docId userId : Z) : Z := u64 (Z.lor (Z.shiftl docId 32) userId).
(** The two halves of a key, as [revoke_all_for_document] and
    [list_documents_for_user] extract them. *)
Definition key_doc (key : Z) : Z := u32 (Z.shiftr key 32).
Definition key_user (key : Z) : Z := u32 (Z.land key 4294967295).

Definition get_role_locked (rights : AccessControl) (docId userId : Z) : option Role :=
  rights !! make_key docId userId.
Definition get_role (rights : AccessControl) (docId userId : Z) : option Role :=
  get_role_locked rights docId userId.

Definition grant (rights : AccessControl) (docId userId : Z) (role : Role) : AccessControl :=
  <[make_key docId userId := role]> rights.
Definition revoke (rights : AccessControl) (docId userId : Z) : AccessControl :=
  delete (make_key docId userId) rights.
(** The erasing iteration keeps the entries whose key has another document. *)
Definition revoke_all_for_document (rights : AccessControl) (docId : Z) : AccessControl :=
  filter (fun '(key, _) => key_doc key <> docId) rights.

Definition try_revoke (rights : AccessControl) (docId requesterId targetId : Z)
    : bool * AccessControl :=
  match rights !! make_key docId requesterId with
  | Some Owner =>
      if requesterId =? targetId then (false, rights)
      else match rights !! make_key docId targetId with
           | Some _ => (true, delete (make_key docId targetId) rights)
           | None => (false, rights)
           end
  | _ => (false, rights)
  end.

Definition can_read (rights : AccessControl) (docId userId : Z) : bool :=
  match get_role_locked rights docId userId with Some _ => true | None => false end.
Definition can_edit (rights : AccessControl) (docId userId : Z) : bool :=
  match get_role_locked rights docId userId with
  | Some role => bool_decide (role = Owner) || bool_decide (role = Editor)
  | None => false
  end.
Definition can_share (rights : AccessControl) (docId userId : Z) : bool :=
  match get_role_locked rights docId userId with
  | Some role => bool_decide (role = Owner)
  | None => false
  end.
Definition can_delete (rights : AccessControl) (docId userId : Z) : bool :=
  match get_role_locked rights docId userId with
  | Some role => bool_decide (role = Owner)
  | None => false
  end.

(** An [unordered_map] is iterated in no specified order: [map_to_list] is one
    order, and no theorem depends on it. *)
Definition list_documents_for_user (rights : AccessControl) (userId : Z) : list Z :=
  (fun kv => key_doc kv.1) <$> filter (fun kv => key_user kv.1 = userId) (map_to_list rights).

(** ** The invariant: every key was made from two 32-bit ids *)

Definition acl_wf (rights : AccessControl) : Prop :=
  forall key role, rights !! key = Some role -> is_u64 key.

(** ** Lemmas *)

Lemma make_key_arith d u : is_u32 d -> is_u32 u -> make_key d u = d * u32_mod + u.
Proof.
  unfold is_u32, make_key. intros Hd Hu. rewrite lor_shiftl_low by (lia).
  change (2 ^ 32) with 4294967296. by unwrap.
Qed.

Lemma key_doc_arith key : is_u64 key -> key_doc key = key / u32_mod.
Proof.
  unfold key_doc. intros H. rewrite Z.shiftr_div_pow2 by done.
  change (2 ^ 32) with u32_mod. width_lia.
Qed.
Lemma key_user_arith key : key_user key = key mod u32_mod.
Proof.
  unfold key_user. change 4294967295 with (Z.ones 32). rewrite Z.land_ones by done.
  change (2 ^ 32) with u32_mod. apply u32_idemp.
Qed.

Lemma is_u64_make_key d u : is_u64 (make_key d u).
Proof. apply is_u64_u64. Qed.
Lemma key_doc_make_key d u : is_u32 d -> is_u32 u -> key_doc (make_key d u) = d.
Proof.
  intros. rewrite key_doc_arith by apply is_u64_make_key. rewrite make_key_arith by done. width_lia.
Qed.
Lemma key_user_make_key d u : is_u32 d -> is_u32 u -> key_user (make_key d u) = u.
Proof. intros. rewrite key_user_arith, make_key_arith by done. width_lia. Qed.
Lemma make_key_halves key : is_u64 key -> make_key (key_doc key) (key_user key) = key.
Proof.
  intros H. rewrite make_key_arith; rewrite ?key_doc_arith, ?key_user_arith by done; width_lia.
Qed.
Lemma make_key_inj d u d' u' :
  is_u32 d -> is_u32 u -> is_u32 d' -> is_u32 u' ->
  make_key d u = make_key d' u' -> d = d' /\ u = u'.
Proof.
  intros. split.
  - rewrite <- (key_doc_make_key d u), <- (key_doc_make_key d' u') by done. congruence.
  - rewrite <- (key_user_make_key d u), <- (key_user_make_key d' u') by done. congruence.
Qed.
#[export] Hint Resolve is_u64_make_key : collab.

Lemma get_role_grant m d u r d' u' :
  is_u32 d -> is_u32 u -> is_u32 d' -> is_u32 u' ->
  get_role (grant m d u r) d' u'
  = if bool_decide (d = d' /\ u = u') then Some r else get_role m d' u'.
Proof.
  intros. unfold get_role, get_role_locked, grant. case_bool_decide as Hd.
  - destruct Hd as [-> ->]. apply lookup_insert_eq.
  - apply lookup_insert_ne. intros E. by apply make_key_inj in E.
Qed.
Lemma get_role_revoke m d u d' u' :
  is_u32 d -> is_u32 u -> is_u32 d' -> is_u32 u' ->
  get_role (revoke m d u) d' u'
  = if bool_decide (d = d' /\ u = u') then None else get_role m d' u'.
Proof.
  intros. unfold get_role, get_role_locked, revoke. case_bool_decide as Hd.
  - destruct Hd as [-> ->]. apply lookup_delete_eq.
  - apply lookup_delete_ne. intros E. by apply make_key_inj in E.
Qed.
Lemma get_role_revoke_all m d d' u' :
  is_u32 d' -> is_u32 u' ->
  get_role (revoke_all_for_document m d) d' u'
  = if bool_decide (d = d') then None else get_role m d' u'.
Proof.
  intros. unfold get_role, get_role_locked, revoke_all_for_document.
  rewrite map_lookup_filter. destruct (m !! make_key d' u') as [r|]; cbn; [|by case_bool_decide].
  rewrite key_doc_make_key by done. case_guard; case_bool_decide; done || congruence.
Qed.
Lemma try_revoke_cases m d requester target :
  try_revoke m d requester target =
    if bool_decide (get_role m d requester = Some Owner /\ requester <> target
                    /\ get_role m d target <> None)
    then (true, revoke m d target) else (false, m).
Proof.
  unfold try_revoke, get_role, get_role_locked, revoke.
  destruct (m !! make_key d requester) as [[]|] eqn:E; try (case_bool_decide; naive_solver).
  destruct (Z.eqb_spec requester target); [case_bool_decide; naive_solver|].
  destruct (m !! make_key d target); case_bool_decide; naive_solver.
Qed.

Lemma acl_wf_grant m d u r : acl_wf m -> acl_wf (grant m d u r).
Proof.
  intros H key role. unfold grant. rewrite lookup_insert. case_decide; intros; simplify_eq; eauto with collab.
Qed.
Lemma acl_wf_revoke m d u : acl_wf m -> acl_wf (revoke m d u).
Proof. intros H key role. unfold revoke. rewrite lookup_delete_Some. intros [_ ?]. eauto. Qed.
Lemma acl_wf_revoke_all m d : acl_wf m -> acl_wf (revoke_all_for_document m d).
Proof. intros H key role. unfold revoke_all_for_document. rewrite map_lookup_filter_Some. intros [? _]. eauto. Qed.
#[export] Hint Resolve acl_wf_grant acl_wf_revoke acl_wf_revoke_all : collab.

(** ** The abstract policy

    What the component promises its clients: a partial function from pairs of
    ids to roles. [implements m p] relates the packed map to it. *)
Abbreviation Policy := (gmap (Z * Z) Role).

Definition implements (m : AccessControl) (p : Policy) : Prop :=
  acl_wf m /\
  forall d u, is_u32 d -> is_u32 u -> get_role m d u = p !! (d, u).

(** ** Properties *)

(** A key determines the document and the user it was made from, and every
    64-bit key is the key of its two halves. *)
Theorem make_key_roundtrip :
  (forall d u, is_u32 d -> is_u32 u ->
     key_doc (make_key d u) = d /\ key_user (make_key d u) = u) /\
  (forall key, is_u64 key -> make_key (key_doc key) (key_user key) = key).
Proof. split; [intros; split; [by apply key_doc_make_key | by apply key_user_make_key]|].
  apply make_key_halves. Qed.

Lemma make_key_roundtrip_witness :
  key_doc (make_key 4294967295 7) = 4294967295 /\ key_user (make_key 4294967295 7) = 7.
Proof. apply (proj1 make_key_roundtrip); decide_now. Defined.

(** C24: the packed map implements the abstract policy. For 32-bit ids, every operation that
    changes rights acts on the policy as insertion, deletion of one pair, or deletion of
    all pairs of a document; and the conditional revocation deletes the target's pair, and
    only that, exactly when the requester owns the document, the target is another user and
    has a role, answers whether it did, and otherwise changes nothing. *)
Theorem access_control_refines_policy m p d u r requester :
  implements m p -> is_u32 d -> is_u32 u -> is_u32 requester ->
  implements (grant m d u r) (<[(d, u) := r]> p)
  /\ implements (revoke m d u) (delete (d, u) p)
  /\ implements (revoke_all_for_document m d) (filter (fun '((d', _), _) => d <> d') p)
  /\ let '(answer, m') := try_revoke m d requester u in
     (answer = true <-> p !! (d, requester) = Some Owner /\ requester <> u /\ is_Some (p !! (d, u)))
     /\ implements m' (if answer then delete (d, u) p else p).
Proof.
  intros [Hwf Hr] Hd Hu Hq.
  assert (implements (revoke m d u) (delete (d, u) p)) as Hrevoke.
  { split; [auto with collab|]. intros d' u' Hd' Hu'.
    rewrite get_role_revoke, lookup_delete by done. rewrite Hr by done. case_bool_decide; case_decide; naive_solver. }
  split_and!; [..|rewrite try_revoke_cases, !Hr by done; case_bool_decide as H]; try done.
  - split; [auto with collab|]. intros d' u' Hd' Hu'.
    rewrite get_role_grant, lookup_insert by done. rewrite Hr by done. case_bool_decide; case_decide; naive_solver.
  - split; [auto with collab|]. intros d' u' Hd' Hu'.
    rewrite get_role_revoke_all, map_lookup_filter by done. rewrite Hr by done.
    destruct (p !! (d', u')); cbn; [|by case_bool_decide]. case_bool_decide; case_guard; done || congruence.
  - split; [|done]. split; [intros _|done]. destruct H as (H1 & H2 & H3). split_and!; [done..|].
    by apply not_eq_None_Some.
  - split; [|by split]. split; [done|]. intros (H1 & H2 & H3). destruct H. split_and!; [done..|]. by apply not_eq_None_Some.
Qed.

Lemma access_control_refines_policy_witness :
  implements (revoke_all_for_document (grant ∅ 1 2 Owner) 3)
             (filter (fun '((d', _), _) => 3 <> d') (<[(1, 2) := Owner]> ∅)).
Proof.
  apply (access_control_refines_policy (grant ∅ 1 2 Owner) (<[(1, 2) := Owner]> ∅) 3 0 Viewer 2);
    [|decide_now|decide_now|decide_now].
  apply (access_control_refines_policy ∅ ∅ 1 2 Owner 2); [|decide_now|decide_now|decide_now].
  split; [intros key role H; discriminate H|]. intros d u _ _. reflexivity.
Defined.

(** [try_revoke] removes a right exactly when the requester owns the
    document, the target is another user and the target has a role; otherwise it
    returns false and changes nothing. The requester's own role always stays. *)
Theorem try_revoke_spec m d requester target :
  is_u32 d -> is_u32 requester -> is_u32 target ->
  let '(b, m') := try_revoke m d requester target in
  (b = true <-> get_role m d requester = Some Owner /\ requester <> target
                /\ get_role m d target <> None)
  /\ m' = (if b then revoke m d target else m)
  /\ get_role m' d requester = get_role m d requester.
Proof.
  intros Hd Hr Ht. rewrite try_revoke_cases. case_bool_decide as H; [|naive_solver].
  split_and!; [naive_solver|done|]. rewrite get_role_revoke by done.
  case_bool_decide; naive_solver.
Qed.

Lemma try_revoke_spec_witness :
  let m := grant (grant ∅ 1 10 Owner) 1 20 Editor in
  get_role (try_revoke m 1 10 20).2 1 10 = get_role m 1 10.
Proof.
  intros m. pose proof (try_revoke_spec m 1 10 20) as H.
  destruct (try_revoke m 1 10 20). apply H; decide_now.
Defined.

(** The permissions are ordered: whoever may delete or share may edit, and
    whoever may edit may read; a viewer may only read. *)
Theorem permissions_ordered m d u :
  can_delete m d u = can_share m d u
  /\ (can_share m d u = true -> can_edit m d u = true)
  /\ (can_edit m d u = true -> can_read m d u = true)
  /\ (can_edit m d u = true <-> get_role m d u = Some Owner \/ get_role m d u = Some Editor)
  /\ (can_share m d u = true <-> get_role m d u = Some Owner).
Proof.
  unfold can_delete, can_share, can_edit, can_read, get_role.
  destruct (get_role_locked m d u) as [[]|]; naive_solver.
Qed.

(** The document list of a user holds exactly the documents the user has a
    role on, each once. *)
Theorem list_documents_for_user_spec m u :
  acl_wf m -> is_u32 u ->
  NoDup (list_documents_for_user m u) /\
  forall d, is_u32 d -> (d ∈ list_documents_for_user m u <-> can_read m d u = true).
Proof.
  intros Hwf Hu.
  assert (forall kv, kv ∈ filter (fun kv => key_user kv.1 = u) (map_to_list m) ->
          m !! kv.1 = Some kv.2 /\ kv.1 = make_key (key_doc kv.1) u) as Hin.
  { intros [key r]. rewrite list_elem_of_filter, elem_of_map_to_list. intros [<- Hm].
    split; [done|]. cbn. symmetry. apply make_key_halves. eauto. }
  split.
  - unfold list_documents_for_user.
    apply NoDup_fmap_2_strong; [|apply NoDup_filter, NoDup_map_to_list].
    intros [k r] [k' r'] H1 H2 E. apply Hin in H1 as [M1 E1]. apply Hin in H2 as [M2 E2].
    cbn in *. assert (k = k') by congruence. subst. congruence.
  - intros d Hd. unfold list_documents_for_user, can_read, get_role_locked.
    rewrite list_elem_of_fmap. split.
    + intros ([k r] & -> & Hk). apply Hin in Hk as [M E]. cbn in *. rewrite <- E. by rewrite M.
    + destruct (m !! make_key d u) as [r|] eqn:E; [|done]. intros _.
      exists (make_key d u, r). cbn. rewrite key_doc_make_key by done. split; [done|].
      rewrite list_elem_of_filter, elem_of_map_to_list. cbn. by rewrite key_user_make_key.
Qed.

Lemma list_documents_for_user_spec_witness :
  7 ∈ list_documents_for_user (grant (grant ∅ 1 10 Owner) 7 20 Editor) 20.
Proof.
  refine (proj2 (proj2 (list_documents_for_user_spec (grant (grant ∅ 1 10 Owner) 7 20 Editor) 20 _ _) 7 _) _);
    [|decide_now|decide_now|by vm_compute].
  apply acl_wf_grant, acl_wf_grant. intros key role H. discriminate H.
Defined.
