(* ===== verification/AuthManager.v ===== *)
(** * Accounts (core/include/collab/{auth_manager,hash_utils}.h and their sources)

    The digest [CC_SHA256] and the random bytes of [arc4random_buf] come from the
    operating system: the digest is a parameter of the definitions, and each
    registration receives the random bytes it draws. *)
From S2P Require Import Prelude ByteString.
Local Open Scope Z_scope.

(** ** Hash utilities *)

(** One lower-case hexadecimal digit, as [std::format] prints it. *)
Definition hex_digit (n : Z) : ascii :=
  Ascii.ascii_of_nat (Z.to_nat (if n <? 10 then 48 + n else 87 + n)).
(** [std::format] of a byte with two digits and a leading zero. *)
Definition hex_byte (b : Z) : string :=
  String (hex_digit (b / 16)) (String (hex_digit (b mod 16)) EmptyString).
Fixpoint hex_string (bs : list Z) : string :=
  match bs with
  | [] => EmptyString
  | b :: bs => hex_byte b +:+ hex_string bs
  end.

Section HashUtils.
Context (CC_SHA256 : string -> list Z).

(** [generate_salt]: [buf] holds the random bytes. *)
Definition generate_salt (buf : list Z) : string := hex_string buf.
(** The length is passed as a 32-bit [CC_LONG]. *)
Definition sha256_hex (input : string) : string :=
  hex_string (CC_SHA256 (str_mid input 0 (u32 (slen input)))).
Definition hash_password (password salt : string) : string := sha256_hex (salt +:+ password).
Definition verify_password (password salt expected_hash : string) : bool :=
  bool_decide (hash_password password salt = expected_hash).
End HashUtils.

(** ** The account store *)

Record UserRecord := mkUserRecord {
  ur_id : Z;
  ur_username : string;
  ur_password_hash : string;
  ur_salt : string;
}.

Record AuthManager := mkAuthManager {
  am_users : gmap string UserRecord;
  am_next_id : Z;
}.

Record AuthResult := mkAuthResult { ar_success : bool; ar_userId : Z; ar_error : string }.

Definition new_AuthManager : AuthManager := mkAuthManager ∅ 1.

Section AuthManager.
Context (CC_SHA256 : string -> list Z).

Definition register_user (a : AuthManager) (buf : list Z) (username password : string)
    : AuthResult * AuthManager :=
  if bool_decide (username = ""%string) then (mkAuthResult false 0 "empty_username", a)
  else if bool_decide (password = ""%string) then (mkAuthResult false 0 "empty_password", a)
  else match am_users a !! username with
  | Some _ => (mkAuthResult false 0 "duplicate_username", a)
  | None =>
      let salt := generate_salt buf in
      let hash := hash_password CC_SHA256 password salt in
      let id := am_next_id a in
      (mkAuthResult true id "",
       mkAuthManager (<[username := mkUserRecord id username hash salt]> (am_users a))
                     (id +₃₂ 1))
  end.

Definition login (a : AuthManager) (username password : string) : AuthResult :=
  match am_users a !! username with
  | None => mkAuthResult false 0 "invalid_credentials"
  | Some record =>
      if verify_password CC_SHA256 password (ur_salt record) (ur_password_hash record)
      then mkAuthResult true (ur_id record) ""
      else mkAuthResult false 0 "invalid_credentials"
  end.

Definition get_stored_hash (a : AuthManager) (username : string) : string :=
  match am_users a !! username with None => "" | Some r => ur_password_hash r end.

Definition find_user_id (a : AuthManager) (username : string) : option Z :=
  match am_users a !! username with None => None | Some r => Some (ur_id r) end.

(** ** Invariant and steps

    Ids are handed out in order from 1, no two accounts share one, and an
    account is stored under its own name. The id counter wraps around after
    [2^32 - 1] registrations; the invariant holds before that. *)
Definition auth_wf (a : AuthManager) : Prop :=
  1 <= am_next_id a < u32_mod /\
  (forall n r, am_users a !! n = Some r ->
     ur_username r = n /\ n <> ""%string /\ 1 <= ur_id r < am_next_id a) /\
  (forall n n' r r', am_users a !! n = Some r -> am_users a !! n' = Some r' ->
     ur_id r = ur_id r' -> n = n').

(** The only operation that changes the store. *)
Inductive AuthStep : AuthManager -> AuthManager -> Prop :=
| auth_register a buf n p : am_next_id a + 1 < u32_mod ->
    AuthStep a (snd (register_user a buf n p)).

Lemma auth_wf_new : auth_wf new_AuthManager.
Proof. split; [split; by compute|]. split; intros *; cbn; rewrite lookup_empty; done. Qed.

Lemma register_user_cases a buf n p :
  (exists e, register_user a buf n p = (mkAuthResult false 0 e, a)) \/
  (n <> ""%string /\ p <> ""%string /\ am_users a !! n = None /\
   register_user a buf n p =
     (mkAuthResult true (am_next_id a) "",
      mkAuthManager (<[n := mkUserRecord (am_next_id a) n
                              (hash_password CC_SHA256 p (generate_salt buf)) (generate_salt buf)]>
                       (am_users a)) (am_next_id a +₃₂ 1))).
Proof.
  unfold register_user. case_bool_decide; [left; by eexists|].
  case_bool_decide; [left; by eexists|].
  destruct (am_users a !! n) eqn:E; [left; by eexists|right; auto].
Qed.

Lemma auth_wf_step a a' : auth_wf a -> AuthStep a a' -> auth_wf a'.
Proof.
  intros (Hn & Hr & Hu) Hs. inversion Hs as [? buf n p Hw]; subst.
  destruct (register_user_cases a buf n p) as [[e ->]|(N & P & F & ->)]; [by split|].
  cbn. split; [cbn; unwrap; lia|]. split.
  - intros n' r'. cbn. unwrap. rewrite lookup_insert. case_decide; [|intros H1; apply Hr in H1; naive_solver lia].
    intros [= <-]. subst n'. cbn. split_and!; (done || lia).
  - intros n1 n2 r1 r2. cbn. rewrite !lookup_insert. do 2 case_decide; intros; simplify_eq; try done.
    + exfalso. match goal with H : am_users a !! _ = Some _ |- _ => apply Hr in H end. cbn in *. lia.
    + exfalso. match goal with H : am_users a !! _ = Some _ |- _ => apply Hr in H end. cbn in *. lia.
    + eauto.
Qed.

Lemma auth_wf_steps a a' : auth_wf a -> rtc AuthStep a a' -> auth_wf a'.
Proof. intros H Hs. revert H. induction Hs; eauto using auth_wf_step. Qed.

(** An account is never changed or removed. *)
Lemma auth_step_keeps a a' n r :
  AuthStep a a' -> am_users a !! n = Some r -> am_users a' !! n = Some r.
Proof.
  intros Hs Hn. inversion Hs as [? buf n' p Hw]; subst.
  destruct (register_user_cases a buf n' p) as [[e ->]|(N & P & F & ->)]; [done|].
  cbn. rewrite lookup_insert_ne; [done|]. congruence.
Qed.
Lemma auth_steps_keep a a' n r :
  rtc AuthStep a a' -> am_users a !! n = Some r -> am_users a' !! n = Some r.
Proof. intros Hs. induction Hs; eauto using auth_step_keeps. Qed.
End AuthManager.

(** ** Hexadecimal printing *)

Lemma hex_digit_inj m n : 0 <= m < 16 -> 0 <= n < 16 -> hex_digit m = hex_digit n -> m = n.
Proof.
  intros Hm Hn H. unfold hex_digit in H.
  apply (f_equal Ascii.nat_of_ascii) in H.
  rewrite !Ascii.nat_ascii_embedding in H by (zcases; lia). revert H. zcases; lia.
Qed.

Lemma hex_string_inj l l' :
  Forall is_u8 l -> Forall is_u8 l' -> hex_string l = hex_string l' -> l = l'.
Proof.
  intros Hl. revert l'. induction Hl as [|b l Hb Hl IH]; intros [|b' l'] Hl' E; try done.
  apply Forall_cons in Hl' as [Hb' Hl']. unfold is_u8 in *.
  apply (f_equal bytes_of) in E. cbn in E. injection E as E1 E2 E3.
  apply hex_digit_inj in E1; [|split; [apply Z.div_pos|apply Z.div_lt_upper_bound]; lia..].
  apply hex_digit_inj in E2; [|apply Z.mod_pos_bound; lia..].
  f_equal; [|apply IH; [done|]; by apply bytes_of_inj].
  rewrite (Z.div_mod b 16), (Z.div_mod b' 16) by lia. congruence.
Qed.

Lemma slen_hex_string l : slen (hex_string l) = 2 * Z.of_nat (length l).
Proof.
  induction l as [|b l IH]; [done|]. rewrite slen_bytes in *. cbn [hex_string].
  rewrite bytes_of_app, length_app. cbn [length hex_byte bytes_of]. lia.
Qed.

(** ** Properties *)

(** A registered account can log in from then on, with its own password and
    its own id, whatever registrations follow. *)
Theorem register_then_login CC_SHA256 a buf n p r a' a'' :
  register_user CC_SHA256 a buf n p = (r, a') -> ar_success r = true ->
  rtc (AuthStep CC_SHA256) a' a'' ->
  login CC_SHA256 a'' n p = mkAuthResult true (ar_userId r) "" /\
  find_user_id a'' n = Some (ar_userId r).
Proof.
  intros E Hs Hsteps.
  destruct (register_user_cases CC_SHA256 a buf n p) as [[e F]|(_ & _ & _ & F)];
    rewrite E in F; injection F as -> ->; [done|]. cbn.
  eassert (am_users a'' !! n = Some _) as Hn
    by (eapply auth_steps_keep; [exact Hsteps|apply lookup_insert_eq]).
  unfold login, find_user_id. rewrite Hn. cbn. unfold verify_password.
  by rewrite bool_decide_true.
Qed.

Lemma register_then_login_witness :
  let a := snd (register_user (fun _ => [1; 2]) new_AuthManager [7] "ann" "pw") in
  login (fun _ => [1; 2]) a "ann" "pw" = mkAuthResult true 1 "".
Proof.
  intros a. apply (register_then_login (fun _ => [1; 2]) new_AuthManager [7] "ann" "pw"
                    (mkAuthResult true 1 "") a a); [by vm_compute | done | apply rtc_refl].
Defined.

(** A login succeeds exactly for a known account whose stored hash is the hash
    of the given password with the stored salt; every failure is reported with the
    same error, so it does not tell unknown names from wrong passwords. *)
Theorem login_spec CC_SHA256 a n p :
  (ar_success (login CC_SHA256 a n p) = true <->
   exists r, am_users a !! n = Some r /\
     hash_password CC_SHA256 p (ur_salt r) = ur_password_hash r) /\
  (ar_success (login CC_SHA256 a n p) = false ->
   login CC_SHA256 a n p = mkAuthResult false 0 "invalid_credentials").
Proof.
  unfold login, verify_password. destruct (am_users a !! n) as [r|]; cbn; [|naive_solver].
  case_bool_decide; cbn; naive_solver.
Qed.

(** A rejected registration changes nothing; the three checks are made in the
    order empty name, empty password, duplicate name; an accepted one adds exactly
    the new account. *)
Theorem register_user_spec CC_SHA256 a buf n p :
  let '(r, a') := register_user CC_SHA256 a buf n p in
  (n = ""%string -> r = mkAuthResult false 0 "empty_username") /\
  (n <> ""%string -> p = ""%string -> r = mkAuthResult false 0 "empty_password") /\
  (n <> ""%string -> p <> ""%string -> is_Some (am_users a !! n) ->
     r = mkAuthResult false 0 "duplicate_username") /\
  (ar_success r = false -> a' = a) /\
  (ar_success r = true ->
     am_users a !! n = None /\ ar_userId r = am_next_id a /\
     delete n (am_users a') = am_users a /\ is_Some (am_users a' !! n)).
Proof.
  unfold register_user. case_bool_decide; [naive_solver|].
  case_bool_decide; [naive_solver|].
  destruct (am_users a !! n) eqn:E; cbn; [naive_solver|].
  do 2 (split; [naive_solver|]). split; [intros _ _ [x Hx]; congruence|]. split; [done|].
  intros _. rewrite lookup_insert_eq, delete_insert_id by done. naive_solver.
Qed.

(** In every state reached from the empty store, ids are positive, below the
    counter and pairwise different, and an account is stored under its own name. *)
Theorem accounts_well_formed CC_SHA256 a :
  rtc (AuthStep CC_SHA256) new_AuthManager a ->
  auth_wf a /\
  forall n n' i, find_user_id a n = Some i -> find_user_id a n' = Some i -> n = n'.
Proof.
  intros Hs. pose proof (auth_wf_steps _ _ _ auth_wf_new Hs) as (Hn & Hr & Hu).
  split; [by split|]. unfold find_user_id. intros n n' i.
  destruct (am_users a !! n) eqn:E; [|done]. destruct (am_users a !! n') eqn:E'; [|done].
  intros [= <-] [= He]. eauto.
Qed.

Lemma accounts_well_formed_witness :
  auth_wf (snd (register_user (fun _ => []) new_AuthManager [] "ann" "pw")).
Proof.
  apply (accounts_well_formed (fun _ => [])). by apply rtc_once, auth_register.
Defined.

(** The printed digest and salt determine the bytes they print, and have two
    characters per byte. *)
Theorem hex_string_faithful l l' :
  Forall is_u8 l -> Forall is_u8 l' ->
  (hex_string l = hex_string l' <-> l = l') /\ slen (generate_salt l) = 2 * Z.of_nat (length l).
Proof.
  intros Hl Hl'. split; [|apply slen_hex_string].
  split; [by apply hex_string_inj | by intros ->].
Qed.

Lemma hex_string_faithful_witness :
  hex_string [171; 5] = hex_string [171; 5] <-> [171; 5] = [171; 5].
Proof. apply (hex_string_faithful [171; 5] [171; 5]); decide_now. Defined.
