(* ===== verification/TokenBucket.v ===== *)
(** * Rate limiting (core/include/collab/token_bucket.h, core/src/token_bucket.cpp)

    The bucket is one atomic 64-bit counter shared by threads. A call is a small
    program counter that moves by one atomic access at a time; the threads of a
    [TbSystem] interleave in any order, and a weak compare-exchange may fail
    spuriously. *)
From S2P Require Import Prelude.
Local Open Scope Z_scope.

(** ** One call *)

Inductive TbPc :=
| ConsumeStart (count : Z)
| ConsumeLoop (count current : Z)
| ConsumeDone (count : Z) (granted : bool)
| AdvanceStart (tokens_to_add : Z)
| AdvanceLoop (tokens_to_add current : Z)
| RefillStart
| Finished.
#[export] Instance TbPc_eq_dec : EqDecision TbPc.
Proof. solve_decision. Defined.

(** The number of tokens [advance_time] adds; [duration] is a signed 64-bit
    number of milliseconds. *)
Definition tokens_to_add (capacity duration : Z) : Z :=
  let n := u64 (capacity * u64 duration) / 1000 in
  if (n =? 0) && (0 <? duration) then 1 else n.

Definition try_consume (count : Z) : TbPc := ConsumeStart count.
Definition refill : TbPc := RefillStart.
Definition advance_time (capacity duration : Z) : TbPc :=
  AdvanceStart (tokens_to_add capacity duration).

(** One atomic access by a call: [spurious] makes the weak compare-exchange fail
    although the counter holds the expected value. *)
Definition tb_step (capacity : Z) (spurious : bool) (tokens : Z) (pc : TbPc) : Z * TbPc :=
  match pc with
  | ConsumeStart count => (tokens, ConsumeLoop count tokens)
  | ConsumeLoop count current =>
      if current <? count then (tokens, ConsumeDone count false)
      else if (tokens =? current) && negb spurious
      then (u64 (current - count), ConsumeDone count true)
      else (tokens, ConsumeLoop count tokens)
  | AdvanceStart add => (tokens, AdvanceLoop add tokens)
  | AdvanceLoop add current =>
      let new_val := Z.min (u64 (current + add)) capacity in
      if (tokens =? current) && negb spurious then (new_val, Finished)
      else (tokens, AdvanceLoop add tokens)
  | RefillStart => (capacity, Finished)
  | ConsumeDone _ _ | Finished => (tokens, pc)
  end.

(** A call that runs alone, without spurious failures. *)
Definition tb_run (n : nat) (capacity tokens : Z) (pc : TbPc) : Z * TbPc :=
  Nat.iter n (fun '(tokens, pc) => tb_step capacity false tokens pc) (tokens, pc).

(** ** Threads *)

Record TbSystem := mkTbSystem { tb_tokens : Z; tb_threads : list TbPc }.

Inductive TbStep (capacity : Z) : TbSystem -> TbSystem -> Prop :=
| tb_thread s i pc spurious tokens pc' :
    tb_threads s !! i = Some pc ->
    tb_step capacity spurious (tb_tokens s) pc = (tokens, pc') ->
    TbStep capacity s (mkTbSystem tokens (<[i := pc']> (tb_threads s)))
| tb_call s pc :
    match pc with ConsumeStart c => is_u32 c | AdvanceStart n => 0 <= n | RefillStart => True
    | _ => False end ->
    TbStep capacity s (mkTbSystem (tb_tokens s) (tb_threads s ++ [pc])).

(** [TokenBucket(capacity)]: the bucket starts full. *)
Definition new_TokenBucket (capacity : Z) : TbSystem := mkTbSystem capacity [].

Definition pc_ok (capacity : Z) (pc : TbPc) : Prop :=
  match pc with
  | ConsumeStart c | ConsumeDone c _ => 0 <= c
  | ConsumeLoop c current => 0 <= c /\ 0 <= current <= capacity
  | AdvanceStart n => 0 <= n
  | AdvanceLoop n current => 0 <= n /\ 0 <= current <= capacity
  | RefillStart | Finished => True
  end.

Definition tb_wf (capacity : Z) (s : TbSystem) : Prop :=
  0 <= tb_tokens s <= capacity /\ Forall (pc_ok capacity) (tb_threads s).

(** The tokens the finished calls obtained. *)
Definition pc_granted (pc : TbPc) : Z :=
  match pc with ConsumeDone c true => c | _ => 0 end.
Fixpoint total_granted (pcs : list TbPc) : Z :=
  match pcs with [] => 0 | pc :: pcs => pc_granted pc + total_granted pcs end.

Definition only_consumes (pc : TbPc) : Prop :=
  match pc with ConsumeStart _ | ConsumeLoop _ _ | ConsumeDone _ _ => True | _ => False end.

(** ** Lemmas *)

Lemma total_granted_insert pcs i pc pc' :
  pcs !! i = Some pc ->
  total_granted (<[i := pc']> pcs) = total_granted pcs - pc_granted pc + pc_granted pc'.
Proof.
  revert i. induction pcs as [|q pcs IH]; intros [|i] H; try done.
  - injection H as ->. cbn. lia.
  - change (pc_granted q + total_granted (<[i := pc']> pcs)
            = pc_granted q + total_granted pcs - pc_granted pc + pc_granted pc').
    rewrite (IH _ H). lia.
Qed.
Lemma total_granted_app pcs qs :
  total_granted (pcs ++ qs) = total_granted pcs + total_granted qs.
Proof. induction pcs as [|q pcs IH]; cbn; lia. Qed.

Lemma tb_step_ok capacity spurious tokens pc :
  capacity < u64_mod -> 0 <= tokens <= capacity -> pc_ok capacity pc ->
  let '(tokens', pc') := tb_step capacity spurious tokens pc in
  0 <= tokens' <= capacity /\ pc_ok capacity pc'.
Proof.
  intros Hc Ht Hp. destruct pc as [c|c cur|c b|n|n cur| |]; cbn in *; try (split; (done || lia)).
  - destruct (Z.ltb_spec cur c); [split; [done|cbn; lia]|].
    destruct (Z.eqb_spec tokens cur), spurious; cbn; try (split; [lia|cbn; lia]).
    rewrite u64_small by (unfold is_u64; lia). split; [lia|cbn; lia].
  - pose proof (is_u64_u64 (cur + n)) as Hu. unfold is_u64 in Hu.
    destruct (Z.eqb_spec tokens cur), spurious; cbn; split; (done || lia).
Qed.

Lemma tb_wf_step capacity s s' :
  capacity < u64_mod -> tb_wf capacity s -> TbStep capacity s s' -> tb_wf capacity s'.
Proof.
  intros Hc [Ht Hp] Hs. destruct Hs as [s i pc spurious t' pc' Hi E|s pc Hpc].
  - pose proof (proj1 (Forall_lookup _ _) Hp _ _ Hi) as Hpc.
    pose proof (tb_step_ok capacity spurious (tb_tokens s) pc Hc Ht Hpc) as H.
    rewrite E in H. split; [apply H|]. apply Forall_insert; [done|apply H].
  - split; [done|]. cbn. apply Forall_app. split; [done|]. constructor; [|done].
    destruct pc; unfold is_u32 in *; cbn; (done || lia).
Qed.

Lemma tb_wf_steps capacity s s' :
  capacity < u64_mod -> tb_wf capacity s -> rtc (TbStep capacity) s s' -> tb_wf capacity s'.
Proof. intros Hc H Hs. revert H. induction Hs; eauto using tb_wf_step. Qed.

(** A step of a consuming call moves tokens from the bucket to the call. *)
Lemma tb_step_conserves capacity spurious tokens pc :
  capacity < u64_mod -> 0 <= tokens <= capacity -> pc_ok capacity pc -> only_consumes pc ->
  let '(tokens', pc') := tb_step capacity spurious tokens pc in
  tokens' + pc_granted pc' = tokens + pc_granted pc /\ only_consumes pc'.
Proof.
  intros Hc Ht Hp Ho. destruct pc as [c|c cur|c b| | | |]; cbn in *; try done.
  destruct (Z.ltb_spec cur c); [done|].
  destruct (Z.eqb_spec tokens cur), spurious; cbn; try done.
  rewrite u64_small by (unfold is_u64; lia). split; [lia|done].
Qed.

(** Only a consuming call becomes a consuming call. *)
Lemma tb_step_consumes_back capacity spurious tokens pc tokens' pc' :
  tb_step capacity spurious tokens pc = (tokens', pc') -> only_consumes pc' -> only_consumes pc.
Proof. destruct pc; cbn; intros H; repeat case_match; simplify_eq; done. Qed.

Lemma TbStep_consumes_back capacity s s' :
  TbStep capacity s s' -> Forall only_consumes (tb_threads s') -> Forall only_consumes (tb_threads s).
Proof.
  intros Hs H. destruct Hs as [s i pc spurious t' pc' Hi E|s pc Hpc]; cbn in H.
  - apply Forall_lookup. intros j q Hj. destruct (decide (i = j)) as [<-|Hne].
    + assert (q = pc) as -> by congruence. eapply tb_step_consumes_back; [exact E|].
      apply (proj1 (Forall_lookup _ _) H i), list_lookup_insert_eq. by eapply lookup_lt_Some.
    + apply (proj1 (Forall_lookup _ _) H j). by rewrite list_lookup_insert_ne.
  - by apply Forall_app in H as [? _].
Qed.

Lemma TbStep_conserves capacity s s' :
  capacity < u64_mod -> tb_wf capacity s -> TbStep capacity s s' ->
  Forall only_consumes (tb_threads s) -> Forall only_consumes (tb_threads s') ->
  tb_tokens s' + total_granted (tb_threads s') = tb_tokens s + total_granted (tb_threads s).
Proof.
  intros Hc [Ht Hp] Hs Ho Ho'. destruct Hs as [s i pc spurious t' pc' Hi E|s pc Hpc].
  - pose proof (proj1 (Forall_lookup _ _) Hp _ _ Hi) as Hpc.
    pose proof (proj1 (Forall_lookup _ _) Ho _ _ Hi) as Hpo.
    pose proof (tb_step_conserves capacity spurious (tb_tokens s) pc Hc Ht Hpc Hpo) as H.
    rewrite E in H. cbn. rewrite (total_granted_insert _ _ _ _ Hi). lia.
  - cbn. rewrite total_granted_app. destruct pc; cbn in *; (done || lia).
Qed.

(** ** Properties *)

(** Whatever calls the threads make and however they interleave, the counter
    stays between zero and the capacity: no subtraction wraps around. *)
Theorem tokens_bounded capacity s :
  is_u32 capacity -> rtc (TbStep capacity) (new_TokenBucket capacity) s ->
  0 <= tb_tokens s <= capacity.
Proof.
  intros Hc Hs. unfold is_u32 in Hc.
  apply (tb_wf_steps capacity (new_TokenBucket capacity)); [lia| |done].
  split; [cbn; lia|by constructor].
Qed.

Lemma tokens_bounded_witness : 0 <= tb_tokens (mkTbSystem 5 [ConsumeStart 3]) <= 5.
Proof.
  apply (tokens_bounded 5); [decide_now|].
  apply rtc_once, (tb_call 5 (new_TokenBucket 5) (ConsumeStart 3)). decide_now.
Defined.

(** As long as no thread refills, every token a successful call obtained left
    the counter exactly once: the calls together never obtain more than the
    bucket held. *)
Theorem tokens_conserved capacity s s' :
  is_u32 capacity -> tb_wf capacity s -> rtc (TbStep capacity) s s' ->
  Forall only_consumes (tb_threads s') ->
  tb_tokens s' + total_granted (tb_threads s') = tb_tokens s + total_granted (tb_threads s)
  /\ total_granted (tb_threads s') <= tb_tokens s + total_granted (tb_threads s).
Proof.
  intros Hc Hwf Hs Ho. unfold is_u32 in Hc.
  assert (tb_wf capacity s') as [Ht' _] by (eapply tb_wf_steps; [lia|exact Hwf|exact Hs]).
  enough (Forall only_consumes (tb_threads s) /\
          tb_tokens s' + total_granted (tb_threads s') = tb_tokens s + total_granted (tb_threads s))
    by lia.
  clear Ht'. induction Hs as [s|s s1 s' H1 Hs IH]; [done|].
  destruct IH as [Ho1 IH]; [by eapply tb_wf_step; [lia|exact Hwf|]|done|].
  assert (Forall only_consumes (tb_threads s)) as Ho0 by (by eapply TbStep_consumes_back).
  split; [done|]. rewrite IH. eapply TbStep_conserves; eauto; lia.
Qed.

Lemma tokens_conserved_witness :
  total_granted [ConsumeDone 3 true; ConsumeLoop 3 5] <= 5.
Proof.
  refine (proj2 (tokens_conserved 5 (mkTbSystem 5 [ConsumeStart 3; ConsumeStart 3])
                   (mkTbSystem 2 [ConsumeDone 3 true; ConsumeLoop 3 5]) _ _ _ _));
    [decide_now| | |by repeat constructor].
  { split; [cbn; lia|]. by repeat constructor. }
  pose (s0 := mkTbSystem 5 [ConsumeStart 3; ConsumeStart 3]).
  pose (s1 := mkTbSystem 5 [ConsumeLoop 3 5; ConsumeStart 3]).
  pose (s2 := mkTbSystem 5 [ConsumeLoop 3 5; ConsumeLoop 3 5]).
  apply (rtc_l _ _ s1); [exact (tb_thread 5 s0 0 _ false _ _ eq_refl eq_refl)|].
  apply (rtc_l _ _ s2); [exact (tb_thread 5 s1 1 _ false _ _ eq_refl eq_refl)|].
  apply rtc_once. exact (tb_thread 5 s2 0 _ false _ _ eq_refl eq_refl).
Defined.

(** A call that runs without interference returns after two accesses:
    consumption takes the tokens exactly when enough are left, and the advance of
    time adds the tokens of the elapsed time without exceeding the capacity. *)
Theorem calls_alone capacity tokens count duration :
  is_u32 capacity -> 0 <= tokens <= capacity -> 0 <= count ->
  capacity * u64 duration < u64_mod -> capacity + tokens_to_add capacity duration < u64_mod ->
  tb_run 2 capacity tokens (try_consume count)
  = (if count <=? tokens then (tokens - count, ConsumeDone count true)
     else (tokens, ConsumeDone count false))
  /\ tb_run 2 capacity tokens (advance_time capacity duration)
     = (Z.min (tokens + tokens_to_add capacity duration) capacity, Finished)
  /\ tb_run 1 capacity tokens refill = (capacity, Finished).
Proof.
  intros Hc Ht Hn Hm Ha. unfold is_u32 in Hc.
  assert (0 <= tokens_to_add capacity duration) as Hp.
  { unfold tokens_to_add. pose proof (is_u64_u64 (capacity * u64 duration)) as [? _].
    case_match; [lia|]. by apply Z.div_pos. }
  split_and!; [..|done]; cbn.
  - destruct (Z.ltb_spec tokens count), (Z.leb_spec count tokens); try lia; [done|].
    rewrite Z.eqb_refl. cbn. by rewrite u64_small by (unfold is_u64; lia).
  - rewrite Z.eqb_refl. cbn. by rewrite u64_small by (unfold is_u64; lia).
Qed.

Lemma calls_alone_witness :
  tb_run 2 100 20 (advance_time 100 500) = (70, Finished).
Proof.
  refine (proj1 (proj2 (calls_alone 100 20 0 500 _ _ _ _ _))); decide_now.
Defined.
