(* ===== verification/Json.v ===== *)
(** * The interface of the JSON library

    The protocol is written against nlohmann::json, which is not part of the
    repository. [Json] lists the operations the source calls, [JsonLaws] what
    the library documents about them and the source relies on. Everything built
    on JSON is parametric in an instance; [json_tree] is a concrete instance that
    satisfies the laws. An operation that throws a [json::exception] returns
    [None]. *)
From S2P Require Import Prelude ByteString.
Local Open Scope Z_scope.

(** The end of [stream >> j]: a value, a [parse_error], or another exception. *)
Inductive JsonRead (A : Type) := ReadValue (j : A) | ReadParseError | ReadException.
Arguments ReadValue {A} j.
Arguments ReadParseError {A}.
Arguments ReadException {A}.

Class Json := {
  json : Type;
  (** [json(nullptr)], and the conversions from [bool], integers, strings,
      vectors and braced lists of pairs. *)
  json_null : json;
  json_bool : bool -> json;
  json_number : Z -> json;
  json_string : string -> json;
  json_array : list json -> json;
  json_object : list (string * json) -> json;
  (** [j[key] = value] on an object. *)
  json_set : json -> string -> json -> json;
  (** [j.at(key)], [j.contains(key)], [is_null], [is_string]. *)
  json_at : json -> string -> option json;
  json_contains : json -> string -> bool;
  json_is_null : json -> bool;
  json_is_string : json -> bool;
  (** [get<bool>], [get<uint16_t>], [get<uint32_t>], [get<size_t>], [get<int>],
      [get<std::string>], and the elements of an array. *)
  get_bool : json -> option bool;
  get_uint16 : json -> option Z;
  get_uint32 : json -> option Z;
  get_size : json -> option Z;
  get_int : json -> option Z;
  get_string : json -> option string;
  get_elements : json -> option (list json);
  (** [json::parse] and [dump]; [dump] throws on a string that is not UTF-8. *)
  json_parse : string -> option json;
  json_dump : json -> option string;
  (** [stream >> j], on the contents of the stream. *)
  json_read : string -> JsonRead json;
}.

(** The value of the first pair with a key. *)
Fixpoint assoc {A} (key : string) (kvs : list (string * A)) : option A :=
  match kvs with
  | [] => None
  | (k, v) :: kvs => if bool_decide (k = key) then Some v else assoc key kvs
  end.

Lemma assoc_elem_of {A} key (kvs : list (string * A)) v : assoc key kvs = Some v -> (key, v) ∈ kvs.
Proof.
  induction kvs as [|[k w] kvs IH]; [done|]. cbn. case_bool_decide as H.
  - intros [= ->]. rewrite H. apply list_elem_of_here.
  - intros E. apply list_elem_of_further. auto.
Qed.

Class JsonLaws (J : Json) : Prop := {
  json_at_object kvs key : NoDup (kvs.*1) -> json_at (json_object kvs) key = assoc key kvs;
  json_set_object kvs key v :
    key ∉ kvs.*1 -> json_set (json_object kvs) key v = json_object (kvs ++ [(key, v)]);
  json_contains_at j key : json_contains j key = bool_decide (is_Some (json_at j key));
  json_is_null_null : json_is_null json_null = true;
  json_is_null_number n : json_is_null (json_number n) = false;
  json_is_string_string s : json_is_string (json_string s) = true;
  json_get_bool b : get_bool (json_bool b) = Some b;
  json_get_uint32 n : is_u32 n -> get_uint32 (json_number n) = Some n;
  json_get_uint32_range j n : get_uint32 j = Some n -> is_u32 n;
  (** A number is converted with a cast. *)
  json_get_uint16 n : - i32_half <= n < i32_half -> get_uint16 (json_number n) = Some (n mod 65536);
  json_get_uint16_range j n : get_uint16 j = Some n -> 0 <= n < 65536;
  json_get_uint16_string s : get_uint16 (json_string s) = None;
  json_get_size n : is_u64 n -> get_size (json_number n) = Some n;
  json_get_size_range j n : get_size j = Some n -> is_u64 n;
  json_get_int n : - i32_half <= n < i32_half -> get_int (json_number n) = Some n;
  json_get_string s : get_string (json_string s) = Some s;
  json_get_elements l : get_elements (json_array l) = Some l;
  json_parse_dump j s : json_dump j = Some s -> json_parse s = Some j;
  json_read_dump j s : json_dump j = Some s -> json_read s = ReadValue j;
}.

(** ** A concrete instance *)

Inductive JsonLeaf := LNull | LBool (b : bool) | LNumber (n : Z) | LString (s : string).
#[export] Instance JsonLeaf_eq_dec : EqDecision JsonLeaf.
Proof. solve_decision. Defined.
#[export] Instance JsonLeaf_countable : Countable JsonLeaf.
Proof.
  refine (inj_countable'
    (fun l => match l with LNull => inl (inl tt) | LBool b => inl (inr b)
              | LNumber n => inr (inl n) | LString s => inr (inr s) end)
    (fun x => match x with inl (inl _) => LNull | inl (inr b) => LBool b
              | inr (inl n) => LNumber n | inr (inr s) => LString s end) _).
  by intros [].
Defined.

(** A node labelled 0 is an array of its children, a node labelled 1 an object
    whose children are keys and values in turn. *)
Abbreviation JsonTree := (gen_tree JsonLeaf).

Fixpoint flatten_pairs (kvs : list (string * JsonTree)) : list JsonTree :=
  match kvs with
  | [] => []
  | (k, v) :: kvs => GenLeaf (LString k) :: v :: flatten_pairs kvs
  end.
Fixpoint tree_assoc (key : string) (ts : list JsonTree) : option JsonTree :=
  match ts with
  | GenLeaf (LString k) :: v :: ts => if bool_decide (k = key) then Some v else tree_assoc key ts
  | _ => None
  end.
Definition tree_at (t : JsonTree) (key : string) : option JsonTree :=
  match t with GenNode 1 ts => tree_assoc key ts | _ => None end.
Definition tree_leaf (t : JsonTree) : option JsonLeaf :=
  match t with GenLeaf l => Some l | _ => None end.

(** Any injective text will do for the instance: the binary digits of the code,
    eight to a byte. *)
Fixpoint pos_bits (p : positive) : list bool :=
  match p with
  | xH => [true]
  | xO p => false :: pos_bits p
  | xI p => true :: pos_bits p
  end.
Fixpoint bits_pos (l : list bool) : option positive :=
  match l with
  | [] => None
  | b :: l =>
      match bits_pos l with
      | Some p => Some (if b then xI p else xO p)
      | None => if b then Some xH else None
      end
  end.
Fixpoint pack (l : list bool) : string :=
  match l with
  | [] => EmptyString
  | b0 :: b1 :: b2 :: b3 :: b4 :: b5 :: b6 :: b7 :: l =>
      String (Ascii b0 b1 b2 b3 b4 b5 b6 b7) (pack l)
  | l =>
      let g i := nth i l false in
      String (Ascii (g 0) (g 1) (g 2) (g 3) (g 4) (g 5) (g 6) (g 7))%nat EmptyString
  end.
Fixpoint unpack (s : string) : list bool :=
  match s with
  | EmptyString => []
  | String (Ascii b0 b1 b2 b3 b4 b5 b6 b7) s => b0 :: b1 :: b2 :: b3 :: b4 :: b5 :: b6 :: b7 :: unpack s
  end.
Definition pos_text (p : positive) : string := pack (pos_bits p).
Definition text_pos (s : string) : option positive := bits_pos (unpack s).

Lemma unpack_pack l : exists n, unpack (pack l) = l ++ replicate n false.
Proof.
  induction l as [l IH] using (induction_ltof1 _ (@length bool)). unfold ltof in IH.
  destruct l as [|b0 [|b1 [|b2 [|b3 [|b4 [|b5 [|b6 [|b7 l]]]]]]]];
    [by exists 0%nat|by exists 7%nat|by exists 6%nat|by exists 5%nat|by exists 4%nat|by exists 3%nat
    |by exists 2%nat|by exists 1%nat|].
  destruct (IH l) as [n E]; [cbn; lia|]. exists n. cbn. by rewrite E.
Qed.
Lemma bits_pos_padding n : bits_pos (replicate n false) = None.
Proof. induction n as [|n IH]; [done|]. cbn. by rewrite IH. Qed.
Lemma text_pos_text p : text_pos (pos_text p) = Some p.
Proof.
  unfold text_pos, pos_text. destruct (unpack_pack (pos_bits p)) as [n ->].
  induction p as [p IH|p IH|]; cbn; [by rewrite IH|by rewrite IH|by rewrite bits_pos_padding].
Qed.

Definition json_tree : Json := {|
  json := JsonTree;
  json_null := GenLeaf LNull;
  json_bool b := GenLeaf (LBool b);
  json_number n := GenLeaf (LNumber n);
  json_string s := GenLeaf (LString s);
  json_array l := GenNode 0 l;
  json_object kvs := GenNode 1 (flatten_pairs kvs);
  json_set t key v :=
    match t with GenNode 1 ts => GenNode 1 (ts ++ [GenLeaf (LString key); v]) | _ => t end;
  json_at := tree_at;
  json_contains t key := bool_decide (is_Some (tree_at t key));
  json_is_null t := bool_decide (tree_leaf t = Some LNull);
  json_is_string t := match tree_leaf t with Some (LString _) => true | _ => false end;
  get_bool t := match tree_leaf t with Some (LBool b) => Some b | _ => None end;
  get_uint16 t := match tree_leaf t with Some (LNumber n) => Some (n mod 65536) | _ => None end;
  get_uint32 t := match tree_leaf t with Some (LNumber n) => Some (u32 n) | _ => None end;
  get_size t := match tree_leaf t with Some (LNumber n) => Some (u64 n) | _ => None end;
  get_int t := match tree_leaf t with Some (LNumber n) => Some (i32 n) | _ => None end;
  get_string t := match tree_leaf t with Some (LString s) => Some s | _ => None end;
  get_elements t := match t with GenNode 0 l => Some l | _ => None end;
  json_parse s := text_pos s ≫= decode;
  json_dump t := Some (pos_text (encode t));
  json_read s := match text_pos s ≫= decode with Some j => ReadValue j | None => ReadParseError end;
|}.

Lemma flatten_pairs_app kvs kvs' :
  flatten_pairs (kvs ++ kvs') = flatten_pairs kvs ++ flatten_pairs kvs'.
Proof. induction kvs as [|[k v] kvs IH]; [done|]. cbn. by rewrite IH. Qed.

Lemma tree_assoc_flatten key kvs : tree_assoc key (flatten_pairs kvs) = assoc key kvs.
Proof. induction kvs as [|[k v] kvs IH]; [done|]. cbn. by rewrite IH. Qed.

(** A field read from a leaf is the number of the leaf, converted. *)
Ltac leaf_number :=
  match goal with H : match ?o with _ => _ end = Some _ |- _ => destruct o as [[| | |]|]; try done; injection H as <- end.

#[export] Instance json_tree_laws : JsonLaws json_tree.
Proof.
  split; cbn; intros; try done; try (f_equal; eauto with collab; fail).
  - apply tree_assoc_flatten.
  - by rewrite flatten_pairs_app.
  - leaf_number. apply is_u32_u32.
  - leaf_number. by apply Z.mod_pos_bound.
  - leaf_number. apply is_u64_u64.
  - f_equal. by apply i32_small.
  - injection H as <-. rewrite text_pos_text. cbn. apply decode_encode.
  - injection H as <-. rewrite text_pos_text. cbn. by rewrite decode_encode.
Qed.

(** ** Consequences of the laws *)

Section JsonFacts.
Context {J : Json} {L : JsonLaws J}.

(** [j.contains(key)] followed by [j.at(key)] on an object. *)
Lemma json_contains_object kvs key :
  NoDup (kvs.*1) -> json_contains (json_object kvs) key = bool_decide (is_Some (assoc key kvs)).
Proof. intros. by rewrite json_contains_at, json_at_object. Qed.

(** A vector is read back element by element. *)
Lemma mapM_fmap {A} (to : A -> json) (from : json -> option A) (l : list A) :
  Forall (fun x => from (to x) = Some x) l -> mapM from (to <$> l) = Some l.
Proof. induction 1 as [|x l H _ IH]; [done|]. cbn. by rewrite H, IH. Qed.
End JsonFacts.

Create Rewrite HintDb json.
#[export] Hint Rewrite @json_contains_at @json_is_null_null @json_is_null_number
  @json_is_string_string @json_get_bool @json_get_string @json_get_elements
  using typeclasses eauto : json.
