(* ===== verification/Frames.v ===== *)
(** * Length-prefixed frames (protocol/src/protocol.cpp: encode_frame,
    decode_frame_header)

    A frame is the payload's length as four bytes, most significant first,
    followed by the payload. Both directions of the connection use it. *)
From S2P Require Import Prelude ByteString.
Local Open Scope Z_scope.

Definition MAX_PAYLOAD_SIZE : Z := 16 * 1024 * 1024.

(** A byte of a [std::string] or buffer and its unsigned value. *)
Definition byte_val (c : ascii) : Z := Z.of_N (Ascii.N_of_ascii c).
Definition val_byte (x : Z) : ascii := Ascii.ascii_of_N (Z.to_N x).

Definition encode_frame (payload : string) : string :=
  let len := u32 (slen payload) in
  of_bytes
    (val_byte (u8 (Z.land (Z.shiftr len 24) 255))
     :: val_byte (u8 (Z.land (Z.shiftr len 16) 255))
     :: val_byte (u8 (Z.land (Z.shiftr len 8) 255))
     :: val_byte (u8 (Z.land len 255))
     :: bytes_of payload).

#[global] Arguments encode_frame : simpl never.

(** The argument is the four header bytes. *)
Definition decode_frame_header (data : list ascii) : option Z :=
  let d i := byte_val (nth i data Ascii.zero) in
  let len := u32 (Z.lor (Z.lor (Z.lor (u32 (Z.shiftl (d 0%nat) 24)) (u32 (Z.shiftl (d 1%nat) 16)))
                               (u32 (Z.shiftl (d 2%nat) 8)))
                        (d 3%nat)) in
  if MAX_PAYLOAD_SIZE <? len then None else Some len.

(** The header of a frame and the rest of it. *)
Definition frame_header (frame : string) : list ascii := take 4 (bytes_of frame).
Definition frame_body (frame : string) : string := of_bytes (drop 4 (bytes_of frame)).

(** ** Lemmas *)

Lemma byte_val_range c : 0 <= byte_val c < 256.
Proof. unfold byte_val. pose proof (Ascii.N_ascii_bounded c). lia. Qed.
Lemma byte_val_val_byte x : 0 <= x < 256 -> byte_val (val_byte x) = x.
Proof. intros H. unfold byte_val, val_byte. rewrite Ascii.N_ascii_embedding by lia. lia. Qed.
Lemma val_byte_byte_val c : val_byte (byte_val c) = c.
Proof. unfold byte_val, val_byte. rewrite N2Z.id. apply Ascii.ascii_N_embedding. Qed.

(** The masks and shifts as quotients and remainders. *)
Lemma byte_at x n : 0 <= n -> u8 (Z.land (Z.shiftr x n) 255) = x / 2 ^ n mod 256.
Proof.
  intros Hn. change 255 with (Z.ones 8). rewrite Z.land_ones, Z.shiftr_div_pow2 by done.
  change (2 ^ 8) with 256. apply u8_small. unfold is_u8. by apply Z.mod_pos_bound.
Qed.

Lemma combine_bytes a b c d :
  0 <= a < 256 -> 0 <= b < 256 -> 0 <= c < 256 -> 0 <= d < 256 ->
  u32 (Z.lor (Z.lor (Z.lor (u32 (Z.shiftl a 24)) (u32 (Z.shiftl b 16))) (u32 (Z.shiftl c 8))) d)
  = a * 16777216 + b * 65536 + c * 256 + d.
Proof.
  intros Ha Hb Hc Hd.
  rewrite (u32_small (Z.shiftl a 24)), (u32_small (Z.shiftl b 16)), (u32_small (Z.shiftl c 8))
    by (unfold is_u32; rewrite Z.shiftl_mul_pow2 by lia; lia).
  replace (Z.shiftl a 24) with (Z.shiftl (Z.shiftl a 8) 16) by (by rewrite Z.shiftl_shiftl).
  rewrite <- Z.shiftl_lor, (lor_shiftl_low a b 8) by lia.
  replace (Z.shiftl (a * 2 ^ 8 + b) 16) with (Z.shiftl (Z.shiftl (a * 2 ^ 8 + b) 8) 8)
    by (by rewrite Z.shiftl_shiftl).
  rewrite <- Z.shiftl_lor, (lor_shiftl_low _ c 8) by lia. rewrite lor_shiftl_low by lia.
  rewrite u32_small by (unfold is_u32; lia). lia.
Qed.

Lemma decode_encode_header payload :
  slen payload < u32_mod ->
  decode_frame_header (frame_header (encode_frame payload))
  = if MAX_PAYLOAD_SIZE <? slen payload then None else Some (slen payload).
Proof.
  intros Hs. pose proof (slen_nonneg payload) as H0. unfold frame_header, encode_frame.
  rewrite u32_small by (unfold is_u32; lia). autorewrite with collab. cbn [take].
  unfold decode_frame_header. cbn [nth].
  rewrite !byte_at by lia. replace (Z.land (slen payload) 255)
    with (Z.land (Z.shiftr (slen payload) 0) 255) by (by rewrite Z.shiftr_0_r).
  rewrite byte_at by lia.
  rewrite !byte_val_val_byte by (apply Z.mod_pos_bound; lia).
  rewrite combine_bytes by (apply Z.mod_pos_bound; lia).
  change (2 ^ 24) with 16777216. change (2 ^ 16) with 65536. change (2 ^ 8) with 256.
  change (2 ^ 0) with 1.
  match goal with |- context [MAX_PAYLOAD_SIZE <? ?x] => replace x with (slen payload) end; [done|].
  Z.to_euclidean_division_equations. lia.
Qed.

Lemma length_frame_header payload : length (frame_header (encode_frame payload)) = 4%nat.
Proof. unfold frame_header, encode_frame. by autorewrite with collab. Qed.
Lemma frame_body_encode payload : frame_body (encode_frame payload) = payload.
Proof.
  unfold frame_body, encode_frame. autorewrite with collab. cbn [drop]. apply of_bytes_bytes_of.
Qed.
Lemma slen_encode_frame payload : slen (encode_frame payload) = 4 + slen payload.
Proof. rewrite !slen_bytes. unfold encode_frame. autorewrite with collab. cbn [length]. lia. Qed.

Lemma decode_frame_header_range data len :
  decode_frame_header data = Some len -> 0 <= len <= MAX_PAYLOAD_SIZE.
Proof.
  unfold decode_frame_header. set (x := u32 _). pose proof (is_u32_u32 (Z.lor (Z.lor (Z.lor
    (u32 (Z.shiftl (byte_val (nth 0 data Ascii.zero)) 24)) (u32 (Z.shiftl (byte_val (nth 1 data Ascii.zero)) 16)))
    (u32 (Z.shiftl (byte_val (nth 2 data Ascii.zero)) 8))) (byte_val (nth 3 data Ascii.zero)))) as [Hx _].
  change (0 <= x) in Hx. destruct (Z.ltb_spec MAX_PAYLOAD_SIZE x); [done|]. intros [= <-]. lia.
Qed.

(** ** Sequences of frames *)

(** The bytes of a sequence of frames. *)
Definition stream (ps : list string) : string :=
  foldr (fun p acc => encode_frame p +:+ acc) "" ps.

(** The header of a frame is its first four bytes, whatever part of it or
    whatever follows it is there. *)
Lemma frame_prefix_header p b rest t :
  b +:+ rest = encode_frame p +:+ t -> 4 <= slen b ->
  take 4 (bytes_of b) = frame_header (encode_frame p).
Proof.
  intros H Hl. apply (f_equal bytes_of), (f_equal (take 4)) in H. rewrite !bytes_of_app in H.
  rewrite slen_bytes in Hl. rewrite take_app_le in H by lia. rewrite H.
  pose proof (slen_encode_frame p) as He. rewrite slen_bytes in He. pose proof (slen_nonneg p).
  by rewrite take_app_le by lia.
Qed.

Lemma frame_split p t :
  str_mid (encode_frame p +:+ t) 4 (slen p) = p /\ str_erase (encode_frame p +:+ t) 0 (4 + slen p) = t.
Proof.
  pose proof (slen_encode_frame p) as He. rewrite slen_bytes in He. pose proof (slen_nonneg p).
  pose proof (frame_body_encode p) as Hb. unfold frame_body in Hb.
  apply (f_equal bytes_of) in Hb. rewrite bytes_of_of_bytes in Hb.
  split; apply bytes_of_inj.
  - unfold str_mid. rewrite bytes_of_of_bytes, bytes_of_app. change (Z.to_nat 4) with 4%nat.
    rewrite drop_app_le, Hb by lia. unfold slen. rewrite Nat2Z.id, <- length_bytes_of.
    by rewrite take_app_length.
  - unfold str_erase. rewrite bytes_of_of_bytes, bytes_of_app. change (Z.to_nat 0) with 0%nat.
    rewrite take_0. cbn [app Nat.add].
    replace (Z.to_nat (4 + slen p)) with (length (bytes_of (encode_frame p))) by lia.
    by rewrite drop_app_length.
Qed.

Definition sized (p : string) : Prop := slen p <= MAX_PAYLOAD_SIZE.
#[export] Instance sized_dec p : Decision (sized p).
Proof. unfold sized. apply _. Defined.

Lemma decode_sized p : sized p ->
  decode_frame_header (frame_header (encode_frame p)) = Some (slen p) /\ i32 (slen p) = slen p.
Proof.
  unfold sized, MAX_PAYLOAD_SIZE. intros H. pose proof (slen_nonneg p). split.
  - rewrite decode_encode_header by lia. unfold MAX_PAYLOAD_SIZE.
    by rewrite (proj2 (Z.ltb_ge _ _)) by lia.
  - apply i32_small. lia.
Qed.

(** Nothing in the buffer is left that could be delivered. *)
Definition incomplete (b : string) (ps : list string) : Prop :=
  match ps with [] => b = ""%string | p :: _ => slen b < 4 + slen p end.

(** ** Properties *)

(** A frame carries its payload: the header decodes to the payload's length
    exactly when the payload has at most 16 MiB, and is rejected when it is longer
    (the encoder itself does not check the limit); the bytes after the header are
    the payload. *)
Theorem frame_roundtrip payload :
  slen payload < u32_mod ->
  decode_frame_header (frame_header (encode_frame payload))
    = (if slen payload <=? MAX_PAYLOAD_SIZE then Some (slen payload) else None)
  /\ frame_body (encode_frame payload) = payload
  /\ slen (encode_frame payload) = 4 + slen payload.
Proof.
  intros H. split_and!; [|apply frame_body_encode|apply slen_encode_frame].
  rewrite decode_encode_header by done.
  destruct (Z.ltb_spec MAX_PAYLOAD_SIZE (slen payload)), (Z.leb_spec (slen payload) MAX_PAYLOAD_SIZE);
    (done || lia).
Qed.

Lemma frame_roundtrip_witness :
  decode_frame_header (frame_header (encode_frame "{}")) = Some 2.
Proof. refine (proj1 (frame_roundtrip "{}" _)). decide_now. Defined.

(** Every four bytes that are accepted as a header are the header of exactly
    the frames with that payload length: the big-endian encoding is injective. *)
Theorem frame_header_canonical data len payload :
  length data = 4%nat -> decode_frame_header data = Some len -> slen payload = len ->
  frame_header (encode_frame payload) = data.
Proof.
  intros Hl Hd Hp. pose proof (decode_frame_header_range _ _ Hd) as Hr.
  unfold MAX_PAYLOAD_SIZE in Hr.
  destruct data as [|a [|b [|c [|d [|]]]]]; try done.
  unfold decode_frame_header in Hd. cbn [nth] in Hd.
  pose proof (byte_val_range a). pose proof (byte_val_range b).
  pose proof (byte_val_range c). pose proof (byte_val_range d).
  rewrite combine_bytes in Hd by done. case_match; [done|]. injection Hd as Hd.
  unfold frame_header, encode_frame. autorewrite with collab. cbn [take].
  rewrite u32_small by (unfold is_u32; lia).
  replace (Z.land (slen payload) 255) with (Z.land (Z.shiftr (slen payload) 0) 255)
    by (by rewrite Z.shiftr_0_r).
  rewrite !byte_at by lia.
  change (2 ^ 24) with 16777216. change (2 ^ 16) with 65536. change (2 ^ 8) with 256.
  change (2 ^ 0) with 1.
  rewrite <- (val_byte_byte_val a), <- (val_byte_byte_val b), <- (val_byte_byte_val c),
    <- (val_byte_byte_val d).
  repeat f_equal; Z.to_euclidean_division_equations; lia.
Qed.

Lemma frame_header_canonical_witness :
  frame_header (encode_frame "ab") = [Ascii.zero; Ascii.zero; Ascii.zero; val_byte 2].
Proof.
  apply (frame_header_canonical [Ascii.zero; Ascii.zero; Ascii.zero; val_byte 2] 2 "ab");
    [done | by vm_compute | by vm_compute].
Defined.
