(* ===== verification/Protocol.v ===== *)
(** * The message protocol (protocol/include/collab_protocol/protocol.h,
    protocol/src/protocol.cpp)

    One record per message structure, one pair of conversions per structure, and
    the table of message types. The overloads [from_json] and [to_json] of the
    source carry the structure's name here. *)
From S2P Require Import Prelude ByteString Json.
Local Open Scope Z_scope.

(** ** Message types *)

Inductive MessageType :=
| MtAuthRequest
| MtAuthResponse
| MtDocListRequest
| MtDocListResponse
| MtDocCreateRequest
| MtDocCreateResponse
| MtDocJoinRequest
| MtDocJoinResponse
| MtDocLeaveRequest
| MtDocLeaveResponse
| MtDocDeleteRequest
| MtDocDeleteResponse
| MtDocShareRequest
| MtDocShareResponse
| MtOperation
| MtOperationAck
| MtOperationBroadcast
| MtCursorUpdate
| MtCursorBroadcast
| MtUserJoined
| MtUserLeft
| MtRoleChanged
| MtDocDeleted
| MtServerShutdown
| MtError
| MtUndoRequest
| MtRedoRequest
| MtSnapshotListRequest
| MtSnapshotListResponse
| MtSnapshotViewRequest
| MtSnapshotViewResponse
| MtSnapshotRestoreRequest
| MtSnapshotRestoreResponse
| MtRateLimit
| MtUnknown.
#[export] Instance MessageType_eq_dec : EqDecision MessageType.
Proof. solve_decision. Defined.

Definition kStringToType : list (string * MessageType) :=
  [("auth_request", MtAuthRequest);
   ("auth_response", MtAuthResponse);
   ("doc_list_request", MtDocListRequest);
   ("doc_list_response", MtDocListResponse);
   ("doc_create_request", MtDocCreateRequest);
   ("doc_create_response", MtDocCreateResponse);
   ("doc_join_request", MtDocJoinRequest);
   ("doc_join_response", MtDocJoinResponse);
   ("doc_leave_request", MtDocLeaveRequest);
   ("doc_leave_response", MtDocLeaveResponse);
   ("doc_delete_request", MtDocDeleteRequest);
   ("doc_delete_response", MtDocDeleteResponse);
   ("doc_share_request", MtDocShareRequest);
   ("doc_share_response", MtDocShareResponse);
   ("operation", MtOperation);
   ("operation_ack", MtOperationAck);
   ("operation_broadcast", MtOperationBroadcast);
   ("cursor_update", MtCursorUpdate);
   ("cursor_broadcast", MtCursorBroadcast);
   ("user_joined", MtUserJoined);
   ("user_left", MtUserLeft);
   ("role_changed", MtRoleChanged);
   ("doc_deleted", MtDocDeleted);
   ("server_shutdown", MtServerShutdown);
   ("error", MtError);
   ("undo_request", MtUndoRequest);
   ("redo_request", MtRedoRequest);
   ("snapshot_list_request", MtSnapshotListRequest);
   ("snapshot_list_response", MtSnapshotListResponse);
   ("snapshot_view_request", MtSnapshotViewRequest);
   ("snapshot_view_response", MtSnapshotViewResponse);
   ("snapshot_restore_request", MtSnapshotRestoreRequest);
   ("snapshot_restore_response", MtSnapshotRestoreResponse);
   ("rate_limit", MtRateLimit)].

(** [kTypeToString] is filled by walking the first table. *)
Definition kTypeToString : list (MessageType * string) := (fun '(s, t) => (t, s)) <$> kStringToType.

Definition parse_message_type (type_str : string) : MessageType :=
  match assoc type_str kStringToType with Some t => t | None => MtUnknown end.

Definition message_type_to_string (type : MessageType) : string :=
  match list_find (fun '(t, _) => t = type) kTypeToString with
  | Some (_, (_, s)) => s
  | None => "unknown"
  end.

(** ** Message structures *)

Record AuthRequestMsg := mkAuthRequestMsg {
  arq_action : string;
  arq_username : string;
  arq_password : string;
}.
Record DocListRequestMsg := mkDocListRequestMsg { }.
Record DocCreateRequestMsg := mkDocCreateRequestMsg {
  dcq_title : string;
}.
Record DocJoinRequestMsg := mkDocJoinRequestMsg {
  djq_docId : Z;
}.
Record DocLeaveRequestMsg := mkDocLeaveRequestMsg {
  dvq_docId : Z;
}.
Record DocDeleteRequestMsg := mkDocDeleteRequestMsg {
  ddq_docId : Z;
}.
Record DocShareRequestMsg := mkDocShareRequestMsg {
  dsq_docId : Z;
  dsq_targetUsername : string;
  dsq_role : string;
}.
Record OpEntry := mkOpEntry {
  oe_op : string;
  oe_pos : Z;
  oe_text : string;
  oe_len : Z;
}.
Record OperationMsg := mkOperationMsg {
  opm_docId : Z;
  opm_revision : Z;
  opm_ops : list OpEntry;
}.
Record CursorUpdateMsg := mkCursorUpdateMsg {
  cum_docId : Z;
  cum_position : Z;
  cum_selectionStart : option Z;
  cum_selectionEnd : option Z;
}.
Record AuthResponseMsg := mkAuthResponseMsg {
  arm_success : bool;
  arm_userId : Z;
  arm_error : string;
}.
Record DocListEntry := mkDocListEntry {
  dle_docId : Z;
  dle_title : string;
  dle_role : string;
  dle_onlineCount : Z;
}.
Record DocListResponseMsg := mkDocListResponseMsg {
  dlm_documents : list DocListEntry;
}.
Record DocCreateResponseMsg := mkDocCreateResponseMsg {
  dcm_success : bool;
  dcm_docId : Z;
}.
Record UserInfo := mkUserInfo {
  ui_userId : Z;
  ui_username : string;
  ui_color : string;
}.
Record DocJoinResponseMsg := mkDocJoinResponseMsg {
  djm_success : bool;
  djm_docId : Z;
  djm_title : string;
  djm_content : string;
  djm_revision : Z;
  djm_role : string;
  djm_users : list UserInfo;
  djm_error : string;
}.
Record DocLeaveResponseMsg := mkDocLeaveResponseMsg {
  dvm_success : bool;
}.
Record DocDeleteResponseMsg := mkDocDeleteResponseMsg {
  ddm_success : bool;
}.
Record DocShareResponseMsg := mkDocShareResponseMsg {
  dsm_success : bool;
}.
Record OperationAckMsg := mkOperationAckMsg {
  oam_docId : Z;
  oam_revision : Z;
}.
Record OperationBroadcastMsg := mkOperationBroadcastMsg {
  obm_docId : Z;
  obm_userId : Z;
  obm_username : string;
  obm_revision : Z;
  obm_ops : list OpEntry;
}.
Record CursorInfo := mkCursorInfo {
  ci_userId : Z;
  ci_username : string;
  ci_color : string;
  ci_position : Z;
  ci_selectionStart : option Z;
  ci_selectionEnd : option Z;
}.
Record CursorBroadcastMsg := mkCursorBroadcastMsg {
  cbm_docId : Z;
  cbm_cursors : list CursorInfo;
}.
Record UserJoinedMsg := mkUserJoinedMsg {
  ujm_docId : Z;
  ujm_userId : Z;
  ujm_username : string;
  ujm_color : string;
}.
Record UserLeftMsg := mkUserLeftMsg {
  ulm_docId : Z;
  ulm_userId : Z;
  ulm_username : string;
}.
Record RoleChangedMsg := mkRoleChangedMsg {
  rcm_docId : Z;
  rcm_newRole : string;
}.
Record DocDeletedMsg := mkDocDeletedMsg {
  dxm_docId : Z;
}.
Record ServerShutdownMsg := mkServerShutdownMsg {
  ssm_message : string;
}.
Record ErrorMsg := mkErrorMsg {
  em_code : string;
  em_message : string;
}.

(** ** Conversions *)

Section Codec.
Context {J : Json}.

(** [j.at(key).get_to(field)]: throws when the key is missing or the value has
    another type. *)
Definition at_get {A} (j : json) (key : string) (get : json -> option A) : option A :=
  json_at j key ≫= get.
Definition get_vector {A} (from : json -> option A) (j : json) : option (list A) :=
  get_elements j ≫= mapM from.
(** A field that may be missing or null. *)
Definition get_optional_uint32 (j : json) (key : string) : option (option Z) :=
  if json_contains j key then
    match json_at j key with
    | Some v => if json_is_null v then Some None else Some <$> get_uint32 v
    | None => None
    end
  else Some None.
Definition json_optional (o : option Z) : json :=
  match o with Some n => json_number n | None => json_null end.

Definition from_json_AuthRequestMsg (j : json) : option AuthRequestMsg :=
  action ← at_get j "action" get_string;
  username ← at_get j "username" get_string;
  password ← at_get j "password" get_string;
  Some (mkAuthRequestMsg action username password).

Definition from_json_DocCreateRequestMsg (j : json) : option DocCreateRequestMsg :=
  title ← at_get j "title" get_string;
  Some (mkDocCreateRequestMsg title).

Definition from_json_DocJoinRequestMsg (j : json) : option DocJoinRequestMsg :=
  docId ← at_get j "docId" get_uint32;
  Some (mkDocJoinRequestMsg docId).

Definition from_json_DocLeaveRequestMsg (j : json) : option DocLeaveRequestMsg :=
  docId ← at_get j "docId" get_uint32;
  Some (mkDocLeaveRequestMsg docId).

Definition from_json_DocDeleteRequestMsg (j : json) : option DocDeleteRequestMsg :=
  docId ← at_get j "docId" get_uint32;
  Some (mkDocDeleteRequestMsg docId).

Definition from_json_DocShareRequestMsg (j : json) : option DocShareRequestMsg :=
  docId ← at_get j "docId" get_uint32;
  targetUsername ← at_get j "targetUsername" get_string;
  role ← at_get j "role" get_string;
  Some (mkDocShareRequestMsg docId targetUsername role).

Definition from_json_OpEntry (j : json) : option OpEntry :=
  op ← at_get j "op" get_string;
  pos ← at_get j "pos" get_uint32;
  if bool_decide (op = "insert"%string) then
    text ← at_get j "text" get_string; Some (mkOpEntry op pos text 0)
  else if bool_decide (op = "delete"%string) then
    len ← at_get j "len" get_uint32; Some (mkOpEntry op pos "" len)
  else Some (mkOpEntry op pos "" 0).

Definition from_json_OperationMsg (j : json) : option OperationMsg :=
  docId ← at_get j "docId" get_uint32;
  revision ← at_get j "revision" get_uint32;
  ops ← at_get j "ops" (get_vector from_json_OpEntry);
  Some (mkOperationMsg docId revision ops).

Definition from_json_CursorUpdateMsg (j : json) : option CursorUpdateMsg :=
  docId ← at_get j "docId" get_uint32;
  position ← at_get j "position" get_uint32;
  selectionStart ← get_optional_uint32 j "selectionStart";
  selectionEnd ← get_optional_uint32 j "selectionEnd";
  Some (mkCursorUpdateMsg docId position selectionStart selectionEnd).

Definition from_json_AuthResponseMsg (j : json) : option AuthResponseMsg :=
  success ← at_get j "success" get_bool;
  if (success : bool) then
    userId ← at_get j "userId" get_uint32; Some (mkAuthResponseMsg success userId "")
  else if json_contains j "error" then
    error ← at_get j "error" get_string; Some (mkAuthResponseMsg success 0 error)
  else Some (mkAuthResponseMsg success 0 "").

Definition from_json_DocListEntry (j : json) : option DocListEntry :=
  docId ← at_get j "docId" get_uint32;
  title ← at_get j "title" get_string;
  role ← at_get j "role" get_string;
  onlineCount ← at_get j "onlineCount" get_int;
  Some (mkDocListEntry docId title role onlineCount).

Definition from_json_DocListResponseMsg (j : json) : option DocListResponseMsg :=
  documents ← at_get j "documents" (get_vector from_json_DocListEntry);
  Some (mkDocListResponseMsg documents).

Definition from_json_DocCreateResponseMsg (j : json) : option DocCreateResponseMsg :=
  success ← at_get j "success" get_bool;
  if (success : bool) then
    docId ← at_get j "docId" get_uint32; Some (mkDocCreateResponseMsg success docId)
  else Some (mkDocCreateResponseMsg success 0).

Definition from_json_UserInfo (j : json) : option UserInfo :=
  userId ← at_get j "userId" get_uint32;
  username ← at_get j "username" get_string;
  color ← at_get j "color" get_string;
  Some (mkUserInfo userId username color).

Definition from_json_DocJoinResponseMsg (j : json) : option DocJoinResponseMsg :=
  success ← at_get j "success" get_bool;
  if (success : bool) then
    docId ← at_get j "docId" get_uint32;
    title ← at_get j "title" get_string;
    content ← at_get j "content" get_string;
    revision ← at_get j "revision" get_uint32;
    role ← at_get j "role" get_string;
    users ← at_get j "users" (get_vector from_json_UserInfo);
    Some (mkDocJoinResponseMsg success docId title content revision role users "")
  else if json_contains j "error" then
    error ← at_get j "error" get_string;
    Some (mkDocJoinResponseMsg success 0 "" "" 0 "" [] error)
  else Some (mkDocJoinResponseMsg success 0 "" "" 0 "" [] "").

Definition from_json_DocLeaveResponseMsg (j : json) : option DocLeaveResponseMsg :=
  success ← at_get j "success" get_bool;
  Some (mkDocLeaveResponseMsg success).

Definition from_json_DocDeleteResponseMsg (j : json) : option DocDeleteResponseMsg :=
  success ← at_get j "success" get_bool;
  Some (mkDocDeleteResponseMsg success).

Definition from_json_DocShareResponseMsg (j : json) : option DocShareResponseMsg :=
  success ← at_get j "success" get_bool;
  Some (mkDocShareResponseMsg success).

Definition from_json_OperationAckMsg (j : json) : option OperationAckMsg :=
  docId ← at_get j "docId" get_uint32;
  revision ← at_get j "revision" get_uint32;
  Some (mkOperationAckMsg docId revision).

Definition from_json_OperationBroadcastMsg (j : json) : option OperationBroadcastMsg :=
  docId ← at_get j "docId" get_uint32;
  userId ← at_get j "userId" get_uint32;
  username ← at_get j "username" get_string;
  revision ← at_get j "revision" get_uint32;
  ops ← at_get j "ops" (get_vector from_json_OpEntry);
  Some (mkOperationBroadcastMsg docId userId username revision ops).

Definition from_json_CursorInfo (j : json) : option CursorInfo :=
  userId ← at_get j "userId" get_uint32;
  username ← at_get j "username" get_string;
  color ← at_get j "color" get_string;
  position ← at_get j "position" get_uint32;
  selectionStart ← get_optional_uint32 j "selectionStart";
  selectionEnd ← get_optional_uint32 j "selectionEnd";
  Some (mkCursorInfo userId username color position selectionStart selectionEnd).

Definition from_json_CursorBroadcastMsg (j : json) : option CursorBroadcastMsg :=
  docId ← at_get j "docId" get_uint32;
  cursors ← at_get j "cursors" (get_vector from_json_CursorInfo);
  Some (mkCursorBroadcastMsg docId cursors).

Definition from_json_UserJoinedMsg (j : json) : option UserJoinedMsg :=
  docId ← at_get j "docId" get_uint32;
  userId ← at_get j "userId" get_uint32;
  username ← at_get j "username" get_string;
  color ← at_get j "color" get_string;
  Some (mkUserJoinedMsg docId userId username color).

Definition from_json_UserLeftMsg (j : json) : option UserLeftMsg :=
  docId ← at_get j "docId" get_uint32;
  userId ← at_get j "userId" get_uint32;
  username ← at_get j "username" get_string;
  Some (mkUserLeftMsg docId userId username).

Definition from_json_RoleChangedMsg (j : json) : option RoleChangedMsg :=
  docId ← at_get j "docId" get_uint32;
  newRole ← at_get j "newRole" get_string;
  Some (mkRoleChangedMsg docId newRole).

Definition from_json_DocDeletedMsg (j : json) : option DocDeletedMsg :=
  docId ← at_get j "docId" get_uint32;
  Some (mkDocDeletedMsg docId).

Definition from_json_ServerShutdownMsg (j : json) : option ServerShutdownMsg :=
  message ← at_get j "message" get_string;
  Some (mkServerShutdownMsg message).

Definition from_json_ErrorMsg (j : json) : option ErrorMsg :=
  code ← at_get j "code" get_string;
  message ← at_get j "message" get_string;
  Some (mkErrorMsg code message).

Definition to_json_AuthRequestMsg (m : AuthRequestMsg) : json :=
  json_object
    [("type", json_string "auth_request");
     ("action", json_string (arq_action m));
     ("username", json_string (arq_username m));
     ("password", json_string (arq_password m))].

Definition to_json_DocListRequestMsg (m : DocListRequestMsg) : json :=
  json_object
    [("type", json_string "doc_list_request")].

Definition to_json_DocCreateRequestMsg (m : DocCreateRequestMsg) : json :=
  json_object
    [("type", json_string "doc_create_request");
     ("title", json_string (dcq_title m))].

Definition to_json_DocJoinRequestMsg (m : DocJoinRequestMsg) : json :=
  json_object
    [("type", json_string "doc_join_request");
     ("docId", json_number (djq_docId m))].

Definition to_json_DocLeaveRequestMsg (m : DocLeaveRequestMsg) : json :=
  json_object
    [("type", json_string "doc_leave_request");
     ("docId", json_number (dvq_docId m))].

Definition to_json_DocDeleteRequestMsg (m : DocDeleteRequestMsg) : json :=
  json_object
    [("type", json_string "doc_delete_request");
     ("docId", json_number (ddq_docId m))].

Definition to_json_DocShareRequestMsg (m : DocShareRequestMsg) : json :=
  json_object
    [("type", json_string "doc_share_request");
     ("docId", json_number (dsq_docId m));
     ("targetUsername", json_string (dsq_targetUsername m));
     ("role", json_string (dsq_role m))].

Definition to_json_OpEntry (m : OpEntry) : json :=
  let j := json_object [("op", json_string (oe_op m)); ("pos", json_number (oe_pos m))] in
  if bool_decide (oe_op m = "insert"%string) then json_set j "text" (json_string (oe_text m))
  else if bool_decide (oe_op m = "delete"%string) then json_set j "len" (json_number (oe_len m))
  else j.

Definition to_json_OperationMsg (m : OperationMsg) : json :=
  json_object
    [("type", json_string "operation");
     ("docId", json_number (opm_docId m));
     ("revision", json_number (opm_revision m));
     ("ops", json_array (to_json_OpEntry <$> opm_ops m))].

Definition to_json_CursorUpdateMsg (m : CursorUpdateMsg) : json :=
  let j := json_object [("type", json_string "cursor_update"); ("docId", json_number (cum_docId m));
                        ("position", json_number (cum_position m))] in
  let j := json_set j "selectionStart" (json_optional (cum_selectionStart m)) in
  json_set j "selectionEnd" (json_optional (cum_selectionEnd m)).

Definition to_json_AuthResponseMsg (m : AuthResponseMsg) : json :=
  let j := json_object [("type", json_string "auth_response"); ("success", json_bool (arm_success m))] in
  if arm_success m then json_set j "userId" (json_number (arm_userId m))
  else json_set j "error" (json_string (arm_error m)).

Definition to_json_DocListEntry (m : DocListEntry) : json :=
  json_object
    [("docId", json_number (dle_docId m));
     ("title", json_string (dle_title m));
     ("role", json_string (dle_role m));
     ("onlineCount", json_number (dle_onlineCount m))].

Definition to_json_DocListResponseMsg (m : DocListResponseMsg) : json :=
  json_object
    [("type", json_string "doc_list_response");
     ("documents", json_array (to_json_DocListEntry <$> dlm_documents m))].

Definition to_json_DocCreateResponseMsg (m : DocCreateResponseMsg) : json :=
  let j := json_object [("type", json_string "doc_create_response"); ("success", json_bool (dcm_success m))] in
  if dcm_success m then json_set j "docId" (json_number (dcm_docId m)) else j.

Definition to_json_UserInfo (m : UserInfo) : json :=
  json_object
    [("userId", json_number (ui_userId m));
     ("username", json_string (ui_username m));
     ("color", json_string (ui_color m))].

Definition to_json_DocJoinResponseMsg (m : DocJoinResponseMsg) : json :=
  let j := json_object [("type", json_string "doc_join_response"); ("success", json_bool (djm_success m))] in
  if djm_success m then
    let j := json_set j "docId" (json_number (djm_docId m)) in
    let j := json_set j "title" (json_string (djm_title m)) in
    let j := json_set j "content" (json_string (djm_content m)) in
    let j := json_set j "revision" (json_number (djm_revision m)) in
    let j := json_set j "role" (json_string (djm_role m)) in
    json_set j "users" (json_array (to_json_UserInfo <$> djm_users m))
  else json_set j "error" (json_string (djm_error m)).

Definition to_json_DocLeaveResponseMsg (m : DocLeaveResponseMsg) : json :=
  json_object
    [("type", json_string "doc_leave_response");
     ("success", json_bool (dvm_success m))].

Definition to_json_DocDeleteResponseMsg (m : DocDeleteResponseMsg) : json :=
  json_object
    [("type", json_string "doc_delete_response");
     ("success", json_bool (ddm_success m))].

Definition to_json_DocShareResponseMsg (m : DocShareResponseMsg) : json :=
  json_object
    [("type", json_string "doc_share_response");
     ("success", json_bool (dsm_success m))].

Definition to_json_OperationAckMsg (m : OperationAckMsg) : json :=
  json_object
    [("type", json_string "operation_ack");
     ("docId", json_number (oam_docId m));
     ("revision", json_number (oam_revision m))].

Definition to_json_OperationBroadcastMsg (m : OperationBroadcastMsg) : json :=
  json_object
    [("type", json_string "operation_broadcast");
     ("docId", json_number (obm_docId m));
     ("userId", json_number (obm_userId m));
     ("username", json_string (obm_username m));
     ("revision", json_number (obm_revision m));
     ("ops", json_array (to_json_OpEntry <$> obm_ops m))].

Definition to_json_CursorInfo (m : CursorInfo) : json :=
  let j := json_object [("userId", json_number (ci_userId m)); ("username", json_string (ci_username m));
                        ("color", json_string (ci_color m)); ("position", json_number (ci_position m))] in
  let j := json_set j "selectionStart" (json_optional (ci_selectionStart m)) in
  json_set j "selectionEnd" (json_optional (ci_selectionEnd m)).

Definition to_json_CursorBroadcastMsg (m : CursorBroadcastMsg) : json :=
  json_object
    [("type", json_string "cursor_broadcast");
     ("docId", json_number (cbm_docId m));
     ("cursors", json_array (to_json_CursorInfo <$> cbm_cursors m))].

Definition to_json_UserJoinedMsg (m : UserJoinedMsg) : json :=
  json_object
    [("type", json_string "user_joined");
     ("docId", json_number (ujm_docId m));
     ("userId", json_number (ujm_userId m));
     ("username", json_string (ujm_username m));
     ("color", json_string (ujm_color m))].

Definition to_json_UserLeftMsg (m : UserLeftMsg) : json :=
  json_object
    [("type", json_string "user_left");
     ("docId", json_number (ulm_docId m));
     ("userId", json_number (ulm_userId m));
     ("username", json_string (ulm_username m))].

Definition to_json_RoleChangedMsg (m : RoleChangedMsg) : json :=
  json_object
    [("type", json_string "role_changed");
     ("docId", json_number (rcm_docId m));
     ("newRole", json_string (rcm_newRole m))].

Definition to_json_DocDeletedMsg (m : DocDeletedMsg) : json :=
  json_object
    [("type", json_string "doc_deleted");
     ("docId", json_number (dxm_docId m))].

Definition to_json_ServerShutdownMsg (m : ServerShutdownMsg) : json :=
  json_object
    [("type", json_string "server_shutdown");
     ("message", json_string (ssm_message m))].

Definition to_json_ErrorMsg (m : ErrorMsg) : json :=
  json_object
    [("type", json_string "error");
     ("code", json_string (em_code m));
     ("message", json_string (em_message m))].

(** ** Requests and notifications

    [serialize] is [dump] of the message's JSON value. *)
Inductive ClientMsg :=
| CAuth (m : AuthRequestMsg) | CDocList | CDocCreate (m : DocCreateRequestMsg)
| CDocJoin (m : DocJoinRequestMsg) | CDocLeave (m : DocLeaveRequestMsg)
| CDocDelete (m : DocDeleteRequestMsg) | CDocShare (m : DocShareRequestMsg)
| COperation (m : OperationMsg) | CCursor (m : CursorUpdateMsg).

Inductive ServerMsg :=
| SAuth (m : AuthResponseMsg) | SDocList (m : DocListResponseMsg)
| SDocCreate (m : DocCreateResponseMsg) | SDocJoin (m : DocJoinResponseMsg)
| SDocLeave (m : DocLeaveResponseMsg) | SDocDelete (m : DocDeleteResponseMsg)
| SDocShare (m : DocShareResponseMsg) | SAck (m : OperationAckMsg)
| SBroadcast (m : OperationBroadcastMsg) | SCursors (m : CursorBroadcastMsg)
| SUserJoined (m : UserJoinedMsg) | SUserLeft (m : UserLeftMsg)
| SRoleChanged (m : RoleChangedMsg) | SDocDeleted (m : DocDeletedMsg)
| SShutdown (m : ServerShutdownMsg) | SError (m : ErrorMsg).

Definition client_json (m : ClientMsg) : json :=
  match m with
  | CAuth m => to_json_AuthRequestMsg m
  | CDocList => to_json_DocListRequestMsg mkDocListRequestMsg
  | CDocCreate m => to_json_DocCreateRequestMsg m
  | CDocJoin m => to_json_DocJoinRequestMsg m
  | CDocLeave m => to_json_DocLeaveRequestMsg m
  | CDocDelete m => to_json_DocDeleteRequestMsg m
  | CDocShare m => to_json_DocShareRequestMsg m
  | COperation m => to_json_OperationMsg m
  | CCursor m => to_json_CursorUpdateMsg m
  end.

Definition server_json (m : ServerMsg) : json :=
  match m with
  | SAuth m => to_json_AuthResponseMsg m
  | SDocList m => to_json_DocListResponseMsg m
  | SDocCreate m => to_json_DocCreateResponseMsg m
  | SDocJoin m => to_json_DocJoinResponseMsg m
  | SDocLeave m => to_json_DocLeaveResponseMsg m
  | SDocDelete m => to_json_DocDeleteResponseMsg m
  | SDocShare m => to_json_DocShareResponseMsg m
  | SAck m => to_json_OperationAckMsg m
  | SBroadcast m => to_json_OperationBroadcastMsg m
  | SCursors m => to_json_CursorBroadcastMsg m
  | SUserJoined m => to_json_UserJoinedMsg m
  | SUserLeft m => to_json_UserLeftMsg m
  | SRoleChanged m => to_json_RoleChangedMsg m
  | SDocDeleted m => to_json_DocDeletedMsg m
  | SShutdown m => to_json_ServerShutdownMsg m
  | SError m => to_json_ErrorMsg m
  end.

(** [serialize<T>]: [None] when [dump] throws. *)
Definition serialize (j : json) : option string := json_dump j.
End Codec.

(** ** Properties of the table *)

Lemma parse_type_to_string t : t <> MtUnknown -> parse_message_type (message_type_to_string t) = t.
Proof. by destruct t. Qed.

(** The two tables of message types are inverse to each other: every type but
    [Unknown] has a name and is found by it, every known name is the name of its
    type, and [Unknown] is what all other names map to. *)
Theorem message_type_tables_inverse t s :
  (t <> MtUnknown -> parse_message_type (message_type_to_string t) = t)
  /\ (parse_message_type s <> MtUnknown -> message_type_to_string (parse_message_type s) = s)
  /\ parse_message_type (message_type_to_string MtUnknown) = MtUnknown.
Proof.
  split_and!; [apply parse_type_to_string| |done].
  unfold parse_message_type. destruct (assoc s kStringToType) as [u|] eqn:E; [|done]. intros _.
  apply assoc_elem_of in E.
  assert (Forall (fun '(s, u) => message_type_to_string u = s) kStringToType) as F by decide_now.
  by apply (proj1 (Forall_forall _ _) F) in E.
Qed.
