(* ===== verification/Codec.v ===== *)
(** * Reading and writing messages (client/src/protocol_codec.cpp, and the reading
    half of server/src/message_handler.cpp)

    [parse_envelope] finds the type of a payload, [parse_as] reads a structure.
    The two properties say that a payload written by either side is recognised and
    read back as the message it was written from, for any JSON library that obeys
    the laws of [Json]. *)
From S2P Require Import Prelude ByteString Json Protocol.
Local Open Scope Z_scope.

Section Reading.
Context {J : Json}.

(** The type of a payload, [Unknown] for anything that has none. *)
Definition parse_envelope (payload : string) : MessageType * string :=
  match json_parse payload with
  | None => (MtUnknown, payload)
  | Some j =>
      match json_at j "type" with
      | Some t =>
          if negb (json_contains j "type") || negb (json_is_string t) then (MtUnknown, payload)
          else match get_string t with
               | Some s => (parse_message_type s, payload)
               | None => (MtUnknown, payload)
               end
      | None => (MtUnknown, payload)
      end
  end.

(** [json::parse(payload).get<T>()], with every [json::exception] caught. *)
Definition parse_as {T} (from : json -> option T) (payload : string) : option T :=
  json_parse payload ≫= from.

(** The client's writers; [None] when [dump] throws. *)
Definition encode_auth_request (action username password : string) : option string :=
  serialize (to_json_AuthRequestMsg (mkAuthRequestMsg action username password)).
Definition encode_doc_list_request : option string :=
  serialize (to_json_DocListRequestMsg mkDocListRequestMsg).
Definition encode_doc_create_request (title : string) : option string :=
  serialize (to_json_DocCreateRequestMsg (mkDocCreateRequestMsg title)).
Definition encode_doc_join_request (docId : Z) : option string :=
  serialize (to_json_DocJoinRequestMsg (mkDocJoinRequestMsg docId)).
Definition encode_doc_leave_request (docId : Z) : option string :=
  serialize (to_json_DocLeaveRequestMsg (mkDocLeaveRequestMsg docId)).
Definition encode_doc_delete_request (docId : Z) : option string :=
  serialize (to_json_DocDeleteRequestMsg (mkDocDeleteRequestMsg docId)).
Definition encode_doc_share_request (docId : Z) (targetUsername role : string) : option string :=
  serialize (to_json_DocShareRequestMsg (mkDocShareRequestMsg docId targetUsername role)).
Definition encode_cursor_update (docId position : Z) (selectionStart selectionEnd : option Z)
    : option string :=
  serialize (to_json_CursorUpdateMsg (mkCursorUpdateMsg docId position selectionStart selectionEnd)).

(** ** Types of messages, and values that fit their fields *)

Definition client_type (m : ClientMsg) : MessageType :=
  match m with
  | CAuth _ => MtAuthRequest | CDocList => MtDocListRequest
  | CDocCreate _ => MtDocCreateRequest | CDocJoin _ => MtDocJoinRequest
  | CDocLeave _ => MtDocLeaveRequest | CDocDelete _ => MtDocDeleteRequest
  | CDocShare _ => MtDocShareRequest | COperation _ => MtOperation
  | CCursor _ => MtCursorUpdate
  end.
Definition server_type (m : ServerMsg) : MessageType :=
  match m with
  | SAuth _ => MtAuthResponse | SDocList _ => MtDocListResponse
  | SDocCreate _ => MtDocCreateResponse | SDocJoin _ => MtDocJoinResponse
  | SDocLeave _ => MtDocLeaveResponse | SDocDelete _ => MtDocDeleteResponse
  | SDocShare _ => MtDocShareResponse | SAck _ => MtOperationAck
  | SBroadcast _ => MtOperationBroadcast | SCursors _ => MtCursorBroadcast
  | SUserJoined _ => MtUserJoined | SUserLeft _ => MtUserLeft
  | SRoleChanged _ => MtRoleChanged | SDocDeleted _ => MtDocDeleted
  | SShutdown _ => MtServerShutdown | SError _ => MtError
  end.

(** The structure each request type is read as by the server, and each
    notification type by the client. *)
Definition read_client (t : MessageType) (j : json) : option ClientMsg :=
  match t with
  | MtAuthRequest => CAuth <$> from_json_AuthRequestMsg j
  | MtDocListRequest => Some CDocList
  | MtDocCreateRequest => CDocCreate <$> from_json_DocCreateRequestMsg j
  | MtDocJoinRequest => CDocJoin <$> from_json_DocJoinRequestMsg j
  | MtDocLeaveRequest => CDocLeave <$> from_json_DocLeaveRequestMsg j
  | MtDocDeleteRequest => CDocDelete <$> from_json_DocDeleteRequestMsg j
  | MtDocShareRequest => CDocShare <$> from_json_DocShareRequestMsg j
  | MtOperation => COperation <$> from_json_OperationMsg j
  | MtCursorUpdate => CCursor <$> from_json_CursorUpdateMsg j
  | _ => None
  end.
Definition read_server (t : MessageType) (j : json) : option ServerMsg :=
  match t with
  | MtAuthResponse => SAuth <$> from_json_AuthResponseMsg j
  | MtDocListResponse => SDocList <$> from_json_DocListResponseMsg j
  | MtDocCreateResponse => SDocCreate <$> from_json_DocCreateResponseMsg j
  | MtDocJoinResponse => SDocJoin <$> from_json_DocJoinResponseMsg j
  | MtDocLeaveResponse => SDocLeave <$> from_json_DocLeaveResponseMsg j
  | MtDocDeleteResponse => SDocDelete <$> from_json_DocDeleteResponseMsg j
  | MtDocShareResponse => SDocShare <$> from_json_DocShareResponseMsg j
  | MtOperationAck => SAck <$> from_json_OperationAckMsg j
  | MtOperationBroadcast => SBroadcast <$> from_json_OperationBroadcastMsg j
  | MtCursorBroadcast => SCursors <$> from_json_CursorBroadcastMsg j
  | MtUserJoined => SUserJoined <$> from_json_UserJoinedMsg j
  | MtUserLeft => SUserLeft <$> from_json_UserLeftMsg j
  | MtRoleChanged => SRoleChanged <$> from_json_RoleChangedMsg j
  | MtDocDeleted => SDocDeleted <$> from_json_DocDeletedMsg j
  | MtServerShutdown => SShutdown <$> from_json_ServerShutdownMsg j
  | MtError => SError <$> from_json_ErrorMsg j
  | _ => None
  end.
End Reading.

(** Integer fields hold values of their type, and a field the writer leaves out
    holds its default. *)
Definition opt_u32 (o : option Z) : Prop := match o with Some n => is_u32 n | None => True end.
#[export] Instance opt_u32_dec o : Decision (opt_u32 o).
Proof. destruct o; cbn; apply _. Defined.
Definition entry_wf (e : OpEntry) : Prop :=
  is_u32 (oe_pos e) /\ is_u32 (oe_len e)
  /\ (oe_op e = "insert"%string \/ oe_text e = ""%string)
  /\ (oe_op e = "delete"%string \/ oe_len e = 0).
#[export] Instance entry_wf_dec e : Decision (entry_wf e).
Proof. unfold entry_wf. apply _. Defined.
Definition user_info_wf (u : UserInfo) : Prop := is_u32 (ui_userId u).
Definition list_entry_wf (e : DocListEntry) : Prop :=
  is_u32 (dle_docId e) /\ - i32_half <= dle_onlineCount e < i32_half.
Definition cursor_info_wf (c : CursorInfo) : Prop :=
  is_u32 (ci_userId c) /\ is_u32 (ci_position c)
  /\ opt_u32 (ci_selectionStart c) /\ opt_u32 (ci_selectionEnd c).

Definition client_wf (m : ClientMsg) : Prop :=
  match m with
  | CAuth _ | CDocList | CDocCreate _ => True
  | CDocJoin m => is_u32 (djq_docId m)
  | CDocLeave m => is_u32 (dvq_docId m)
  | CDocDelete m => is_u32 (ddq_docId m)
  | CDocShare m => is_u32 (dsq_docId m)
  | COperation m => is_u32 (opm_docId m) /\ is_u32 (opm_revision m) /\ Forall entry_wf (opm_ops m)
  | CCursor m => is_u32 (cum_docId m) /\ is_u32 (cum_position m)
                 /\ opt_u32 (cum_selectionStart m) /\ opt_u32 (cum_selectionEnd m)
  end.
Definition server_wf (m : ServerMsg) : Prop :=
  match m with
  | SAuth m => is_u32 (arm_userId m)
               /\ (if arm_success m then arm_error m = ""%string else arm_userId m = 0)
  | SDocList m => Forall list_entry_wf (dlm_documents m)
  | SDocCreate m => is_u32 (dcm_docId m) /\ (dcm_success m = true \/ dcm_docId m = 0)
  | SDocJoin m => is_u32 (djm_docId m) /\ is_u32 (djm_revision m) /\ Forall user_info_wf (djm_users m)
                  /\ if djm_success m then djm_error m = ""%string
                     else m = mkDocJoinResponseMsg false 0 "" "" 0 "" [] (djm_error m)
  | SAck m => is_u32 (oam_docId m) /\ is_u32 (oam_revision m)
  | SBroadcast m => is_u32 (obm_docId m) /\ is_u32 (obm_userId m) /\ is_u32 (obm_revision m)
                    /\ Forall entry_wf (obm_ops m)
  | SCursors m => is_u32 (cbm_docId m) /\ Forall cursor_info_wf (cbm_cursors m)
  | SUserJoined m => is_u32 (ujm_docId m) /\ is_u32 (ujm_userId m)
  | SUserLeft m => is_u32 (ulm_docId m) /\ is_u32 (ulm_userId m)
  | SRoleChanged m => is_u32 (rcm_docId m)
  | SDocDeleted m => is_u32 (dxm_docId m)
  | SDocLeave _ | SDocDelete _ | SDocShare _ | SShutdown _ | SError _ => True
  end.

(** ** Lemmas *)

(** [eval_keys] evaluates every comparison of two literal keys. *)
Ltac eval_keys :=
  repeat match goal with
  | |- context [bool_decide (?a = ?b :> string)] =>
      let v := eval vm_compute in (bool_decide (a = b)) in
      lazymatch v with
      | true => change (bool_decide (a = b)) with true
      | false => change (bool_decide (a = b)) with false
      end; cbv iota
  end.
(** [keys] discharges the conditions of the object laws on literal keys. *)
Ltac keys := first [ apply (bool_decide_eq_true_1 (NoDup _)); vm_compute; reflexivity
                   | apply (bool_decide_eq_true_1 (_ ∉ _)); vm_compute; reflexivity ].

(** [read_keys] computes every field access on a literal object. *)
Ltac read_keys :=
  unfold at_get, get_optional_uint32, get_vector;
  repeat (rewrite json_set_object by keys; cbn [app]);
  rewrite ?json_contains_at;
  repeat (rewrite json_at_object by keys; cbn [assoc]; eval_keys);
  autorewrite with json; cbn;
  rewrite ?json_get_uint32, ?json_get_int, ?json_get_string, ?json_get_bool, ?json_get_elements
    by (assumption || lia);
  cbn.

Section Laws.
Context {J : Json} {L : JsonLaws J}.

Lemma OpEntry_roundtrip e : entry_wf e -> from_json_OpEntry (to_json_OpEntry e) = Some e.
Proof.
  destruct e as [op pos text len]. intros (Hp & Hl & Ht & Hd). cbn in *.
  unfold from_json_OpEntry, to_json_OpEntry. cbn.
  destruct (decide (op = "insert"%string)) as [->|H1]; [|destruct (decide (op = "delete"%string)) as [->|H2]].
  - eval_keys. read_keys. naive_solver.
  - eval_keys. read_keys. naive_solver.
  - rewrite !bool_decide_false by done. read_keys. rewrite !bool_decide_false by done. naive_solver.
Qed.

Lemma UserInfo_roundtrip u : user_info_wf u -> from_json_UserInfo (to_json_UserInfo u) = Some u.
Proof.
  destruct u. unfold user_info_wf, from_json_UserInfo, to_json_UserInfo. cbn. intros.
  by read_keys.
Qed.

Lemma DocListEntry_roundtrip e :
  list_entry_wf e -> from_json_DocListEntry (to_json_DocListEntry e) = Some e.
Proof.
  destruct e. unfold list_entry_wf, from_json_DocListEntry, to_json_DocListEntry. cbn.
  intros [H1 H2]. by read_keys.
Qed.

(** An optional field is written as [null] when it is absent. *)
Lemma optional_roundtrip o :
  opt_u32 o -> (if json_is_null (json_optional o) then Some None
                else Some <$> get_uint32 (json_optional o)) = Some o.
Proof.
  destruct o as [n|]; cbn; intros H.
  - by rewrite json_is_null_number, json_get_uint32.
  - by rewrite json_is_null_null.
Qed.

Lemma CursorInfo_roundtrip c :
  cursor_info_wf c -> from_json_CursorInfo (to_json_CursorInfo c) = Some c.
Proof.
  destruct c. unfold cursor_info_wf, from_json_CursorInfo, to_json_CursorInfo. cbn.
  intros (H1 & H2 & H3 & H4). read_keys. rewrite !optional_roundtrip by done. done.
Qed.

(** A list of structures is read back when each of them is. *)
Lemma vector_roundtrip {A} (P : A -> Prop) (to : A -> json) (from : json -> option A) l :
  (forall x, P x -> from (to x) = Some x) -> Forall P l -> mapM from (to <$> l) = Some l.
Proof. intros H Hl. apply mapM_fmap. eapply Forall_impl; eauto. Qed.

Lemma read_client_json m : client_wf m -> read_client (client_type m) (client_json m) = Some m.
Proof.
  destruct m as [[]| |[]|[]|[]|[]|[]|[]|[]]; cbn; intros; destruct_and?;
    unfold from_json_AuthRequestMsg, from_json_DocCreateRequestMsg, from_json_DocJoinRequestMsg,
      from_json_DocLeaveRequestMsg, from_json_DocDeleteRequestMsg, from_json_DocShareRequestMsg,
      from_json_OperationMsg, from_json_CursorUpdateMsg,
      to_json_AuthRequestMsg, to_json_DocCreateRequestMsg, to_json_DocJoinRequestMsg,
      to_json_DocLeaveRequestMsg, to_json_DocDeleteRequestMsg, to_json_DocShareRequestMsg,
      to_json_OperationMsg, to_json_CursorUpdateMsg; cbn;
    try read_keys; try done.
  - erewrite vector_roundtrip by eauto using OpEntry_roundtrip. done.
  - rewrite !optional_roundtrip by done. done.
Qed.

(** The answers whose fields depend on [success]. *)
Lemma AuthResponse_roundtrip m :
  server_wf (SAuth m) -> from_json_AuthResponseMsg (to_json_AuthResponseMsg m) = Some m.
Proof.
  destruct m as [[] id err]; unfold from_json_AuthResponseMsg, to_json_AuthResponseMsg; cbn;
    intros [H1 H2]; subst; by read_keys.
Qed.
Lemma DocCreateResponse_roundtrip m :
  server_wf (SDocCreate m) -> from_json_DocCreateResponseMsg (to_json_DocCreateResponseMsg m) = Some m.
Proof.
  destruct m as [[] id]; unfold from_json_DocCreateResponseMsg, to_json_DocCreateResponseMsg; cbn;
    intros [H1 H2]; read_keys; naive_solver.
Qed.
Lemma DocJoinResponse_roundtrip m :
  server_wf (SDocJoin m) -> from_json_DocJoinResponseMsg (to_json_DocJoinResponseMsg m) = Some m.
Proof.
  destruct m as [[] id title content rev role users err];
    unfold from_json_DocJoinResponseMsg, to_json_DocJoinResponseMsg; cbn;
    intros (H1 & H2 & H3 & H4); read_keys.
  - erewrite vector_roundtrip by eauto using UserInfo_roundtrip. cbn. by rewrite H4.
  - by rewrite H4.
Qed.

Lemma read_server_json m : server_wf m -> read_server (server_type m) (server_json m) = Some m.
Proof.
  destruct m as [m|[]|m|m|[]|[]|[]|[]|[]|[]|[]|[]|[]|[]|[]|[]]; cbn [read_server server_type server_json];
    intros Hm;
    rewrite ?AuthResponse_roundtrip, ?DocCreateResponse_roundtrip, ?DocJoinResponse_roundtrip by done;
    try done; cbn in Hm; destruct_and?;
    unfold
      from_json_AuthResponseMsg, to_json_AuthResponseMsg, from_json_DocListResponseMsg,
      to_json_DocListResponseMsg, from_json_DocCreateResponseMsg, to_json_DocCreateResponseMsg,
      from_json_DocJoinResponseMsg, to_json_DocJoinResponseMsg, from_json_DocLeaveResponseMsg,
      to_json_DocLeaveResponseMsg, from_json_DocDeleteResponseMsg, to_json_DocDeleteResponseMsg,
      from_json_DocShareResponseMsg, to_json_DocShareResponseMsg, from_json_OperationAckMsg,
      to_json_OperationAckMsg, from_json_OperationBroadcastMsg, to_json_OperationBroadcastMsg,
      from_json_CursorBroadcastMsg, to_json_CursorBroadcastMsg, from_json_UserJoinedMsg,
      to_json_UserJoinedMsg, from_json_UserLeftMsg, to_json_UserLeftMsg,
      from_json_RoleChangedMsg, to_json_RoleChangedMsg, from_json_DocDeletedMsg,
      to_json_DocDeletedMsg, from_json_ServerShutdownMsg, to_json_ServerShutdownMsg,
      from_json_ErrorMsg, to_json_ErrorMsg;
    cbn; read_keys; try done.
  - erewrite vector_roundtrip by eauto using DocListEntry_roundtrip. done.
  - erewrite vector_roundtrip by eauto using OpEntry_roundtrip. done.
  - erewrite vector_roundtrip by eauto using CursorInfo_roundtrip. done.
Qed.

(** Every written message carries its type. *)
Lemma client_json_type m :
  json_at (client_json m) "type" = Some (json_string (message_type_to_string (client_type m))).
Proof.
  destruct m as [[]| |[]|[]|[]|[]|[]|[]|[]]; cbn [client_json client_type];
    unfold to_json_AuthRequestMsg, to_json_DocListRequestMsg, to_json_DocCreateRequestMsg,
      to_json_DocJoinRequestMsg, to_json_DocLeaveRequestMsg, to_json_DocDeleteRequestMsg,
      to_json_DocShareRequestMsg, to_json_OperationMsg, to_json_CursorUpdateMsg; cbn; by read_keys.
Qed.
Lemma server_json_type m :
  json_at (server_json m) "type" = Some (json_string (message_type_to_string (server_type m))).
Proof.
  destruct m as [[[]]|[]|[[]]|[[]]|[]|[]|[]|[]|[]|[]|[]|[]|[]|[]|[]|[]]; cbn [server_json server_type];
    unfold
      from_json_AuthResponseMsg, to_json_AuthResponseMsg, from_json_DocListResponseMsg,
      to_json_DocListResponseMsg, from_json_DocCreateResponseMsg, to_json_DocCreateResponseMsg,
      from_json_DocJoinResponseMsg, to_json_DocJoinResponseMsg, from_json_DocLeaveResponseMsg,
      to_json_DocLeaveResponseMsg, from_json_DocDeleteResponseMsg, to_json_DocDeleteResponseMsg,
      from_json_DocShareResponseMsg, to_json_DocShareResponseMsg, from_json_OperationAckMsg,
      to_json_OperationAckMsg, from_json_OperationBroadcastMsg, to_json_OperationBroadcastMsg,
      from_json_CursorBroadcastMsg, to_json_CursorBroadcastMsg, from_json_UserJoinedMsg,
      to_json_UserJoinedMsg, from_json_UserLeftMsg, to_json_UserLeftMsg,
      from_json_RoleChangedMsg, to_json_RoleChangedMsg, from_json_DocDeletedMsg,
      to_json_DocDeletedMsg, from_json_ServerShutdownMsg, to_json_ServerShutdownMsg,
      from_json_ErrorMsg, to_json_ErrorMsg;
    cbn; by read_keys.
Qed.

(** A number that is read fits its field. *)
Lemma at_get_uint32_range j (key : string) n : at_get j key get_uint32 = Some n -> is_u32 n.
Proof. unfold at_get. intros (v & _ & H)%bind_Some. by apply json_get_uint32_range in H. Qed.

Lemma parse_envelope_typed payload j t :
  json_parse payload = Some j -> t <> MtUnknown ->
  json_at j "type" = Some (json_string (message_type_to_string t)) ->
  parse_envelope payload = (t, payload).
Proof.
  intros Hj Ht Hat. unfold parse_envelope.
  rewrite Hj, Hat, json_contains_at, Hat, json_is_string_string, json_get_string. cbn.
  by rewrite parse_type_to_string.
Qed.

(** A written message is recognised and read back. *)
Lemma client_read_back m payload :
  client_wf m -> serialize (client_json m) = Some payload ->
  parse_envelope payload = (client_type m, payload)
  /\ parse_as (read_client (client_type m)) payload = Some m.
Proof.
  unfold serialize. intros Hm Hd. apply json_parse_dump in Hd. split.
  - apply (parse_envelope_typed _ _ _ Hd); [by destruct m | apply client_json_type].
  - unfold parse_as. rewrite Hd. by apply read_client_json.
Qed.
Lemma server_read_back m payload :
  server_wf m -> serialize (server_json m) = Some payload ->
  parse_envelope payload = (server_type m, payload)
  /\ parse_as (read_server (server_type m)) payload = Some m.
Proof.
  unfold serialize. intros Hm Hd. apply json_parse_dump in Hd. split.
  - apply (parse_envelope_typed _ _ _ Hd); [by destruct m | apply server_json_type].
  - unfold parse_as. rewrite Hd. by apply read_server_json.
Qed.

(** An operation message that can be read back, whatever its numbers: it has its entries'
    number, and its document if that is an id. *)
Lemma operation_msg_parts m msg : from_json_OperationMsg (to_json_OperationMsg m) = Some msg ->
  (is_u32 (opm_docId m) -> opm_docId msg = opm_docId m) /\ length (opm_ops msg) = length (opm_ops m).
Proof.
  unfold from_json_OperationMsg, to_json_OperationMsg, at_get, get_vector.
  repeat (rewrite json_at_object by keys; cbn [assoc]; eval_keys; cbn [mbind option_bind]).
  rewrite json_get_elements. cbn [mbind option_bind].
  intros (d & Hd & (r & _ & (ops & Ho & [= <-])%bind_Some)%bind_Some)%bind_Some. cbn. split.
  - intros Hu. rewrite json_get_uint32 in Hd by done. by injection Hd as ->.
  - apply mapM_Some, Forall2_length in Ho. by rewrite length_fmap in Ho.
Qed.

(** A structure read inside a sum type is the structure read on its own. *)
Lemma parse_as_fmap {A B} (f : A -> B) (from : json -> option A) payload x :
  (forall a b, f a = f b -> a = b) ->
  parse_as (fun j => f <$> from j) payload = Some (f x) -> parse_as from payload = Some x.
Proof.
  intros Hf. unfold parse_as. destruct (json_parse payload) as [j|]; [|done]. cbn.
  destruct (from j) as [a|]; cbn; [|done]. intros [= H]. f_equal. by apply Hf.
Qed.

(** ** Properties *)

(** C34: what a client sends, the server reads. A request whose integers fit their
    fields and whose absent fields hold their defaults, once written as JSON text,
    is recognised as a request of its type and read back as the same request. *)
Theorem client_message_roundtrip m payload :
  client_wf m -> serialize (client_json m) = Some payload ->
  parse_envelope payload = (client_type m, payload)
  /\ parse_as (read_client (client_type m)) payload = Some m.
Proof. apply client_read_back. Qed.

(** C35: what the server sends, a client reads: the same for every response and
    notification, those written to a client about other clients' operations
    included. *)
Theorem server_message_roundtrip m payload :
  server_wf m -> serialize (server_json m) = Some payload ->
  parse_envelope payload = (server_type m, payload)
  /\ parse_as (read_server (server_type m)) payload = Some m.
Proof. apply server_read_back. Qed.
End Laws.

Lemma client_message_roundtrip_witness :
  let m := COperation (mkOperationMsg 1 7 [mkOpEntry "insert" 3 "ab" 0; mkOpEntry "delete" 0 "" 2]) in
  exists payload, parse_as (J := json_tree) (read_client MtOperation) payload = Some m.
Proof.
  intros m. exists (pos_text (encode (client_json (J := json_tree) m))).
  refine (proj2 (client_message_roundtrip (L := json_tree_laws) m _ _ _)); [|reflexivity].
  cbn. split_and!; decide_now.
Defined.

Lemma server_message_roundtrip_witness :
  let m := SBroadcast (mkOperationBroadcastMsg 1 2 "ann" 8 [mkOpEntry "insert" 3 "ab" 0]) in
  exists payload, parse_envelope (J := json_tree) payload = (MtOperationBroadcast, payload).
Proof.
  intros m. exists (pos_text (encode (server_json (J := json_tree) m))).
  refine (proj1 (server_message_roundtrip (L := json_tree_laws) m _ _ _)); [|reflexivity].
  cbn. split_and!; decide_now.
Defined.
