(* ===== verification/ClientSession.v ===== *)
(** * Server-side sessions (server/include/server/client_session.h,
    server/src/client_session.cpp)

    The socket is asio's: starting an asynchronous read or write, closing it and
    the two callbacks are outputs of the member functions, the completions of
    reads and writes are functions of their own. [async_read] completes with
    exactly the bytes it was started for, or with an error. *)
From S2P Require Import Prelude ByteString Frames.
Local Open Scope Z_scope.

Record ClientSession := mkClientSession {
  cs_session_id : Z;
  cs_write_queue : list string;
  cs_writing : bool;
  cs_authenticated : bool;
  cs_userId : Z;
  cs_username : string;
  cs_color : string;
  cs_currentDocId : Z;
  cs_disconnected : bool;
  cs_error_count : Z;
}.

Inductive CsOutput :=
| AsyncReadHeader                     (* async_read of four bytes *)
| AsyncReadBody (body_length : Z)     (* async_read of the payload *)
| AsyncWrite (frame : string)
| SocketClose
| OnMessage (payload : string)
| OnDisconnect.

Definition new_ClientSession (session_id : Z) : ClientSession :=
  mkClientSession session_id [] false false 0 "" "" 0 false 0.

Definition with_queue (s : ClientSession) (queue : list string) (writing : bool) : ClientSession :=
  mkClientSession (cs_session_id s) queue writing (cs_authenticated s) (cs_userId s) (cs_username s)
    (cs_color s) (cs_currentDocId s) (cs_disconnected s) (cs_error_count s).

Definition set_auth (s : ClientSession) (userId : Z) (username color : string) : ClientSession :=
  mkClientSession (cs_session_id s) (cs_write_queue s) (cs_writing s) true userId username color
    (cs_currentDocId s) (cs_disconnected s) (cs_error_count s).

Definition set_current_doc (s : ClientSession) (docId : Z) : ClientSession :=
  mkClientSession (cs_session_id s) (cs_write_queue s) (cs_writing s) (cs_authenticated s) (cs_userId s)
    (cs_username s) (cs_color s) docId (cs_disconnected s) (cs_error_count s).

(** [disconnected_.exchange(true)] and the callback when it was [false]. *)
Definition disconnect (s : ClientSession) : ClientSession * list CsOutput :=
  (mkClientSession (cs_session_id s) (cs_write_queue s) (cs_writing s) (cs_authenticated s) (cs_userId s)
     (cs_username s) (cs_color s) (cs_currentDocId s) true (cs_error_count s),
   if cs_disconnected s then [] else [OnDisconnect]).

(** The atomic [int] counter: the new value, wrapped to 32 bits. *)
Definition increment_error_count (s : ClientSession) : Z * ClientSession :=
  let count := i32 (cs_error_count s + 1) in
  (count, mkClientSession (cs_session_id s) (cs_write_queue s) (cs_writing s) (cs_authenticated s)
     (cs_userId s) (cs_username s) (cs_color s) (cs_currentDocId s) (cs_disconnected s) count).

Definition close : list CsOutput := [SocketClose].

Definition do_write (s : ClientSession) : ClientSession * list CsOutput :=
  match cs_write_queue s with
  | [] => (with_queue s [] false, [])
  | front :: _ => (s, [AsyncWrite front])
  end.

(** The completion of [async_write]. *)
Definition on_write (s : ClientSession) (ec : bool) : ClientSession * list CsOutput :=
  if ec then disconnect s
  else
    let queue := tail (cs_write_queue s) in
    match queue with
    | _ :: _ => do_write (with_queue s queue (cs_writing s))
    | [] => (with_queue s queue false, [])
    end.

Definition send (s : ClientSession) (json_payload : string) : ClientSession * list CsOutput :=
  if cs_disconnected s then (s, [])
  else
    let frame := encode_frame json_payload in
    let s := with_queue s (cs_write_queue s ++ [frame]) (cs_writing s) in
    if negb (cs_writing s) then do_write (with_queue s (cs_write_queue s) true)
    else (s, []).

Definition do_read_header (s : ClientSession) : ClientSession * list CsOutput := (s, [AsyncReadHeader]).
Definition start (s : ClientSession) : ClientSession * list CsOutput := do_read_header s.

Definition do_read_body (s : ClientSession) (body_length : Z) : ClientSession * list CsOutput :=
  (s, [AsyncReadBody body_length]).

(** The completion of the read of a header. *)
Definition on_header (s : ClientSession) (ec : bool) (header_buf : list ascii)
    : ClientSession * list CsOutput :=
  if ec then disconnect s
  else match decode_frame_header header_buf with
  | None => let '(s, out) := disconnect s in (s, close ++ out)
  | Some payload_len => do_read_body s payload_len
  end.

(** The completion of the read of a body; the callback runs before the next read
    is started. *)
Definition on_body (s : ClientSession) (ec : bool) (body_buf : string)
    : ClientSession * list CsOutput :=
  if ec then disconnect s
  else let '(s, out) := do_read_header s in (s, OnMessage body_buf :: out).

(** ** Everything that can happen to a session *)

Inductive CsEvent :=
| EvSend (payload : string)
| EvWritten (ec : bool)
| EvHeader (ec : bool) (header_buf : list ascii)
| EvBody (ec : bool) (body_buf : string)
| EvSetAuth (userId : Z) (username color : string)
| EvSetCurrentDoc (docId : Z)
| EvError.

Definition cs_handle (s : ClientSession) (e : CsEvent) : ClientSession * list CsOutput :=
  match e with
  | EvSend payload => send s payload
  | EvWritten ec => on_write s ec
  | EvHeader ec h => on_header s ec h
  | EvBody ec b => on_body s ec b
  | EvSetAuth u n c => (set_auth s u n c, [])
  | EvSetCurrentDoc d => (set_current_doc s d, [])
  | EvError => (snd (increment_error_count s), [])
  end.
Definition cs_run (s : ClientSession) (es : list CsEvent) : ClientSession * list CsOutput :=
  foldl (fun '(s, out) e => let '(s, o) := cs_handle s e in (s, out ++ o)) (s, []) es.

(** ** The write side

    [wire_outstanding] is the frame an [async_write] has been started for,
    [wire_written] the frames completely written, [wire_sent] the payloads given
    to [send] while the session was connected. A write completes only when one is
    outstanding. *)
Record Wire := mkWire {
  wire_session : ClientSession;
  wire_outstanding : option string;
  wire_written : list string;
  wire_sent : list string;
}.

(** The writes an output list starts. *)
Definition writes (out : list CsOutput) : list string :=
  omap (fun o => match o with AsyncWrite f => Some f | _ => None end) out.

Inductive WireStep : Wire -> Wire -> Prop :=
| wire_send s o w ps payload :
    WireStep (mkWire s o w ps)
      (mkWire (fst (send s payload))
              (match writes (snd (send s payload)) with f :: _ => Some f | [] => o end) w
              (if cs_disconnected s then ps else ps ++ [payload]))
| wire_written_ok s f w ps :
    WireStep (mkWire s (Some f) w ps)
      (mkWire (fst (on_write s false)) (head (writes (snd (on_write s false)))) (w ++ [f]) ps)
| wire_written_error s f w ps :
    WireStep (mkWire s (Some f) w ps) (mkWire (fst (on_write s true)) None w ps)
| wire_other s o w ps e :
    match e with EvSend _ | EvWritten _ => False | _ => True end ->
    WireStep (mkWire s o w ps) (mkWire (fst (cs_handle s e)) o w ps).

Definition wire_ok (w : Wire) : Prop :=
  let s := wire_session w in
  encode_frame <$> wire_sent w = wire_written w ++ cs_write_queue s
  /\ (forall f, wire_outstanding w = Some f -> head (cs_write_queue s) = Some f)
  /\ (cs_disconnected s = false ->
      wire_outstanding w = head (cs_write_queue s)
      /\ cs_writing s = bool_decide (cs_write_queue s <> [])).

(** ** The read side

    [deliver] plays the read completions of a connection that receives [bytes]:
    a started read completes when enough bytes are there. [None] means that no
    read is outstanding. *)
Inductive PendingRead := PendHeader | PendBody (body_length : Z).

Definition next_read (out : list CsOutput) : option PendingRead :=
  last (omap (fun o => match o with
                       | AsyncReadHeader => Some PendHeader
                       | AsyncReadBody n => Some (PendBody n)
                       | _ => None end) out).
Definition messages (out : list CsOutput) : list string :=
  omap (fun o => match o with OnMessage p => Some p | _ => None end) out.

Fixpoint deliver (fuel : nat) (s : ClientSession) (pend : option PendingRead) (bytes : string)
    : ClientSession * list CsOutput * option PendingRead :=
  match fuel, pend with
  | S fuel, Some pend =>
      let n := match pend with PendHeader => 4 | PendBody n => n end in
      if slen bytes <? n then (s, [], Some pend)
      else
        let got := str_mid bytes 0 n in
        let '(s, out) := match pend with
                         | PendHeader => on_header s false (bytes_of got)
                         | PendBody _ => on_body s false got
                         end in
        let '(s, outs, pend) := deliver fuel s (next_read out) (str_erase bytes 0 n) in
        (s, out ++ outs, pend)
  | _, pend => (s, [], pend)
  end.

(** ** Lemmas *)

(** What [send] does to a connected session. *)
Lemma send_connected s payload :
  cs_disconnected s = false ->
  cs_writing s = bool_decide (cs_write_queue s <> []) ->
  let q := cs_write_queue s ++ [encode_frame payload] in
  send s payload = (with_queue s q true, if cs_writing s then [] else [AsyncWrite (encode_frame payload)]).
Proof.
  intros Hd Hw q. unfold send. rewrite Hd. destruct (cs_writing s) eqn:E; cbn [with_queue cs_writing].
  - done.
  - symmetry in Hw. apply bool_decide_eq_false in Hw. apply dec_stable in Hw.
    unfold q. by rewrite Hw.
Qed.

Lemma wire_other_unchanged s e :
  match e with EvSend _ | EvWritten _ => False | _ => True end ->
  cs_write_queue (fst (cs_handle s e)) = cs_write_queue s
  /\ cs_writing (fst (cs_handle s e)) = cs_writing s
  /\ (cs_disconnected (fst (cs_handle s e)) = false -> cs_disconnected s = false).
Proof.
  destruct e as [| |[] h|[] b| | |]; intros H; try done.
  cbn [cs_handle]. unfold on_header. by destruct (decode_frame_header h).
Qed.

Lemma wire_step_ok w w' : wire_ok w -> WireStep w w' -> wire_ok w'.
Proof.
  intros (Hq & Ho & Hc) Hs. destruct Hs as [s o w ps payload|s f w ps|s f w ps|s o w ps e He];
    unfold wire_ok in *; cbn [wire_session wire_outstanding wire_written wire_sent] in *.
  - destruct (cs_disconnected s) eqn:Hd.
    + unfold send. rewrite Hd. cbn. by rewrite Hd.
    + destruct (Hc eq_refl) as [Hout Hw]. rewrite send_connected by done. cbn.
      rewrite fmap_app, Hq, <- app_assoc. cbn. rewrite Hd.
      destruct (cs_write_queue s) as [|g q] eqn:Eq; cbn in *; rewrite Hw; cbn; by rewrite ?Hout.
  - specialize (Ho f eq_refl). destruct (cs_write_queue s) as [|g q] eqn:Eq; [done|].
    injection Ho as ->. unfold on_write. rewrite Eq. cbn.
    destruct q as [|h q]; cbn; (split; [by rewrite Hq, <- app_assoc|]); split; try done; intros Hd;
      destruct (Hc Hd) as [_ Hw]; by rewrite ?Hw.
  - done.
  - destruct (wire_other_unchanged s e He) as (-> & -> & Hd). eauto.
Qed.

Lemma str_split_at b n t :
  slen b = n -> str_mid (b +:+ t) 0 n = b /\ str_erase (b +:+ t) 0 n = t.
Proof.
  intros <-. rewrite slen_bytes. split; apply bytes_of_inj.
  - unfold str_mid. rewrite bytes_of_of_bytes, bytes_of_app, Nat2Z.id. change (Z.to_nat 0) with 0%nat.
    by rewrite drop_0, take_app_length.
  - unfold str_erase. rewrite bytes_of_of_bytes, bytes_of_app, Nat2Z.id. change (Z.to_nat 0) with 0%nat.
    rewrite take_0. cbn [app Nat.add]. by rewrite drop_app_length.
Qed.

(** One frame: the header is read, then the body, then the next header awaited. *)
Lemma deliver_frame fuel s p t :
  sized p ->
  exists out, messages out = [p] /\
  deliver (S (S fuel)) s (Some PendHeader) (encode_frame p +:+ t)
  = (let '(s, outs, pend) := deliver fuel s (Some PendHeader) t in (s, out ++ outs, pend)).
Proof.
  intros Hp. destruct (decode_sized p Hp) as [Hd _]. pose proof (slen_nonneg p). pose proof (slen_nonneg t).
  pose proof (frame_body_encode p) as Hb. pose proof (length_frame_header p) as Hh.
  set (h := of_bytes (frame_header (encode_frame p))).
  assert (encode_frame p = h +:+ p) as He.
  { apply bytes_of_inj. unfold h. rewrite bytes_of_app, bytes_of_of_bytes.
    apply (f_equal bytes_of) in Hb. unfold frame_body in Hb. rewrite bytes_of_of_bytes in Hb.
    rewrite <- Hb. unfold frame_header. by rewrite take_drop. }
  assert (slen h = 4) as Hh4 by (unfold h; rewrite slen_bytes, bytes_of_of_bytes, Hh; done).
  assert (bytes_of h = frame_header (encode_frame p)) as Hbh by (unfold h; by rewrite bytes_of_of_bytes).
  exists [AsyncReadBody (slen p); OnMessage p; AsyncReadHeader]. split; [done|].
  rewrite He, append_assoc. cbn [deliver]. destruct (str_split_at h 4 (p +:+ t) Hh4) as [-> ->].
  rewrite slen_app, slen_app, Hh4, (proj2 (Z.ltb_ge _ _)) by lia.
  rewrite Hbh. unfold on_header. rewrite Hd. cbn [do_read_body next_read omap list_omap last].
  rewrite (proj2 (Z.ltb_ge _ _)) by lia.
  destruct (str_split_at p (slen p) t eq_refl) as [-> ->]. cbn.
  by destruct (deliver fuel s (Some PendHeader) t) as [[? ?] ?].
Qed.

(** The disconnections an output list reports. *)
Definition disconnects (out : list CsOutput) : Z :=
  Z.of_nat (length (omap (fun o => match o with OnDisconnect => Some () | _ => None end) out)).

Lemma disconnects_app out out' : disconnects (out ++ out') = disconnects out + disconnects out'.
Proof. unfold disconnects. rewrite omap_app, length_app. lia. Qed.

(** A session reports its disconnection when it becomes disconnected, and only
    then. *)
Lemma disconnects_handle s e :
  let '(s', out) := cs_handle s e in
  disconnects out = Z.b2z (cs_disconnected s') - Z.b2z (cs_disconnected s)
  /\ (cs_disconnected s = true -> cs_disconnected s' = true).
Proof.
  assert (forall t ec, cs_disconnected t = cs_disconnected s ->
    let '(s', out) := on_write t ec in
    disconnects out = Z.b2z (cs_disconnected s') - Z.b2z (cs_disconnected s)
    /\ (cs_disconnected s = true -> cs_disconnected s' = true)) as Hw.
  { intros t [] Ht; unfold on_write, disconnect; rewrite ?Ht.
    - by destruct (cs_disconnected s).
    - destruct (tail (cs_write_queue t)) eqn:E; unfold do_write; cbn; rewrite ?Ht; by destruct (cs_disconnected s). }
  destruct e as [p|ec|ec h|ec b|u n c|d|]; cbn [cs_handle].
  - unfold send, do_write. destruct (cs_disconnected s) eqn:Hd; cbn; rewrite ?Hd; [done|].
    destruct (cs_writing s); cbn; rewrite ?Hd; [done|].
    destruct (cs_write_queue s ++ [encode_frame p]); cbn; by rewrite ?Hd.
  - by apply Hw.
  - unfold on_header, disconnect, do_read_body, close.
    destruct ec, (decode_frame_header h), (cs_disconnected s) eqn:Hd; cbn; by rewrite ?Hd.
  - unfold on_body, disconnect, do_read_header. destruct ec, (cs_disconnected s) eqn:Hd; cbn; by rewrite ?Hd.
  - cbn. by destruct (cs_disconnected s).
  - cbn. by destruct (cs_disconnected s).
  - cbn. by destruct (cs_disconnected s).
Qed.

Lemma cs_run_from s out es :
  foldl (fun '(s, out) e => let '(s, o) := cs_handle s e in (s, out ++ o)) (s, out) es
  = (let '(s, o) := cs_run s es in (s, out ++ o)).
Proof.
  unfold cs_run. revert s out. induction es as [|e es IH]; intros s out; cbn [foldl]; [by rewrite app_nil_r|].
  destruct (cs_handle s e) as [t o]. rewrite IH, (IH _ ([] ++ o)).
  destruct (foldl _ (t, []) es). by rewrite app_assoc.
Qed.

(** ** Properties *)

(** C26: the write side of a session. In every state reached from a new session by
    sends, completions of writes and anything else that happens to it: the frames
    written so far followed by those in the queue are the frames of the payloads
    sent while connected, in order, so none is lost, repeated, reordered or mixed
    with another; while connected, a write is outstanding exactly when a frame
    waits, and it is the first one's; and [send] starts a write only when none is
    outstanding. *)
Theorem writes_in_order id w :
  rtc WireStep (mkWire (new_ClientSession id) None [] []) w ->
  encode_frame <$> wire_sent w = wire_written w ++ cs_write_queue (wire_session w)
  /\ (cs_disconnected (wire_session w) = false ->
      wire_outstanding w = head (cs_write_queue (wire_session w)))
  /\ (wire_outstanding w <> None -> forall payload, writes (snd (send (wire_session w) payload)) = []).
Proof.
  intros Hs. assert (wire_ok w) as (Hq & Ho & Hc).
  { assert (wire_ok (mkWire (new_ClientSession id) None [] [])) as H0 by done.
    exact (rtc_preserved _ _ _ _ wire_step_ok Hs H0). }
  split; [done|]. split; [intros Hd; by apply Hc|]. intros Hn payload.
  destruct (wire_outstanding w) as [f|] eqn:Eo; [|done]. specialize (Ho f eq_refl).
  destruct (cs_disconnected (wire_session w)) eqn:Hd; [unfold send; by rewrite Hd|].
  destruct (Hc eq_refl) as [_ Hw]. rewrite send_connected by done. rewrite Hw.
  by destruct (cs_write_queue (wire_session w)).
Qed.

Lemma writes_in_order_witness :
  let s1 := fst (send (new_ClientSession 1) "a") in
  let s2 := fst (send s1 "b") in
  let s3 := fst (on_write s2 false) in
  encode_frame <$> ["a"; "b"] = [encode_frame "a"] ++ cs_write_queue s3.
Proof.
  intros s1 s2 s3.
  refine (proj1 (writes_in_order 1 (mkWire s3 (Some (encode_frame "b")) [encode_frame "a"] ["a"; "b"]) _)).
  eapply rtc_l; [apply (wire_send (new_ClientSession 1) None [] [] "a")|].
  eapply rtc_l; [apply (wire_send s1 (Some (encode_frame "a")) [] ["a"] "b")|].
  apply rtc_once, (wire_written_ok s2 (encode_frame "a") [] ["a"; "b"]).
Defined.

(** C25: the read side of a session hands over what the client framed. From the
    bytes of any sequence of frames of at most 16 MiB each, the callback is called
    with exactly their payloads, in order, and the session then waits for the next
    header, unchanged; two completions per frame are enough. *)
Theorem reads_in_order s ps fuel :
  Forall sized ps -> (2 * length ps < fuel)%nat ->
  exists out, deliver fuel s (Some PendHeader) (stream ps) = (s, out, Some PendHeader)
  /\ messages out = ps.
Proof.
  intros Hs. revert fuel. induction Hs as [|p ps Hp _ IH]; intros fuel Hf.
  - destruct fuel; [lia|]. by exists [].
  - destruct fuel as [|[|fuel]]; [cbn in Hf; lia..|]. cbn in Hf.
    destruct (deliver_frame fuel s p (stream ps) Hp) as (out & Hm & E).
    destruct (IH fuel) as (outs & E' & Hms); [lia|]. change (stream (p :: ps)) with (encode_frame p +:+ stream ps).
    rewrite E, E'. exists (out ++ outs). split; [done|]. unfold messages in *. by rewrite omap_app, Hm, Hms.
Qed.

Lemma reads_in_order_witness :
  messages (snd (fst (deliver 7 (new_ClientSession 1) (Some PendHeader) (stream ["ab"; ""; "c"]))))
  = ["ab"; ""; "c"].
Proof.
  destruct (reads_in_order (new_ClientSession 1) ["ab"; ""; "c"] 7) as (out & E & Hm);
    [decide_now | cbn; lia |]. by rewrite E.
Defined.

(** A session reports its disconnection at most once, whatever fails and in
    whatever order: exactly when it has become disconnected; from then on [send]
    does nothing. *)
Theorem disconnect_reported_once id es :
  let '(s, out) := cs_run (new_ClientSession id) es in
  disconnects out = Z.b2z (cs_disconnected s)
  /\ (cs_disconnected s = true -> forall payload, send s payload = (s, [])).
Proof.
  assert (forall s, let '(s', out) := cs_run s es in
    disconnects out = Z.b2z (cs_disconnected s') - Z.b2z (cs_disconnected s)) as H.
  { induction es as [|e es IH]; intros s; [cbn; by destruct (cs_disconnected s)|]. unfold cs_run. cbn [foldl].
    pose proof (disconnects_handle s e) as He. destruct (cs_handle s e) as [t o]. destruct He as [He _].
    rewrite cs_run_from. specialize (IH t). destruct (cs_run t es) as [u o'].
    rewrite disconnects_app. cbn [app]. lia. }
  specialize (H (new_ClientSession id)). destruct (cs_run (new_ClientSession id) es) as [s out].
  split; [cbn in H; lia|]. intros Hd payload. unfold send. by rewrite Hd.
Qed.
