(* ===== verification/DocumentSession.v ===== *)
(** * Document sessions (server/include/server/document_session.h,
    server/src/document_session.cpp)

    One thread per open document takes commands from a queue and applies them to
    the document. Its members are the commands waiting and the connected users; the
    document is shared with the document manager, so every handler takes it and
    returns it. A message goes out as the pair of the session it is sent to (the
    weak pointer of the source, here the session's id) and the serialised text.
    A handler returns [None] when [serialize] throws: nothing catches the
    exception and the process ends. Log lines are not modelled. *)
From S2P Require Import Prelude ByteString Operation OT Ladder Document Json Protocol.
Local Open Scope Z_scope.

Record ConnectedUser := mkConnectedUser {
  cu_userId : Z;
  cu_username : string;
  cu_color : string;
  cu_session : Z;
}.

Record CursorState := mkCursorState {
  cst_userId : Z;
  cst_username : string;
  cst_color : string;
  cst_position : Z;
  cst_selectionStart : option Z;
  cst_selectionEnd : option Z;
}.

Inductive DocCommandType := CmdOperation | CmdJoin | CmdLeave | CmdDelete | CmdShutdown.
#[export] Instance DocCommandType_eq_dec : EqDecision DocCommandType.
Proof. solve_decision. Defined.

Record DocCommand := mkDocCommand {
  cmd_type : DocCommandType;
  cmd_operation : Operation;
  cmd_userId : Z;
  cmd_username : string;
  cmd_color : string;
  cmd_session : Z;
}.

(** The operation of a command that is not [CmdOperation]. *)
Definition no_operation : Operation := mkOp Insert 0 "" 0 0 0.

Record DocumentSession := mkDocumentSession {
  ds_command_queue : list DocCommand;
  ds_connected_users : gmap Z ConnectedUser;
}.
Definition new_DocumentSession : DocumentSession := mkDocumentSession [] ∅.

Definition with_users (s : DocumentSession) (us : gmap Z ConnectedUser) : DocumentSession :=
  mkDocumentSession (ds_command_queue s) us.

(** A payload for each receiving session, in the order of the sends. *)
Abbreviation Sends := (list (Z * string)).

Definition enqueue_command (s : DocumentSession) (cmd : DocCommand) : DocumentSession :=
  mkDocumentSession (ds_command_queue s ++ [cmd]) (ds_connected_users s).

Definition connected_users (s : DocumentSession) : list ConnectedUser :=
  snd <$> map_to_list (ds_connected_users s).

Definition has_subscribers (d : Document) : bool := 0 <? subscriber_count d.

Definition broadcast (s : DocumentSession) (json_payload : string) (excludeUserId : Z) : Sends :=
  let targets := filter (fun '(userId, _) => userId <> excludeUserId)
                        (map_to_list (ds_connected_users s)) in
  (fun '(_, user) => (cu_session user, json_payload)) <$> targets.

Definition send_to_user (s : DocumentSession) (userId : Z) (json_payload : string) : Sends :=
  match ds_connected_users s !! userId with
  | Some user => [(cu_session user, json_payload)]
  | None => []
  end.

(** The entry that describes an operation in a broadcast. *)
Definition broadcast_entry (op : Operation) : OpEntry :=
  match op_type op with
  | Insert => mkOpEntry "insert" (op_position op) (op_text op) 0
  | Delete => mkOpEntry "delete" (op_position op) "" (op_length op)
  end.

(** The command the message handler enqueues for an entry of an operation
    message (server/src/message_handler.cpp, handle_operation). *)
Definition command_of_entry (userId : Z) (username : string) (revision : Z) (op_entry : OpEntry)
    : DocCommand :=
  let is_insert := bool_decide (oe_op op_entry = "insert"%string) in
  let op := if is_insert then make_insert (oe_pos op_entry) (oe_text op_entry) userId revision
            else make_delete (oe_pos op_entry) (oe_len op_entry) "" userId revision in
  mkDocCommand CmdOperation op userId username "" 0.

Section Handlers.
Context {J : Json}.

Definition handle_join (d : Document) (s : DocumentSession) (cmd : DocCommand)
    : option (Document * DocumentSession * Sends) :=
  let s := with_users s
    (<[cmd_userId cmd := mkConnectedUser (cmd_userId cmd) (cmd_username cmd) (cmd_color cmd)
                                         (cmd_session cmd)]> (ds_connected_users s)) in
  let d := subscribe d (cmd_userId cmd) in
  payload ← serialize (to_json_UserJoinedMsg
    (mkUserJoinedMsg (doc_id d) (cmd_userId cmd) (cmd_username cmd) (cmd_color cmd)));
  Some (d, s, broadcast s payload (cmd_userId cmd)).

Definition handle_leave (d : Document) (s : DocumentSession) (cmd : DocCommand)
    : option (Document * DocumentSession * Sends) :=
  let s := with_users s (delete (cmd_userId cmd) (ds_connected_users s)) in
  let d := unsubscribe d (cmd_userId cmd) in
  payload ← serialize (to_json_UserLeftMsg
    (mkUserLeftMsg (doc_id d) (cmd_userId cmd) (cmd_username cmd)));
  Some (d, s, broadcast s payload 0).

Definition handle_operation (d : Document) (s : DocumentSession) (cmd : DocCommand)
    : option (Document * DocumentSession * Sends) :=
  let '(result, d) := apply_with_ot d (cmd_operation cmd) in
  if negb (ot_success result) then
    payload ← serialize (to_json_ErrorMsg (mkErrorMsg "revision_too_old" (ot_error result)));
    Some (d, s, send_to_user s (cmd_userId cmd) payload)
  else
    ack ← serialize (to_json_OperationAckMsg (mkOperationAckMsg (doc_id d) (doc_revision d)));
    let entry := broadcast_entry (ot_transformed_op result) in
    payload ← serialize (to_json_OperationBroadcastMsg
      (mkOperationBroadcastMsg (doc_id d) (cmd_userId cmd) (cmd_username cmd) (doc_revision d) [entry]));
    Some (d, s, send_to_user s (cmd_userId cmd) ack ++ broadcast s payload (cmd_userId cmd)).

Definition handle_delete (d : Document) (s : DocumentSession)
    : option (Document * DocumentSession * Sends) :=
  payload ← serialize (to_json_DocDeletedMsg (mkDocDeletedMsg (doc_id d)));
  Some (d, with_users s ∅, broadcast s payload 0).

Definition process_command (d : Document) (s : DocumentSession) (cmd : DocCommand)
    : option (Document * DocumentSession * Sends) :=
  match cmd_type cmd with
  | CmdJoin => handle_join d s cmd
  | CmdLeave => handle_leave d s cmd
  | CmdOperation => handle_operation d s cmd
  | CmdDelete => handle_delete d s
  | CmdShutdown => Some (d, s, [])
  end.

(** The inner loop of [run]: commands are dequeued and processed until the queue
    is empty. The loop that waits for a stop request runs it again and again, the
    one after the stop request once. *)
Fixpoint run_loop (q : list DocCommand) (d : Document) (s : DocumentSession)
    : option (Document * DocumentSession * Sends) :=
  match q with
  | [] => Some (d, mkDocumentSession [] (ds_connected_users s), [])
  | cmd :: q =>
      '(d, s, out) ← process_command d (mkDocumentSession q (ds_connected_users s)) cmd;
      '(d, s, outs) ← run_loop q d s;
      Some (d, s, out ++ outs)
  end.
Definition run (d : Document) (s : DocumentSession) : option (Document * DocumentSession * Sends) :=
  run_loop (ds_command_queue s) d s.
End Handlers.

(** ** What one client receives *)

(** The payloads sent to a session. *)
Definition received (p : Z) (out : Sends) : list string :=
  omap (fun '(q, payload) => if bool_decide (q = p) then Some payload else None) out.

(** User [u] is connected, and only through session [p]. *)
Definition connected_via (s : DocumentSession) (u p : Z) : Prop :=
  exists user, ds_connected_users s !! u = Some user /\ cu_session user = p
  /\ forall v w, ds_connected_users s !! v = Some w -> cu_session w = p -> v = u.

(** The messages an operation command produces for user [u]: the
    acknowledgement of an operation of its own, the broadcast of another one, the
    error for a rejected one of its own. *)
Definition operation_feed (u : Z) (d : Document) (cmd : DocCommand) : list ServerMsg :=
  let '(result, d) := apply_with_ot d (cmd_operation cmd) in
  if ot_success result then
    if bool_decide (cmd_userId cmd = u) then [SAck (mkOperationAckMsg (doc_id d) (doc_revision d))]
    else [SBroadcast (mkOperationBroadcastMsg (doc_id d) (cmd_userId cmd) (cmd_username cmd)
                        (doc_revision d) [broadcast_entry (ot_transformed_op result)])]
  else if bool_decide (cmd_userId cmd = u) then
    [SError (mkErrorMsg "revision_too_old" (ot_error result))] else [].

Definition feed_revision (m : ServerMsg) : option Z :=
  match m with
  | SAck m => Some (oam_revision m)
  | SBroadcast m => Some (obm_revision m)
  | _ => None
  end.

Section Facts.
Context {J : Json}.

(** [payload] is the text of [m]. *)
Definition carries (payload : string) (m : ServerMsg) : Prop :=
  serialize (server_json m) = Some payload.

Lemma received_app p out out' : received p (out ++ out') = received p out ++ received p out'.
Proof. apply omap_app. Qed.

Lemma received_send_to_user s u p v payload :
  connected_via s u p ->
  received p (send_to_user s v payload) = if bool_decide (v = u) then [payload] else [].
Proof.
  intros (user & Hu & Hp & Honly). unfold send_to_user. case_bool_decide as E.
  - subst. rewrite Hu. cbn. by rewrite bool_decide_true.
  - destruct (ds_connected_users s !! v) as [w|] eqn:Hv; [|done]. cbn.
    rewrite bool_decide_false; [done|]. intros Hw. by apply E, (Honly v w).
Qed.

(** In a list of users of whom only [u] uses session [p]. *)
Lemma received_targets p u e payload (l : list (Z * ConnectedUser)) :
  NoDup (l.*1) -> (forall v w, (v, w) ∈ l -> (cu_session w = p <-> v = u)) ->
  received p ((fun '(_, user) => (cu_session user, payload)) <$> filter (fun '(v, _) => v <> e) l)
  = if bool_decide (u ∈ l.*1 /\ u <> e) then [payload] else [].
Proof.
  induction l as [|[v w] l IH]; intros Hnd H.
  - cbn. rewrite bool_decide_false; [done|]. by intros [?%elem_of_nil _].
  - cbn in Hnd. apply NoDup_cons in Hnd as [Hv Hnd].
    pose proof (H v w (list_elem_of_here _ _)) as Hvw.
    rewrite filter_cons. assert (forall x y, (x, y) ∈ l -> (cu_session y = p <-> x = u)) as H'
      by (intros; apply H; by apply list_elem_of_further).
    specialize (IH Hnd H'). cbn [fmap list_fmap fst].
    destruct (decide (v <> e)) as [He|He]; cbn [fmap list_fmap received omap list_omap].
    + destruct (decide (v = u)) as [->|Hvu].
      * rewrite (bool_decide_true (cu_session w = p)) by tauto.
        fold (received p). unfold received in IH. rewrite IH, bool_decide_false by (by intros [? _]).
        rewrite bool_decide_true; [done|]. split; [apply list_elem_of_here|done].
      * rewrite (bool_decide_false (cu_session w = p)) by tauto. unfold received in IH. rewrite IH.
        
        erewrite (bool_decide_ext (u ∈ v :: l.*1 /\ u <> e)); [done|]. rewrite elem_of_cons. naive_solver.
    + rewrite IH. 
        erewrite (bool_decide_ext (u ∈ v :: l.*1 /\ u <> e)); [done|]. rewrite elem_of_cons.
      apply dec_stable in He. naive_solver.
Qed.

Lemma received_broadcast s u p e payload :
  connected_via s u p ->
  received p (broadcast s payload e) = if bool_decide (u = e) then [] else [payload].
Proof.
  intros (user & Hu & Hp & Honly). unfold broadcast. rewrite (received_targets p u).
  - assert (u ∈ (map_to_list (ds_connected_users s)).*1) as Hin.
    { apply list_elem_of_fmap. exists (u, user). split; [done|]. by apply elem_of_map_to_list. }
    case_bool_decide; case_bool_decide; tauto.
  - apply NoDup_fst_map_to_list.
  - intros v w Hv%elem_of_map_to_list. split; [by apply Honly|]. intros ->. congruence.
Qed.

(** One operation command: the document changes as [apply_with_ot] says, the
    users do not, and [u] receives its feed. *)
Lemma handle_operation_feed d s cmd u p d' s' out :
  connected_via s u p -> handle_operation d s cmd = Some (d', s', out) ->
  d' = snd (apply_with_ot d (cmd_operation cmd)) /\ s' = s
  /\ Forall2 carries (received p out) (operation_feed u d cmd).
Proof.
  intros Hu. unfold handle_operation, operation_feed, carries.
  destruct (apply_with_ot d (cmd_operation cmd)) as [r e]. cbn [snd].
  destruct (ot_success r) eqn:Hr; cbn [negb].
  - intros (ack & Ha & (pl & Hb & [= <- <- <-])%bind_Some)%bind_Some.
    rewrite received_app, (received_send_to_user _ u), (received_broadcast _ u) by done.
    rewrite (bool_decide_ext (u = cmd_userId cmd) (cmd_userId cmd = u)) by done.
    case_bool_decide; by repeat constructor.
  - intros (pl & Hb & [= <- <- <-])%bind_Some.
    rewrite (received_send_to_user _ u) by done. case_bool_decide; by repeat constructor.
Qed.

Lemma operation_feed_revisions u d cmd :
  doc_wf d -> is_u32 (op_revision (cmd_operation cmd)) -> doc_revision d + 1 < u32_mod ->
  let d' := snd (apply_with_ot d (cmd_operation cmd)) in
  doc_wf d' /\ doc_revision d <= doc_revision d' <= doc_revision d + 1
  /\ omap feed_revision (operation_feed u d cmd)
     = seqZ (doc_revision d + 1) (doc_revision d' - doc_revision d).
Proof.
  intros Hwf Hop Hw d'. split; [apply apply_with_ot_wf; [done|by destruct Hop|done]|].
  unfold d', operation_feed.
  destruct (apply_with_ot_cases d (cmd_operation cmd) Hwf (proj1 Hop)) as [[Hp Hr]|Hr].
  - rewrite apply_with_ot_too_old by done. cbn. split; [lia|].
    rewrite Z.sub_diag. by case_bool_decide.
  - rewrite apply_with_ot_accepted by done. cbn. split; [lia|].
    replace (doc_revision d + 1 - doc_revision d) with 1 by lia. by case_bool_decide.
Qed.

Lemma run_loop_cons q cmd d s :
  run_loop (cmd :: q) d s =
    ('(d, s, out) ← process_command d (mkDocumentSession q (ds_connected_users s)) cmd;
     '(d, s, outs) ← run_loop q d s; Some (d, s, out ++ outs)).
Proof. done. Qed.

(** ** Properties *)

(** What a connected client sees of a run of operations. The thread takes
    every command in the queue's order; the messages a connected client receives
    carry, in order, exactly the revisions the document went through, one message
    for each accepted operation, whoever made it; the document is the result of
    the operations in that order, and nobody's connection changes. *)
Theorem client_feed cmds d s u p d' s' out :
  Forall (fun cmd => cmd_type cmd = CmdOperation /\ is_u32 (op_revision (cmd_operation cmd))) cmds ->
  doc_wf d -> doc_revision d + Z.of_nat (length cmds) < u32_mod ->
  connected_via s u p -> run_loop cmds d s = Some (d', s', out) ->
  d' = foldl (fun d cmd => snd (apply_with_ot d (cmd_operation cmd))) d cmds
  /\ ds_connected_users s' = ds_connected_users s /\ ds_command_queue s' = []
  /\ doc_revision d <= doc_revision d'
  /\ exists ms, Forall2 carries (received p out) ms
     /\ omap feed_revision ms = seqZ (doc_revision d + 1) (doc_revision d' - doc_revision d).
Proof.
  intros Hc. revert d s d' s' out. induction Hc as [|cmd cmds [Ht Hop] _ IH]; intros d s d' s' out Hwf Hw Hu.
  - intros [= <- <- <-]. split_and!; [done..|]. exists []. split; [constructor|]. by rewrite Z.sub_diag.
  - rewrite run_loop_cons. unfold process_command. rewrite Ht.
    intros ([[d1 s1] out1] & H1 & ([[d2 s2] out2] & H2 & [= <- <- <-])%bind_Some)%bind_Some.
    apply (handle_operation_feed _ _ _ u p) in H1 as (-> & -> & F1); [|exact Hu].
    cbn [length] in Hw.
    destruct (operation_feed_revisions u d cmd Hwf Hop) as (W1 & L1 & R1); [lia|].
    apply IH in H2 as (-> & Hus & Hq & L2 & ms & F2 & R2); [|done|lia|exact Hu].
    split_and!; [done..|lia|]. exists (operation_feed u d cmd ++ ms). split; [rewrite received_app; by apply Forall2_app|].
    rewrite omap_app, R1, R2. set (r1 := doc_revision (snd _)) in *.
    set (r2 := doc_revision (foldl _ _ _)) in *.
    replace (r2 - doc_revision d) with ((r1 - doc_revision d) + (r2 - r1)) by lia.
    rewrite seqZ_app by lia. do 2 f_equal. lia.
Qed.
End Facts.

Lemma client_feed_witness :
  let s := mkDocumentSession [] {[ 1 := mkConnectedUser 1 "ann" "" 10; 2 := mkConnectedUser 2 "bob" "" 20 ]} in
  let cmds := [mkDocCommand CmdOperation (make_insert 0 "a" 1 0) 1 "ann" "" 0;
               mkDocCommand CmdOperation (make_insert 0 "b" 2 0) 2 "bob" "" 0] in
  exists d' s' out ms, run_loop (J := json_tree) cmds (doc_init 7 "t" "") s = Some (d', s', out)
  /\ doc_content d' = "ab"%string
  /\ Forall2 (carries (J := json_tree)) (received 20 out) ms
  /\ omap feed_revision ms = [1; 2].
Proof.
  intros s cmds. destruct (run_loop (J := json_tree) cmds (doc_init 7 "t" "") s) as [[[d' s'] out]|] eqn:E;
    [|vm_compute in E; discriminate].
  exists d', s', out.
  destruct (client_feed (J := json_tree) cmds (doc_init 7 "t" "") s 2 20 d' s' out) as (Hd & _ & _ & _ & ms & F & R).
  - repeat constructor; cbn; decide_now.
  - decide_now.
  - decide_now.
  - eexists. split; [by vm_compute|]. split; [done|]. intros v w Hv Hw. unfold s in Hv. cbn in Hv.
    apply lookup_insert_Some in Hv as [[<- <-]|[_ Hv]]; [done|].
    by apply lookup_singleton_Some in Hv as [<- _].
  - exact E.
  - exists ms. split; [done|]. split; [rewrite Hd; by vm_compute|]. split; [exact F|].
    rewrite R, Hd. by vm_compute.
Defined.
