(* ===== verification/NetworkManager.v ===== *)
(** * The client's connection (client/include/client/network_manager.h,
    client/src/network_manager.cpp)

    The socket is Qt's: its state and the bytes it hands over are arguments of
    the slots, what the slots ask of it and the signals they emit are outputs.
    [onReadyRead] cuts the received bytes into frames. *)
From S2P Require Import Prelude ByteString Frames.
Local Open Scope Z_scope.

(** [QAbstractSocket::SocketState]. *)
Inductive SocketState :=
| UnconnectedState | HostLookupState | ConnectingState | ConnectedState
| BoundState | ListeningState | ClosingState.
#[export] Instance SocketState_eq_dec : EqDecision SocketState.
Proof. solve_decision. Defined.

(** A slot posted to the manager's thread by [QMetaObject::invokeMethod]. *)
Inductive PostedSlot :=
| PostSendFrame (payload : string)
| PostConnectToHost (host : string) (port : Z)
| PostDisconnectFromHost.

(** Signals and calls of the socket. *)
Inductive NetOutput :=
| SigConnected
| SigDisconnected (reason : string)
| SigMessageReceived (payload : string)
| SigErrorOccurred (message : string)
| SocketConnect (host : string) (port : Z)
| SocketDisconnect
| SocketWrite (bytes : string).

Record NetworkManager := mkNetworkManager {
  nm_socket : bool;          (* the socket has been created *)
  nm_rx_buffer : string;
  nm_user_id : Z;
  nm_username : string;
  nm_posted : list PostedSlot;
}.
Definition new_NetworkManager : NetworkManager := mkNetworkManager false "" 0 "" [].

Definition with_rx (n : NetworkManager) (rx : string) : NetworkManager :=
  mkNetworkManager (nm_socket n) rx (nm_user_id n) (nm_username n) (nm_posted n).
Definition post (n : NetworkManager) (p : PostedSlot) : NetworkManager :=
  mkNetworkManager (nm_socket n) (nm_rx_buffer n) (nm_user_id n) (nm_username n) (nm_posted n ++ [p]).

Definition setIdentity (n : NetworkManager) (userId : Z) (username : string) : NetworkManager :=
  mkNetworkManager (nm_socket n) (nm_rx_buffer n) userId username (nm_posted n).

Definition send (n : NetworkManager) (payload : string) : NetworkManager := post n (PostSendFrame payload).
Definition requestConnect (n : NetworkManager) (host : string) (port : Z) : NetworkManager :=
  post n (PostConnectToHost host port).
Definition requestDisconnect (n : NetworkManager) : NetworkManager := post n PostDisconnectFromHost.

Definition ensureSocket (n : NetworkManager) : NetworkManager :=
  mkNetworkManager true (nm_rx_buffer n) (nm_user_id n) (nm_username n) (nm_posted n).

Definition connectToHost (n : NetworkManager) (host : string) (port : Z)
    : NetworkManager * list NetOutput :=
  (with_rx (ensureSocket n) "", [SocketConnect host port]).

Definition disconnectFromHost (n : NetworkManager) (state : SocketState) : list NetOutput :=
  if negb (nm_socket n) then []
  else if bool_decide (state = UnconnectedState) then [] else [SocketDisconnect].

Definition sendFrame (n : NetworkManager) (state : SocketState) (payload : string) : list NetOutput :=
  if negb (nm_socket n) || negb (bool_decide (state = ConnectedState)) then
    [SigErrorOccurred "Not connected"]
  else [SocketWrite (encode_frame payload)].

Definition onSocketConnected (n : NetworkManager) : list NetOutput := [SigConnected].
Definition onSocketDisconnected (n : NetworkManager) : NetworkManager * list NetOutput :=
  (with_rx n "", [SigDisconnected "Socket closed"]).
Definition onSocketError (n : NetworkManager) (errorString : string) : list NetOutput :=
  if nm_socket n then [SigErrorOccurred errorString] else [].

(** The loop of [onReadyRead] over the receive buffer: the remaining buffer, the
    outputs, and whether the loop ended on an oversized frame. Every round removes
    at least four bytes, so the buffer's length bounds the rounds. *)
Fixpoint rx_loop (fuel : nat) (rx : string) : string * list NetOutput * bool :=
  match fuel with
  | O => (rx, [], false)
  | S fuel =>
      if slen rx <? 4 then (rx, [], false)
      else match decode_frame_header (take 4 (bytes_of rx)) with
      | None => (rx, [SigErrorOccurred "Frame exceeds 16 MiB limit"], true)
      | Some len =>
          let payload_len := i32 len in
          if slen rx <? 4 + payload_len then (rx, [], false)
          else
            let payload := str_mid rx 4 payload_len in
            let rx := str_erase rx 0 (4 + payload_len) in
            let '(rx, out, oversized) := rx_loop fuel rx in
            (rx, SigMessageReceived payload :: out, oversized)
      end
  end.

Definition onReadyRead (n : NetworkManager) (state : SocketState) (readAll : string)
    : NetworkManager * list NetOutput :=
  if negb (nm_socket n) then (n, [])
  else
    let rx := nm_rx_buffer n +:+ readAll in
    let '(rx, out, oversized) := rx_loop (String.length rx) rx in
    let n := with_rx n rx in
    (n, out ++ if oversized then disconnectFromHost n state else []).

(** The manager's thread runs the posted slots in order. *)
Definition run_posted (n : NetworkManager) (state : SocketState) : NetworkManager * list NetOutput :=
  match nm_posted n with
  | [] => (n, [])
  | p :: ps =>
      let n := mkNetworkManager (nm_socket n) (nm_rx_buffer n) (nm_user_id n) (nm_username n) ps in
      match p with
      | PostSendFrame payload => (n, sendFrame n state payload)
      | PostConnectToHost host port => connectToHost n host port
      | PostDisconnectFromHost => (n, disconnectFromHost n state)
      end
  end.

(** ** The byte stream of a connection *)

(** A connection that receives bytes in chunks. *)
Definition join_chunks (cs : list string) : string := foldr String.append "" cs.
Definition receive_chunks (n : NetworkManager) (state : SocketState) (cs : list string)
    : NetworkManager * list NetOutput :=
  foldl (fun '(n, out) c => let '(n, out') := onReadyRead n state c in (n, out ++ out')) (n, []) cs.

Lemma rx_loop_frame fuel p t : sized p ->
  rx_loop (S fuel) (encode_frame p +:+ t)
  = (let '(rx, out, o) := rx_loop fuel t in (rx, SigMessageReceived p :: out, o)).
Proof.
  intros Hp. destruct (decode_sized p Hp) as [Hd Hi]. destruct (frame_split p t) as [Hm He].
  pose proof (slen_nonneg p). pose proof (slen_nonneg t).
  cbn [rx_loop]. rewrite slen_app, slen_encode_frame.
  rewrite (proj2 (Z.ltb_ge _ 4)) by lia.
  rewrite (frame_prefix_header p _ "" t) by (rewrite ?append_nil_r, ?slen_app, ?slen_encode_frame; (done || lia)).
  rewrite Hd, Hi, (proj2 (Z.ltb_ge _ _)) by lia. by rewrite Hm, He.
Qed.

Lemma rx_loop_partial fuel p b rest t : sized p ->
  b +:+ rest = encode_frame p +:+ t -> slen b < 4 + slen p -> rx_loop fuel b = (b, [], false).
Proof.
  intros Hp H Hl. destruct fuel as [|fuel]; [done|]. cbn [rx_loop].
  destruct (Z.ltb_spec (slen b) 4); [done|]. destruct (decode_sized p Hp) as [Hd Hi].
  rewrite (frame_prefix_header p b rest t), Hd, Hi by (done || lia).
  by rewrite (proj2 (Z.ltb_lt _ _)) by lia.
Qed.

Lemma rx_loop_stream fuel ps b rest :
  Forall sized ps -> b +:+ rest = stream ps -> (String.length b <= fuel)%nat ->
  exists qs ps' b', ps = qs ++ ps' /\ rx_loop fuel b = (b', SigMessageReceived <$> qs, false)
  /\ b' +:+ rest = stream ps' /\ incomplete b' ps'.
Proof.
  intros Hs. revert fuel b. induction Hs as [|p ps Hp Hs IH]; intros fuel b H Hf.
  - apply (f_equal slen) in H. rewrite slen_app in H. pose proof (slen_nonneg b).
    pose proof (slen_nonneg rest). cbn in H. rewrite slen_empty in H.
    assert (b = ""%string) as -> by (apply slen_zero; lia). assert (rest = ""%string) as -> by (apply slen_zero; lia).
    exists [], [], ""%string. by destruct fuel.
  - cbn [stream foldr] in H. destruct (Z.lt_ge_cases (slen b) (4 + slen p)) as [Hlt|Hge].
    + exists [], (p :: ps), b. split; [done|]. split; [|done]. by eapply rx_loop_partial.
    + destruct (append_prefix _ _ _ _ H) as (u & -> & Hu); [rewrite slen_encode_frame; lia|].
      pose proof (slen_app (encode_frame p) u) as Hl. rewrite slen_encode_frame in Hl. unfold slen in Hl, Hge.
      destruct fuel as [|fuel]; [lia|]. rewrite rx_loop_frame by done.
      destruct (IH fuel u Hu) as (qs & ps' & b' & -> & E & Hb & Hi); [lia|].
      exists (p :: qs), ps', b'. by rewrite E.
Qed.

Lemma receive_chunks_from n out state cs :
  foldl (fun '(n, out) c => let '(n, out') := onReadyRead n state c in (n, out ++ out')) (n, out) cs
  = (let '(n, out') := receive_chunks n state cs in (n, out ++ out')).
Proof.
  unfold receive_chunks. revert n out. induction cs as [|c cs IH]; intros n out; cbn; [by rewrite app_nil_r|].
  destruct (onReadyRead n state c) as [m o]. rewrite IH, (IH _ o).
  destruct (foldl _ _ _). by rewrite app_assoc.
Qed.

(** The emitted messages over the chunks of a connection. *)
Lemma receive_chunks_stream n state cs ps rest :
  nm_socket n = true -> Forall sized ps ->
  nm_rx_buffer n +:+ join_chunks cs +:+ rest = stream ps -> incomplete (nm_rx_buffer n) ps ->
  exists qs ps' m, ps = qs ++ ps' /\ receive_chunks n state cs = (m, SigMessageReceived <$> qs)
  /\ nm_rx_buffer m +:+ rest = stream ps' /\ incomplete (nm_rx_buffer m) ps'.
Proof.
  revert n ps. induction cs as [|c cs IH]; intros n ps Hn Hs H Hi.
  - exists [], ps, n. done.
  - cbn [join_chunks foldr] in H. fold join_chunks in H.
    assert ((nm_rx_buffer n +:+ c) +:+ (join_chunks cs +:+ rest) = stream ps) as H2
      by (rewrite <- H, !append_assoc; done).
    destruct (rx_loop_stream _ ps _ _ Hs H2 (le_n _)) as (qs & ps1 & b' & -> & E & Hb & Hi').
    unfold receive_chunks. cbn [foldl]. unfold onReadyRead at 2. rewrite Hn. cbn [negb]. rewrite E.
    rewrite app_nil_r. cbn [app]. rewrite receive_chunks_from.
    apply Forall_app in Hs as [_ Hs].
    destruct (IH (with_rx n b') ps1 Hn Hs Hb Hi') as (qs2 & ps2 & m & -> & E2 & Hb2 & Hi2).
    rewrite E2. exists (qs ++ qs2), ps2, m. by rewrite <- app_assoc, fmap_app.
Qed.

(** ** Properties *)

(** C23: frames survive any segmentation. Whatever chunks the socket hands over,
    once they make up a prefix of the bytes of a sequence of frames of at most
    16 MiB each, the messages emitted are exactly the payloads of the frames that
    are complete, in order; no complete frame is held back, the buffer holds the
    beginning of the next one, and when all bytes have arrived everything has been
    delivered and the buffer is empty. *)
Theorem reassembly n state cs ps rest :
  nm_socket n = true -> nm_rx_buffer n = ""%string -> Forall sized ps ->
  join_chunks cs +:+ rest = stream ps ->
  exists qs ps', ps = qs ++ ps'
  /\ snd (receive_chunks n state cs) = SigMessageReceived <$> qs
  /\ nm_rx_buffer (fst (receive_chunks n state cs)) +:+ rest = stream ps'
  /\ incomplete (nm_rx_buffer (fst (receive_chunks n state cs))) ps'
  /\ (rest = ""%string -> ps' = []).
Proof.
  intros Hn Hrx Hs H.
  destruct (receive_chunks_stream n state cs ps rest Hn Hs) as (qs & ps' & m & Hps & E & Hb & Hi);
    [by rewrite Hrx | |].
  { rewrite Hrx. destruct ps as [|p ps]; [done|]. cbn. rewrite slen_empty. pose proof (slen_nonneg p). lia. }
  exists qs, ps'. rewrite E. split_and!; [done..|]. intros ->. rewrite append_nil_r in Hb.
  destruct ps' as [|p ps']; [done|]. cbn in Hi. rewrite Hb in Hi. cbn [stream foldr] in Hi.
  rewrite slen_app, slen_encode_frame in Hi. pose proof (slen_nonneg (stream ps')) as Hn'.
  unfold stream in Hn'. lia.
Qed.

Lemma reassembly_witness :
  let n := ensureSocket new_NetworkManager in
  let bytes := stream ["ab"; ""; "c"] in
  snd (receive_chunks n ConnectedState [str_mid bytes 0 5; str_mid bytes 5 6; str_mid bytes 11 4])
  = [SigMessageReceived "ab"; SigMessageReceived ""; SigMessageReceived "c"].
Proof.
  intros n bytes.
  destruct (reassembly n ConnectedState [str_mid bytes 0 5; str_mid bytes 5 6; str_mid bytes 11 4]
              ["ab"; ""; "c"] "") as (qs & ps' & Hps & E & _ & _ & Hr);
    [done | done | decide_now | by vm_compute |].
  rewrite E. rewrite (Hr eq_refl), app_nil_r in Hps. by rewrite <- Hps.
Defined.
