(* ===== verification/OTController.v ===== *)
(** * The client's document and its controller (client/src/local_document.cpp,
    client/src/ot_controller.cpp and their headers)

    A controller owns the pending operation (sent, not yet acknowledged) and the
    buffer (made, not yet sent). Its slots take the controller and the document it
    edits and return both with the signals and messages they emit, in order. A
    slot returns [None] where the source has undefined behaviour (reading an empty
    optional or the front of an empty vector) or an exception no one catches. *)
From S2P Require Import Prelude ByteString Operation OT Ladder Json Protocol Codec.
Local Open Scope Z_scope.

(** ** LocalDocument: every member takes the lock for its whole body *)

Record LocalDocument := mkLocalDocument { ld_content : string; ld_revision : Z }.

Definition reset (d : LocalDocument) (content : string) (revision : Z) : LocalDocument :=
  mkLocalDocument content revision.
Definition ld_apply (d : LocalDocument) (op : Operation) : LocalDocument :=
  mkLocalDocument (apply (ld_content d) op) (ld_revision d).
Definition snapshot (d : LocalDocument) : string := ld_content d.
Definition set_revision (d : LocalDocument) (rev : Z) : LocalDocument :=
  mkLocalDocument (ld_content d) rev.

(** ** Operations on the wire *)

Definition to_entry (op : Operation) : OpEntry :=
  match op_type op with
  | Insert => mkOpEntry "insert" (op_position op) (op_text op) 0
  | Delete => mkOpEntry "delete" (op_position op) "" (op_length op)
  end.

Definition from_entry (entry : OpEntry) (userId revision : Z) : Operation :=
  if bool_decide (oe_op entry = "insert"%string) then
    make_insert (oe_pos entry) (oe_text entry) userId revision
  else make_delete (oe_pos entry) (oe_len entry) "" userId revision.

(** ** OTController *)

Inductive State := Synchronized | AwaitingAck | AwaitingAckWithBuffer.
#[export] Instance State_eq_dec : EqDecision State.
Proof. solve_decision. Defined.

(** [oc_userId] is [nm_->userId()]. *)
Record OTController := mkOTController {
  oc_userId : Z;
  oc_doc_id : Z;
  oc_revision : Z;
  oc_state : State;
  oc_pending_op : option Operation;
  oc_buffer : list Operation;
}.

Inductive OcOutput :=
| OutSend (payload : string)            (* nm_->send *)
| SigRevisionChanged (revision : Z)
| SigRemoteOperationApplied (op : Operation)
| SigStateChanged (label : string)
| SigFatalError (message : string).

Definition new_OTController (userId doc_id initial_revision : Z) : OTController :=
  mkOTController userId doc_id initial_revision Synchronized None [].

Definition with_state (c : OTController) (st : State) (pending : option Operation)
    (buffer : list Operation) : OTController :=
  mkOTController (oc_userId c) (oc_doc_id c) (oc_revision c) st pending buffer.
Definition with_revision (c : OTController) (rev : Z) : OTController :=
  mkOTController (oc_userId c) (oc_doc_id c) rev (oc_state c) (oc_pending_op c) (oc_buffer c).

Definition emitStateLabel (c : OTController) : list OcOutput :=
  match oc_state c with
  | Synchronized => [SigStateChanged "SYN"]
  | AwaitingAck => [SigStateChanged "ACK"]
  | AwaitingAckWithBuffer => [SigStateChanged "BUF"]
  end.

Section Controller.
Context {J : Json}.
Abbreviation Result := (option (OTController * LocalDocument * list OcOutput)).

Definition sendOp (c : OTController) (op : Operation) : option (list OcOutput) :=
  payload ← serialize (to_json_OperationMsg
    (mkOperationMsg (oc_doc_id c) (oc_revision c) [to_entry op]));
  Some [OutSend payload].

(** The loop of [onLocalOperations]. *)
Fixpoint local_loop (ops : list Operation) (c : OTController) (d : LocalDocument)
    (state_changed : bool) : option (OTController * LocalDocument * list OcOutput * bool) :=
  match ops with
  | [] => Some (c, d, [], state_changed)
  | op :: ops =>
      if is_noop op then local_loop ops c d state_changed
      else
        let op := mkOp (op_type op) (op_position op) (op_text op) (op_length op)
                       (oc_userId c) (oc_revision c) in
        let d := ld_apply d op in
        '(c, out, state_changed) ←
          match oc_state c with
          | Synchronized =>
              let c := with_state c (oc_state c) (Some op) (oc_buffer c) in
              out ← sendOp c op;
              Some (with_state c AwaitingAck (oc_pending_op c) (oc_buffer c), out, true)
          | AwaitingAck =>
              Some (with_state c AwaitingAckWithBuffer (oc_pending_op c) (oc_buffer c ++ [op]), [], true)
          | AwaitingAckWithBuffer =>
              Some (with_state c (oc_state c) (oc_pending_op c) (oc_buffer c ++ [op]), [], state_changed)
          end;
        '(c, d, outs, state_changed) ← local_loop ops c d state_changed;
        Some (c, d, out ++ outs, state_changed)
  end.

Definition onLocalOperations (c : OTController) (d : LocalDocument) (ops : list Operation) : Result :=
  '(c, d, out, state_changed) ← local_loop ops c d false;
  Some (c, d, out ++ if (state_changed : bool) then emitStateLabel c else []).

Definition handleAck (c : OTController) (d : LocalDocument) (msg : OperationAckMsg) : Result :=
  let c := with_revision c (oam_revision msg) in
  let d := set_revision d (oam_revision msg) in
  let out := [SigRevisionChanged (oam_revision msg)] in
  match oc_state c with
  | Synchronized => Some (c, d, out ++ emitStateLabel c)
  | AwaitingAck =>
      let c := with_state c Synchronized None (oc_buffer c) in
      Some (c, d, out ++ emitStateLabel c)
  | AwaitingAckWithBuffer =>
      match oc_buffer c with
      | [] => None
      | op :: buffer =>
          let c := with_state c (oc_state c) (Some op) buffer in
          sent ← sendOp c op;
          let c := match buffer with
                   | [] => with_state c AwaitingAck (oc_pending_op c) buffer
                   | _ => c
                   end in
          Some (c, d, out ++ sent ++ emitStateLabel c)
      end
  end.

(** The loop over the entries of a broadcast. *)
Fixpoint entry_loop (entries : list OpEntry) (c : OTController) (d : LocalDocument)
    (msg : OperationBroadcastMsg) : Result :=
  match entries with
  | [] => Some (c, d, [])
  | entry :: entries =>
      let server_op := from_entry entry (obm_userId msg) (obm_revision msg) in
      '(c, d, out) ←
        match oc_state c with
        | Synchronized => Some (c, ld_apply d server_op, [SigRemoteOperationApplied server_op])
        | _ =>
            match oc_pending_op c with
            | None => None
            | Some pending_op =>
                let '(pending_prime, evolved) := transform pending_op server_op in
                let '(buffer, evolved) := transform_ladder evolved (oc_buffer c) in
                Some (with_state c (oc_state c) (Some pending_prime) buffer,
                      ld_apply d evolved, [SigRemoteOperationApplied evolved])
            end
        end;
      '(c, d, outs) ← entry_loop entries c d msg;
      Some (c, d, out ++ outs)
  end.

Definition handleBroadcast (c : OTController) (d : LocalDocument) (msg : OperationBroadcastMsg) : Result :=
  if obm_userId msg =? oc_userId c then Some (c, d, [])
  else
    '(c, d, out) ← entry_loop (obm_ops msg) c d msg;
    Some (with_revision c (obm_revision msg), set_revision d (obm_revision msg),
          out ++ [SigRevisionChanged (obm_revision msg)]).

Definition handleError (msg : ErrorMsg) : list OcOutput :=
  if bool_decide (em_code msg = "revision_too_old"%string) then
    [SigFatalError "Document out of sync — reopen it."]
  else [].

Definition onNetworkMessage (c : OTController) (d : LocalDocument) (payload : string) : Result :=
  match fst (parse_envelope payload) with
  | MtOperationAck =>
      match parse_as from_json_OperationAckMsg payload with
      | Some msg => if oam_docId msg =? oc_doc_id c then handleAck c d msg else Some (c, d, [])
      | None => Some (c, d, [])
      end
  | MtOperationBroadcast =>
      match parse_as from_json_OperationBroadcastMsg payload with
      | Some msg => if obm_docId msg =? oc_doc_id c then handleBroadcast c d msg else Some (c, d, [])
      | None => Some (c, d, [])
      end
  | MtError =>
      match parse_as from_json_ErrorMsg payload with
      | Some err => Some (c, d, handleError err)
      | None => Some (c, d, [])
      end
  | _ => Some (c, d, [])
  end.
End Controller.

(** ** Invariant

    The state says whether an operation is pending and whether the buffer holds
    anything. *)
Definition oc_ok (c : OTController) : Prop :=
  match oc_state c with
  | Synchronized => oc_pending_op c = None /\ oc_buffer c = []
  | AwaitingAck => is_Some (oc_pending_op c) /\ oc_buffer c = []
  | AwaitingAckWithBuffer => is_Some (oc_pending_op c) /\ oc_buffer c <> []
  end.

(** The operations the server has not acknowledged, oldest first. *)
Definition oc_queue (c : OTController) : list Operation :=
  match oc_pending_op c with Some p => p :: oc_buffer c | None => oc_buffer c end.

(** The operations a batch of local edits amounts to: those that do something,
    with the author and the revision filled in. *)
Definition stamp (c : OTController) (op : Operation) : Operation :=
  mkOp (op_type op) (op_position op) (op_text op) (op_length op) (oc_userId c) (oc_revision c).
Definition effective (c : OTController) (ops : list Operation) : list Operation :=
  stamp c <$> filter (fun op => is_noop op = false) ops.

Section Facts.
Context {J : Json}.

(** [dump] throws on some operation message. *)
Definition dump_throws : Prop := exists m, serialize (to_json_OperationMsg m) = None.

Lemma sendOp_none c op : sendOp c op = None -> dump_throws.
Proof.
  unfold sendOp. destruct (serialize _) eqn:E; [done|]. intros _. by eexists.
Qed.
Lemma sendOp_some c op out : sendOp c op = Some out ->
  exists payload, out = [OutSend payload]
  /\ serialize (to_json_OperationMsg (mkOperationMsg (oc_doc_id c) (oc_revision c) [to_entry op])) = Some payload.
Proof. unfold sendOp. intros (payload & H & [= <-])%bind_Some. eauto. Qed.

(** One local edit that does something. *)
Lemma local_loop_cons op ops c d b :
  local_loop (op :: ops) c d b =
    if is_noop op then local_loop ops c d b
    else
      '(c1, out, b1) ←
        match oc_state c with
        | Synchronized =>
            out ← sendOp c (stamp c op);
            Some (with_state c AwaitingAck (Some (stamp c op)) (oc_buffer c), out, true)
        | AwaitingAck =>
            Some (with_state c AwaitingAckWithBuffer (oc_pending_op c) (oc_buffer c ++ [stamp c op]), [], true)
        | AwaitingAckWithBuffer =>
            Some (with_state c AwaitingAckWithBuffer (oc_pending_op c) (oc_buffer c ++ [stamp c op]), [], b)
        end;
      '(c2, d2, outs, b2) ← local_loop ops c1 (ld_apply d (stamp c op)) b1;
      Some (c2, d2, out ++ outs, b2).
Proof.
  cbn [local_loop]. destruct (is_noop op); [done|]. fold (stamp c op).
  destruct (oc_state c) eqn:E; done.
Qed.

Lemma local_loop_spec ops c d b : oc_ok c ->
  match local_loop ops c d b with
  | None => dump_throws
  | Some (c', d', out, _) =>
      oc_ok c' /\ oc_queue c' = oc_queue c ++ effective c ops
      /\ ld_content d' = apply_all (ld_content d) (effective c ops)
      /\ (oc_userId c', oc_doc_id c', oc_revision c', ld_revision d')
         = (oc_userId c, oc_doc_id c, oc_revision c, ld_revision d)
      /\ match oc_state c, effective c ops with
         | Synchronized, op :: _ => sendOp c op = Some out
         | _, _ => out = []
         end
  end.
Proof.
  revert c d b. induction ops as [|op ops IH]; intros c d b Hok.
  - cbn. rewrite app_nil_r. by destruct (oc_state c).
  - rewrite local_loop_cons. unfold effective. rewrite filter_cons. destruct (is_noop op) eqn:Hn.
    + rewrite decide_False by done. apply IH, Hok.
    + rewrite decide_True by done. cbn [fmap list_fmap]. fold (effective c ops).
      unfold oc_ok in Hok. destruct (oc_state c) eqn:Hs.
      * destruct Hok as [Hp Hb]. destruct (sendOp c (stamp c op)) as [out1|] eqn:E1; cbn [mbind option_bind].
        -- specialize (IH (with_state c AwaitingAck (Some (stamp c op)) (oc_buffer c))
                         (ld_apply d (stamp c op)) true).
           destruct (local_loop _ _ _ _) as [[[[c2 d2] o2] b2]|]; cbn [mbind option_bind].
           ++ destruct IH as (I1 & I2 & I3 & I4 & I5); [by cbn; eauto|]. cbn in I5. subst o2.
              rewrite app_nil_r. split_and!; [done| |done|done|done].
              rewrite I2. unfold oc_queue. cbn. by rewrite Hp, Hb.
           ++ apply IH. cbn. eauto.
        -- by eapply sendOp_none.
      * cbn [mbind option_bind]. destruct Hok as [[p Hp] Hb].
        specialize (IH (with_state c AwaitingAckWithBuffer (oc_pending_op c) (oc_buffer c ++ [stamp c op]))
                       (ld_apply d (stamp c op)) true).
        destruct (local_loop _ _ _ _) as [[[[c2 d2] o2] b2]|]; cbn [mbind option_bind].
        -- destruct IH as (I1 & I2 & I3 & I4 & I5); [by cbn; rewrite Hp, Hb|]. cbn in I5. subst o2.
           split_and!; [done| |done|done|done]. rewrite I2. unfold oc_queue. cbn. by rewrite Hp, Hb.
        -- apply IH. cbn. by rewrite Hp, Hb.
      * cbn [mbind option_bind]. destruct Hok as [[p Hp] Hb].
        specialize (IH (with_state c AwaitingAckWithBuffer (oc_pending_op c) (oc_buffer c ++ [stamp c op]))
                       (ld_apply d (stamp c op)) b).
        destruct (local_loop _ _ _ _) as [[[[c2 d2] o2] b2]|]; cbn [mbind option_bind].
        -- destruct IH as (I1 & I2 & I3 & I4 & I5); [cbn; split; [by rewrite Hp|by destruct (oc_buffer c)]|].
           cbn in I5. subst o2. split_and!; [done| |done|done|done].
           rewrite I2. unfold oc_queue. cbn. rewrite Hp. cbn. by rewrite <- app_assoc.
        -- apply IH. cbn. split; [by rewrite Hp|by destruct (oc_buffer c)].
Qed.

(** The payloads handed to the network manager. *)
Definition sends (out : list OcOutput) : list string :=
  omap (fun o => match o with OutSend p => Some p | _ => None end) out.

(** What no slot changes. *)
Definition same_client (c c' : OTController) : Prop :=
  oc_userId c' = oc_userId c /\ oc_doc_id c' = oc_doc_id c.

Lemma onLocalOperations_spec c d ops : oc_ok c ->
  match onLocalOperations c d ops with
  | None => dump_throws
  | Some (c', d', out) =>
      oc_ok c' /\ oc_queue c' = oc_queue c ++ effective c ops
      /\ ld_content d' = apply_all (ld_content d) (effective c ops)
      /\ same_client c c' /\ oc_revision c' = oc_revision c /\ ld_revision d' = ld_revision d
      /\ match oc_state c, effective c ops with
         | Synchronized, op :: _ =>
             exists payload, sends out = [payload] /\ serialize (to_json_OperationMsg
               (mkOperationMsg (oc_doc_id c) (oc_revision c) [to_entry op])) = Some payload
         | _, _ => sends out = []
         end
  end.
Proof.
  intros Hok. unfold onLocalOperations. pose proof (local_loop_spec ops c d false Hok) as H.
  destruct (local_loop ops c d false) as [[[[c' d'] out] b]|]; cbn [mbind option_bind]; [|done].
  destruct H as (H1 & H2 & H3 & [= H4 H5 H6 H7] & H8). split_and!; try done.
  assert (forall l, sends (l ++ if b then emitStateLabel c' else []) = sends l) as Hl.
  { intros l. unfold sends. rewrite omap_app. unfold emitStateLabel.
    destruct b, (oc_state c'); cbn; by rewrite app_nil_r. }
  rewrite Hl. destruct (oc_state c), (effective c ops); subst; try done.
  apply sendOp_some in H8 as (payload & -> & Hs). by exists payload.
Qed.

Lemma handleAck_spec c d msg : oc_ok c ->
  match handleAck c d msg with
  | None => dump_throws
  | Some (c', d', out) =>
      oc_ok c' /\ oc_queue c' = tail (oc_queue c) /\ ld_content d' = ld_content d
      /\ same_client c c' /\ oc_revision c' = oam_revision msg /\ ld_revision d' = oam_revision msg
      /\ match tail (oc_queue c) with
         | op :: _ =>
             exists payload, sends out = [payload] /\ serialize (to_json_OperationMsg
               (mkOperationMsg (oc_doc_id c) (oam_revision msg) [to_entry op])) = Some payload
         | [] => sends out = []
         end
  end.
Proof.
  unfold oc_ok, handleAck, oc_queue. cbn. destruct (oc_state c) eqn:Hs; intros [Hp Hb].
  - cbn. unfold emitStateLabel. cbn. rewrite ?Hs, Hp, Hb. by split_and!.
  - destruct Hp as [p Hp]. cbn. rewrite Hp, Hb. by split_and!.
  - destruct Hp as [p Hp]. rewrite Hp. cbn [tail]. destruct (oc_buffer c) as [|op buffer] eqn:Eb; [done|].
    cbn [mbind option_bind].
    destruct (sendOp _ op) as [out|] eqn:E; cbn [mbind option_bind]; [|by eapply sendOp_none].
    apply sendOp_some in E as (payload & -> & Hser). cbn in Hser.
    destruct buffer as [|op2 buffer]; cbn; rewrite ?Hs; cbn; split_and!; eauto; by split.
Qed.

(** One entry of a broadcast climbs the ladder of the queue. *)
Lemma entry_loop_cons c d entry entries msg : oc_ok c ->
  let s := from_entry entry (obm_userId msg) (obm_revision msg) in
  let '(queue, evolved) := transform_ladder s (oc_queue c) in
  exists c', oc_ok c' /\ oc_queue c' = queue /\ same_client c c' /\ oc_revision c' = oc_revision c
  /\ oc_state c' = oc_state c
  /\ entry_loop (entry :: entries) c d msg
     = ('(c2, d2, outs) ← entry_loop entries c' (ld_apply d evolved) msg;
        Some (c2, d2, SigRemoteOperationApplied evolved :: outs)).
Proof.
  intros Hok s. unfold oc_ok, oc_queue in *. cbn [entry_loop]. fold s.
  destruct (oc_state c) eqn:Hs; destruct Hok as [Hp Hb].
  - rewrite Hp, Hb. cbn. exists c. rewrite Hs, Hp, Hb. by repeat split.
  - destruct Hp as [p Hp]. rewrite Hp, Hb. cbn. destruct (transform p s) as [p' s'] eqn:E. cbn.
    exists (with_state c AwaitingAck (Some p') []). cbn. split_and!; eauto; by split.
  - destruct Hp as [p Hp]. rewrite Hp. cbn [transform_ladder].
    destruct (transform p s) as [p' s'] eqn:E.
    pose proof (length_transform_ladder s' (oc_buffer c)) as Hl.
    destruct (transform_ladder s' (oc_buffer c)) as [buffer evolved].
    eexists (with_state c AwaitingAckWithBuffer (Some p') buffer). cbn. split.
    { split; [done|]. intros ->. by destruct (oc_buffer c). }
    by split_and!.
Qed.

Lemma entry_loop_ok entries c d msg : oc_ok c ->
  exists c' d' out, entry_loop entries c d msg = Some (c', d', out)
  /\ oc_ok c' /\ same_client c c' /\ oc_revision c' = oc_revision c /\ sends out = [].
Proof.
  revert c d. induction entries as [|entry entries IH]; intros c d Hok.
  - exists c, d, []. by repeat split.
  - pose proof (entry_loop_cons c d entry entries msg Hok) as H. cbv zeta in H.
    destruct (transform_ladder _ _) as [queue evolved]. destruct H as (c1 & H1 & _ & [H2 H3] & H4 & _ & ->).
    destruct (IH c1 (ld_apply d evolved) H1) as (c2 & d2 & out & -> & I1 & [I2 I3] & I4 & I5).
    cbn. eexists _, _, _. split; [done|]. unfold same_client. by rewrite I2, I3, I4.
Qed.

(** ** Reachable states *)

(** A slot runs to its end. *)
Inductive OcStep : OTController * LocalDocument -> OTController * LocalDocument -> Prop :=
| oc_local c d ops c' d' out :
    onLocalOperations c d ops = Some (c', d', out) -> OcStep (c, d) (c', d')
| oc_network c d payload c' d' out :
    onNetworkMessage c d payload = Some (c', d', out) -> OcStep (c, d) (c', d').

Lemma onNetworkMessage_ok c d payload : oc_ok c ->
  match onNetworkMessage c d payload with
  | None => dump_throws
  | Some (c', _, _) => oc_ok c' /\ same_client c c'
  end.
Proof.
  intros Hok. unfold onNetworkMessage. assert (same_client c c) as Hsc by done.
  destruct (fst (parse_envelope payload)); try (split; [exact Hok|exact Hsc]).
  - destruct (parse_as _ payload) as [msg|]; [|done]. destruct (oam_docId msg =? oc_doc_id c); [|done].
    pose proof (handleAck_spec c d msg Hok) as H. destruct (handleAck c d msg) as [[[c' d'] out]|]; tauto.
  - destruct (parse_as _ payload) as [msg|]; [|done]. destruct (obm_docId msg =? oc_doc_id c); [|done].
    unfold handleBroadcast. destruct (obm_userId msg =? oc_userId c); [done|].
    destruct (entry_loop_ok (obm_ops msg) c d msg Hok) as (c' & d' & out & -> & H1 & [H2 H3] & _).
    cbn. by repeat split.
  - by destruct (parse_as _ payload).
Qed.

(** What a slot sends are operation messages about its document, of one entry each. *)
Definition op_message (docId : Z) (payload : string) : Prop :=
  exists m, serialize (to_json_OperationMsg m) = Some payload /\ opm_docId m = docId /\ length (opm_ops m) = 1%nat.

Lemma onLocalOperations_sends c d ops c' d' out : oc_ok c ->
  onLocalOperations c d ops = Some (c', d', out) -> Forall (op_message (oc_doc_id c)) (sends out).
Proof.
  intros Hok E. pose proof (onLocalOperations_spec c d ops Hok) as H. rewrite E in H.
  destruct H as (_ & _ & _ & _ & _ & _ & H).
  destruct (oc_state c); [destruct (effective c ops)|..]; rewrite ?H; try constructor.
  destruct H as (payload & -> & Hs). constructor; [|done]. by eexists.
Qed.

Lemma onNetworkMessage_sends c d payload c' d' out : oc_ok c ->
  onNetworkMessage c d payload = Some (c', d', out) -> Forall (op_message (oc_doc_id c)) (sends out).
Proof.
  intros Hok. unfold onNetworkMessage. destruct (fst (parse_envelope payload)); try (intros [= <- <- <-]; constructor).
  - destruct (parse_as _ payload) as [msg|]; [|intros [= <- <- <-]; constructor].
    destruct (oam_docId msg =? oc_doc_id c); [|intros [= <- <- <-]; constructor].
    pose proof (handleAck_spec c d msg Hok) as H. intros E. rewrite E in H. destruct H as (_ & _ & _ & _ & _ & _ & H).
    destruct (tail (oc_queue c)); [by rewrite H|]. destruct H as (p & -> & Hs). constructor; [|done]. by eexists.
  - destruct (parse_as _ payload) as [msg|]; [|intros [= <- <- <-]; constructor].
    destruct (obm_docId msg =? oc_doc_id c); [|intros [= <- <- <-]; constructor].
    unfold handleBroadcast. destruct (obm_userId msg =? oc_userId c); [intros [= <- <- <-]; constructor|].
    destruct (entry_loop_ok (obm_ops msg) c d msg Hok) as (c1 & d1 & out1 & -> & _ & _ & _ & Hs).
    intros [= <- <- <-]. unfold sends in *. by rewrite omap_app, Hs.
  - destruct (parse_as _ payload) as [err|]; intros [= <- <- <-]; [|constructor].
    unfold handleError. case_bool_decide; constructor.
Qed.
End Facts.

(** ** What the signals say

    The revision and the state label a listener has after the outputs of a slot. *)
Definition state_label (st : State) : string :=
  match st with Synchronized => "SYN" | AwaitingAck => "ACK" | AwaitingAckWithBuffer => "BUF" end.
Definition heard_revision (rev : Z) (out : list OcOutput) : Z :=
  foldl (fun r o => match o with SigRevisionChanged r' => r' | _ => r end) rev out.
Definition heard_label (label : string) (out : list OcOutput) : string :=
  foldl (fun l o => match o with SigStateChanged l' => l' | _ => l end) label out.
Definition announced (c c' : OTController) (out : list OcOutput) : Prop :=
  heard_revision (oc_revision c) out = oc_revision c'
  /\ heard_label (state_label (oc_state c)) out = state_label (oc_state c').
Definition quiet (o : OcOutput) : Prop :=
  match o with OutSend _ | SigRemoteOperationApplied _ => True | _ => False end.

Section Signals.
Context {J : Json}.

Lemma heard_quiet rev label out out' : Forall quiet out ->
  heard_revision rev (out ++ out') = heard_revision rev out'
  /\ heard_label label (out ++ out') = heard_label label out'.
Proof.
  unfold heard_revision, heard_label. rewrite !foldl_app.
  intros Hq. revert rev label. induction Hq as [|o out Ho _ IH]; intros rev label; [done|].
  destruct o; try done; apply IH.
Qed.
Lemma emitStateLabel_label c : emitStateLabel c = [SigStateChanged (state_label (oc_state c))].
Proof. unfold emitStateLabel. by destruct (oc_state c). Qed.

Lemma local_loop_quiet ops c d b c' d' out b' :
  local_loop ops c d b = Some (c', d', out, b') ->
  Forall quiet out /\ (b' = false -> b = false /\ oc_state c' = oc_state c).
Proof.
  revert c d b c' d' out b'. induction ops as [|op ops IH]; intros c d b c' d' out b' E.
  - cbn in E. simplify_eq. by split.
  - rewrite local_loop_cons in E. destruct (is_noop op); [by eapply IH|].
    apply bind_Some in E as ([[c1 out1] b1] & E1 & E2). apply bind_Some in E2 as ([[[c2 d2] outs] b2] & E2 & E3).
    simplify_eq. apply IH in E2 as [IHq IHb]. destruct (oc_state c) eqn:Hs; simplify_eq.
    + apply bind_Some in E1 as (o & (payload & -> & _)%sendOp_some & [= <- <- <-]).
      split; [constructor; done|]. intros ->. by destruct IHb.
    + split; [done|]. intros ->. by destruct IHb.
    + split; [done|]. intros ->. by destruct IHb as [-> ->].
Qed.

Lemma entry_loop_quiet entries c d msg c' d' out : oc_ok c ->
  entry_loop entries c d msg = Some (c', d', out) -> Forall quiet out /\ oc_state c' = oc_state c.
Proof.
  revert c d c' d' out. induction entries as [|entry entries IH]; intros c d c' d' out Hok E.
  - cbn in E. by simplify_eq.
  - pose proof (entry_loop_cons c d entry entries msg Hok) as H. cbv zeta in H.
    destruct (transform_ladder _ _) as [queue evolved]. destruct H as (c1 & H1 & _ & _ & _ & Hs & Eq).
    rewrite Eq in E. apply bind_Some in E as ([[c2 d2] outs] & E & [= <- <- <-]).
    apply IH in E as [Hq Hst]; [|done]. split; [by constructor|congruence].
Qed.

Lemma onLocalOperations_announced c d ops c' d' out : oc_ok c ->
  onLocalOperations c d ops = Some (c', d', out) -> announced c c' out.
Proof.
  intros Hok E. pose proof (onLocalOperations_spec c d ops Hok) as S. rewrite E in S.
  destruct S as (_ & _ & _ & _ & Hr & _). unfold announced. rewrite Hr. unfold onLocalOperations in E.
  apply bind_Some in E as ([[[c1 d1] outs] b] & E & [= <- <- <-]). apply local_loop_quiet in E as [Hq Hb].
  destruct (heard_quiet (oc_revision c) (state_label (oc_state c)) outs
    (if b then emitStateLabel c1 else []) Hq) as [-> ->].
  destruct b; [by rewrite emitStateLabel_label|]. cbn. by destruct (Hb eq_refl) as [_ ->].
Qed.

Lemma onNetworkMessage_announced c d payload c' d' out : oc_ok c -> ld_revision d = oc_revision c ->
  onNetworkMessage c d payload = Some (c', d', out) ->
  announced c c' out /\ ld_revision d' = oc_revision c'.
Proof.
  intros Hok Hd. unfold onNetworkMessage. destruct (fst (parse_envelope payload)); try (intros [= <- <- <-]; done).
  - destruct (parse_as _ payload) as [msg|]; [|intros [= <- <- <-]; done].
    destruct (oam_docId msg =? oc_doc_id c); [|intros [= <- <- <-]; done]. intros E.
    pose proof (handleAck_spec c d msg Hok) as S. rewrite E in S.
    destruct S as (_ & _ & _ & _ & Hr & Hr' & _). split; [|congruence]. unfold announced. rewrite Hr.
    unfold handleAck in E. cbn in E. destruct (oc_state c) eqn:Hs; simplify_eq; cbn; rewrite ?emitStateLabel_label; cbn; rewrite ?Hs; try done.
    destruct (oc_buffer c) as [|op buffer]; [done|]. apply bind_Some in E as (sent & (p & -> & _)%sendOp_some & E).
    simplify_eq. cbn. rewrite emitStateLabel_label. cbn. by destruct buffer; cbn; rewrite ?Hs.
  - destruct (parse_as _ payload) as [msg|]; [|intros [= <- <- <-]; done].
    destruct (obm_docId msg =? oc_doc_id c); [|intros [= <- <- <-]; done]. unfold handleBroadcast.
    destruct (obm_userId msg =? oc_userId c); [intros [= <- <- <-]; done|]. intros E.
    apply bind_Some in E as ([[c1 d1] outs] & E & [= <- <- <-]). apply entry_loop_quiet in E as [Hq Hs]; [|done].
    unfold announced. split; [|done].
    destruct (heard_quiet (oc_revision c) (state_label (oc_state c)) outs [SigRevisionChanged (obm_revision msg)] Hq) as [-> ->].
    cbn. by rewrite Hs.
  - destruct (parse_as _ payload) as [err|]; intros [= <- <- <-]; [|done]. unfold handleError.
    by case_bool_decide.
Qed.
End Signals.

(** ** Properties *)

(** C16: the controller never leaves its invariant and never runs into undefined
    behaviour. From a new controller, after any batches of local edits and any
    payloads from the network, well-formed or not, the pending operation is there
    exactly when the state says so and the buffer holds something exactly when the
    state says so; a slot fails to run to its end only when [dump] throws on an
    operation message, never by reading an empty optional or vector. *)
Theorem controller_invariant {J : Json} user doc rev d0 c d :
  rtc OcStep (new_OTController user doc rev, d0) (c, d) ->
  oc_ok c /\ same_client (new_OTController user doc rev) c
  /\ (forall ops, onLocalOperations c d ops = None -> dump_throws)
  /\ (forall payload, onNetworkMessage c d payload = None -> dump_throws).
Proof.
  intros Hs. assert (oc_ok c /\ same_client (new_OTController user doc rev) c) as [Hok Hsc].
  { remember (new_OTController user doc rev, d0) as x eqn:Ex. remember (c, d) as y eqn:Ey.
    assert (oc_ok (fst x) /\ same_client (new_OTController user doc rev) (fst x)) as H0 by (by subst).
    clear Ex. revert Ey. induction Hs as [x|x x' y Hst _ IH]; intros Ey; [by subst|].
    apply IH; [|done]. destruct H0 as [H1 [H2 H3]].
    destruct Hst as [c1 d1 ops c2 d2 out E|c1 d1 payload c2 d2 out E]; cbn in *.
    - pose proof (onLocalOperations_spec c1 d1 ops H1) as S. rewrite E in S.
      destruct S as (S1 & _ & _ & [S2 S3] & _). unfold same_client. by rewrite S2, S3.
    - pose proof (onNetworkMessage_ok c1 d1 payload H1) as S. rewrite E in S.
      destruct S as (S1 & [S2 S3]). unfold same_client. by rewrite S2, S3. }
  split_and!; [done..| |].
  - intros ops E. pose proof (onLocalOperations_spec c d ops Hok) as S. by rewrite E in S.
  - intros payload E. pose proof (onNetworkMessage_ok c d payload Hok) as S. by rewrite E in S.
Qed.

Lemma controller_invariant_witness :
  let c0 := new_OTController 1 7 0 in
  let d0 := mkLocalDocument "ab" 0 in
  exists c d, onLocalOperations (J := json_tree) c0 d0 [make_insert 0 "x" 0 0; make_delete 1 1 "" 0 0]
              = Some (c, d, [OutSend (pos_text (encode (to_json_OperationMsg (J := json_tree)
                   (mkOperationMsg 7 0 [mkOpEntry "insert" 0 "x" 0])))); SigStateChanged "BUF"])
              /\ oc_ok c /\ oc_state c = AwaitingAckWithBuffer.
Proof.
  intros c0 d0.
  set (op1 := mkOp Insert 0 "x" 1 1 0). set (op2 := mkOp Delete 1 "" 1 1 0).
  set (c := mkOTController 1 7 0 AwaitingAckWithBuffer (Some op1) [op2]).
  set (d := mkLocalDocument "xb" 0).
  exists c, d. split; [reflexivity|]. split; [|done].
  refine (proj1 (controller_invariant (J := json_tree) 1 7 0 d0 c d _)).
  apply rtc_once. eapply (oc_local _ _ [make_insert 0 "x" 0 0; make_delete 1 1 "" 0 0]). reflexivity.
Defined.
