(* ===== verification/Convergence.v ===== *)
(** * A client and its document: convergence

    One client connected to one document, with the two byte-message channels
    between them, while any number of other users edit the same document. The
    server side is the document thread ([DocumentSession.handle_operation]), the
    client side the controller ([OTController]); the messages are the JSON texts the
    two sides write and read. When the channels are empty the client's text is the
    server's. *)
From S2P Require Import Prelude ByteString Operation OT Ladder Document Json Protocol Codec DocumentSession OTController.
Local Open Scope Z_scope.

(** ** Operations whose fields are in range *)

Definition op_wf (op : Operation) : Prop :=
  is_u32 (op_position op) /\ is_u32 (op_length op)
  /\ (op_type op = Insert -> op_length op = u32 (slen (op_text op))).
#[export] Instance op_wf_dec op : Decision (op_wf op).
Proof.
  unfold op_wf. destruct (op_type op).
  - destruct (decide (is_u32 (op_position op) /\ is_u32 (op_length op) /\ op_length op = u32 (slen (op_text op))));
      [left|right]; naive_solver.
  - destruct (decide (is_u32 (op_position op) /\ is_u32 (op_length op))); [left|right]; naive_solver.
Defined.

Lemma is_u32_min x y : is_u32 x -> is_u32 y -> is_u32 (Z.min x y).
Proof. unfold is_u32. lia. Qed.

Lemma transform_wf a b : op_wf a -> op_wf b -> op_wf (fst (transform a b)) /\ op_wf (snd (transform a b)).
Proof.
  unfold op_wf. intros (A1 & A2 & A3) (B1 & B2 & B3).
  destruct a as [[] pa ta la ua ra], b as [[] pb tb lb ub rb]; cbn in *;
    unfold transform, transform_insert_insert, transform_insert_delete, transform_delete_delete; cbn;
    repeat case_match; simplify_eq; cbn; rewrite ?slen_empty;
    split_and!; auto using is_u32_u32, is_u32_min; try done.
Qed.

Lemma transform_ladder_wf s ps : op_wf s -> Forall op_wf ps ->
  op_wf (snd (transform_ladder s ps)) /\ Forall op_wf (fst (transform_ladder s ps)).
Proof.
  intros Hs Hps. revert s Hs. induction Hps as [|p ps Hp _ IH]; intros s Hs; [by split|].
  cbn. destruct (transform_wf p s Hp Hs) as [W1 W2]. destruct (transform p s) as [p' s'].
  destruct (IH s' W2) as [I1 I2]. destruct (transform_ladder s' ps). by split; [|constructor].
Qed.

Lemma transform_against_wf s ps : op_wf s -> Forall op_wf ps -> op_wf (transform_against s ps).
Proof. intros. rewrite transform_against_ladder. by apply transform_ladder_wf. Qed.

Lemma op_userId_transform_against s ps : op_userId (transform_against s ps) = op_userId s.
Proof. rewrite transform_against_ladder. apply op_userId_transform_ladder. Qed.

Lemma from_entry_to_entry op u rev :
  from_entry (to_entry op) u rev =
    match op_type op with
    | Insert => make_insert (op_position op) (op_text op) u rev
    | Delete => make_delete (op_position op) (op_length op) "" u rev
    end.
Proof. by destruct op as [[] ? ? ? ? ?]. Qed.

(** An operation survives the wire up to what the wire does not carry. *)
Lemma from_to_entry op rev : op_wf op -> from_entry (to_entry op) (op_userId op) rev ≡ op.
Proof.
  rewrite from_entry_to_entry. destruct op as [[] p t l u r]; intros (H1 & H2 & H3); cbn in *;
    unfold equiv, op_equiv; cbn; split_and!; auto; try done. by rewrite H3.
Qed.
Lemma from_entry_wf op u rev : op_wf op -> op_wf (from_entry (to_entry op) u rev).
Proof.
  rewrite from_entry_to_entry.
  destruct op as [[] p t l v r]; intros (H1 & H2 & H3); cbn in *; unfold op_wf; cbn;
    split_and!; auto using is_u32_u32; done.
Qed.
Lemma entry_wf_to_entry op : op_wf op -> entry_wf (to_entry op).
Proof.
  destruct op as [[] p t l v r]; intros (H1 & H2 & H3); unfold entry_wf, to_entry; cbn in *;
    split_and!; auto; decide_now.
Qed.
Lemma command_of_to_entry u name rev op :
  command_of_entry u name rev (to_entry op) =
    mkDocCommand CmdOperation (from_entry (to_entry op) u rev) u name "" 0.
Proof. by destruct op as [[] ? ? ? ? ?]. Qed.

(** ** The system *)

Record Sys := mkSys {
  sys_doc : Document;
  sys_ds : DocumentSession;
  sys_up : list string;           (* payloads on their way to the server *)
  sys_down : list string;         (* payloads on their way to the client *)
  sys_oc : OTController;
  sys_ld : LocalDocument;
  sys_base : string;              (* ghost: the server's text at the client's revision *)
}.

Section System.
Context {J : Json} {L : JsonLaws J}.

(** The client is user [u] of the document thread, through session [p]. *)
Context (u p : Z).

(** The server takes the next payload of the client: the commands of its entries
    go through the document thread. The step is for an operation the history still
    covers. *)
Definition server_step (s : Sys) (name : string) (msg : OperationMsg)
    : option (Document * DocumentSession * Sends) :=
  run_loop (command_of_entry u name (opm_revision msg) <$> opm_ops msg) (sys_doc s) (sys_ds s).

(** What receiving a message does to the ghost. *)
Definition next_base (s : Sys) (payload : string) : string :=
  match fst (parse_envelope payload) with
  | MtOperationAck => match oc_queue (sys_oc s) with q :: _ => apply (sys_base s) q | [] => sys_base s end
  | MtOperationBroadcast =>
      match parse_as from_json_OperationBroadcastMsg payload with
      | Some msg => foldl (fun b e => apply b (from_entry e (obm_userId msg) (obm_revision msg)))
                          (sys_base s) (obm_ops msg)
      | None => sys_base s
      end
  | _ => sys_base s
  end.

(** The received operation and the client's queue meet no tie of one user, no
    hollow delete and no overflow on their ladder. The document thread puts one
    entry in each broadcast. *)
Definition receivable (s : Sys) (payload : string) : Prop :=
  match fst (parse_envelope payload), parse_as from_json_OperationBroadcastMsg payload with
  | MtOperationBroadcast, Some msg =>
      Forall (fun e => ladder_ok (sys_base s) (from_entry e (obm_userId msg) (obm_revision msg))
                                 (oc_queue (sys_oc s))) (obm_ops msg)
  | _, _ => True
  end.

#[export] Instance receivable_dec s payload : Decision (receivable s payload).
Proof. unfold receivable. repeat case_match; apply _. Defined.

Inductive SysStep : Sys -> Sys -> Prop :=
| sys_local s ops c d out :
    Forall op_wf ops ->
    onLocalOperations (sys_oc s) (sys_ld s) ops = Some (c, d, out) ->
    SysStep s (mkSys (sys_doc s) (sys_ds s) (sys_up s ++ sends out) (sys_down s) c d (sys_base s))
| sys_server s payload up msg name doc ds out :
    sys_up s = payload :: up ->
    parse_as from_json_OperationMsg payload = Some msg ->
    doc_revision (sys_doc s) + 1 < u32_mod ->
    doc_oldest_revision (sys_doc s) <= opm_revision msg ->
    server_step s name msg = Some (doc, ds, out) ->
    SysStep s (mkSys doc ds up (sys_down s ++ received p out) (sys_oc s) (sys_ld s) (sys_base s))
| sys_remote s cmd doc ds out :
    cmd_type cmd = CmdOperation -> cmd_userId cmd <> u -> is_u32 (cmd_userId cmd) ->
    op_userId (cmd_operation cmd) = cmd_userId cmd -> op_wf (cmd_operation cmd) ->
    is_u32 (op_revision (cmd_operation cmd)) -> doc_revision (sys_doc s) + 1 < u32_mod ->
    process_command (sys_doc s) (sys_ds s) cmd = Some (doc, ds, out) ->
    SysStep s (mkSys doc ds (sys_up s) (sys_down s ++ received p out) (sys_oc s) (sys_ld s) (sys_base s))
| sys_receive s payload down c d out :
    sys_down s = payload :: down ->
    receivable s payload ->
    onNetworkMessage (sys_oc s) (sys_ld s) payload = Some (c, d, out) ->
    SysStep s (mkSys (sys_doc s) (sys_ds s) (sys_up s ++ sends out) down c d (next_base s payload)).

(** A client that has just opened the document. *)
Definition sys_init (doc : Document) (ds : DocumentSession) : Sys :=
  mkSys doc ds [] [] (new_OTController u (doc_id doc) (doc_revision doc))
        (mkLocalDocument (doc_content doc) (doc_revision doc)) (doc_content doc).

(** ** Invariant

    [hs]: the server's operations the client has not heard of yet, [ms]: the
    messages about them. *)
Definition about (docId rev : Z) (h : Operation) (m : ServerMsg) : Prop :=
  (op_userId h = u /\ m = SAck (mkOperationAckMsg docId (rev + 1)))
  \/ (op_userId h <> u /\ exists name,
       m = SBroadcast (mkOperationBroadcastMsg docId (op_userId h) name (rev + 1) [to_entry h])).

Fixpoint feed (docId rev : Z) (hs : list Operation) (ms : list ServerMsg) : Prop :=
  match hs, ms with
  | [], [] => True
  | h :: hs, m :: ms => about docId rev h m /\ feed docId (rev + 1) hs ms
  | _, _ => False
  end.

Definition foreign (h : Operation) : Prop := op_userId h <> u.

(** Where the client's pending operation is: nowhere, on its way to the server,
    or applied by the server with the acknowledgement on its way back. *)
Inductive in_flight (log hs : list Operation) (docId : Z) : list Operation -> list string -> Prop :=
| fl_idle : Forall foreign hs -> in_flight log hs docId [] []
| fl_up q buffer q0 r0 seen payload :
    serialize (to_json_OperationMsg (mkOperationMsg docId r0 [to_entry q0])) = Some payload ->
    is_u32 r0 -> (Z.to_nat r0 <= length log)%nat -> op_wf q0 -> op_userId q0 = u ->
    drop (Z.to_nat r0) log = seen ++ hs -> q ≡ transform_against q0 seen -> Forall foreign hs ->
    in_flight log hs docId (q :: buffer) [payload]
| fl_down q buffer hs1 own hs2 :
    hs = hs1 ++ own :: hs2 -> op_userId own = u -> Forall foreign hs1 -> Forall foreign hs2 ->
    own ≡ transform_against q hs1 ->
    in_flight log hs docId (q :: buffer) [].

Record Inv (s : Sys) (l : DocLog) (hs : list Operation) (ms : list ServerMsg) : Prop := mkInv {
  inv_refines : refines (sys_doc s) l;
  inv_ok : oc_ok (sys_oc s);
  inv_revision : 0 <= oc_revision (sys_oc s) <= doc_revision (sys_doc s);
  inv_ld_revision : ld_revision (sys_ld s) = oc_revision (sys_oc s);
  inv_hs : drop (Z.to_nat (oc_revision (sys_oc s))) (log l) = hs;
  inv_base : sys_base s = apply_all (log_base l) (take (Z.to_nat (oc_revision (sys_oc s))) (log l));
  inv_content : ld_content (sys_ld s) = apply_all (sys_base s) (oc_queue (sys_oc s));
  inv_down : Forall2 carries (sys_down s) ms;
  inv_feed : feed (doc_id (sys_doc s)) (oc_revision (sys_oc s)) hs ms;
  inv_flight : in_flight (log l) hs (doc_id (sys_doc s)) (oc_queue (sys_oc s)) (sys_up s);
  inv_log_wf : Forall op_wf (log l);
  inv_users : Forall (fun h => is_u32 (op_userId h)) hs;
  inv_queue : Forall (fun q => op_wf q /\ op_userId q = u) (oc_queue (sys_oc s));
  inv_connected : connected_via (sys_ds s) u p;
  inv_ids : oc_userId (sys_oc s) = u /\ oc_doc_id (sys_oc s) = doc_id (sys_doc s)
            /\ is_u32 u /\ is_u32 (doc_id (sys_doc s));
}.

(** ** The server's steps *)

Lemma feed_snoc docId rev hs ms h m :
  feed docId rev hs ms -> about docId (rev + Z.of_nat (length hs)) h m ->
  feed docId rev (hs ++ [h]) (ms ++ [m]).
Proof.
  revert rev ms. induction hs as [|g hs IH]; intros rev [|n ms]; cbn; try done.
  - rewrite Z.add_0_r. auto.
  - intros [Hg Hf] Hm. split; [done|]. apply IH; [done|].
    by replace (rev + 1 + Z.of_nat (length hs)) with (rev + Z.of_nat (S (length hs))) by lia.
Qed.

(** An accepted command: the log grows by the transformed operation, and the
    client hears of it. *)
Lemma accepted_step d ds cmd l doc ds' out :
  refines d l -> connected_via ds u p ->
  cmd_type cmd = CmdOperation -> op_wf (cmd_operation cmd) ->
  op_userId (cmd_operation cmd) = cmd_userId cmd ->
  is_u32 (op_revision (cmd_operation cmd)) -> doc_revision d + 1 < u32_mod ->
  doc_oldest_revision d <= op_revision (cmd_operation cmd) ->
  process_command d ds cmd = Some (doc, ds', out) ->
  let op := fst (log_submit l (cmd_operation cmd)) in
  refines doc (snd (log_submit l (cmd_operation cmd))) /\ ds' = ds
  /\ doc_id doc = doc_id d /\ doc_revision doc = doc_revision d + 1
  /\ exists m, Forall2 carries (received p out) [m] /\ about (doc_id d) (doc_revision d) op m.
Proof.
  intros R Hu Ht Hwf Hid Hop Hw Ho. unfold process_command. rewrite Ht. intros H.
  apply (handle_operation_feed _ _ _ u p) in H as (-> & -> & F); [|done].
  destruct (refines_apply d l (cmd_operation cmd) R (proj1 Hop) Hw Ho) as [T R'].
  unfold operation_feed in F.
  rewrite (apply_with_ot_accepted d (cmd_operation cmd) (proj1 R) Hw Ho) in *. cbn in T, F |- *.
  split; [exact R'|]. split_and!; [done..|].
  rewrite T in F. unfold about. rewrite op_userId_transform_against, Hid.
  destruct (decide (cmd_userId cmd = u)) as [E|E].
  - rewrite bool_decide_true in F by done. eexists. split; [exact F|]. by left.
  - rewrite bool_decide_false in F by done. eexists. split; [exact F|]. right. split; [done|]. by eexists.
Qed.

Lemma transform_against_app op hs hs' :
  transform_against op (hs ++ hs') = transform_against (transform_against op hs) hs'.
Proof. apply foldl_app. Qed.

(** The parts of the invariant that an accepted operation changes. *)
Lemma inv_extend s l hs ms doc ds out up h m l' :
  Inv s l hs ms ->
  refines doc l' -> log_base l' = log_base l -> log l' = log l ++ [h] ->
  doc_id doc = doc_id (sys_doc s) -> doc_revision doc = doc_revision (sys_doc s) + 1 ->
  connected_via ds u p -> Forall2 carries (received p out) [m] ->
  about (doc_id (sys_doc s)) (doc_revision (sys_doc s)) h m ->
  op_wf h -> is_u32 (op_userId h) ->
  in_flight (log l') (hs ++ [h]) (doc_id doc) (oc_queue (sys_oc s)) up ->
  Inv (mkSys doc ds up (sys_down s ++ received p out) (sys_oc s) (sys_ld s) (sys_base s)) l' (hs ++ [h]) (ms ++ [m]).
Proof.
  intros I R Hb Hl Hid Hrev Hc Ho Ha Hwf Hu Hf. pose proof (inv_refines _ _ _ _ I) as (_ & _ & Hlen & _).
  pose proof (inv_revision _ _ _ _ I) as Hr. pose proof (inv_hs _ _ _ _ I) as Hhs.
  assert (Z.to_nat (oc_revision (sys_oc s)) <= length (log l))%nat as Hle by lia.
  constructor; cbn; rewrite ?Hid; try apply I; try done.
  - lia.
  - rewrite Hl, drop_app_le by done. by rewrite Hhs.
  - rewrite Hl, Hb, take_app_le by done. apply I.
  - apply Forall2_app; [apply I|done].
  - apply feed_snoc; [apply I|]. subst hs. rewrite length_drop.
    replace (oc_revision (sys_oc s) + Z.of_nat (length (log l) - Z.to_nat (oc_revision (sys_oc s))))
      with (doc_revision (sys_doc s)) by lia. done.
  - by rewrite Hid in Hf.
  - rewrite Hl. apply Forall_app. split; [apply I|]. by constructor.
  - apply Forall_app. split; [apply I|]. by constructor.
Qed.

(** The in-flight operation when another user's operation is applied. *)
Lemma in_flight_remote lg hs docId queue up h :
  in_flight lg hs docId queue up -> foreign h -> in_flight (lg ++ [h]) (hs ++ [h]) docId queue up.
Proof.
  intros [F|q buffer q0 r0 seen payload E1 E2 E3 E4 E5 E6 E7 E8|q buffer hs1 own hs2 E1 E2 E3 E4 E5] Hh.
  - apply fl_idle. apply Forall_app. by split; [|constructor].
  - apply (fl_up _ _ _ _ _ q0 r0 seen); try done.
    + rewrite length_app. lia.
    + by rewrite drop_app_le, E6, <- app_assoc by done.
    + apply Forall_app. by split; [|constructor].
  - apply (fl_down _ _ _ _ _ hs1 own (hs2 ++ [h])); try done.
    + by rewrite E1, <- app_assoc.
    + apply Forall_app. by split; [|constructor].
Qed.

(** The server reads the client's message. *)
Lemma parse_operation docId r0 q0 payload :
  is_u32 docId -> is_u32 r0 -> op_wf q0 ->
  serialize (to_json_OperationMsg (mkOperationMsg docId r0 [to_entry q0])) = Some payload ->
  parse_as from_json_OperationMsg payload = Some (mkOperationMsg docId r0 [to_entry q0]).
Proof.
  intros Hd Hr Hq Hs.
  destruct (client_read_back (COperation (mkOperationMsg docId r0 [to_entry q0])) payload) as [_ H];
    [|exact Hs|].
  - split_and!; [done..|]. constructor; [by apply entry_wf_to_entry|constructor].
  - eapply (parse_as_fmap COperation); [congruence|exact H].
Qed.

(** The operation the server reads out of an entry is the client's. *)
Lemma entry_operation q0 name r0 :
  op_wf q0 -> op_userId q0 = u -> is_u32 r0 ->
  let cmd := command_of_entry u name r0 (to_entry q0) in
  cmd_type cmd = CmdOperation /\ cmd_userId cmd = u /\ op_wf (cmd_operation cmd)
  /\ op_userId (cmd_operation cmd) = u /\ op_revision (cmd_operation cmd) = r0
  /\ cmd_operation cmd ≡ q0.
Proof.
  intros Hq Hu Hr. rewrite command_of_to_entry. cbn. split_and!; try done.
  - by apply from_entry_wf.
  - by rewrite from_entry_to_entry; destruct (op_type q0).
  - by rewrite from_entry_to_entry; destruct (op_type q0).
  - rewrite <- Hu. by apply from_to_entry.
Qed.

(** A message on its way to the server is the only one, and has one entry. *)
Lemma up_message s l hs ms payload up :
  Inv s l hs ms -> sys_up s = payload :: up ->
  up = [] /\ exists q0 r0, op_wf q0 /\ op_userId q0 = u /\ is_u32 r0
  /\ parse_as from_json_OperationMsg payload = Some (mkOperationMsg (doc_id (sys_doc s)) r0 [to_entry q0]).
Proof.
  intros I Hup. destruct (inv_ids _ _ _ _ I) as (_ & _ & _ & Hid).
  pose proof (inv_flight _ _ _ _ I) as F. rewrite Hup in F.
  inversion F as [|q buffer q0 r0 ? ? Hser Hr0 ? Hq0 Hu0|]; subst. split; [done|]. exists q0, r0.
  split_and!; try done. by apply parse_operation.
Qed.

(** The document thread takes the command of the client's message. *)
Lemma inv_own_step s l hs ms payload up msg e name ds0 doc ds out :
  Inv s l hs ms -> sys_up s = payload :: up ->
  parse_as from_json_OperationMsg payload = Some msg -> opm_ops msg = [e] ->
  doc_revision (sys_doc s) + 1 < u32_mod ->
  doc_oldest_revision (sys_doc s) <= opm_revision msg ->
  connected_via ds0 u p ->
  process_command (sys_doc s) ds0 (command_of_entry u name (opm_revision msg) e) = Some (doc, ds, out) ->
  exists l' hs' ms', log_base l' = log_base l /\
  Inv (mkSys doc ds up (sys_down s ++ received p out) (sys_oc s) (sys_ld s) (sys_base s)) l' hs' ms'.
Proof.
  intros I Hup Hparse He Hw Ho Hds Hp. pose proof (inv_ids _ _ _ _ I) as (_ & _ & Hu32 & Hid).
  pose proof (inv_flight _ _ _ _ I) as F. rewrite Hup in F.
  remember (oc_queue (sys_oc s)) as queue eqn:Equeue. remember (payload :: up) as up0 eqn:Eup.
  destruct F as [|q buffer q0 r0 seen payload' Hser Hr0 Hle Hq0 Hu0 Hdrop Hq Hfor|]; try discriminate.
  injection Eup as -> <-. rewrite (parse_operation _ _ _ _ Hid Hr0 Hq0 Hser) in Hparse.
  injection Hparse as <-. cbn in Ho, He. injection He as <-. cbn [opm_revision] in Hp.
  destruct (entry_operation q0 name r0 Hq0 Hu0 Hr0) as (C1 & C2 & C3 & C4 & C5 & C6).
  set (cmd := command_of_entry u name r0 (to_entry q0)) in *. clearbody cmd.
  apply (accepted_step _ _ cmd l) in Hp as (R' & -> & Hid' & Hrev' & m & Hm & Ha);
    [|apply I|done..|by rewrite C4, C2|by rewrite C5|done|by rewrite C5].
  set (own := fst (log_submit l (cmd_operation cmd))) in *.
  assert (op_wf own) as Hwf.
  { apply transform_against_wf; [done|]. apply Forall_drop, I. }
  exists (snd (log_submit l (cmd_operation cmd))), (hs ++ [own]), (ms ++ [m]). split; [done|].
  eapply inv_extend; eauto; try apply I.
  - unfold own. cbn. by rewrite op_userId_transform_against, C4.
  - rewrite Hid', <- Equeue. apply (fl_down _ _ _ q buffer hs own []); [done| |done|constructor|].
    + unfold own. cbn. by rewrite op_userId_transform_against, C4.
    + unfold own. cbn. rewrite C5, Hdrop, transform_against_app.
      rewrite Hq. by rewrite C6.
Qed.

Lemma inv_server_step s l hs ms payload up msg name doc ds out :
  Inv s l hs ms -> sys_up s = payload :: up ->
  parse_as from_json_OperationMsg payload = Some msg ->
  doc_revision (sys_doc s) + 1 < u32_mod ->
  doc_oldest_revision (sys_doc s) <= opm_revision msg ->
  server_step s name msg = Some (doc, ds, out) ->
  exists l' hs' ms', log_base l' = log_base l /\
  Inv (mkSys doc ds up (sys_down s ++ received p out) (sys_oc s) (sys_ld s) (sys_base s)) l' hs' ms'.
Proof.
  intros I Hup Hparse Hw Ho Hs.
  destruct (up_message _ _ _ _ _ _ I Hup) as (_ & q0 & r0 & _ & _ & _ & Hm).
  assert (opm_ops msg = [to_entry q0]) as He by (rewrite Hm in Hparse; by injection Hparse as <-).
  unfold server_step in Hs. rewrite He in Hs. cbn [fmap list_fmap run_loop] in Hs.
  apply bind_Some in Hs as ([[d1 s1] out1] & Hp & [= <- <- <-]). rewrite app_nil_r.
  destruct (inv_own_step s l hs ms payload up msg (to_entry q0) name
              (mkDocumentSession [] (ds_connected_users (sys_ds s))) d1 s1 out1 I Hup Hparse He Hw Ho
              (inv_connected _ _ _ _ I) Hp) as (l' & hs' & ms' & Hb & I').
  exists l', hs', ms'. split; [done|]. constructor; cbn; apply I'.
Qed.

(** Nothing in the invariant depends on the commands that wait, on the other users
    or on what the document keeps besides its text and history. *)
Lemma inv_server_state s l hs ms doc ds :
  Inv s l hs ms -> refines doc l -> doc_id doc = doc_id (sys_doc s) ->
  doc_revision doc = doc_revision (sys_doc s) -> connected_via ds u p ->
  Inv (mkSys doc ds (sys_up s) (sys_down s) (sys_oc s) (sys_ld s) (sys_base s)) l hs ms.
Proof. intros I R Hid Hr C. constructor; cbn; rewrite ?Hid, ?Hr; try apply I; done. Qed.

(** A rejected operation of another user is invisible to the client. *)
Lemma rejected_step d ds cmd doc ds' out :
  connected_via ds u p -> cmd_type cmd = CmdOperation -> cmd_userId cmd <> u ->
  0 < doc_revision d -> op_revision (cmd_operation cmd) < doc_oldest_revision d ->
  process_command d ds cmd = Some (doc, ds', out) ->
  doc = d /\ ds' = ds /\ received p out = [].
Proof.
  intros Hu Ht Hne H1 H2. unfold process_command. rewrite Ht. intros H.
  apply (handle_operation_feed _ _ _ u p) in H as (-> & -> & F); [|done].
  unfold operation_feed in F. rewrite apply_with_ot_too_old in * by done. cbn in F.
  rewrite bool_decide_false in F by done. split_and!; [done..|]. by inversion F.
Qed.

Lemma inv_remote_step s l hs ms cmd doc ds out :
  Inv s l hs ms ->
  cmd_type cmd = CmdOperation -> cmd_userId cmd <> u -> is_u32 (cmd_userId cmd) ->
  op_userId (cmd_operation cmd) = cmd_userId cmd -> op_wf (cmd_operation cmd) ->
  is_u32 (op_revision (cmd_operation cmd)) -> doc_revision (sys_doc s) + 1 < u32_mod ->
  process_command (sys_doc s) (sys_ds s) cmd = Some (doc, ds, out) ->
  exists l' hs' ms', log_base l' = log_base l /\
  Inv (mkSys doc ds (sys_up s) (sys_down s ++ received p out) (sys_oc s) (sys_ld s) (sys_base s)) l' hs' ms'.
Proof.
  intros I Ht Hne Hu Hid Hwf Hop Hw Hp.
  destruct (apply_with_ot_cases (sys_doc s) (cmd_operation cmd)) as [[H1 H2]|Ho];
    [apply I|by destruct Hop| |].
  - eapply rejected_step in Hp as (-> & -> & ->); [|apply I|done..]. rewrite app_nil_r.
    exists l, hs, ms. by destruct s.
  - apply (accepted_step _ _ cmd l) in Hp as (R' & -> & Hid' & Hrev' & m & Hm & Ha);
      [|apply I|apply I|done..].
    set (h := fst (log_submit l (cmd_operation cmd))) in *.
    assert (op_userId h = cmd_userId cmd) as Hh by (unfold h; cbn; by rewrite op_userId_transform_against).
    exists (snd (log_submit l (cmd_operation cmd))), (hs ++ [h]), (ms ++ [m]). split; [done|].
    eapply inv_extend; eauto; try apply I.
    + apply transform_against_wf; [done|]. apply Forall_drop, I.
    + by rewrite Hh.
    + rewrite Hid'. apply in_flight_remote; [apply I|]. unfold foreign. by rewrite Hh.
Qed.

(** ** The client's steps *)

Lemma oc_ok_queue c : oc_ok c -> (oc_state c = Synchronized <-> oc_queue c = []).
Proof.
  unfold oc_ok, oc_queue. destruct (oc_state c); intros [H1 H2].
  - rewrite H1, H2. done.
  - destruct H1 as [q ->]. done.
  - destruct H1 as [q ->]. done.
Qed.

Lemma effective_wf c ops : oc_userId c = u -> Forall op_wf ops ->
  Forall (fun q => op_wf q /\ op_userId q = u) (effective c ops).
Proof.
  intros Hu H. apply Forall_fmap, Forall_forall. intros op [_ Hop]%list_elem_of_filter.
  split; [exact (proj1 (Forall_forall _ _) H op Hop)|exact Hu].
Qed.

Lemma in_flight_buffer lg hs docId q buffer buffer' up :
  in_flight lg hs docId (q :: buffer) up -> in_flight lg hs docId (q :: buffer') up.
Proof. intros F. inversion F; subst; econstructor; eauto. Qed.

Lemma inv_local_step s l hs ms ops c d out :
  Inv s l hs ms -> Forall op_wf ops ->
  onLocalOperations (sys_oc s) (sys_ld s) ops = Some (c, d, out) ->
  Inv (mkSys (sys_doc s) (sys_ds s) (sys_up s ++ sends out) (sys_down s) c d (sys_base s)) l hs ms.
Proof.
  intros I Hops E. destruct (inv_ids _ _ _ _ I) as (Hu & Hid & Hu32 & Hid32).
  pose proof (onLocalOperations_spec _ (sys_ld s) ops (inv_ok _ _ _ _ I)) as S. rewrite E in S.
  destruct S as (S1 & S2 & S3 & [S4 S5] & S6 & S7 & S8).
  pose proof (effective_wf _ _ Hu Hops) as Hwf.
  pose proof (inv_flight _ _ _ _ I) as F.
  pose proof (oc_ok_queue _ (inv_ok _ _ _ _ I)) as Hq.
  pose proof (inv_revision _ _ _ _ I) as Hr. pose proof (inv_refines _ _ _ _ I) as ((_ & _ & Hlt & _) & _ & Hlen & _).
  constructor; cbn; rewrite ?S4, ?S5, ?S6, ?S7, ?S2; try apply I; try done.
  - rewrite S3, apply_all_app. f_equal. apply I.
  - destruct (oc_queue (sys_oc s)) as [|q buffer] eqn:Eq.
    + rewrite (proj2 Hq) in S8 by done. inversion F as [Hfor| |]; subst. cbn [app].
      destruct (effective (sys_oc s) ops) as [|q rest]; [by rewrite S8; constructor|].
      destruct S8 as (payload & -> & Hser). apply Forall_cons in Hwf as [[W1 W2] _].
      apply (fl_up _ _ _ _ _ q (oc_revision (sys_oc s)) []); try done.
      * by rewrite <- Hid.
      * unfold is_u32. lia.
      * lia.
      * apply I.
    + assert (sends out = []) as ->.
      { destruct (oc_state (sys_oc s)) eqn:Es; [|done..]. discriminate (proj1 Hq eq_refl). }
      rewrite app_nil_r. by eapply in_flight_buffer.
  - apply Forall_app. split; [apply I|done].
Qed.

Lemma transform_ladder_users s ps :
  Forall (fun q => op_userId q = u) ps -> Forall (fun q => op_userId q = u) (fst (transform_ladder s ps)).
Proof.
  intros H. revert s. induction H as [|q ps Hq _ IH]; intros s; [constructor|]. cbn.
  pose proof (op_userId_transform_fst q s) as E. destruct (transform q s) as [q' s'].
  specialize (IH s'). destruct (transform_ladder s' ps). cbn in *. constructor; [congruence|done].
Qed.

(** The client hears of the next operation. *)
Lemma carries_ack payload docId rev :
  is_u32 docId -> is_u32 rev -> carries payload (SAck (mkOperationAckMsg docId rev)) ->
  fst (parse_envelope payload) = MtOperationAck
  /\ parse_as from_json_OperationAckMsg payload = Some (mkOperationAckMsg docId rev).
Proof.
  intros Hd Hr Hc. destruct (server_read_back _ _ (conj Hd Hr : server_wf (SAck (mkOperationAckMsg docId rev))) Hc)
    as [E P]. rewrite E. split; [done|]. eapply (parse_as_fmap SAck); [congruence|exact P].
Qed.
Lemma carries_broadcast payload msg :
  server_wf (SBroadcast msg) -> carries payload (SBroadcast msg) ->
  fst (parse_envelope payload) = MtOperationBroadcast
  /\ parse_as from_json_OperationBroadcastMsg payload = Some msg.
Proof.
  intros Hw Hc. destruct (server_read_back _ _ Hw Hc) as [E P]. rewrite E. split; [done|].
  eapply (parse_as_fmap SBroadcast); [congruence|exact P].
Qed.

(** The in-flight operation when the client receives another user's operation. *)
Lemma in_flight_receive lg h hs docId queue up s :
  in_flight lg (h :: hs) docId queue up -> foreign h -> s ≡ h ->
  in_flight lg hs docId (fst (transform_ladder s queue)) up.
Proof.
  intros F Hh Hs. remember (h :: hs) as hs0 eqn:E0.
  destruct F as [F|q buffer q0 r0 seen payload E1 E2 E3 E4 E5 E6 E7 E8|q buffer hs1 own hs2 E1 E2 E3 E4 E5]; subst hs0.
  - apply fl_idle. by apply Forall_cons in F as [_ F].
  - cbn. pose proof (transform_proper q q (reflexivity q) s h Hs) as [Et _].
    destruct (transform q s) as [q' s'], (transform q h) as [q1 h1] eqn:Eh. cbn in Et.
    destruct (transform_ladder s' buffer) as [buffer' s'']. cbn.
    apply (fl_up _ _ _ _ _ q0 r0 (seen ++ [h])); try done.
    + by rewrite E6, <- app_assoc.
    + rewrite transform_against_app. cbn. rewrite Et.
      pose proof (transform_proper q _ E7 h h (reflexivity h)) as [Eq _]. rewrite Eh in Eq. exact Eq.
    + by apply Forall_cons in E8 as [_ E8].
  - destruct hs1 as [|h' hs1]; injection E1 as <- ->; [by destruct Hh|].
    cbn. pose proof (transform_proper q q (reflexivity q) s h Hs) as [Et _].
    destruct (transform q s) as [q' s'], (transform q h) as [q1 h1] eqn:Eh. cbn in Et.
    destruct (transform_ladder s' buffer) as [buffer' s'']. cbn.
    apply (fl_down _ _ _ _ _ hs1 own hs2); try done.
    + by apply Forall_cons in E3 as [_ E3].
    + rewrite E5. cbn. rewrite Eh. cbn. by rewrite Et.
Qed.

(** The acknowledgement of the pending operation. *)
Lemma inv_receive_ack s l h hs ms payload down c d out :
  Inv s l (h :: hs) (SAck (mkOperationAckMsg (doc_id (sys_doc s)) (oc_revision (sys_oc s) + 1)) :: ms) ->
  op_userId h = u -> sys_down s = payload :: down ->
  carries payload (SAck (mkOperationAckMsg (doc_id (sys_doc s)) (oc_revision (sys_oc s) + 1))) ->
  Forall2 carries down ms -> feed (doc_id (sys_doc s)) (oc_revision (sys_oc s) + 1) hs ms ->
  take (Z.to_nat (oc_revision (sys_oc s) + 1)) (log l) = take (Z.to_nat (oc_revision (sys_oc s))) (log l) ++ [h] ->
  drop (Z.to_nat (oc_revision (sys_oc s) + 1)) (log l) = hs ->
  oc_revision (sys_oc s) + 1 <= doc_revision (sys_doc s) ->
  onNetworkMessage (sys_oc s) (sys_ld s) payload = Some (c, d, out) ->
  Inv (mkSys (sys_doc s) (sys_ds s) (sys_up s ++ sends out) down c d (next_base s payload)) l hs ms.
Proof.
  intros I Hh Hdown Hc Hd Hf Ht Hdr Hr E.
  destruct (inv_ids _ _ _ _ I) as (Hu & Hid & Hu32 & Hid32).
  pose proof (inv_refines _ _ _ _ I) as ((_ & _ & Hlt & _) & _ & Hlen & _).
  pose proof (inv_revision _ _ _ _ I) as Hr0.
  assert (is_u32 (oc_revision (sys_oc s) + 1)) as Hr32 by (unfold is_u32; lia).
  destruct (carries_ack _ _ _ Hid32 Hr32 Hc) as [E1 E2].
  unfold onNetworkMessage in E. rewrite E1, E2 in E. cbn [oam_docId] in E.
  rewrite Hid, Z.eqb_refl in E.
  pose proof (handleAck_spec (sys_oc s) (sys_ld s) (mkOperationAckMsg (doc_id (sys_doc s)) (oc_revision (sys_oc s) + 1))
                (inv_ok _ _ _ _ I)) as S. rewrite E in S. cbn [oam_revision] in S.
  destruct S as (S1 & S2 & S3 & [S4 S5] & S6 & S7 & S8).
  pose proof (inv_flight _ _ _ _ I) as F.
  pose proof (inv_queue _ _ _ _ I) as Q. pose proof (inv_content _ _ _ _ I) as C.
  unfold next_base. rewrite E1.
  remember (oc_queue (sys_oc s)) as queue eqn:Equeue. remember (h :: hs) as hs0 eqn:Eh0.
  destruct F as [F|q buffer q0 r0 seen pl F1 F2 F3 F4 F5 F6 F7 F|q buffer hs1 own hs2 F1 F2 F3 F4 F5]; subst hs0.
  1,2: by apply Forall_cons in F as [F _].
  destruct hs1 as [|h' hs1]; injection F1 as <- ->; [|by apply Forall_cons in F3 as [F3 _]].
  cbn [tail] in S2, S8. cbn [app].
  constructor; cbn; rewrite ?S4, ?S5, ?S6, ?S7, ?S2; try apply I; try done.
  - lia.
  - rewrite (inv_base _ _ _ _ I), Ht, apply_all_app. cbn. by rewrite F5.
  - by rewrite S3, C.
  - destruct buffer as [|q1 buffer]; [rewrite S8; by constructor|].
    destruct S8 as (pl & -> & Hser). cbn [app].
    apply Forall_cons in Q as [_ Q]. apply Forall_cons in Q as [[W1 W2] _].
    apply (fl_up _ _ _ _ _ q1 (oc_revision (sys_oc s) + 1) []); try done.
    + by rewrite <- Hid.
    + lia.
  - pose proof (inv_users _ _ _ _ I) as U. by apply Forall_cons in U as [_ U].
  - by apply Forall_cons in Q as [_ Q].
Qed.

(** A broadcast. *)
Lemma inv_receive_broadcast s l h hs ms payload down name c d out :
  let msg := mkOperationBroadcastMsg (doc_id (sys_doc s)) (op_userId h) name
               (oc_revision (sys_oc s) + 1) [to_entry h] in
  Inv s l (h :: hs) (SBroadcast msg :: ms) ->
  foreign h -> sys_down s = payload :: down -> carries payload (SBroadcast msg) ->
  Forall2 carries down ms -> feed (doc_id (sys_doc s)) (oc_revision (sys_oc s) + 1) hs ms ->
  take (Z.to_nat (oc_revision (sys_oc s) + 1)) (log l) = take (Z.to_nat (oc_revision (sys_oc s))) (log l) ++ [h] ->
  drop (Z.to_nat (oc_revision (sys_oc s) + 1)) (log l) = hs ->
  oc_revision (sys_oc s) + 1 <= doc_revision (sys_doc s) ->
  receivable s payload ->
  onNetworkMessage (sys_oc s) (sys_ld s) payload = Some (c, d, out) ->
  Inv (mkSys (sys_doc s) (sys_ds s) (sys_up s ++ sends out) down c d (next_base s payload)) l hs ms.
Proof.
  intros msg I Hh Hdown Hc Hd Hf Ht Hdr Hr Hrec E.
  destruct (inv_ids _ _ _ _ I) as (Hu & Hid & Hu32 & Hid32).
  pose proof (inv_refines _ _ _ _ I) as ((_ & _ & Hlt & _) & _ & Hlen & _).
  pose proof (inv_revision _ _ _ _ I) as Hr0.
  pose proof (inv_users _ _ _ _ I) as U. apply Forall_cons in U as [Uh U].
  assert (op_wf h) as Wh.
  { pose proof (Forall_drop _ (Z.to_nat (oc_revision (sys_oc s))) _ (inv_log_wf _ _ _ _ I)) as W.
    rewrite (inv_hs _ _ _ _ I) in W. by apply Forall_cons in W as [W _]. }
  assert (server_wf (SBroadcast msg)) as Hw.
  { cbn. split_and!; [done..|unfold is_u32; lia|]. constructor; [by apply entry_wf_to_entry|constructor]. }
  destruct (carries_broadcast _ _ Hw Hc) as [E1 E2].
  unfold onNetworkMessage in E. rewrite E1, E2 in E. cbn [obm_docId msg] in E.
  rewrite Hid, Z.eqb_refl in E. unfold handleBroadcast in E. cbn [obm_userId obm_ops msg] in E.
  rewrite (proj2 (Z.eqb_neq _ _)) in E by (rewrite Hu; exact Hh).
  set (s0 := from_entry (to_entry h) (op_userId h) (oc_revision (sys_oc s) + 1)).
  assert (s0 ≡ h) as Hs0 by (by apply from_to_entry).
  unfold receivable in Hrec. rewrite E1, E2 in Hrec. cbn in Hrec. apply Forall_cons in Hrec as [Hlad _].
  change (from_entry _ _ _) with s0 in Hlad.
  pose proof (ladder_converges _ _ _ Hlad) as Hconv.
  pose proof (entry_loop_cons (sys_oc s) (sys_ld s) (to_entry h) [] msg (inv_ok _ _ _ _ I)) as S.
  cbn [obm_userId obm_revision msg] in S. fold s0 in S.
  pose proof (inv_queue _ _ _ _ I) as Q.
  pose proof (transform_ladder_wf s0 (oc_queue (sys_oc s)) (from_entry_wf _ _ _ Wh)) as W.
  pose proof (transform_ladder_users s0 (oc_queue (sys_oc s))) as V.
  pose proof (in_flight_receive _ _ _ _ _ _ s0 (inv_flight _ _ _ _ I) Hh Hs0) as F.
  destruct (transform_ladder s0 (oc_queue (sys_oc s))) as [queue evolved] eqn:Elad. cbn [fst snd] in *.
  destruct S as (c1 & S1 & S2 & [S3 S4] & S5 & S6 & S7). rewrite S7 in E. cbn [entry_loop mbind option_bind] in E.
  injection E as <- <- <-. unfold next_base. rewrite E1, E2. cbn [obm_ops obm_userId obm_revision msg foldl].
  fold s0. change (sends _) with (@nil string). rewrite app_nil_r.
  constructor; cbn; rewrite ?S3, ?S4; try apply I; try done.
  - lia.
  - rewrite (inv_base _ _ _ _ I), Ht, apply_all_app. cbn. by rewrite Hs0.
  - change (oc_queue (with_revision c1 _)) with (oc_queue c1). rewrite S2.
    rewrite (inv_content _ _ _ _ I). exact Hconv.
  - change (oc_queue (with_revision c1 _)) with (oc_queue c1). by rewrite S2.
  - change (oc_queue (with_revision c1 _)) with (oc_queue c1). rewrite S2.
    apply Forall_and. split; [apply W|apply V]; (eapply Forall_impl; [exact Q|by intros ? []]).
Qed.

Lemma inv_receive_step s l hs ms payload down c d out :
  Inv s l hs ms -> sys_down s = payload :: down -> receivable s payload ->
  onNetworkMessage (sys_oc s) (sys_ld s) payload = Some (c, d, out) ->
  exists hs' ms',
  Inv (mkSys (sys_doc s) (sys_ds s) (sys_up s ++ sends out) down c d (next_base s payload)) l hs' ms'.
Proof.
  intros I Hdown Hrec E. pose proof (inv_down _ _ _ _ I) as D. rewrite Hdown in D.
  apply Forall2_cons_inv_l in D as (m & ms' & Hc & D & ->).
  pose proof (inv_feed _ _ _ _ I) as F. destruct hs as [|h hs]; [done|]. destruct F as [A F].
  pose proof (inv_revision _ _ _ _ I) as Hr. pose proof (inv_hs _ _ _ _ I) as Hhs.
  pose proof (inv_refines _ _ _ _ I) as (_ & _ & Hlen & _).
  assert (log l !! Z.to_nat (oc_revision (sys_oc s)) = Some h) as Hl.
  { rewrite <- (Nat.add_0_r (Z.to_nat _)), <- lookup_drop, Hhs. done. }
  pose proof (lookup_lt_Some _ _ _ Hl) as Hlt.
  assert (take (Z.to_nat (oc_revision (sys_oc s) + 1)) (log l)
          = take (Z.to_nat (oc_revision (sys_oc s))) (log l) ++ [h]) as Ht.
  { replace (Z.to_nat (oc_revision (sys_oc s) + 1)) with (S (Z.to_nat (oc_revision (sys_oc s)))) by lia.
    by apply take_S_r. }
  assert (drop (Z.to_nat (oc_revision (sys_oc s) + 1)) (log l) = hs) as Hdr.
  { replace (Z.to_nat (oc_revision (sys_oc s) + 1)) with (S (Z.to_nat (oc_revision (sys_oc s)))) by lia.
    rewrite (drop_S _ _ _ Hl) in Hhs. by injection Hhs. }
  exists hs, ms'. destruct A as [[A1 ->]|[A1 [name ->]]].
  - eapply inv_receive_ack; eauto. lia.
  - eapply inv_receive_broadcast; eauto. lia.
Qed.

Lemma inv_step s s' l hs ms : Inv s l hs ms -> SysStep s s' ->
  exists l' hs' ms', log_base l' = log_base l /\ Inv s' l' hs' ms'.
Proof.
  intros I St. destruct St.
  - exists l, hs, ms. split; [done|]. by eapply inv_local_step.
  - eapply inv_server_step; eauto.
  - eapply inv_remote_step; eauto.
  - destruct (inv_receive_step s l hs ms payload down c d out) as (hs' & ms' & I'); [done..|].
    by exists l, hs', ms'.
Qed.

Lemma inv_init doc ds l :
  refines doc l -> Forall op_wf (log l) -> connected_via ds u p ->
  is_u32 u -> is_u32 (doc_id doc) -> Inv (sys_init doc ds) l [] [].
Proof.
  intros R W C Hu Hid. pose proof R as (Hwf & Hc & Hrev & _).
  assert (Z.to_nat (doc_revision doc) = length (log l)) as Hl by lia.
  constructor; cbn; try done; try lia; rewrite ?Hl.
  - by apply drop_all.
  - by rewrite firstn_all.
  - apply fl_idle. constructor.
Qed.

(** ** What the invariant says *)

Lemma feed_length docId rev hs ms : feed docId rev hs ms -> length ms = length hs.
Proof.
  revert rev ms. induction hs as [|h hs IH]; intros rev [|m ms]; cbn; try done.
  intros [_ F]. by rewrite (IH (rev + 1) ms).
Qed.

Lemma inv_texts s l hs ms : Inv s l hs ms ->
  ld_content (sys_ld s) = apply_all (sys_base s) (oc_queue (sys_oc s))
  /\ doc_content (sys_doc s) = apply_all (sys_base s) hs
  /\ doc_revision (sys_doc s) = oc_revision (sys_oc s) + Z.of_nat (length hs)
  /\ length (sys_down s) = length hs.
Proof.
  intros I. pose proof (inv_refines _ _ _ _ I) as (_ & Hc & Hrev & _).
  pose proof (inv_revision _ _ _ _ I) as Hr. pose proof (inv_hs _ _ _ _ I) as Hhs.
  pose proof (Forall2_length _ _ _ (inv_down _ _ _ _ I)) as Hd.
  pose proof (feed_length _ _ _ _ (inv_feed _ _ _ _ I)) as Hm.
  split_and!; [apply I| | |congruence].
  - rewrite Hc, (inv_base _ _ _ _ I), <- Hhs. unfold log_content. by rewrite <- apply_all_app, take_drop.
  - rewrite <- Hhs, length_drop. lia.
Qed.

Lemma inv_quiet s l hs ms : Inv s l hs ms -> sys_up s = [] -> sys_down s = [] ->
  ld_content (sys_ld s) = doc_content (sys_doc s)
  /\ ld_revision (sys_ld s) = doc_revision (sys_doc s)
  /\ oc_revision (sys_oc s) = doc_revision (sys_doc s)
  /\ oc_state (sys_oc s) = Synchronized.
Proof.
  intros I Hup Hdown. destruct (inv_texts _ _ _ _ I) as (T1 & T2 & T3 & T4).
  rewrite Hdown in T4. destruct hs; [|done]. cbn in T2, T3.
  pose proof (inv_flight _ _ _ _ I) as F. rewrite Hup in F.
  assert (oc_queue (sys_oc s) = []) as Hq.
  { inversion F as [| |? ? hs1 ? ? E]; subst; [done|]. by destruct hs1. }
  rewrite T1, T2, (inv_ld_revision _ _ _ _ I), Hq. split_and!; [done|lia|lia|].
  apply oc_ok_queue; [apply I|done].
Qed.
End System.

(** ** Properties *)

(** One client and its document converge. Start from a client that has just
    opened a document, and let the client edit, any other users edit, the server
    take the client's messages and the client take the server's, in any order. In
    every state reached, the client's text is the server's text at the client's
    revision with the unacknowledged operations applied to it, and the server's text
    is that text with the operations the client has not heard of applied to it.
    When both channels are empty the two texts and revisions are equal and the client
    is synchronized: no operation is lost and the client never waits for an
    acknowledgement that does not come. *)
Theorem client_server_convergence {J : Json} {L : JsonLaws J} u p doc ds l s :
  refines doc l -> Forall op_wf (log l) -> connected_via ds u p -> is_u32 u -> is_u32 (doc_id doc) ->
  rtc (SysStep u p) (sys_init u doc ds) s ->
  (exists hs, ld_content (sys_ld s) = apply_all (sys_base s) (oc_queue (sys_oc s))
     /\ doc_content (sys_doc s) = apply_all (sys_base s) hs
     /\ doc_revision (sys_doc s) = oc_revision (sys_oc s) + Z.of_nat (length hs)
     /\ length (sys_down s) = length hs)
  /\ (sys_up s = [] -> sys_down s = [] ->
      ld_content (sys_ld s) = doc_content (sys_doc s)
      /\ ld_revision (sys_ld s) = doc_revision (sys_doc s)
      /\ oc_revision (sys_oc s) = doc_revision (sys_doc s)
      /\ oc_state (sys_oc s) = Synchronized).
Proof.
  intros R W C Hu Hid Hs.
  assert (exists l hs ms, Inv u p s l hs ms) as (l' & hs & ms & I).
  { refine (rtc_preserved _ (fun s => exists l hs ms, Inv u p s l hs ms) _ _ _ Hs _).
    - intros s1 s2 (l1 & hs1 & ms1 & I1) Hst.
      destruct (inv_step u p _ _ _ _ _ I1 Hst) as (l2 & hs2 & ms2 & _ & I2). by exists l2, hs2, ms2.
    - exists l, [], []. by apply inv_init. }
  split; [exists hs; split_and!; by eapply inv_texts|]. by eapply inv_quiet.
Qed.

(** User 1 types at the start while user 2 types at the end. *)
Lemma client_server_convergence_witness :
  let ds := mkDocumentSession [] {[ 1 := mkConnectedUser 1 "ann" "" 10; 2 := mkConnectedUser 2 "bob" "" 20 ]} in
  exists s, rtc (SysStep (J := json_tree) 1 10) (sys_init 1 (doc_init 7 "t" "AB") ds) s
  /\ sys_up s = [] /\ sys_down s = [] /\ doc_content (sys_doc s) = "xABy"%string
  /\ ld_content (sys_ld s) = doc_content (sys_doc s).
Proof.
  intros ds.
  assert (exists s, rtc (SysStep (J := json_tree) 1 10) (sys_init 1 (doc_init 7 "t" "AB") ds) s
    /\ sys_up s = [] /\ sys_down s = [] /\ doc_content (sys_doc s) = "xABy"%string) as (s & Hs & Hup & Hdown & Hc).
  { eexists. split.
    - eapply rtc_l; [eapply (sys_local 1 10 _ [make_insert 0 "x" 0 0]); [decide_now|vm_compute; reflexivity]|].
      eapply rtc_l; [eapply (sys_remote 1 10 _ (mkDocCommand CmdOperation (make_insert 2 "y" 2 0) 2 "bob" "" 0));
        [done|done|decide_now|done|decide_now|decide_now|decide_now|vm_compute; reflexivity]|].
      eapply rtc_l; [eapply (sys_server 1 10 _ _ _ _ "ann");
        [vm_compute; reflexivity|vm_compute; reflexivity|decide_now|decide_now|vm_compute; reflexivity]|].
      eapply rtc_l; [eapply sys_receive; [vm_compute; reflexivity| |vm_compute; reflexivity]|].
      { decide_now. }
      eapply rtc_l; [eapply sys_receive; [vm_compute; reflexivity| |vm_compute; reflexivity]|].
      { decide_now. }
      apply rtc_refl.
    - vm_compute. done. }
  exists s. split; [exact Hs|]. split; [exact Hup|]. split; [exact Hdown|]. split; [exact Hc|].
  destruct (client_server_convergence (L := json_tree_laws) 1 10 (doc_init 7 "t" "AB") ds (mkDocLog "AB" []) s)
    as [_ H]; [apply refines_init|constructor| |decide_now|decide_now|exact Hs|exact (proj1 (H Hup Hdown))].
  eexists. split; [by vm_compute|]. split; [done|]. intros v w Hv Hw. unfold ds in Hv. cbn in Hv.
  apply lookup_insert_Some in Hv as [[<- <-]|[_ Hv]]; [done|].
  apply lookup_singleton_Some in Hv as [<- <-]. discriminate Hw.
Defined.
