(* ===== verification/ManyClients.v ===== *)
(** * Many clients of one document: convergence

    [Convergence] follows one client among arbitrary commands of other users. Here
    all of them are clients: any number of controllers ([OTController]), each with
    its two channels, share one document thread with its queue of commands
    (server/src/document_session.cpp). Clients open and close the document while
    others edit; a message is queued by a worker (server/src/message_handler.cpp,
    [handle_operation]) and applied later by the thread. When nothing is under way
    all texts are the same. *)
From S2P Require Import Prelude ByteString Operation OT Ladder Document Json Protocol Codec DocumentSession OTController Convergence.
Local Open Scope Z_scope.

(** ** The system *)

Record Client := mkClient {
  cl_session : Z;
  cl_up : list string;       (* payloads on their way to the server *)
  cl_down : list string;     (* payloads on their way to the client *)
  cl_oc : OTController;
  cl_ld : LocalDocument;
  cl_base : string;          (* ghost: the server's text at the client's revision *)
}.

(** The clients by their user ids. *)
Record Net := mkNet {
  net_doc : Document;
  net_ds : DocumentSession;
  net_clients : gmap Z Client;
}.

(** The commands that wait and the connected users. *)
Definition waiting (N : Net) : list DocCommand := ds_command_queue (net_ds N).
Definition users (N : Net) : gmap Z ConnectedUser := ds_connected_users (net_ds N).

(** The users connected once a command has been taken, and a queue of them. *)
Definition user_change (us : gmap Z ConnectedUser) (cmd : DocCommand) : gmap Z ConnectedUser :=
  match cmd_type cmd with
  | CmdJoin => <[cmd_userId cmd := mkConnectedUser (cmd_userId cmd) (cmd_username cmd) (cmd_color cmd)
                                                   (cmd_session cmd)]> us
  | CmdLeave => delete (cmd_userId cmd) us
  | _ => us
  end.
Definition users_after (us : gmap Z ConnectedUser) (q : list DocCommand) : gmap Z ConnectedUser :=
  foldl user_change us q.

Definition is_operation (cmd : DocCommand) : Prop := cmd_type cmd = CmdOperation.
#[export] Instance is_operation_dec cmd : Decision (is_operation cmd).
Proof. unfold is_operation. apply _. Defined.

(** A signal on which the window closes the document
    (client/src/editor_window.cpp, [onFatalError]). *)
Definition fatal (out : list OcOutput) : bool :=
  existsb (fun o => match o with SigFatalError _ => true | _ => false end) out.

(** A client that opens the document: what the answer to its request carries. *)
Definition open_client (u p : Z) (d : Document) : Client :=
  mkClient p [] [] (new_OTController u (doc_id d) (doc_revision d))
           (mkLocalDocument (doc_content d) (doc_revision d)) (doc_content d).

Definition deliver_to (out : Sends) (cl : Client) : Client :=
  mkClient (cl_session cl) (cl_up cl) (cl_down cl ++ received (cl_session cl) out) (cl_oc cl) (cl_ld cl) (cl_base cl).

Section Net.
Context {J : Json} {L : JsonLaws J}.

(** A client and the server, as [Convergence] sees them. *)
Definition client_sys (N : Net) (cl : Client) : Sys :=
  mkSys (net_doc N) (net_ds N) (cl_up cl) (cl_down cl) (cl_oc cl) (cl_ld cl) (cl_base cl).

Definition with_client (N : Net) (u : Z) (cl : Client) : Net :=
  mkNet (net_doc N) (net_ds N) (<[u := cl]> (net_clients N)).

(** Messages that carry nothing of the document's operations: of users and cursors, the
    answers to requests, errors of a request. The controller takes no notice of them. *)
Definition news (payload : string) : Prop :=
  match fst (parse_envelope payload) with
  | MtOperationAck | MtOperationBroadcast => False
  | MtError =>
      match parse_as from_json_ErrorMsg payload with
      | Some err => em_code err <> "revision_too_old"%string
      | None => True
      end
  | _ => True
  end.
#[export] Instance news_dec payload : Decision (news payload).
Proof. unfold news. repeat case_match; apply _. Defined.

(** The premises that the code does not check: no operation waits when a client opens
    ([net_open]), and a received operation is [receivable] ([net_receive]); without them
    texts can differ ([Server.join_misses_queued_operation], [OT.same_user_tie],
    [OT.hollow_delete_wipes_tail]). That the revision is not the last one ([net_take]) and
    that a call has a result are premises too. *)
Inductive NetStep : Net -> Net -> Prop :=
(** A user opens the document, through a session no other user has. The answer is
    made before the command is queued, and operations that wait would be missing
    in it ([Server.join_misses_queued_operation]): the step is for a queue without
    them. *)
| net_open N u p name color :
    net_clients N !! u = None -> is_u32 u ->
    Forall (fun cmd => ~ is_operation cmd) (waiting N) ->
    map_Forall (fun v w => cu_session w = p -> v = u) (users_after (users N) (waiting N)) ->
    NetStep N (mkNet (net_doc N) (enqueue_command (net_ds N) (mkDocCommand CmdJoin no_operation u name color p))
                     (<[u := open_client u p (net_doc N)]> (net_clients N)))
(** A user closes it; what its client had not sent or received yet is gone. *)
| net_close N u cl name :
    net_clients N !! u = Some cl ->
    NetStep N (mkNet (net_doc N) (enqueue_command (net_ds N) (mkDocCommand CmdLeave no_operation u name "" 0))
                     (delete u (net_clients N)))
(** A user types. *)
| net_edit N u cl ops c d out :
    net_clients N !! u = Some cl -> Forall op_wf ops ->
    onLocalOperations (cl_oc cl) (cl_ld cl) ops = Some (c, d, out) ->
    NetStep N (with_client N u (mkClient (cl_session cl) (cl_up cl ++ sends out) (cl_down cl) c d (cl_base cl)))
(** A worker handles the client's next message: its entries become commands. *)
| net_submit N u cl payload up msg name :
    net_clients N !! u = Some cl -> cl_up cl = payload :: up ->
    parse_as from_json_OperationMsg payload = Some msg ->
    NetStep N (mkNet (net_doc N)
                     (foldl enqueue_command (net_ds N) (command_of_entry u name (opm_revision msg) <$> opm_ops msg))
                     (<[u := mkClient (cl_session cl) up (cl_down cl) (cl_oc cl) (cl_ld cl) (cl_base cl)]>
                        (net_clients N)))
(** The thread takes the next command. *)
| net_take N cmd q doc ds out :
    waiting N = cmd :: q -> doc_revision (net_doc N) + 1 < u32_mod ->
    process_command (net_doc N) (mkDocumentSession q (users N)) cmd = Some (doc, ds, out) ->
    NetStep N (mkNet doc ds (deliver_to out <$> net_clients N))
(** A client receives the next message, and goes on. *)
| net_receive N u cl payload down c d out :
    net_clients N !! u = Some cl -> cl_down cl = payload :: down ->
    receivable (client_sys N cl) payload ->
    onNetworkMessage (cl_oc cl) (cl_ld cl) payload = Some (c, d, out) -> fatal out = false ->
    NetStep N (with_client N u (mkClient (cl_session cl) (cl_up cl ++ sends out) down c d
                                         (next_base (client_sys N cl) payload)))
(** A client is told that an operation of its was too old, and closes the document. *)
| net_fatal N u cl payload down c d out name :
    net_clients N !! u = Some cl -> cl_down cl = payload :: down ->
    onNetworkMessage (cl_oc cl) (cl_ld cl) payload = Some (c, d, out) -> fatal out = true ->
    NetStep N (mkNet (net_doc N) (enqueue_command (net_ds N) (mkDocCommand CmdLeave no_operation u name "" 0))
                     (delete u (net_clients N)))
(** The server sends its sessions something else. *)
| net_news N out :
    map_Forall (fun _ cl => Forall news (received (cl_session cl) out)) (net_clients N) ->
    NetStep N (mkNet (net_doc N) (net_ds N) (deliver_to out <$> net_clients N))
(** The document is saved. *)
| net_saved N :
    NetStep N (mkNet (mark_saved (net_doc N)) (net_ds N) (net_clients N)).

Definition net_init (d : Document) : Net := mkNet d new_DocumentSession ∅.

(** Nothing is under way: no operation waits and all channels are empty. *)
Definition calm (N : Net) : Prop :=
  Forall (fun cmd => ~ is_operation cmd) (waiting N)
  /\ map_Forall (fun _ cl => cl_up cl = [] /\ cl_down cl = []) (net_clients N).
#[export] Instance calm_dec N : Decision (calm N).
Proof. unfold calm. apply _. Defined.

(** ** The queue

    What the commands that wait are, and those of one user. *)
Definition cmd_ok (cmd : DocCommand) : Prop :=
  cmd_type cmd ∈ [CmdJoin; CmdLeave; CmdOperation]
  /\ (is_operation cmd -> is_u32 (cmd_userId cmd) /\ op_userId (cmd_operation cmd) = cmd_userId cmd
        /\ op_wf (cmd_operation cmd) /\ is_u32 (op_revision (cmd_operation cmd))).

Definition own (u : Z) (cmd : DocCommand) : Prop := is_operation cmd /\ cmd_userId cmd = u.
#[export] Instance own_dec u cmd : Decision (own u cmd).
Proof. unfold own. apply _. Defined.

(** The command made of a message. *)
Definition made_of (u : Z) (cmd : DocCommand) (payload : string) : Prop :=
  exists msg e name, parse_as from_json_OperationMsg payload = Some msg /\ opm_ops msg = [e]
  /\ cmd = command_of_entry u name (opm_revision msg) e.

(** User [u] is connected through [p] at every operation of the queue, and at its
    end. *)
Fixpoint attached (u p : Z) (q : list DocCommand) (us : gmap Z ConnectedUser) : Prop :=
  match q with
  | [] => connected_via (mkDocumentSession [] us) u p
  | cmd :: q => (is_operation cmd -> connected_via (mkDocumentSession [] us) u p)
                /\ attached u p q (user_change us cmd)
  end.

Lemma attached_end u p q us :
  attached u p q us -> connected_via (mkDocumentSession [] (users_after us q)) u p.
Proof. revert us. induction q as [|cmd q IH]; intros us; cbn; [done|]. intros [_ H]. by apply IH. Qed.

Lemma attached_snoc u p q us cmd :
  attached u p q us -> connected_via (mkDocumentSession [] (users_after us (q ++ [cmd]))) u p ->
  attached u p (q ++ [cmd]) us.
Proof.
  intros H. pose proof (attached_end _ _ _ _ H) as He. revert us H He. induction q as [|c q IH]; intros us; cbn.
  - intros H _ Hs. by split.
  - intros [H1 H2] He Hs. split; [done|]. by apply IH.
Qed.

Lemma attached_fresh u p q us :
  Forall (fun cmd => ~ is_operation cmd) q -> connected_via (mkDocumentSession [] (users_after us q)) u p ->
  attached u p q us.
Proof. intros H. revert us. induction H as [|cmd q Hc _ IH]; intros us; cbn; [done|]. intros Hs. by split; [|apply IH]. Qed.

Lemma users_after_app us q q' : users_after us (q ++ q') = users_after (users_after us q) q'.
Proof. apply foldl_app. Qed.

(** Whom a join, a leave and an operation leave connected. *)
Lemma connected_operation u p us cmd : is_operation cmd ->
  connected_via (mkDocumentSession [] us) u p -> connected_via (mkDocumentSession [] (user_change us cmd)) u p.
Proof. unfold is_operation, user_change. by intros ->. Qed.

Lemma connected_leave u p us cmd : cmd_type cmd = CmdLeave -> cmd_userId cmd <> u ->
  connected_via (mkDocumentSession [] us) u p -> connected_via (mkDocumentSession [] (user_change us cmd)) u p.
Proof.
  unfold user_change, connected_via. intros -> Hne (user & Hu & Hp & Ho). cbn in *. exists user.
  rewrite lookup_delete_ne by done. split_and!; [done..|]. intros v w [_ Hv]%lookup_delete_Some. by apply Ho.
Qed.

Lemma connected_join u p us cmd : cmd_type cmd = CmdJoin -> cmd_userId cmd <> u -> cmd_session cmd <> p ->
  connected_via (mkDocumentSession [] us) u p -> connected_via (mkDocumentSession [] (user_change us cmd)) u p.
Proof.
  unfold user_change, connected_via. intros -> Hne Hs (user & Hu & Hp & Ho). cbn in *. exists user.
  rewrite lookup_insert_ne by done. split_and!; [done..|].
  intros v w [[<- <-]|[_ Hv]]%lookup_insert_Some; [done|]. by apply Ho.
Qed.

Lemma connected_joining u p us cmd : cmd_type cmd = CmdJoin -> cmd_userId cmd = u -> cmd_session cmd = p ->
  map_Forall (fun v w => cu_session w = p -> v = u) us ->
  connected_via (mkDocumentSession [] (user_change us cmd)) u p.
Proof.
  unfold user_change, connected_via. intros -> -> Hs Ho. cbn. eexists.
  rewrite lookup_insert_eq. split_and!; [done..|].
  intros v w [[<- <-]|[_ Hv]]%lookup_insert_Some; [done|]. by apply Ho.
Qed.

(** ** Messages that are no news of the document

    They do not change the controller: the client's messages, without them. *)
Inductive thinned : list string -> list string -> Prop :=
| thinned_nil : thinned [] []
| thinned_keep payload down down' : thinned down down' -> thinned (payload :: down) (payload :: down')
| thinned_drop payload down down' : news payload -> thinned down down' -> thinned (payload :: down) down'.

Lemma thinned_app down1 down1' down2 down2' :
  thinned down1 down1' -> thinned down2 down2' -> thinned (down1 ++ down2) (down1' ++ down2').
Proof. intros H H2. induction H; cbn; [done|by constructor|by constructor]. Qed.
Lemma thinned_refl down : thinned down down.
Proof. induction down; by constructor. Qed.
Lemma thinned_news down : Forall news down -> thinned down [].
Proof. induction 1; by constructor. Qed.

Lemma news_ignored c d payload : news payload -> onNetworkMessage c d payload = Some (c, d, []).
Proof.
  unfold news, onNetworkMessage. destruct (fst (parse_envelope payload)); try done.
  destruct (parse_as _ payload); [|done]. intros H. unfold handleError. by rewrite bool_decide_false.
Qed.
Lemma news_base s payload : news payload -> next_base s payload = sys_base s.
Proof. unfold news, next_base. by destruct (fst (parse_envelope payload)). Qed.

Lemma received_forall (P : string -> Prop) p out :
  Forall (fun '(_, payload) => P payload) out -> Forall P (received p out).
Proof.
  induction 1 as [|[q payload] out H _ IH]; cbn; [constructor|].
  case_bool_decide; [by constructor|done].
Qed.
Lemma broadcast_forall (P : string -> Prop) s payload e : P payload -> Forall (fun '(_, x) => P x) (broadcast s payload e).
Proof. intros H. unfold broadcast. apply Forall_fmap, Forall_forall. by intros [v w] _. Qed.

(** A join or a leave changes the users, and everybody hears of it. *)
Lemma user_command d s cmd d' s' out :
  cmd_type cmd = CmdJoin \/ cmd_type cmd = CmdLeave -> process_command d s cmd = Some (d', s', out) ->
  (forall l, refines d l -> refines d' l) /\ doc_id d' = doc_id d /\ doc_revision d' = doc_revision d
  /\ s' = mkDocumentSession (ds_command_queue s) (user_change (ds_connected_users s) cmd)
  /\ forall p, Forall news (received p out).
Proof.
  unfold process_command, user_change. intros [-> | ->]; intros (payload & Hs & [= <- <- <-])%bind_Some;
    (split_and!; [by intros l|done..|]); intros p; apply received_forall, broadcast_forall;
    apply json_parse_dump in Hs; unfold news.
  - by rewrite (parse_envelope_typed _ _ MtUserJoined Hs) by (done || apply (server_json_type (SUserJoined _))).
  - by rewrite (parse_envelope_typed _ _ MtUserLeft Hs) by (done || apply (server_json_type (SUserLeft _))).
Qed.

(** ** Invariant

    Each client with the server is a state of [Convergence]: the messages whose
    commands wait are still on their way, and [down] is without the news about users. *)
Definition client_view (d : Document) (q : list DocCommand) (us : gmap Z ConnectedUser)
    (sent down : list string) (cl : Client) : Sys :=
  mkSys d (mkDocumentSession [] (users_after us q)) (sent ++ cl_up cl) down (cl_oc cl) (cl_ld cl) (cl_base cl).

Definition client_ok (d : Document) (q : list DocCommand) (us : gmap Z ConnectedUser) (u : Z) (cl : Client) : Prop :=
  attached u (cl_session cl) q us
  /\ exists sent down l hs ms, Forall2 (made_of u) (filter (own u) q) sent /\ thinned (cl_down cl) down
     /\ Inv u (cl_session cl) (client_view d q us sent down cl) l hs ms.

Definition sound (d : Document) : Prop :=
  is_u32 (doc_id d) /\ exists l, refines d l /\ Forall op_wf (log l).

(** An operation was rejected; the client will hear of it. *)
Definition told (payload : string) : Prop :=
  fst (parse_envelope payload) = MtError
  /\ exists msg, parse_as from_json_ErrorMsg payload = Some msg /\ em_code msg = "revision_too_old"%string.
Definition rejected (u : Z) (cl : Client) : Prop := is_u32 u /\ Exists told (cl_down cl).

Definition kept (d : Document) (q : list DocCommand) (us : gmap Z ConnectedUser) (u : Z) (cl : Client) : Prop :=
  client_ok d q us u cl \/ rejected u cl.

Definition net_ok (N : Net) : Prop :=
  sound (net_doc N) /\ Forall cmd_ok (waiting N)
  /\ map_Forall (kept (net_doc N) (waiting N) (users N)) (net_clients N).

Lemma client_ok_snoc d q us u cl cmd :
  client_ok d q us u cl -> ~ own u cmd ->
  connected_via (mkDocumentSession [] (users_after us (q ++ [cmd]))) u (cl_session cl) ->
  client_ok d (q ++ [cmd]) us u cl.
Proof.
  intros (Ha & sent & down & l & hs & ms & Hs & Hd & I) Hne Hc. split; [by apply attached_snoc|].
  exists sent, down, l, hs, ms. rewrite filter_app, filter_cons_False, filter_nil, app_nil_r by done.
  split_and!; [done..|]. apply (inv_server_state _ _ _ _ _ _ d _ I); [apply I|done..].
Qed.

Lemma own_no_operation u q : Forall (fun cmd => ~ is_operation cmd) q -> filter (own u) q = [].
Proof. induction 1 as [|cmd q H _ IH]; [done|]. rewrite filter_cons_False; [done|]. by intros []. Qed.

Lemma client_ok_open d q us u p name color : sound d -> is_u32 u ->
  Forall (fun cmd => ~ is_operation cmd) q ->
  map_Forall (fun v w => cu_session w = p -> v = u) (users_after us q) ->
  client_ok d (q ++ [mkDocCommand CmdJoin no_operation u name color p]) us u (open_client u p d).
Proof.
  intros [Hid (l & R & W)] Hu Hq Hp. set (cmd := mkDocCommand _ _ _ _ _ _).
  assert (Forall (fun cmd => ~ is_operation cmd) (q ++ [cmd])) as Hq'.
  { apply Forall_app. split; [done|]. by constructor. }
  assert (connected_via (mkDocumentSession [] (users_after us (q ++ [cmd]))) u p) as Hc.
  { rewrite users_after_app. by apply connected_joining. }
  split; [by apply attached_fresh|]. exists [], [], l, [], []. rewrite own_no_operation by done.
  split_and!; [done|constructor|]. by apply (inv_init u p d).
Qed.

(** The thread takes a join or a leave. *)
Lemma client_ok_news d d' cmd q us u cl out :
  client_ok d (cmd :: q) us u cl -> ~ is_operation cmd ->
  (forall l, refines d l -> refines d' l) -> doc_id d' = doc_id d -> doc_revision d' = doc_revision d ->
  Forall news (received (cl_session cl) out) ->
  client_ok d' q (user_change us cmd) u (deliver_to out cl).
Proof.
  intros (Ha & sent & down & l & hs & ms & Hs & Hd & I) Hop HR Hid Hr Hnews. split; [apply Ha|].
  exists sent, down, l, hs, ms. rewrite filter_cons_False in Hs by (by intros []).
  split_and!; [done| |].
  - cbn. rewrite <- (app_nil_r down). by apply thinned_app, thinned_news.
  - eapply inv_server_state in I; [exact I|by apply HR; apply I|done..|]. by apply attached_end, Ha.
Qed.

(** The thread takes an operation. *)
Lemma client_ok_operation d cmd q us u cl d' ds out :
  client_ok d (cmd :: q) us u cl -> cmd_ok cmd -> is_operation cmd -> doc_revision d + 1 < u32_mod ->
  (cmd_userId cmd = u -> doc_oldest_revision d <= op_revision (cmd_operation cmd)) ->
  process_command d (mkDocumentSession q us) cmd = Some (d', ds, out) ->
  client_ok d' q us u (deliver_to out cl).
Proof.
  intros (Ha & sent & down & l & hs & ms & Hs & Hd & I) [_ Hok] Hop Hw Ho Hp.
  destruct (Hok Hop) as (C1 & C2 & C3 & C4). cbn in Ha. destruct Ha as [Hc Ha]. specialize (Hc Hop).
  assert (user_change us cmd = us) as Hus by (unfold user_change; by rewrite Hop). rewrite Hus in Ha.
  split; [exact Ha|]. pose proof (attached_end _ _ _ _ Ha) as He.
  assert (users_after us (cmd :: q) = users_after us q) as Hq by (cbn; by rewrite Hus).
  pose proof (inv_server_state _ _ _ _ _ _ d (mkDocumentSession q us) I (inv_refines _ _ _ _ _ _ I) eq_refl eq_refl Hc)
    as I0. cbn [client_view sys_up sys_down sys_oc sys_ld sys_base] in I0.
  assert (exists sent' l' hs' ms', Forall2 (made_of u) (filter (own u) q) sent'
    /\ Inv u (cl_session cl) (mkSys d' ds (sent' ++ cl_up cl) (down ++ received (cl_session cl) out)
              (cl_oc cl) (cl_ld cl) (cl_base cl)) l' hs' ms') as (sent' & l' & hs' & ms' & Hs' & I').
  { destruct (decide (cmd_userId cmd = u)) as [Hu|Hu].
    - rewrite filter_cons_True in Hs by done.
      apply Forall2_cons_inv_l in Hs as (payload & sent' & (msg & e & name & M1 & M2 & ->) & Hs' & ->).
      assert (op_revision (cmd_operation (command_of_entry u name (opm_revision msg) e)) = opm_revision msg) as Hr.
      { unfold command_of_entry. cbn. by case_bool_decide. }
      rewrite Hr in Ho.
      destruct (inv_own_step _ _ _ _ _ _ payload (sent' ++ cl_up cl) msg e name
                  (mkDocumentSession q us) d' ds out I0 eq_refl M1 M2 Hw
                  (Ho Hu) Hc Hp) as (l' & hs' & ms' & _ & I').
      by exists sent', l', hs', ms'.
    - rewrite filter_cons_False in Hs by (by intros []).
      destruct (inv_remote_step _ _ _ _ _ _ cmd d' ds out I0 Hop Hu C1 C2 C3 C4 Hw Hp) as (l' & hs' & ms' & _ & I').
      by exists sent, l', hs', ms'. }
  exists sent', (down ++ received (cl_session cl) out), l', hs', ms'. split_and!; [done| |].
  - cbn. apply thinned_app; [done|apply thinned_refl].
  - eapply (inv_server_state _ _ _ _ _ _ d' _ I'); [apply I'|done..].
Qed.

Lemma operation_command d s cmd d' s' out :
  is_operation cmd -> process_command d s cmd = Some (d', s', out) ->
  d' = snd (apply_with_ot d (cmd_operation cmd)) /\ s' = s.
Proof.
  unfold process_command, is_operation, handle_operation. intros ->.
  destruct (apply_with_ot d (cmd_operation cmd)) as [r e]. cbn [snd]. destruct (negb (ot_success r)).
  - by intros (pl & _ & [= <- <- <-])%bind_Some.
  - by intros (ack & _ & (pl & _ & [= <- <- <-])%bind_Some)%bind_Some.
Qed.

Lemma sound_operation d op : sound d -> op_wf op -> is_u32 (op_revision op) -> doc_revision d + 1 < u32_mod ->
  sound (snd (apply_with_ot d op)).
Proof.
  intros [Hid (l & R & W)] Hop Hr Hw. destruct (apply_with_ot_cases d op (proj1 R) (proj1 Hr)) as [[H1 H2]|Ho].
  - rewrite apply_with_ot_too_old by done. split; [done|]. by exists l.
  - split; [by rewrite (apply_with_ot_accepted d op (proj1 R) Hw Ho)|].
    exists (snd (log_submit l op)). split; [apply (refines_apply d l op R (proj1 Hr) Hw Ho)|].
    apply Forall_app. split; [done|]. constructor; [|done]. by apply transform_against_wf; [|apply Forall_drop].
Qed.

(** The client's own steps. *)
Lemma client_ok_edit d q us u cl ops c ld out :
  client_ok d q us u cl -> Forall op_wf ops -> onLocalOperations (cl_oc cl) (cl_ld cl) ops = Some (c, ld, out) ->
  client_ok d q us u (mkClient (cl_session cl) (cl_up cl ++ sends out) (cl_down cl) c ld (cl_base cl)).
Proof.
  intros (Ha & sent & down & l & hs & ms & Hs & Hd & I) Hops E. split; [exact Ha|].
  exists sent, down, l, hs, ms. split_and!; [done..|].
  pose proof (inv_local_step _ _ _ _ _ _ ops c ld out I Hops E) as I'. cbn in I'.
  unfold client_view. cbn. by rewrite app_assoc.
Qed.

Lemma client_ok_receive d q us u cl payload down c ld out s :
  client_ok d q us u cl -> cl_down cl = payload :: down ->
  sys_oc s = cl_oc cl -> sys_base s = cl_base cl -> receivable s payload ->
  onNetworkMessage (cl_oc cl) (cl_ld cl) payload = Some (c, ld, out) ->
  client_ok d q us u (mkClient (cl_session cl) (cl_up cl ++ sends out) down c ld (next_base s payload)).
Proof.
  intros (Ha & sent & down0 & l & hs & ms & Hs & Hd & I) Hdown Hoc Hb Hrec E. split; [exact Ha|].
  rewrite Hdown in Hd. unfold receivable in Hrec. rewrite Hoc, Hb in Hrec.
  inversion Hd as [|? ? down' Hd'|? ? ? Hn Hd']; subst.
  - destruct (inv_receive_step _ _ _ _ _ _ payload down' c ld out I eq_refl Hrec E) as (hs' & ms' & I').
    exists sent, down', l, hs', ms'. split_and!; [done..|].
    unfold client_view. cbn. unfold next_base. rewrite Hoc, Hb, app_assoc. exact I'.
  - rewrite (news_ignored _ _ _ Hn) in E. injection E as <- <- <-.
    exists sent, down0, l, hs, ms. split_and!; [done..|].
    unfold client_view. rewrite (news_base _ _ Hn). cbn. by rewrite app_nil_r, Hb.
Qed.

(** A worker takes the client's message: a command waits instead. *)
Lemma client_message d q us u cl payload up msg :
  client_ok d q us u cl -> cl_up cl = payload :: up ->
  parse_as from_json_OperationMsg payload = Some msg ->
  exists e, opm_ops msg = [e] /\ forall name,
    let cmd := command_of_entry u name (opm_revision msg) e in
    cmd_ok cmd /\ own u cmd
    /\ client_ok d (q ++ [cmd]) us u (mkClient (cl_session cl) up (cl_down cl) (cl_oc cl) (cl_ld cl) (cl_base cl)).
Proof.
  intros (Ha & sent & down & l & hs & ms & Hs & Hd & I) Hup Hm.
  assert (sent = []) as ->.
  { destruct sent as [|payload' sent]; [done|].
    destruct (up_message _ _ _ _ _ _ payload' (sent ++ cl_up cl) I eq_refl) as [E _].
    rewrite Hup in E. by destruct sent. }
  destruct (up_message _ _ _ _ _ _ payload up I Hup) as (_ & q0 & r0 & Hq0 & Hu0 & Hr0 & Hm').
  rewrite Hm in Hm'. injection Hm' as ->. exists (to_entry q0). split; [done|]. intros name. cbn [opm_revision].
  destruct (inv_ids _ _ _ _ _ _ I) as (_ & _ & Hu & _).
  destruct (entry_operation u q0 name r0 Hq0 Hu0 Hr0) as (C1 & C2 & C3 & C4 & C5 & C6).
  set (cmd := command_of_entry u name r0 (to_entry q0)).
  assert (own u cmd) as Hown by done.
  split_and!.
  - split; [unfold cmd; rewrite C1; set_solver|]. intros _. unfold cmd. by rewrite C2, C4, C5.
  - done.
  - pose proof (attached_end _ _ _ _ Ha) as He.
    assert (connected_via (mkDocumentSession [] (users_after us (q ++ [cmd]))) u (cl_session cl)) as Hc.
    { rewrite users_after_app. by apply connected_operation. }
    split; [by apply attached_snoc|]. exists [payload], down, l, hs, ms.
    rewrite filter_app, filter_cons_True, filter_nil by done. apply Forall2_nil_inv_r in Hs. rewrite Hs.
    split_and!; [|done|].
    + cbn. constructor; [|done]. eexists _, _, name. by split_and!.
    + pose proof (inv_server_state _ _ _ _ _ _ d _ I (inv_refines _ _ _ _ _ _ I) eq_refl eq_refl Hc) as I'.
      unfold client_view. cbn in I' |- *. by rewrite Hup in I'.
Qed.

(** The operation of a client is too old: it is told so. *)
Lemma client_ok_rejected d cmd q us u cl d' ds out :
  client_ok d (cmd :: q) us u cl -> is_operation cmd -> cmd_userId cmd = u -> 0 < doc_revision d ->
  op_revision (cmd_operation cmd) < doc_oldest_revision d ->
  process_command d (mkDocumentSession q us) cmd = Some (d', ds, out) ->
  rejected u (deliver_to out cl).
Proof.
  intros (Ha & sent & down & l & hs & ms & _ & _ & I) Hop Hu Hr Ho Hp.
  destruct (inv_ids _ _ _ _ _ _ I) as (_ & _ & Hu32 & _). split; [done|].
  destruct Ha as [Hc _]. specialize (Hc Hop). unfold process_command in Hp. rewrite Hop in Hp.
  apply (handle_operation_feed _ _ _ u (cl_session cl)) in Hp as (_ & _ & F); [|exact Hc].
  unfold operation_feed in F. rewrite apply_with_ot_too_old in F by done. cbn in F.
  rewrite bool_decide_true in F by done. apply Forall2_cons_inv_r in F as (payload & rest & Hpl & _ & E).
  cbn. rewrite E. apply Exists_app. right. apply Exists_cons_hd.
  destruct (server_read_back _ _ (Logic.I : server_wf (SError _)) Hpl) as [E1 E2]. split; [by rewrite E1|].
  eexists. split; [eapply (parse_as_fmap SError); [congruence|exact E2]|done].
Qed.

(** What a worker makes of a message is in range, whoever sent it. *)
Lemma parsed_entry_range j e : from_json_OpEntry j = Some e -> is_u32 (oe_pos e) /\ is_u32 (oe_len e).
Proof.
  unfold from_json_OpEntry. intros (op & _ & (pos & Hp%at_get_uint32_range & H)%bind_Some)%bind_Some.
  case_bool_decide.
  - by apply bind_Some in H as (text & _ & [= <-]).
  - case_bool_decide; [|by injection H as <-].
    apply bind_Some in H as (len & Hl%at_get_uint32_range & [= <-]). done.
Qed.

Lemma command_of_entry_ok u name rev e : is_u32 u -> is_u32 rev -> is_u32 (oe_pos e) /\ is_u32 (oe_len e) ->
  cmd_ok (command_of_entry u name rev e) /\ own u (command_of_entry u name rev e).
Proof.
  intros Hu Hr [Hp Hl]. unfold command_of_entry, own, cmd_ok, is_operation. cbn.
  split; [|done]. split; [set_solver|]. intros _. unfold op_wf. case_bool_decide; cbn; split_and!; auto using is_u32_u32; done.
Qed.

Lemma parsed_commands_ok u payload msg name : is_u32 u ->
  parse_as from_json_OperationMsg payload = Some msg ->
  Forall (fun cmd => cmd_ok cmd /\ own u cmd) (command_of_entry u name (opm_revision msg) <$> opm_ops msg).
Proof.
  intros Hu. unfold parse_as, from_json_OperationMsg.
  intros (j & _ & (docId & _ & (rev & Hr%at_get_uint32_range & (ops & Ho & [= <-])%bind_Some)%bind_Some)%bind_Some)%bind_Some.
  cbn. apply Forall_fmap. unfold at_get, get_vector in Ho.
  apply bind_Some in Ho as (v & _ & (es & _ & Hes%mapM_Some)%bind_Some).
  eapply Forall2_Forall_r in Hes; [exact Hes|]. apply Forall_true. intros x e He.
  apply command_of_entry_ok; [done..|]. by eapply parsed_entry_range.
Qed.

(** ** Every step preserves it *)

Lemma kept_range d q us u cl : kept d q us u cl -> is_u32 u.
Proof.
  intros [(_ & sent & down & l & hs & ms & _ & _ & I)|[Hu _]]; [|done].
  by destruct (inv_ids _ _ _ _ _ _ I) as (_ & _ & Hu & _).
Qed.

Lemma client_ok_connected d q us u cl : client_ok d q us u cl ->
  connected_via (mkDocumentSession [] (users_after us q)) u (cl_session cl).
Proof. intros [Ha _]. by apply attached_end. Qed.

(** Commands that are not the client's own operations are queued. *)
Lemma clients_kept_snoc d q us (cs : gmap Z Client) cmd :
  map_Forall (kept d q us) cs ->
  (forall u cl, cs !! u = Some cl -> ~ own u cmd
     /\ (connected_via (mkDocumentSession [] (users_after us q)) u (cl_session cl) ->
         connected_via (mkDocumentSession [] (user_change (users_after us q) cmd)) u (cl_session cl))) ->
  map_Forall (kept d (q ++ [cmd]) us) cs.
Proof.
  intros H Hc u cl Hu. destruct (Hc u cl Hu) as [Hne Hs]. destruct (H u cl Hu) as [Hok|Hr]; [left|by right].
  apply client_ok_snoc; [done..|]. rewrite users_after_app. by eapply Hs, client_ok_connected.
Qed.

Lemma clients_kept_operations d q us u (cs : gmap Z Client) cmds :
  map_Forall (kept d q us) cs -> cs !! u = None -> Forall (fun cmd => cmd_ok cmd /\ own u cmd) cmds ->
  map_Forall (kept d (q ++ cmds) us) cs.
Proof.
  intros H Hu Hs. revert q H. induction Hs as [|cmd cmds [_ [Ho <-]] _ IH]; intros q H; [by rewrite app_nil_r|].
  rewrite cons_middle, app_assoc. apply IH, clients_kept_snoc; [done|]. intros v cl Hv.
  split; [|by apply connected_operation]. intros [_ E]. congruence.
Qed.

Lemma clients_kept_insert d q us u cl (cs : gmap Z Client) :
  kept d q us u cl -> map_Forall (kept d q us) (delete u cs) -> map_Forall (kept d q us) (<[u := cl]> cs).
Proof.
  intros Hc H v c [[<- <-]|[Hne Hv]]%lookup_insert_Some; [done|].
  apply H. by rewrite lookup_delete_ne.
Qed.
Lemma clients_kept_delete d q us u (cs : gmap Z Client) :
  map_Forall (kept d q us) cs -> map_Forall (kept d q us) (delete u cs).
Proof. by apply map_Forall_delete. Qed.

Lemma net_open_ok d q us u p name color (cs : gmap Z Client) :
  sound d -> Forall cmd_ok q -> map_Forall (kept d q us) cs -> cs !! u = None -> is_u32 u ->
  Forall (fun cmd => ~ is_operation cmd) q ->
  map_Forall (fun v w => cu_session w = p -> v = u) (users_after us q) ->
  let cmd := mkDocCommand CmdJoin no_operation u name color p in
  Forall cmd_ok (q ++ [cmd]) /\ map_Forall (kept d (q ++ [cmd]) us) (<[u := open_client u p d]> cs).
Proof.
  intros Hd Hq Hcs Hnone Hu Hno Hp cmd. split.
  - apply Forall_app. split; [done|]. constructor; [|done]. split; [set_solver|done].
  - apply clients_kept_insert; [left; by apply client_ok_open|]. rewrite delete_id by done.
    apply clients_kept_snoc; [done|]. intros v cl Hv. split; [by intros []|]. intros Hc.
    apply connected_join; [done|intros E; cbn in E; congruence| |done].
    intros E. destruct Hc as (w & Hw & Hs & _). rewrite <- E in Hs. rewrite (Hp v w Hw Hs) in Hv. congruence.
Qed.

Lemma net_close_ok d q us u name (cs : gmap Z Client) :
  Forall cmd_ok q -> map_Forall (kept d q us) cs ->
  let cmd := mkDocCommand CmdLeave no_operation u name "" 0 in
  Forall cmd_ok (q ++ [cmd]) /\ map_Forall (kept d (q ++ [cmd]) us) (delete u cs).
Proof.
  intros Hq Hcs cmd. split.
  - apply Forall_app. split; [done|]. constructor; [|done]. split; [set_solver|done].
  - apply clients_kept_snoc; [by apply clients_kept_delete|]. intros v cl [Hne Hv]%lookup_delete_Some.
    split; [by intros []|]. by apply connected_leave.
Qed.

Lemma net_submit_ok d q us u cl payload up msg name (cs : gmap Z Client) :
  Forall cmd_ok q -> map_Forall (kept d q us) cs -> cs !! u = Some cl ->
  cl_up cl = payload :: up -> parse_as from_json_OperationMsg payload = Some msg ->
  let cmds := command_of_entry u name (opm_revision msg) <$> opm_ops msg in
  Forall cmd_ok (q ++ cmds) /\ map_Forall (kept d (q ++ cmds) us)
    (<[u := mkClient (cl_session cl) up (cl_down cl) (cl_oc cl) (cl_ld cl) (cl_base cl)]> cs).
Proof.
  intros Hq Hcs Hu Hup Hm cmds.
  pose proof (parsed_commands_ok u payload msg name (kept_range _ _ _ _ _ (Hcs u cl Hu)) Hm) as Hok. fold cmds in Hok.
  split.
  - apply Forall_app. split; [done|]. by eapply Forall_impl; [exact Hok|intros ? []].
  - apply clients_kept_insert.
    + destruct (Hcs u cl Hu) as [Hc|Hr]; [left|by right].
      destruct (client_message _ _ _ _ _ _ _ _ Hc Hup Hm) as (e & He & H). unfold cmds. rewrite He. apply H.
    + apply (clients_kept_operations _ _ _ u); [by apply clients_kept_delete|apply lookup_delete_eq|done].
Qed.

Lemma net_receive_ok d q us u cl payload down c ld out s :
  kept d q us u cl -> cl_down cl = payload :: down ->
  sys_oc s = cl_oc cl -> sys_base s = cl_base cl -> receivable s payload ->
  onNetworkMessage (cl_oc cl) (cl_ld cl) payload = Some (c, ld, out) -> fatal out = false ->
  kept d q us u (mkClient (cl_session cl) (cl_up cl ++ sends out) down c ld (next_base s payload)).
Proof.
  intros [Hc|[Hu Ht]] Hdown Hoc Hb Hrec E Hf; [left; by eapply client_ok_receive|].
  right. split; [done|]. rewrite Hdown in Ht. apply Exists_cons in Ht as [(T1 & m & T2 & T3)|Ht]; [|done].
  unfold onNetworkMessage in E. rewrite T1, T2 in E. injection E as <- <- <-.
  unfold handleError in Hf. by rewrite T3 in Hf.
Qed.

Lemma rejected_deliver u cl out : rejected u cl -> rejected u (deliver_to out cl).
Proof. intros [Hu Ht]. split; [done|]. cbn. apply Exists_app. by left. Qed.

Lemma clients_kept_deliver d q us d' q' us' out (cs : gmap Z Client) :
  map_Forall (kept d q us) cs ->
  (forall u cl, cs !! u = Some cl -> client_ok d q us u cl -> kept d' q' us' u (deliver_to out cl)) ->
  map_Forall (kept d' q' us') (deliver_to out <$> cs).
Proof.
  intros H Hd u cl (cl0 & <- & Hu)%lookup_fmap_Some. destruct (H u cl0 Hu) as [Hc|Hr]; [by apply Hd|].
  right. by apply rejected_deliver.
Qed.

Lemma net_take_ok d cmd q us (cs : gmap Z Client) d' ds out :
  sound d -> Forall cmd_ok (cmd :: q) -> map_Forall (kept d (cmd :: q) us) cs ->
  doc_revision d + 1 < u32_mod ->
  process_command d (mkDocumentSession q us) cmd = Some (d', ds, out) ->
  net_ok (mkNet d' ds (deliver_to out <$> cs)).
Proof.
  intros Hd [Hc Hq]%Forall_cons Hcs Hw Hp. unfold net_ok, waiting, users. cbn.
  destruct (decide (is_operation cmd)) as [Hop|Hop].
  - destruct (operation_command _ _ _ _ _ _ Hop Hp) as [Ed ->]. cbn. destruct (proj2 Hc Hop) as (_ & _ & W & R).
    split_and!; [rewrite Ed; by apply sound_operation|done|].
    apply (clients_kept_deliver d (cmd :: q) us); [done|]. intros u cl Hu Hcl.
    destruct Hd as [_ (l & [Hwf _] & _)].
    destruct (apply_with_ot_cases d (cmd_operation cmd) Hwf (proj1 R)) as [[H1 H2]|Ho].
    + destruct (decide (cmd_userId cmd = u)) as [E|E]; [right; by eapply client_ok_rejected|].
      left. eapply client_ok_operation; eauto. done.
    + left. by eapply client_ok_operation.
  - destruct (user_command d (mkDocumentSession q us) cmd d' ds out) as (HR & Hid & Hr & -> & Hn); [|done|].
    { destruct Hc as [Ht _]. unfold is_operation in Hop. set_solver. }
    cbn. split_and!; [|done|].
    + destruct Hd as [H1 (l & R & W)]. split; [by rewrite Hid|]. exists l. by split; [apply HR|].
    + apply (clients_kept_deliver d (cmd :: q) us); [done|]. intros u cl Hu Hcl. left.
      by apply (client_ok_news d d' cmd).
Qed.

Lemma enqueue_commands s cmds :
  foldl enqueue_command s cmds = mkDocumentSession (ds_command_queue s ++ cmds) (ds_connected_users s).
Proof.
  revert s. induction cmds as [|c cmds IH]; intros s; cbn; [rewrite app_nil_r; by destruct s|].
  rewrite IH. cbn. by rewrite <- app_assoc.
Qed.

Lemma net_news_ok d q us u cl out : Forall news (received (cl_session cl) out) -> kept d q us u cl ->
  kept d q us u (deliver_to out cl).
Proof.
  intros Hn [(Ha & sent & down & l & hs & ms & Hs & Ht & I)|Hr]; [left|right; by apply rejected_deliver].
  split; [exact Ha|]. exists sent, down, l, hs, ms. split_and!; [done| |exact I]. cbn.
  rewrite <- (app_nil_r down). by apply thinned_app, thinned_news.
Qed.

Lemma net_saved_ok d q us u cl : kept d q us u cl -> kept (mark_saved d) q us u cl.
Proof.
  intros [(Ha & sent & down & l & hs & ms & Hs & Ht & I)|Hr]; [left|by right]. split; [exact Ha|].
  exists sent, down, l, hs, ms. split_and!; [done..|].
  apply (inv_server_state _ _ _ _ _ _ (mark_saved d) _ I);
    [apply (inv_refines _ _ _ _ _ _ I)|done|done|apply (inv_connected _ _ _ _ _ _ I)].
Qed.

Lemma net_step_ok N N' : net_ok N -> NetStep N N' -> net_ok N'.
Proof.
  intros (Hd & Hq & Hcs) St. destruct St as [| | | |N cmd q doc ds out Hwait|?|?|?|?].
  - destruct (net_open_ok (net_doc N) (waiting N) (users N) u p name color (net_clients N)) as [H1' H2']; [done..|].
    by split_and!.
  - destruct (net_close_ok (net_doc N) (waiting N) (users N) u name (net_clients N)) as [H1' H2']; [done..|].
    by split_and!.
  - split_and!; [done..|]. apply clients_kept_insert; [|by apply clients_kept_delete].
    destruct (Hcs u cl) as [Hc|Hr]; [done|left; by eapply client_ok_edit|by right].
  - rewrite enqueue_commands.
    destruct (net_submit_ok (net_doc N) (waiting N) (users N) u cl payload up msg name (net_clients N))
      as [H1' H2']; [done..|]. by split_and!.
  - rewrite Hwait in Hq, Hcs. by eapply net_take_ok.
  - split_and!; [done..|]. apply clients_kept_insert; [|by apply clients_kept_delete].
    eapply net_receive_ok; eauto.
  - destruct (net_close_ok (net_doc N) (waiting N) (users N) u name (net_clients N)) as [H1' H2']; [done..|].
    by split_and!.
  - split_and!; [done..|]. intros u cl (cl0 & <- & Hu)%lookup_fmap_Some. apply net_news_ok; eauto.
  - split_and!; [|done|].
    + destruct Hd as [H1 (l & R & W)]. split; [done|]. by exists l.
    + intros u cl Hu. by apply net_saved_ok, Hcs.
Qed.

Lemma net_init_ok d : sound d -> net_ok (net_init d).
Proof. intros Hd. split_and!; [done|constructor|]. apply map_Forall_empty. Qed.
(** What the invariant says in a state at rest. *)
Lemma net_ok_calm N : net_ok N -> calm N -> map_Forall (fun _ cl =>
    ld_content (cl_ld cl) = doc_content (net_doc N)
    /\ ld_revision (cl_ld cl) = doc_revision (net_doc N)
    /\ oc_state (cl_oc cl) = Synchronized) (net_clients N).
Proof.
  intros (_ & _ & Hcs) [Hq Hch] u cl Hu. destruct (Hch u cl Hu) as [Hup Hd0].
  destruct (Hcs u cl Hu) as [(_ & sent & down & l & hs & ms & Hsent & Hdown & I)|[_ Hr]];
    [|rewrite Hd0 in Hr; by apply Exists_nil in Hr].
  rewrite Hd0 in Hdown. inversion Hdown; subst.
  rewrite own_no_operation in Hsent by done. apply Forall2_nil_inv_l in Hsent as ->.
  destruct (inv_quiet _ _ _ _ _ _ I) as (Q1 & Q2 & _ & Q4); [done..|]. by split_and!.
Qed.
End Net.

(** ** Properties *)

(** C4: all clients of a document converge, in runs without the conflicts named here. From
    a document nobody has open, its text what its log makes ([sound]), users open and
    close it, type and receive messages, workers queue messages and the document's thread
    takes commands, in any order, where: a client opens only when no operation is queued
    ([join_misses_queued_operation]); a received operation meets its client's queue
    without a tie of one user, a hollow delete or an overflow ([receivable]); revisions
    are not used up; no [dump] throws. Then in every state each client's text is the
    server's text at that client's revision with its own unacknowledged operations
    applied, and the server's text is that text with the operations the client has not
    heard of, except for a client with a rejected operation, which is about to be told to
    close. And when no operation waits and all channels are empty, every client has the
    server's text and revision and waits for nothing. *)
Theorem all_clients_converge {J : Json} {L : JsonLaws J} d N :
  sound d -> rtc NetStep (net_init d) N ->
  map_Forall (fun u cl => rejected u cl \/ exists hs,
    ld_content (cl_ld cl) = apply_all (cl_base cl) (oc_queue (cl_oc cl))
    /\ doc_content (net_doc N) = apply_all (cl_base cl) hs
    /\ doc_revision (net_doc N) = oc_revision (cl_oc cl) + Z.of_nat (length hs)) (net_clients N)
  /\ (calm N -> map_Forall (fun _ cl =>
        ld_content (cl_ld cl) = doc_content (net_doc N)
        /\ ld_revision (cl_ld cl) = doc_revision (net_doc N)
        /\ oc_state (cl_oc cl) = Synchronized) (net_clients N)).
Proof.
  intros Hd Hs.
  assert (net_ok N) as Hok.
  { by apply (rtc_preserved _ net_ok _ _ net_step_ok Hs), net_init_ok. }
  split; [|by apply net_ok_calm]. destruct Hok as (_ & _ & Hcs).
  intros u cl [(_ & sent & down & l & hs & ms & _ & _ & I)|Hr]%Hcs; [right|by left]. exists hs.
  destruct (inv_texts _ _ _ _ _ _ I) as (T1 & T2 & T3 & _). by split_and!.
Qed.

(** ** Running the system

    The steps as a function, for concrete runs. *)
Inductive Move :=
| MOpen (u p : Z) (name color : string) | MClose (u : Z) (name : string) | MEdit (u : Z) (ops : list Operation)
| MSubmit (u : Z) (name : string) | MTake | MReceive (u : Z) | MFatal (u : Z) (name : string) | MNews (out : Sends) | MSaved.

Definition play {J : Json} (N : Net) (mv : Move) : option Net :=
  match mv with
  | MOpen u p name color =>
      guard (net_clients N !! u = None /\ is_u32 u
        /\ Forall (fun cmd => ~ is_operation cmd) (waiting N)
        /\ map_Forall (fun v w => cu_session w = p -> v = u) (users_after (users N) (waiting N)));;
      Some (mkNet (net_doc N) (enqueue_command (net_ds N) (mkDocCommand CmdJoin no_operation u name color p))
                  (<[u := open_client u p (net_doc N)]> (net_clients N)))
  | MClose u name =>
      cl ← net_clients N !! u;
      Some (mkNet (net_doc N) (enqueue_command (net_ds N) (mkDocCommand CmdLeave no_operation u name "" 0))
                  (delete u (net_clients N)))
  | MEdit u ops =>
      cl ← net_clients N !! u;
      guard (Forall op_wf ops);;
      '(c, d, out) ← onLocalOperations (cl_oc cl) (cl_ld cl) ops;
      Some (with_client N u (mkClient (cl_session cl) (cl_up cl ++ sends out) (cl_down cl) c d (cl_base cl)))
  | MSubmit u name =>
      cl ← net_clients N !! u;
      match cl_up cl with
      | [] => None
      | payload :: up =>
          msg ← parse_as from_json_OperationMsg payload;
          Some (mkNet (net_doc N)
                 (foldl enqueue_command (net_ds N) (command_of_entry u name (opm_revision msg) <$> opm_ops msg))
                 (<[u := mkClient (cl_session cl) up (cl_down cl) (cl_oc cl) (cl_ld cl) (cl_base cl)]> (net_clients N)))
      end
  | MTake =>
      match waiting N with
      | [] => None
      | cmd :: q =>
          guard (doc_revision (net_doc N) + 1 < u32_mod);;
          '(doc, ds, out) ← process_command (net_doc N) (mkDocumentSession q (users N)) cmd;
          Some (mkNet doc ds (deliver_to out <$> net_clients N))
      end
  | MReceive u =>
      cl ← net_clients N !! u;
      match cl_down cl with
      | [] => None
      | payload :: down =>
          guard (receivable (client_sys N cl) payload);;
          '(c, d, out) ← onNetworkMessage (cl_oc cl) (cl_ld cl) payload;
          if fatal out then None
          else Some (with_client N u (mkClient (cl_session cl) (cl_up cl ++ sends out) down c d
                                               (next_base (client_sys N cl) payload)))
      end
  | MFatal u name =>
      cl ← net_clients N !! u;
      match cl_down cl with
      | [] => None
      | payload :: down =>
          '(c, d, out) ← onNetworkMessage (cl_oc cl) (cl_ld cl) payload;
          if fatal out
          then Some (mkNet (net_doc N) (enqueue_command (net_ds N) (mkDocCommand CmdLeave no_operation u name "" 0))
                           (delete u (net_clients N)))
          else None
      end
  | MNews out =>
      guard (map_Forall (fun _ cl => Forall news (received (cl_session cl) out)) (net_clients N));;
      Some (mkNet (net_doc N) (net_ds N) (deliver_to out <$> net_clients N))
  | MSaved => Some (mkNet (mark_saved (net_doc N)) (net_ds N) (net_clients N))
  end.

Lemma play_step {J : Json} N mv N' : play N mv = Some N' -> NetStep N N'.
Proof.
  destruct mv as [u p name color|u name|u ops|u name| |u|u name|out|]; cbn.
  - intros (Hg & _ & [= <-])%bind_Some. apply net_open; tauto.
  - intros (cl & Hu & [= <-])%bind_Some. by eapply net_close.
  - intros (cl & Hu & (Hg & _ & ([[c d] out] & He & [= <-])%bind_Some)%bind_Some)%bind_Some. by eapply net_edit.
  - intros (cl & Hu & H)%bind_Some. destruct (cl_up cl) as [|payload up] eqn:Eup; [done|].
    apply bind_Some in H as (msg & Hm & [= <-]). by eapply net_submit.
  - destruct (waiting N) as [|cmd q] eqn:Eq; [done|].
    intros (Hg & _ & ([[doc ds] out] & Hp & [= <-])%bind_Some)%bind_Some. by eapply net_take.
  - intros (cl & Hu & H)%bind_Some. destruct (cl_down cl) as [|payload down] eqn:Edown; [done|].
    apply bind_Some in H as (Hg & _ & ([[c d] out] & He & H)%bind_Some).
    destruct (fatal out) eqn:Hf; [done|]. injection H as <-. by eapply net_receive.
  - intros (cl & Hu & H)%bind_Some. destruct (cl_down cl) as [|payload down] eqn:Edown; [done|].
    apply bind_Some in H as ([[c d] out] & He & H).
    destruct (fatal out) eqn:Hf; [|done]. injection H as <-. by eapply net_fatal.
  - intros (Hg & _ & [= <-])%bind_Some. by apply net_news.
  - intros [= <-]. apply net_saved.
Qed.

Fixpoint plays {J : Json} (mvs : list Move) (N : Net) : option Net :=
  match mvs with [] => Some N | mv :: mvs => N ← play N mv; plays mvs N end.
Lemma plays_reachable {J : Json} mvs N N' : plays mvs N = Some N' -> rtc NetStep N N'.
Proof.
  revert N. induction mvs as [|mv mvs IH]; intros N; cbn; [by intros [= ->]|].
  intros (N1 & H & Hs)%bind_Some. eapply rtc_l; [by eapply play_step|by apply IH].
Qed.

(** Users 1 and 2 open a document with the text AB; user 1 types x at its start while
    user 2 types y at its end, the server takes y first; user 3 opens it when both
    have been applied, and user 2 closes it. *)
Definition two_users_type : list Move :=
  [MOpen 1 10 "ann" ""; MOpen 2 20 "bob" ""; MTake; MTake;
   MEdit 1 [make_insert 0 "x" 0 0]; MEdit 2 [make_insert 2 "y" 0 0]; MSubmit 2 "bob"; MSubmit 1 "ann";
   MTake; MSaved; MTake; MReceive 1; MReceive 1; MReceive 1; MReceive 2; MReceive 2;
   MOpen 3 30 "eve" ""; MTake; MReceive 1; MReceive 2; MClose 2 "bob"; MTake; MReceive 1; MReceive 3].

Lemma two_users_type_runs :
  match plays (J := json_tree) two_users_type (net_init (doc_init 7 "t" "AB")) with
  | Some N => bool_decide (calm N) && String.eqb (doc_content (net_doc N)) "xABy"
              && bool_decide (dom (net_clients N) = {[ 1; 3 ]})
  | None => false
  end = true.
Proof. vm_compute. reflexivity. Qed.

Lemma all_clients_converge_witness :
  exists N, rtc (NetStep (J := json_tree)) (net_init (doc_init 7 "t" "AB")) N
  /\ dom (net_clients N) = {[ 1; 3 ]}
  /\ map_Forall (fun _ cl => ld_content (cl_ld cl) = "xABy"%string) (net_clients N).
Proof.
  pose proof two_users_type_runs as H.
  destruct (plays two_users_type _) as [N|] eqn:Hs; [|discriminate H].
  apply plays_reachable in Hs. apply andb_prop in H as [[Hc Ht]%andb_prop Hd].
  apply bool_decide_eq_true in Hc, Hd. apply String.eqb_eq in Ht.
  exists N. split; [exact Hs|]. split; [exact Hd|].
  assert (sound (doc_init 7 "t" "AB")) as H0.
  { split; [decide_now|]. exists (mkDocLog "AB" []). split; [apply refines_init|constructor]. }
  intros u cl Hu.
  destruct (all_clients_converge (L := json_tree_laws) _ N H0 Hs) as [_ H].
  rewrite <- Ht. exact (proj1 (H Hc u cl Hu)).
Defined.
