(* ===== verification/Quiescence.v ===== *)
(** * Editing comes to rest

    [ManyClients] says what holds when nothing is under way. Here: once the users stop
    typing, opening and closing, the messages and commands that are left are used up after
    a number of steps that is known beforehand, whatever their order. *)
From S2P Require Import Prelude ByteString Operation OT Ladder Document Json Protocol Codec DocumentSession OTController.
From S2P Require Import Convergence ManyClients.
Local Open Scope Z_scope.

(** ** Sums over a map *)

Section Sum.
Context {A : Type} (f : A -> nat).
Definition msum (m : gmap Z A) : nat := map_fold (fun _ x acc => (f x + acc)%nat) 0%nat m.

Lemma msum_delete m i x : m !! i = Some x -> msum m = (f x + msum (delete i m))%nat.
Proof. intros H. unfold msum. by rewrite (map_fold_delete_L _ _ i x) by (done || intros; lia). Qed.
Lemma msum_insert_None m i x : m !! i = None -> msum (<[i := x]> m) = (f x + msum m)%nat.
Proof. intros H. unfold msum. by rewrite map_fold_insert_L by (done || intros; lia). Qed.
Lemma msum_insert m i x x0 : m !! i = Some x0 -> (msum (<[i := x]> m) + f x0 = msum m + f x)%nat.
Proof.
  intros H. rewrite <- insert_delete_eq, msum_insert_None by apply lookup_delete_eq.
  rewrite (msum_delete m i x0 H). lia.
Qed.
Lemma msum_fmap_le (g : A -> A) k m : (forall x, f (g x) <= f x + k)%nat -> (msum (g <$> m) <= msum m + k * size m)%nat.
Proof.
  intros H. induction m as [|i x m Hi IH] using map_ind.
  - rewrite fmap_empty. lia.
  - rewrite fmap_insert, map_size_insert_None, !msum_insert_None by (done || by rewrite lookup_fmap, Hi).
    specialize (H x). lia.
Qed.
End Sum.

Section Quiescence.
Context {J : Json} {L : JsonLaws J}.

(** ** What is left to do

    A message to a client costs one step; a command makes at most one message for every
    connected user and its author, each of which may reach every client; a message to the
    server has the commands of its entries, an operation in a buffer will be a message. *)
Definition entries (payload : string) : nat :=
  match parse_as from_json_OperationMsg payload with Some msg => length (opm_ops msg) | None => 0 end.
Definition payload_cost (k : nat) (payload : string) : nat := S (k * entries payload).
Definition client_cost (k : nat) (cl : Client) : nat :=
  (S k + S k * length (oc_buffer (cl_oc cl)) + sum_list (payload_cost k <$> cl_up cl) + length (cl_down cl))%nat.
Definition cost (k : nat) (N : Net) : nat :=
  (k * length (waiting N) + msum (client_cost k) (net_clients N))%nat.

#[local] Arguments payload_cost : simpl never.

(** The users a command adds. *)
Definition joins (cmd : DocCommand) : nat := match cmd_type cmd with CmdJoin => 1 | _ => 0 end.

(** The users that are or will be connected. *)
Definition user_bound (N : Net) : nat := (size (users N) + sum_list (joins <$> waiting N))%nat.
Definition command_cost (N : Net) : nat := S (size (net_clients N) * S (user_bound N)).
Definition work (N : Net) : nat := cost (command_cost N) N.

(** ** The steps that remain *)

Definition quiet_move (mv : Move) : Prop :=
  match mv with MSubmit _ _ | MTake | MReceive _ | MFatal _ _ => True | _ => False end.
Definition QuietStep (N N' : Net) : Prop := exists mv, quiet_move mv /\ play N mv = Some N'.

(** What stops the system short: the last revision number, an exception of [dump] in the
    document's thread or in a client, or operations whose transformation does not converge. *)
Inductive blocked (N : Net) : Prop :=
| blocked_revision : u32_mod <= doc_revision (net_doc N) + 1 -> blocked N
| blocked_command cmd q :
    waiting N = cmd :: q -> process_command (net_doc N) (mkDocumentSession q (users N)) cmd = None -> blocked N
| blocked_client u cl payload down :
    net_clients N !! u = Some cl -> cl_down cl = payload :: down ->
    ~ receivable (client_sys N cl) payload \/ onNetworkMessage (cl_oc cl) (cl_ld cl) payload = None -> blocked N.

(** ** Costs of the parts *)

Lemma entries_one docId rev e payload :
  serialize (to_json_OperationMsg (mkOperationMsg docId rev [e])) = Some payload -> (entries payload <= 1)%nat.
Proof.
  unfold serialize, entries, parse_as. intros Hs%json_parse_dump.
  destruct (json_parse payload ≫= _) as [msg|] eqn:E; [|lia]. rewrite Hs in E. cbn [mbind option_bind] in E.
  apply operation_msg_parts in E as [_ ->]. done.
Qed.

Lemma entry_loop_budget es c d msg c' d' out : entry_loop es c d msg = Some (c', d', out) ->
  length (oc_buffer c') = length (oc_buffer c) /\ sends out = [].
Proof.
  revert c d c' d' out. induction es as [|e es IH]; intros c d c' d' out; cbn [entry_loop]; [by intros [= <- <- <-]|].
  set (op := from_entry _ _ _). intros ([[c1 d1] out1] & E1 & ([[c2 d2] out2] & E2 & [= <- <- <-])%bind_Some)%bind_Some.
  apply IH in E2 as [H1 H2]. unfold sends in *. rewrite omap_app, H1, H2, app_nil_r.
  destruct (oc_state c); [by simplify_eq|..]; (destruct (oc_pending_op c) as [q|]; [|done]);
    destruct (transform q op) as [q' op']; pose proof (length_transform_ladder op' (oc_buffer c)) as Hl;
    destruct (transform_ladder op' (oc_buffer c)) as [buffer op'']; simplify_eq; by split.
Qed.

(** Receiving a message uses a buffered operation for every message it sends. *)
Lemma receive_budget c d payload c' d' out : onNetworkMessage c d payload = Some (c', d', out) ->
  (length (oc_buffer c') = length (oc_buffer c) /\ sends out = [])
  \/ (length (oc_buffer c) = S (length (oc_buffer c')) /\ exists p, sends out = [p] /\ (entries p <= 1)%nat).
Proof.
  unfold onNetworkMessage. destruct (fst (parse_envelope payload)); try (intros [= <- <- <-]; by left).
  - destruct (parse_as _ payload) as [msg|]; [|intros [= <- <- <-]; by left].
    destruct (oam_docId msg =? oc_doc_id c); [|intros [= <- <- <-]; by left].
    unfold handleAck. cbn. destruct (oc_state c).
    + intros [= <- <- <-]. left. split; [done|]. unfold emitStateLabel. cbn. by destruct (oc_state c).
    + intros [= <- <- <-]. by left.
    + destruct (oc_buffer c) as [|op buffer]; [done|]. intros (sent & (p & -> & Hp)%sendOp_some & [= <- <- <-])%bind_Some.
      right. split; [by destruct buffer|]. exists p. split; [|by eapply entries_one].
      by destruct buffer.
  - destruct (parse_as _ payload) as [msg|]; [|intros [= <- <- <-]; by left].
    destruct (obm_docId msg =? oc_doc_id c); [|intros [= <- <- <-]; by left]. unfold handleBroadcast.
    destruct (obm_userId msg =? oc_userId c); [intros [= <- <- <-]; by left|].
    intros ([[c1 d1] outs] & E & [= <- <- <-])%bind_Some. left. apply entry_loop_budget in E as [E1 E2].
    cbn. split; [done|]. unfold sends in *. by rewrite omap_app, E2.
  - destruct (parse_as _ payload) as [err|]; intros [= <- <- <-]; left; [|done].
    split; [done|]. unfold handleError. by case_bool_decide.
Qed.

(** ** Every step uses something up *)

Lemma length_received p out : (length (received p out) <= length out)%nat.
Proof.
  unfold received. induction out as [|[q payload] out IH]; cbn; [lia|].
  case_bool_decide; cbn; lia.
Qed.
Lemma length_broadcast s payload e : (length (broadcast s payload e) <= size (ds_connected_users s))%nat.
Proof.
  unfold broadcast. rewrite length_fmap. etrans; [apply length_filter|]. by rewrite length_map_to_list.
Qed.
Lemma length_send_to_user s u payload : (length (send_to_user s u payload) <= 1)%nat.
Proof. unfold send_to_user. by destruct (ds_connected_users s !! u); cbn; lia. Qed.

(** What a command makes: messages, and perhaps one more user. *)
Lemma command_budget d s cmd d' s' out : process_command d s cmd = Some (d', s', out) ->
  ds_command_queue s' = ds_command_queue s
  /\ (size (ds_connected_users s') <= size (ds_connected_users s) + joins cmd)%nat
  /\ (length out <= S (size (ds_connected_users s) + joins cmd))%nat.
Proof.
  intros E0. pose proof E0 as E. unfold process_command in E. unfold joins.
  destruct (cmd_type cmd) eqn:Et; [|revert E..].
  - destruct (operation_command d s cmd d' s' out Et E0) as [_ ->]. split_and!; [done|lia|].
    unfold handle_operation in E. destruct (apply_with_ot d (cmd_operation cmd)) as [r e]. destruct (negb (ot_success r)).
    + apply bind_Some in E as (pl & _ & [= _ <-]). pose proof (length_send_to_user s (cmd_userId cmd) pl). lia.
    + apply bind_Some in E as (ack & _ & (pl & _ & [= _ <-])%bind_Some). rewrite length_app.
      pose proof (length_send_to_user s (cmd_userId cmd) ack). pose proof (length_broadcast s pl (cmd_userId cmd)). lia.
  - intros (pl & _ & [= <- <- <-])%bind_Some.  cbn [ds_command_queue ds_connected_users with_users].
    set (us := <[_ := _]> _). assert (size us <= size (ds_connected_users s) + 1)%nat as Hs.
    { unfold us. rewrite map_size_insert. destruct (ds_connected_users s !! cmd_userId cmd); cbn; lia. }
    split_and!; [done|done|]. etrans; [apply length_broadcast|]. cbn. lia.
  - intros (pl & _ & [= <- <- <-])%bind_Some.  cbn [ds_command_queue ds_connected_users with_users].
    set (us := delete _ _). assert (size us <= size (ds_connected_users s))%nat as Hs.
    { unfold us. rewrite map_size_delete. destruct (ds_connected_users s !! cmd_userId cmd); cbn; lia. }
    split_and!; [done|lia|]. etrans; [apply length_broadcast|]. cbn. lia.
  - intros (pl & _ & [= <- <- <-])%bind_Some.  cbn [ds_command_queue ds_connected_users with_users].
    split_and!; [done|rewrite map_size_empty; lia|]. pose proof (length_broadcast s pl 0). lia.
  - intros [= <- <- <-].  split_and!; cbn; [done|lia..].
Qed.

Lemma sum_list_snoc (f : DocCommand -> nat) q cmd : sum_list (f <$> q ++ [cmd]) = (sum_list (f <$> q) + f cmd)%nat.
Proof. rewrite fmap_app, sum_list_with_app. cbn. lia. Qed.
Lemma joins_of_entries u name rev es q :
  sum_list (joins <$> q ++ (command_of_entry u name rev <$> es)) = sum_list (joins <$> q).
Proof.
  rewrite fmap_app, sum_list_with_app.
  enough (sum_list (joins <$> (command_of_entry u name rev <$> es)) = 0%nat) by lia.
  induction es as [|e es IH]; [done|]. cbn. by rewrite IH.
Qed.

(** A step leaves no more clients and users, and less to do. *)
Definition uses_up (N N' : Net) : Prop :=
  (size (net_clients N') <= size (net_clients N))%nat /\ (user_bound N' <= user_bound N)%nat
  /\ forall k, (command_cost N <= k)%nat -> (cost k N' < cost k N)%nat.

Lemma submit_uses_up N u name N' : play N (MSubmit u name) = Some N' -> uses_up N N'.
Proof.
  cbn. intros (cl & Hu & H)%bind_Some. destruct (cl_up cl) as [|payload up] eqn:Eup; [done|].
  apply bind_Some in H as (msg & Hm & [= <-]). rewrite enqueue_commands. split_and!.
  - cbn. by rewrite map_size_insert_Some.
  - unfold user_bound, waiting, users. cbn. by rewrite joins_of_entries.
  - intros k _. unfold cost, waiting. cbn. rewrite length_app, length_fmap.
    set (cl' := mkClient _ _ _ _ _ _). pose proof (msum_insert (client_cost k) (net_clients N) u cl' cl Hu) as Hs.
    assert (client_cost k cl' + k * length (opm_ops msg) < client_cost k cl)%nat; [|lia].
    unfold client_cost, cl'. cbn. rewrite Eup. cbn [fmap list_fmap sum_list_with sum_list].
    assert (payload_cost k payload = S (k * length (opm_ops msg))) as Hc by (unfold payload_cost, entries; by rewrite Hm).
    cbn. lia.
Qed.

Lemma take_uses_up N N' : play N MTake = Some N' -> uses_up N N'.
Proof.
  cbn. destruct (waiting N) as [|cmd q] eqn:Eq; [done|].
  intros (_ & _ & ([[doc ds] out] & Hp & [= <-])%bind_Some)%bind_Some.
  destruct (command_budget _ _ _ _ _ _ Hp) as (B1 & B2 & B3). cbn in B1, B2, B3.
  assert (user_bound N = size (users N) + joins cmd + sum_list (joins <$> q))%nat as Hb
    by (unfold user_bound; rewrite Eq; cbn; lia).
  split_and!.
  - cbn. by rewrite map_size_fmap.
  - rewrite Hb. unfold user_bound, waiting, users. cbn. rewrite B1. unfold users in B2. lia.
  - intros k Hk. unfold cost. rewrite Eq. unfold waiting. cbn. rewrite B1.
    assert (forall cl, client_cost k (deliver_to out cl) <= client_cost k cl + length out)%nat as Hd.
    { intros cl. unfold client_cost, deliver_to. cbn. rewrite length_app. pose proof (length_received (cl_session cl) out). lia. }
    pose proof (msum_fmap_le (client_cost k) (deliver_to out) (length out) (net_clients N) Hd) as Hs.
    unfold command_cost in Hk. assert (length out <= S (user_bound N))%nat as Ho by lia.
    pose proof (Nat.mul_le_mono_l _ _ (size (net_clients N)) Ho). lia.
Qed.

Lemma receive_uses_up N u N' : play N (MReceive u) = Some N' -> uses_up N N'.
Proof.
  cbn. intros (cl & Hu & H)%bind_Some. destruct (cl_down cl) as [|payload down] eqn:Edown; [done|].
  apply bind_Some in H as (_ & _ & ([[c d] out] & He & H)%bind_Some).
  destruct (fatal out); [done|]. injection H as <-. split_and!.
  - cbn. by rewrite map_size_insert_Some.
  - done.
  - intros k _. unfold cost, waiting. cbn.
    set (cl' := mkClient _ _ _ _ _ _). pose proof (msum_insert (client_cost k) (net_clients N) u cl' cl Hu) as Hs.
    assert (client_cost k cl' < client_cost k cl)%nat; [|lia].
    unfold client_cost, cl'. cbn. rewrite Edown, fmap_app, sum_list_with_app. cbn.
    destruct (receive_budget _ _ _ _ _ _ He) as [[-> ->]|(-> & p & -> & Hp)]; cbn; [lia|].
    assert (payload_cost k p <= S k)%nat; [|lia].
    unfold payload_cost. pose proof (Nat.mul_le_mono_l _ _ k Hp). lia.
Qed.

Lemma fatal_uses_up N u name N' : play N (MFatal u name) = Some N' -> uses_up N N'.
Proof.
  cbn. intros (cl & Hu & H)%bind_Some. destruct (cl_down cl) as [|payload down] eqn:Edown; [done|].
  apply bind_Some in H as ([[c d] out] & He & H). destruct (fatal out); [|done]. injection H as <-. split_and!.
  - cbn. rewrite map_size_delete, Hu. lia.
  - unfold user_bound, waiting, users. cbn. rewrite sum_list_snoc. cbn. lia.
  - intros k _. unfold cost, waiting. cbn. rewrite length_app. cbn.
    rewrite (msum_delete (client_cost k) (net_clients N) u cl Hu). unfold client_cost at 2. lia.
Qed.

Lemma quiet_uses_up N N' : QuietStep N N' -> uses_up N N'.
Proof.
  intros (mv & Hq & H). destruct mv; try done.
  - by eapply submit_uses_up.
  - by apply take_uses_up.
  - by eapply receive_uses_up.
  - by eapply fatal_uses_up.
Qed.

Lemma quiet_bound n N N' k : nsteps QuietStep n N N' -> (command_cost N <= k)%nat -> (n + cost k N' <= cost k N)%nat.
Proof.
  intros Hs. induction Hs as [N|n N N1 N' St _ IH]; intros Hk; [lia|].
  destruct (quiet_uses_up _ _ St) as (H1 & H2 & H3). specialize (H3 k Hk).
  assert (command_cost N1 <= k)%nat as Hk1.
  { unfold command_cost in *. pose proof (Nat.mul_le_mono _ _ (S (user_bound N1)) (S (user_bound N)) H1 ltac:(lia)). lia. }
  specialize (IH Hk1). lia.
Qed.
(** ** A state without a step *)

Lemma message_step N u cl payload down :
  net_clients N !! u = Some cl -> cl_down cl = payload :: down -> (exists N', QuietStep N N') \/ blocked N.
Proof.
  intros Hu Hdown. destruct (onNetworkMessage (cl_oc cl) (cl_ld cl) payload) as [[[c d] out]|] eqn:He;
    [|right; eapply blocked_client; eauto].
  destruct (decide (receivable (client_sys N cl) payload)) as [Hr|Hr]; [|right; eapply blocked_client; eauto].
  left. destruct (fatal out) eqn:Hf.
  - eexists. exists (MFatal u ""). split; [done|]. cbn. rewrite Hu. cbn. rewrite Hdown, He. cbn. by rewrite Hf.
  - eexists. exists (MReceive u). split; [done|]. cbn [play]. rewrite Hu. cbn [mbind option_bind]. rewrite Hdown, option_guard_True by done.
    rewrite He. cbn [mbind option_bind]. by rewrite Hf.
Qed.

Lemma take_step N cmd q : waiting N = cmd :: q -> (exists N', QuietStep N N') \/ blocked N.
Proof.
  intros Hq. destruct (decide (doc_revision (net_doc N) + 1 < u32_mod)) as [Hw|Hw]; [|right; apply blocked_revision; lia].
  destruct (process_command (net_doc N) (mkDocumentSession q (users N)) cmd) as [[[doc ds] out]|] eqn:Hp;
    [|right; by eapply blocked_command].
  left. eexists. exists MTake. split; [done|]. cbn [play]. rewrite Hq, option_guard_True, Hp by done. done.
Qed.

(** A worker can parse whatever a client sends. *)
Lemma submit_step N u cl payload up : net_ok N -> waiting N = [] ->
  net_clients N !! u = Some cl -> cl_down cl = [] -> cl_up cl = payload :: up -> exists N', QuietStep N N'.
Proof.
  intros (_ & _ & Hcs) Hq Hu Hdown Hup.
  destruct (Hcs u cl Hu) as [(_ & sent & down & l & hs & ms & Hs & _ & I)|[_ Hr]];
    [|rewrite Hdown in Hr; by apply Exists_nil in Hr].
  rewrite Hq in Hs. apply Forall2_nil_inv_l in Hs as ->.
  destruct (up_message _ _ _ _ _ _ payload up I Hup) as (_ & q0 & r0 & _ & _ & _ & Hm).
  eexists. exists (MSubmit u ""). split; [done|]. cbn. rewrite Hu. cbn. rewrite Hup, Hm. done.
Qed.

Definition at_rest (N : Net) : Prop := waiting N = [] /\ calm N.

Lemma net_progress N : net_ok N -> (exists N', QuietStep N N') \/ blocked N \/ at_rest N.
Proof.
  intros Hok. destruct (waiting N) as [|cmd q] eqn:Hq; [|destruct (take_step N cmd q Hq); tauto].
  destruct (decide (map_Forall (fun _ cl => cl_down cl = []) (net_clients N))) as [Hdown|Hdown].
  - destruct (decide (map_Forall (fun _ cl => cl_up cl = []) (net_clients N))) as [Hup|Hup].
    + right. right. split; [done|]. split; [by rewrite Hq|]. intros u cl Hu. by split; [eapply Hup|eapply Hdown].
    + left. apply map_not_Forall in Hup as (u & cl & Hu & Hne); [|apply _].
      destruct (cl_up cl) as [|payload up] eqn:E; [done|]. eapply submit_step; eauto.
  - apply map_not_Forall in Hdown as (u & cl & Hu & Hne); [|apply _].
    destruct (cl_down cl) as [|payload down] eqn:E; [done|].
    destruct (message_step N u cl payload down Hu E); tauto.
Qed.

Lemma quiet_net N N' : QuietStep N N' -> NetStep N N'.
Proof. intros (mv & _ & H). by eapply play_step. Qed.
End Quiescence.

Lemma quiet_plays {J : Json} mvs N N' : Forall quiet_move mvs -> plays mvs N = Some N' -> nsteps QuietStep (length mvs) N N'.
Proof.
  intros H. revert N. induction H as [|mv mvs Hq _ IH]; intros N; cbn; [intros [= ->]; constructor|].
  intros (N1 & H & Hs)%bind_Some. econstructor; [by exists mv|by apply IH].
Qed.

Lemma rest_no_step {J : Json} N : at_rest N -> ~ exists N', QuietStep N N'.
Proof.
  intros (Hw & _ & Hc) (N' & mv & Hq & H). destruct mv as [| | |u ?| |u|u ?|?|]; try done; cbn [play] in H.
  2: by rewrite Hw in H.
  all: apply bind_Some in H as (cl & Hu & H); destruct (Hc u cl Hu) as [E1 E2]; rewrite ?E1, ?E2 in H; done.
Qed.
Lemma rest_not_blocked {J : Json} N : at_rest N -> doc_revision (net_doc N) + 1 < u32_mod -> ~ blocked N.
Proof.
  intros (Hw & _ & Hc) Hr [H|cmd q H _|u cl payload down Hu H _]; [lia|by rewrite Hw in H|].
  destruct (Hc u cl Hu) as [_ E]. by rewrite E in H.
Qed.

(** ** Property *)

(** C5: editing comes to rest. Take any state the clients of [ManyClients] reach from a
    sound document nobody has open; that is, without an operation queued when a client
    opens, and without a received operation that ties with one of the same user, meets a
    hollow delete or overflows (the conditions of [all_clients_converge]). Let the users
    stop typing, opening and closing; messages and commands are still handled, in any
    order. Every such continuation is at most [work N] steps long, a number the state [N]
    gives beforehand: broadcasts and acknowledgements do not provoke each other for ever.
    One that cannot go on ends at rest (no command waits, no message is under way, every
    client is synchronized and has the text and the revision of the server) or is
    [blocked]: the next revision is the last number, the next command or message throws,
    or a message that waits at a client is such a conflict, whose handling the model
    leaves out. *)
Theorem editing_settles {J : Json} {L : JsonLaws J} d N :
  sound d -> rtc NetStep (net_init d) N ->
  (forall n N', nsteps QuietStep n N N' -> (n <= work N)%nat)
  /\ forall N', rtc QuietStep N N' -> ~ (exists N'', QuietStep N' N'') ->
     blocked N' \/ (at_rest N' /\ map_Forall (fun _ cl =>
        ld_content (cl_ld cl) = doc_content (net_doc N')
        /\ ld_revision (cl_ld cl) = doc_revision (net_doc N')
        /\ oc_state (cl_oc cl) = Synchronized) (net_clients N')).
Proof.
  intros Hd Hs. split.
  - intros n N' Hn. pose proof (quiet_bound n N N' (command_cost N) Hn (le_n _)). unfold work. lia.
  - intros N' Hq Hstop.
    assert (net_ok N') as Hok.
    { apply (rtc_preserved _ net_ok (net_init d) N' net_step_ok); [|by apply net_init_ok].
      etrans; [exact Hs|]. by apply (rtc_subrel QuietStep); [apply quiet_net|]. }
    destruct (net_progress N' Hok) as [Hstep|[Hb|Hc]]; [done|by left|right]. split; [done|]. apply net_ok_calm; [done|apply Hc].
Qed.

(** Of [two_users_type]: both have typed and nothing has been sent. From there to rest. *)
Definition both_typed : list Move := take 6 two_users_type.
Definition to_rest : list Move :=
  [MSubmit 1 "ann"; MSubmit 2 "bob"; MTake; MTake; MReceive 1; MReceive 1; MReceive 1; MReceive 2; MReceive 2].

Lemma both_typed_runs :
  match N ← plays (J := json_tree) both_typed (net_init (doc_init 7 "t" "AB")); N' ← plays (J := json_tree) to_rest N;
        Some (N, N') with
  | Some (N, N') =>
      Nat.eqb (work (J := json_tree) N) 33 && bool_decide (waiting N' = []) && bool_decide (calm N')
      && (doc_revision (net_doc N') =? 2) && String.eqb (doc_content (net_doc N')) "xABy"
      && bool_decide (dom (net_clients N') = {[ 1; 2 ]})
  | None => false
  end = true.
Proof. vm_compute. reflexivity. Qed.

Lemma editing_settles_witness :
  exists N N', rtc (NetStep (J := json_tree)) (net_init (doc_init 7 "t" "AB")) N
  /\ nsteps (QuietStep (J := json_tree)) 9 N N' /\ (9 <= 33)%nat
  /\ dom (net_clients N') = {[ 1; 2 ]}
  /\ map_Forall (fun _ cl => ld_content (cl_ld cl) = "xABy"%string) (net_clients N').
Proof.
  pose proof both_typed_runs as H.
  destruct (plays both_typed _) as [N|] eqn:Hs; [|discriminate H]. cbn [mbind option_bind] in H.
  destruct (plays to_rest N) as [N'|] eqn:Hq; [|discriminate H]. cbn [mbind option_bind] in H.
  apply andb_prop in H as [[[[[Hk Hw]%andb_prop Hc]%andb_prop Hr]%andb_prop Ht]%andb_prop Hd].
  apply Nat.eqb_eq in Hk. apply bool_decide_eq_true in Hw, Hc, Hd. apply Z.eqb_eq in Hr. apply String.eqb_eq in Ht.
  apply plays_reachable in Hs. apply (quiet_plays to_rest N N') in Hq; [|by repeat constructor].
  assert (sound (doc_init 7 "t" "AB")) as H0.
  { split; [decide_now|]. exists (mkDocLog "AB" []). split; [apply refines_init|constructor]. }
  destruct (editing_settles (L := json_tree_laws) _ N H0 Hs) as [Hb Hrest].
  exists N, N'. split; [exact Hs|]. split; [exact Hq|]. split; [rewrite <- Hk; exact (Hb _ _ Hq)|]. split; [exact Hd|].
  assert (at_rest N') as Ha by (by split).
  destruct (Hrest N') as [Hbl|[_ Htext]]; [apply rtc_nsteps; by eexists|by apply rest_no_step| |].
  - exfalso. revert Hbl. apply rest_not_blocked; [exact Ha|]. by rewrite Hr.
  - intros u cl Hu. rewrite <- Ht. exact (proj1 (Htext u cl Hu)).
Defined.
