(* ===== verification/DocumentManager.v ===== *)
(** * The document manager (server/include/server/document_manager.h,
    server/src/document_manager.cpp)

    Documents and document sessions are shared objects: the manager's maps, a
    session and the callers hold pointers to the same object. They live in a heap,
    and a [shared_ptr] is a location of it. The files of the data directory are a map
    from paths to contents, with the paths that cannot be opened; a file that has been
    opened can be written to the end, and removing and renaming a file succeeds. Every
    member function holds the mutex for its whole body except [get_document],
    whose file access lies between two critical sections: these are definitions of
    their own. *)
From S2P Require Import Prelude ByteString Operation Document AccessControl Json Protocol DocumentSession.
Local Open Scope Z_scope.

(** ** Files

    [fs_denied]: the paths that no stream can open, for whatever reason. *)
Record Files := mkFiles {
  fs_contents : gmap string string;
  fs_denied : gset string;
}.
#[export] Instance files_lookup : Lookup string string Files := fun path files => fs_contents files !! path.
#[export] Instance files_empty : Empty Files := mkFiles ∅ ∅.
Definition can_open (files : Files) (path : string) : bool := bool_decide (path ∉ fs_denied files).
(** [std::ofstream file(path); file << contents], the file truncated, when it is open. *)
Definition write_file (files : Files) (path contents : string) : Files :=
  if can_open files path then mkFiles (<[path := contents]> (fs_contents files)) (fs_denied files) else files.
(** [std::ifstream file(path)] and its contents; [None] when it is not open. *)
Definition read_file (files : Files) (path : string) : option string :=
  if can_open files path then files !! path else None.
(** [fs::exists] and [fs::remove]. *)
Definition exists_file (files : Files) (path : string) : bool := bool_decide (is_Some (files !! path)).
Definition remove_file (files : Files) (path : string) : Files :=
  mkFiles (delete path (fs_contents files)) (fs_denied files).

Lemma lookup_write_file files path contents path' :
  write_file files path contents !! path'
  = if can_open files path && bool_decide (path = path') then Some contents else files !! path'.
Proof.
  unfold write_file. destruct (can_open files path); [|done]. cbn. unfold lookup, files_lookup. cbn.
  rewrite lookup_insert. by repeat case_decide || case_bool_decide.
Qed.
Lemma lookup_remove_file files path path' :
  remove_file files path !! path' = if bool_decide (path = path') then None else files !! path'.
Proof. unfold remove_file, lookup, files_lookup. cbn. rewrite lookup_delete. by repeat case_decide || case_bool_decide. Qed.
Lemma denied_write_file files path contents : fs_denied (write_file files path contents) = fs_denied files.
Proof. unfold write_file. by destruct (can_open files path). Qed.

(** A [DocumentSession] object: the document it works on, its state, and whether
    its thread has been asked to stop. *)
Record SessionObject := mkSessionObject {
  so_doc : Z;
  so_state : DocumentSession;
  so_stop : bool;
}.

Record Heap := mkHeap {
  hp_docs : gmap Z Document;
  hp_sessions : gmap Z SessionObject;
  hp_next : Z;
}.

Record DocumentManager := mkDocumentManager {
  dm_documents : gmap Z Z;
  dm_titles : gmap Z string;
  dm_sessions : gmap Z Z;
  dm_cursor_buffers : gmap Z (gmap Z CursorState);
  dm_next_doc_id : Z;
  dm_data_dir : string;
  dm_heap : Heap;
  dm_files : Files;
}.

Definition new_DocumentManager (data_dir : string) (files : Files) : DocumentManager :=
  mkDocumentManager ∅ ∅ ∅ ∅ 1 data_dir (mkHeap ∅ ∅ 0) files.

Definition with_heap (m : DocumentManager) (h : Heap) : DocumentManager :=
  mkDocumentManager (dm_documents m) (dm_titles m) (dm_sessions m) (dm_cursor_buffers m)
    (dm_next_doc_id m) (dm_data_dir m) h (dm_files m).
Definition with_cursors (m : DocumentManager) (c : gmap Z (gmap Z CursorState)) : DocumentManager :=
  mkDocumentManager (dm_documents m) (dm_titles m) (dm_sessions m) c
    (dm_next_doc_id m) (dm_data_dir m) (dm_heap m) (dm_files m).

Definition with_files (m : DocumentManager) (files : Files) : DocumentManager :=
  mkDocumentManager (dm_documents m) (dm_titles m) (dm_sessions m) (dm_cursor_buffers m)
    (dm_next_doc_id m) (dm_data_dir m) (dm_heap m) files.

(** [make_shared]: a new object at a fresh location. *)
Definition alloc_doc (h : Heap) (d : Document) : Z * Heap :=
  (hp_next h, mkHeap (<[hp_next h := d]> (hp_docs h)) (hp_sessions h) (hp_next h + 1)).
Definition alloc_session (h : Heap) (s : SessionObject) : Z * Heap :=
  (hp_next h, mkHeap (hp_docs h) (<[hp_next h := s]> (hp_sessions h)) (hp_next h + 1)).
Definition update_session (h : Heap) (loc : Z) (f : SessionObject -> SessionObject) : Heap :=
  mkHeap (hp_docs h) (alter f loc (hp_sessions h)) (hp_next h).

Definition request_stop (o : SessionObject) : SessionObject :=
  mkSessionObject (so_doc o) (so_state o) true.
Definition enqueue (cmd : DocCommand) (o : SessionObject) : SessionObject :=
  mkSessionObject (so_doc o) (enqueue_command (so_state o) cmd) (so_stop o).
Definition session_enqueue (m : DocumentManager) (loc : Z) (cmd : DocCommand) : DocumentManager :=
  with_heap m (update_session (dm_heap m) loc (enqueue cmd)).

(** ** Paths and titles *)

Definition doc_path (data_dir : string) (docId : Z) : string :=
  data_dir +:+ "/documents/" +:+ fmt_u32 docId +:+ ".txt".
Definition meta_path (data_dir : string) (docId : Z) : string :=
  data_dir +:+ "/documents/" +:+ fmt_u32 docId +:+ ".meta".

Definition newline : ascii := Ascii.ascii_of_nat 10.
(** [std::getline]: the bytes before the first newline. *)
Fixpoint getline (s : string) : string :=
  match s with
  | EmptyString => EmptyString
  | String c s => if bool_decide (c = newline) then EmptyString else String c (getline s)
  end.

Definition save_meta (m : DocumentManager) (docId : Z) (title : string) (files : Files) : Files :=
  write_file files (meta_path (dm_data_dir m) docId) title.
Definition load_meta (m : DocumentManager) (docId : Z) : string :=
  match read_file (dm_files m) (meta_path (dm_data_dir m) docId) with
  | None => ""
  | Some contents => getline contents
  end.

(** ** Member functions *)

Definition create_document (access : AccessControl) (m : DocumentManager) (title : string) (ownerId : Z)
    : Z * AccessControl * DocumentManager :=
  let docId := dm_next_doc_id m in
  let '(doc, heap) := alloc_doc (dm_heap m) (new_Document docId title) in
  let files := write_file (dm_files m) (doc_path (dm_data_dir m) docId) "" in
  let files := save_meta m docId title files in
  (docId, grant access docId ownerId Owner,
   mkDocumentManager (<[docId := doc]> (dm_documents m)) (<[docId := title]> (dm_titles m)) (dm_sessions m)
     (dm_cursor_buffers m) (docId +₃₂ 1) (dm_data_dir m) heap files).

(** The document read from its files, not yet published. *)
Definition load_from_disk_unlocked (m : DocumentManager) (docId : Z) : option Document :=
  if negb (exists_file (dm_files m) (doc_path (dm_data_dir m) docId)) then None
  else match read_file (dm_files m) (doc_path (dm_data_dir m) docId) with
  | None => None
  | Some content =>
      let title := load_meta m docId in
      let title := if bool_decide (title = ""%string) then "Document " +:+ fmt_u32 docId else title in
      Some (load_content (new_Document docId title) content)
  end.

(** The first critical section of [get_document]. *)
Definition get_document_lookup (m : DocumentManager) (docId : Z) : option Z := dm_documents m !! docId.
(** The second one, with a document read in between. *)
Definition get_document_publish (m : DocumentManager) (docId : Z) (loaded : Document) : Z * DocumentManager :=
  match dm_documents m !! docId with
  | Some doc => (doc, m)
  | None =>
      let '(doc, heap) := alloc_doc (dm_heap m) loaded in
      (doc, mkDocumentManager (<[docId := doc]> (dm_documents m))
              (<[docId := doc_title loaded]> (dm_titles m)) (dm_sessions m) (dm_cursor_buffers m)
              (if dm_next_doc_id m <=? docId then docId +₃₂ 1 else dm_next_doc_id m)
              (dm_data_dir m) heap (dm_files m))
  end.
Definition get_document (m : DocumentManager) (docId : Z) : option Z * DocumentManager :=
  match get_document_lookup m docId with
  | Some doc => (Some doc, m)
  | None =>
      match load_from_disk_unlocked m docId with
      | None => (None, m)
      | Some loaded => let '(doc, m) := get_document_publish m docId loaded in (Some doc, m)
      end
  end.

Definition remove_session (m : DocumentManager) (docId : Z) : DocumentManager :=
  match dm_sessions m !! docId with
  | None => m
  | Some loc =>
      mkDocumentManager (dm_documents m) (dm_titles m) (delete docId (dm_sessions m)) (dm_cursor_buffers m)
        (dm_next_doc_id m) (dm_data_dir m) (update_session (dm_heap m) loc request_stop) (dm_files m)
  end.

Definition delete_document (access : AccessControl) (m : DocumentManager) (docId : Z)
    : bool * AccessControl * DocumentManager :=
  let '(sessions, heap) :=
    match dm_sessions m !! docId with
    | Some loc => (delete docId (dm_sessions m), update_session (dm_heap m) loc request_stop)
    | None => (dm_sessions m, dm_heap m)
    end in
  (true, revoke_all_for_document access docId,
   mkDocumentManager (delete docId (dm_documents m)) (delete docId (dm_titles m)) sessions
     (delete docId (dm_cursor_buffers m)) (dm_next_doc_id m) (dm_data_dir m) heap
     (remove_file (remove_file (dm_files m) (doc_path (dm_data_dir m) docId)) (meta_path (dm_data_dir m) docId))).

Definition role_to_string (access : AccessControl) (docId userId : Z) : string :=
  match get_role access docId userId with
  | None => "none"
  | Some Owner => "owner"
  | Some Editor => "editor"
  | Some Viewer => "viewer"
  end.

(** The entries of [list_documents]; [DocListItem] has the fields of the message. *)
Definition list_documents (access : AccessControl) (m : DocumentManager) (userId : Z) : list DocListEntry :=
  (fun docId =>
     let title := match dm_titles m !! docId with Some t => t | None => ""%string end in
     let online := match dm_documents m !! docId with
                   | Some doc => match hp_docs (dm_heap m) !! doc with
                                 | Some d => subscriber_count d | None => 0 end
                   | None => 0
                   end in
     mkDocListEntry docId title (role_to_string access docId userId) online)
  <$> list_documents_for_user access userId.

Definition all_loaded_documents (m : DocumentManager) : list Z := snd <$> map_to_list (dm_documents m).

Definition get_or_create_session (m : DocumentManager) (docId : Z) : option Z * DocumentManager :=
  match dm_sessions m !! docId with
  | Some loc => (Some loc, m)
  | None =>
      match dm_documents m !! docId with
      | None => (None, m)
      | Some doc =>
          let '(loc, heap) := alloc_session (dm_heap m) (mkSessionObject doc new_DocumentSession false) in
          (Some loc, mkDocumentManager (dm_documents m) (dm_titles m) (<[docId := loc]> (dm_sessions m))
                       (dm_cursor_buffers m) (dm_next_doc_id m) (dm_data_dir m) heap (dm_files m))
      end
  end.

Definition get_session (m : DocumentManager) (docId : Z) : option Z := dm_sessions m !! docId.

(** [cursor_buffers_[docId][userId] = state] creates the inner map when it is
    missing. *)
Definition update_cursor (m : DocumentManager) (docId : Z) (state : CursorState) : DocumentManager :=
  let inner := match dm_cursor_buffers m !! docId with Some i => i | None => ∅ end in
  with_cursors m (<[docId := <[cst_userId state := state]> inner]> (dm_cursor_buffers m)).
Definition get_cursors (m : DocumentManager) (docId : Z) : gmap Z CursorState :=
  match dm_cursor_buffers m !! docId with Some i => i | None => ∅ end.
Definition remove_cursor (m : DocumentManager) (docId userId : Z) : DocumentManager :=
  match dm_cursor_buffers m !! docId with
  | Some i => with_cursors m (<[docId := delete userId i]> (dm_cursor_buffers m))
  | None => m
  end.

Definition all_active_doc_ids (m : DocumentManager) : list Z := fst <$> map_to_list (dm_sessions m).

(** ** The thread of a session object

    It takes one command, works on the document it shares with the manager, and
    sends; [None] is an exception that ends the process. A session that was asked
    to stop still drains its queue. *)
Definition session_step {J : Json} (m : DocumentManager) (loc : Z) : option (DocumentManager * Sends) :=
  match hp_sessions (dm_heap m) !! loc with
  | Some (mkSessionObject doc (mkDocumentSession (cmd :: q) users) stop) =>
      match hp_docs (dm_heap m) !! doc with
      | Some d =>
          '(d, s, out) ← process_command d (mkDocumentSession q users) cmd;
          Some (with_heap m (mkHeap (<[doc := d]> (hp_docs (dm_heap m)))
                                    (<[loc := mkSessionObject doc s stop]> (hp_sessions (dm_heap m)))
                                    (hp_next (dm_heap m))), out)
      | None => Some (m, [])
      end
  | _ => Some (m, [])
  end.

(** ** Invariant

    Every id in the maps is one that was handed out, its document object carries
    that id and the title the manager lists, and an open session is running and
    works on the very document object the manager holds under that id. *)
Record dm_wf (m : DocumentManager) : Prop := mkDmWf {
  wf_document docId loc : dm_documents m !! docId = Some loc ->
    loc < hp_next (dm_heap m) /\
    exists d, hp_docs (dm_heap m) !! loc = Some d /\ doc_id d = docId /\ dm_titles m !! docId = Some (doc_title d);
  wf_session docId loc : dm_sessions m !! docId = Some loc ->
    loc < hp_next (dm_heap m) /\
    exists o, hp_sessions (dm_heap m) !! loc = Some o /\ so_stop o = false
              /\ dm_documents m !! docId = Some (so_doc o);
  wf_title docId title : dm_titles m !! docId = Some title -> is_Some (dm_documents m !! docId);
  wf_next docId loc : dm_documents m !! docId = Some loc -> 0 <= docId < dm_next_doc_id m;
  wf_counter : 1 <= dm_next_doc_id m < u32_mod;
  wf_shared docId docId' loc : dm_sessions m !! docId = Some loc -> dm_sessions m !! docId' = Some loc -> docId = docId';
}.

(** Everything that happens to a manager. Ids are 32-bit, and the id counter does
    not reach its last value. *)
Inductive DmStep {J : Json} : AccessControl * DocumentManager -> AccessControl * DocumentManager -> Prop :=
| dm_create a m title ownerId id a' m' :
    dm_next_doc_id m + 1 < u32_mod ->
    create_document a m title ownerId = (id, a', m') -> DmStep (a, m) (a', m')
| dm_get a m docId : is_u32 docId -> docId + 1 < u32_mod -> DmStep (a, m) (a, snd (get_document m docId))
| dm_delete a m docId r a' m' : delete_document a m docId = (r, a', m') -> DmStep (a, m) (a', m')
| dm_open a m docId : DmStep (a, m) (a, snd (get_or_create_session m docId))
| dm_close a m docId : DmStep (a, m) (a, remove_session m docId)
| dm_cursor a m docId state : DmStep (a, m) (a, update_cursor m docId state)
| dm_uncursor a m docId userId : DmStep (a, m) (a, remove_cursor m docId userId)
| dm_command a m loc cmd : DmStep (a, m) (a, session_enqueue m loc cmd)
| dm_disk a m files :      (* the disk changes *)
    DmStep (a, m) (a, with_files m files)
| dm_thread a m loc m' out : session_step m loc = Some (m', out) -> DmStep (a, m) (a, m')
| dm_access a a' m : DmStep (a, m) (a', m).

(** ** Lemmas *)

Lemma dm_wf_new data_dir files : dm_wf (new_DocumentManager data_dir files).
Proof. split; cbn; intros *; rewrite ?lookup_empty; done. Qed.

(** The member functions that only change the heap cell of a session. *)
Lemma dm_wf_sessions m h :
  dm_wf m -> hp_docs h = hp_docs (dm_heap m) -> hp_next h = hp_next (dm_heap m) ->
  (forall docId loc o, dm_sessions m !! docId = Some loc -> hp_sessions (dm_heap m) !! loc = Some o ->
     exists o', hp_sessions h !! loc = Some o' /\ so_stop o' = so_stop o /\ so_doc o' = so_doc o) ->
  dm_wf (with_heap m h).
Proof.
  intros W Hd Hn Hs. split; cbn; rewrite ?Hd, ?Hn; try apply W.
  intros docId loc E. destruct (wf_session _ W docId loc E) as (L & o & Ho & Hst & Hdoc).
  split; [done|]. destruct (Hs _ _ _ E Ho) as (o' & Ho' & E1 & E2). exists o'. by rewrite E1, E2.
Qed.

Lemma dm_wf_enqueue m loc cmd : dm_wf m -> dm_wf (session_enqueue m loc cmd).
Proof.
  intros W. apply dm_wf_sessions; try done. intros docId loc' o E Ho. cbn.
  destruct (decide (loc = loc')) as [->|Hne].
  - rewrite lookup_alter_eq, Ho. cbn. by eexists.
  - rewrite lookup_alter_ne, Ho by done. by eexists.
Qed.

(** A new document object under an unused id. *)
Lemma dm_wf_insert m docId d next files :
  dm_wf m -> dm_documents m !! docId = None -> doc_id d = docId ->
  0 <= docId < next -> dm_next_doc_id m <= next < u32_mod ->
  dm_wf (mkDocumentManager (<[docId := hp_next (dm_heap m)]> (dm_documents m))
           (<[docId := doc_title d]> (dm_titles m)) (dm_sessions m) (dm_cursor_buffers m) next
           (dm_data_dir m) (snd (alloc_doc (dm_heap m) d)) files).
Proof.
  intros W Hnone Hid Hdoc Hnext. pose proof (wf_counter _ W) as C. split; cbn.
  - intros id loc. rewrite !lookup_insert. repeat case_decide; try congruence.
    + intros [= <-]. split; [lia|]. eexists. split; [done|]. by subst.
    + intros E. destruct (wf_document _ W _ _ E) as (L & e & He & Hr). lia.
    + intros E. destruct (wf_document _ W _ _ E) as (L & e & He & Hr). split; [lia|]. by exists e.
  - intros id loc E. destruct (wf_session _ W _ _ E) as (L & o & Ho & Hs & Hd). split; [lia|].
    exists o. split_and!; [done..|]. rewrite lookup_insert_ne; [done|]. congruence.
  - intros id t. rewrite !lookup_insert. case_decide; [done|]. apply W.
  - intros id loc. rewrite lookup_insert. case_decide; [lia|]. intros E%(wf_next _ W). lia.
  - lia.
  - apply W.
Qed.

Lemma fresh_doc_id m : dm_wf m -> dm_documents m !! dm_next_doc_id m = None.
Proof.
  intros W. destruct (dm_documents m !! dm_next_doc_id m) eqn:E; [|done].
  apply (wf_next _ W) in E. lia.
Qed.

Lemma dm_wf_create a m title ownerId id a' m' :
  dm_wf m -> dm_next_doc_id m + 1 < u32_mod ->
  create_document a m title ownerId = (id, a', m') -> dm_wf m'.
Proof.
  intros W Hc. unfold create_document. cbn. intros [= <- <- <-]. pose proof (wf_counter _ W). unwrap.
  apply (dm_wf_insert m _ (new_Document (dm_next_doc_id m) title)); (done || lia || by apply fresh_doc_id).
Qed.

Lemma dm_wf_publish m docId loaded :
  dm_wf m -> is_u32 docId -> docId + 1 < u32_mod -> doc_id loaded = docId ->
  dm_wf (snd (get_document_publish m docId loaded)).
Proof.
  intros W Hu Hc Hid. unfold get_document_publish. destruct (dm_documents m !! docId) as [loc|] eqn:Hnone; [done|].
  pose proof (wf_counter _ W) as C. unfold is_u32 in Hu. cbn. unwrap.
  apply (dm_wf_insert m docId loaded); try done; destruct (Z.leb_spec (dm_next_doc_id m) docId); lia.
Qed.

Lemma loaded_id m docId loaded : load_from_disk_unlocked m docId = Some loaded -> doc_id loaded = docId.
Proof.
  unfold load_from_disk_unlocked. destruct (exists_file _ _); [|done]. cbn [negb].
  destruct (read_file _ _); [|done]. by intros [= <-].
Qed.

Lemma get_document_cases m docId :
  (exists loc, dm_documents m !! docId = Some loc /\ get_document m docId = (Some loc, m))
  \/ (dm_documents m !! docId = None /\
      match load_from_disk_unlocked m docId with
      | None => get_document m docId = (None, m)
      | Some loaded => doc_id loaded = docId /\
          get_document m docId = (Some (hp_next (dm_heap m)), snd (get_document_publish m docId loaded))
      end).
Proof.
  unfold get_document, get_document_lookup. destruct (dm_documents m !! docId) as [loc|] eqn:E; [left; eauto|].
  right. split; [done|]. destruct (load_from_disk_unlocked m docId) as [loaded|] eqn:El; [|done].
  split.
  - by apply loaded_id in El.
  - unfold get_document_publish. by rewrite E.
Qed.

Lemma dm_wf_get m docId :
  dm_wf m -> is_u32 docId -> docId + 1 < u32_mod -> dm_wf (snd (get_document m docId)).
Proof.
  intros W Hu Hc. destruct (get_document_cases m docId) as [(loc & _ & ->)|[_ H]]; [done|].
  destruct (load_from_disk_unlocked m docId) as [loaded|]; [|by rewrite H].
  destruct H as [Hid ->]. by apply dm_wf_publish.
Qed.

(** Removing an id from the maps, with its session asked to stop. *)
Lemma dm_wf_close m docId : dm_wf m -> dm_wf (remove_session m docId).
Proof.
  intros W. unfold remove_session. destruct (dm_sessions m !! docId) as [loc|] eqn:E; [|done].
  split; cbn; try apply W.
  - intros id l. rewrite lookup_delete_Some. intros [Hne El].
    destruct (wf_session _ W _ _ El) as (L & o & Ho & Hs & Hd). split; [done|]. exists o.
    rewrite lookup_alter_ne; [done|]. intros ->. by apply Hne, (wf_shared _ W _ _ l).
  - intros id id' l. rewrite !lookup_delete_Some. intros [_ E1] [_ E2]. by apply (wf_shared _ W _ _ l).
Qed.

(** [delete_document] closes the session and then forgets the document. *)
Lemma delete_document_eq a m docId :
  let m1 := remove_session m docId in
  delete_document a m docId =
    (true, revoke_all_for_document a docId,
     mkDocumentManager (delete docId (dm_documents m1)) (delete docId (dm_titles m1)) (dm_sessions m1)
       (delete docId (dm_cursor_buffers m1)) (dm_next_doc_id m1) (dm_data_dir m1) (dm_heap m1)
       (remove_file (remove_file (dm_files m1) (doc_path (dm_data_dir m1) docId)) (meta_path (dm_data_dir m1) docId))).
Proof. unfold delete_document, remove_session. by destruct (dm_sessions m !! docId). Qed.

Lemma remove_session_sessions m docId : dm_sessions (remove_session m docId) !! docId = None.
Proof.
  unfold remove_session. destruct (dm_sessions m !! docId) eqn:E; [|done]. apply lookup_delete_eq.
Qed.

Lemma dm_wf_delete a m docId r a' m' :
  dm_wf m -> delete_document a m docId = (r, a', m') -> dm_wf m'.
Proof.
  intros W. rewrite delete_document_eq. intros [= <- <- <-].
  pose proof (dm_wf_close m docId W) as W1. pose proof (remove_session_sessions m docId) as Hn.
  set (m1 := remove_session m docId) in *. clearbody m1. split; cbn; try apply W1.
  - intros id loc. rewrite lookup_delete_Some. intros [Hne E].
    destruct (wf_document _ W1 _ _ E) as (L & d & Hd & Hr). split; [done|]. exists d.
    by rewrite lookup_delete_ne.
  - intros id loc E. destruct (wf_session _ W1 _ _ E) as (L & o & Ho & Hs & Hd). split; [done|].
    exists o. split_and!; [done..|]. rewrite lookup_delete_ne; [done|]. congruence.
  - intros id t. rewrite lookup_delete_Some. intros [Hne E]. rewrite lookup_delete_ne by done.
    by eapply (wf_title _ W1).
  - intros id loc. rewrite lookup_delete_Some. intros [_ E]. by eapply (wf_next _ W1).
Qed.

Lemma dm_wf_open m docId : dm_wf m -> dm_wf (snd (get_or_create_session m docId)).
Proof.
  intros W. unfold get_or_create_session. destruct (dm_sessions m !! docId) as [loc|] eqn:E; [done|].
  destruct (dm_documents m !! docId) as [doc|] eqn:Ed; [|done]. split; cbn; try apply W.
  - intros id loc El. destruct (wf_document _ W _ _ El) as (L & d & Hd & Hr). split; [lia|]. by exists d.
  - intros id loc. rewrite !lookup_insert. repeat case_decide; try congruence.
    + intros [= <-]. split; [lia|]. eexists. split; [done|]. by subst.
    + intros El. destruct (wf_session _ W _ _ El) as (L & o & Ho & Hr). lia.
    + intros El. destruct (wf_session _ W _ _ El) as (L & o & Ho & Hr). split; [lia|]. by exists o.
  - assert (forall id, dm_sessions m !! id <> Some (hp_next (dm_heap m))) as Hf.
    { intros id El. destruct (wf_session _ W _ _ El) as [L _]. lia. }
    intros id id' l. rewrite !lookup_insert. repeat case_decide; intros; simplify_eq; try congruence.
    all: try (by exfalso; eapply Hf). by apply (wf_shared _ W _ _ l).
Qed.

Lemma get_or_create_documents m docId :
  dm_documents (snd (get_or_create_session m docId)) = dm_documents m.
Proof.
  unfold get_or_create_session. destruct (dm_sessions m !! docId); [done|].
  by destruct (dm_documents m !! docId).
Qed.

(** No command changes a document's id or title. *)
Lemma apply_with_ot_id d op :
  doc_id (snd (apply_with_ot d op)) = doc_id d /\ doc_title (snd (apply_with_ot d op)) = doc_title d.
Proof.
  unfold apply_with_ot. destruct (_ && _); [done|]. by destruct (prune_history _ _ _).
Qed.
Lemma process_command_id {J : Json} d s cmd d' s' out :
  process_command d s cmd = Some (d', s', out) -> doc_id d' = doc_id d /\ doc_title d' = doc_title d.
Proof.
  unfold process_command, handle_join, handle_leave, handle_operation, handle_delete.
  destruct (cmd_type cmd).
  - pose proof (apply_with_ot_id d (cmd_operation cmd)) as H.
    destruct (apply_with_ot d (cmd_operation cmd)) as [r e]. cbn in H.
    destruct (ot_success r); cbn [negb].
    + by intros (? & _ & (? & _ & [= <- _ _])%bind_Some)%bind_Some.
    + by intros (? & _ & [= <- _ _])%bind_Some.
  - by intros (? & _ & [= <- _ _])%bind_Some.
  - by intros (? & _ & [= <- _ _])%bind_Some.
  - by intros (? & _ & [= <- _ _])%bind_Some.
  - by intros [= <- _ _].
Qed.

Lemma dm_wf_thread {J : Json} m loc m' out :
  dm_wf m -> session_step m loc = Some (m', out) -> dm_wf m'.
Proof.
  intros W. unfold session_step.
  destruct (hp_sessions (dm_heap m) !! loc) as [[doc [[|cmd q] users] stop]|] eqn:El; try (by intros [= <- _]).
  destruct (hp_docs (dm_heap m) !! doc) as [d|] eqn:Ed; [|by intros [= <- _]].
  intros ([[d' s'] o] & H & [= <- _])%bind_Some. apply process_command_id in H as [Hid Ht].
  split; cbn; try apply W.
  - intros id l E. destruct (wf_document _ W _ _ E) as (L & e & He & Hi & Hti). split; [done|].
    destruct (decide (doc = l)) as [->|Hne].
    + exists d'. rewrite lookup_insert_eq. simplify_eq. split_and!; congruence.
    + exists e. by rewrite lookup_insert_ne.
  - intros id l E. destruct (wf_session _ W _ _ E) as (L & o' & Ho & Hs & Hd). split; [done|].
    destruct (decide (loc = l)) as [->|Hne].
    + rewrite lookup_insert_eq. simplify_eq. by eexists.
    + rewrite lookup_insert_ne by done. by exists o'.
Qed.

Lemma dm_wf_step {J : Json} a m a' m' : DmStep (a, m) (a', m') -> dm_wf m -> dm_wf m'.
Proof.
  intros H W. inversion H; subst; eauto using dm_wf_create, dm_wf_get, dm_wf_delete, dm_wf_open,
    dm_wf_close, dm_wf_enqueue, dm_wf_thread.
  - split; apply W.
  - unfold remove_cursor. destruct (dm_cursor_buffers m !! docId); [split; apply W|done].
  - split; apply W.
Qed.

Lemma dm_wf_steps {J : Json} a m a' m' : rtc DmStep (a, m) (a', m') -> dm_wf m -> dm_wf m'.
Proof.
  intros Hs W. apply (rtc_preserved DmStep (fun x => dm_wf (snd x))) in Hs; [done| |done].
  intros [a1 m1] [a2 m2] H Hst. cbn in *. by eapply dm_wf_step.
Qed.

(** The counter of ids only goes up. *)
Lemma create_id a m title ownerId id a' m' :
  create_document a m title ownerId = (id, a', m') -> id = dm_next_doc_id m /\ dm_next_doc_id m' = dm_next_doc_id m +₃₂ 1.
Proof. unfold create_document. cbn. by intros [= <- <- <-]. Qed.
Lemma next_id_step {J : Json} x y : DmStep x y -> dm_wf (snd x) -> dm_next_doc_id (snd x) <= dm_next_doc_id (snd y).
Proof.
  intros H. destruct H as [a m title ownerId id a' m' Hb E|a m docId Hu Hb|a m docId r a' m' E|a m docId|a m docId| |
    a m docId userId| |a m files|a m loc m' out E|]; cbn; intros W; pose proof (wf_counter _ W) as C; try reflexivity.
  - apply create_id in E as [_ ->]. unwrap. lia.
  - destruct (get_document_cases m docId) as [(loc & _ & ->)|[_ Hg]]; [done|].
    destruct (load_from_disk_unlocked m docId) as [loaded|]; [|by rewrite Hg]. destruct Hg as [_ ->].
    unfold get_document_publish. destruct (dm_documents m !! docId); [done|]. cbn.
    unfold is_u32 in *. destruct (Z.leb_spec (dm_next_doc_id m) docId); unwrap; lia.
  - unfold delete_document in E. by destruct (dm_sessions m !! docId); simplify_eq.
  - unfold get_or_create_session. destruct (dm_sessions m !! docId); [done|]. by destruct (dm_documents m !! docId).
  - unfold remove_session. by destruct (dm_sessions m !! docId).
  - unfold remove_cursor. by destruct (dm_cursor_buffers m !! docId).
  - unfold session_step in E. repeat case_match; simplify_eq; try done.
    apply bind_Some in E as ([[? ?] ?] & _ & [= <- _]). done.
Qed.
Lemma next_id_steps {J : Json} a m a' m' : dm_wf m -> rtc DmStep (a, m) (a', m') -> dm_next_doc_id m <= dm_next_doc_id m'.
Proof.
  intros W Hs.
  apply (rtc_preserved DmStep (fun x => dm_wf (snd x) /\ dm_next_doc_id m <= dm_next_doc_id (snd x))) in Hs; [apply Hs| |by split].
  intros [a1 m1] [a2 m2] [W1 H1] Hst. cbn in *. pose proof (next_id_step _ _ Hst W1). cbn in *. split; [by eapply dm_wf_step|lia].
Qed.

(** The paths of two kinds of file differ. *)
Lemma string_last_app s t c : t = String c EmptyString -> bytes_of (s +:+ t) = bytes_of s ++ [c].
Proof. intros ->. by rewrite bytes_of_app. Qed.
Lemma doc_path_ne_meta_path dir id id' : doc_path dir id <> meta_path dir id'.
Proof.
  unfold doc_path, meta_path. intros E. apply (f_equal bytes_of) in E.
  rewrite !bytes_of_app in E. rewrite !app_assoc in E.
  apply (f_equal last) in E. rewrite !last_app in E. done.
Qed.

(** ** Properties *)

(** C17: the manager's maps stay consistent. From an empty manager, whatever
    documents are created, loaded, opened, closed, deleted and edited in whatever
    order, and whatever happens to the disk, as long as ids stay below the last one of
    32 bits: every listed document is a live object that carries the id and the title it
    is listed under; every open session is running, belongs to one id, and works on the
    very document object that is listed under it; and no id is given to two documents
    that are created, not even after the first was deleted: a later one is greater. *)
Theorem manager_consistent {J : Json} data_dir files a0 a m :
  rtc DmStep (a0, new_DocumentManager data_dir files) (a, m) ->
  dm_wf m
  /\ forall title owner id a1 m1 a2 m2 title' owner' id' a3 m3,
       dm_next_doc_id m + 1 < u32_mod -> create_document a m title owner = (id, a1, m1) ->
       rtc DmStep (a1, m1) (a2, m2) -> create_document a2 m2 title' owner' = (id', a3, m3) -> id < id'.
Proof.
  intros W%dm_wf_steps; [|apply dm_wf_new]. split; [done|].
  intros title owner id a1 m1 a2 m2 title' owner' id' a3 m3 Hb E1 Hs E2.
  pose proof (next_id_steps _ _ _ _ (dm_wf_create _ _ _ _ _ _ _ W Hb E1) Hs) as Hn.
  apply create_id in E1 as [-> E1], E2 as [-> _]. pose proof (wf_counter _ W).
  assert (dm_next_doc_id m +₃₂ 1 = dm_next_doc_id m + 1) by (unwrap; lia). lia.
Qed.

Lemma manager_consistent_witness :
  let '(id, a, m) := create_document ∅ (new_DocumentManager "data" ∅) "notes" 1 in
  let '(_, a', m') := delete_document a m id in
  let '(id', _, _) := create_document a' m' "again" 1 in
  dm_wf m' /\ id < id'.
Proof.
  destruct (create_document ∅ _ "notes" 1) as [[id a] m] eqn:E1. destruct (delete_document a m id) as [[r a'] m'] eqn:E2.
  destruct (create_document a' m' "again" 1) as [[id' a''] m''] eqn:E3.
  split.
  - refine (proj1 (manager_consistent (J := json_tree) "data" ∅ ∅ a' m' _)).
    eapply rtc_l; [by eapply dm_create|]. apply rtc_once. by eapply dm_delete.
  - refine (proj2 (manager_consistent (J := json_tree) "data" ∅ ∅ ∅ _ _) "notes"%string 1 id a m a' m' "again"%string 1 id' a'' m'' _ E1 _ E3);
      [done|decide_now|]. apply rtc_once. by eapply dm_delete.
Defined.

(** Creating a document gives it an id no loaded document has, an empty text,
    the title asked for and one owner, the creator, whatever rights there were for
    other documents. *)
Theorem create_document_spec a m title ownerId :
  dm_wf m -> is_u32 ownerId ->
  let '(id, a', m') := create_document a m title ownerId in
  dm_documents m !! id = None
  /\ get_role a' id ownerId = Some Owner
  /\ (forall d u, is_u32 d -> is_u32 u -> d <> id -> get_role a' d u = get_role a d u)
  /\ exists loc, get_document m' id = (Some loc, m')
     /\ hp_docs (dm_heap m') !! loc = Some (new_Document id title).
Proof.
  intros W Hu. unfold create_document. cbn. pose proof (wf_counter _ W).
  assert (is_u32 (dm_next_doc_id m)) by (unfold is_u32; lia).
  split_and!.
  - by apply fresh_doc_id.
  - rewrite get_role_grant by done. by rewrite bool_decide_true.
  - intros d u Hd Hu' Hne. rewrite get_role_grant by done. rewrite bool_decide_false; [done|]. by intros [? _].
  - exists (hp_next (dm_heap m)). unfold get_document, get_document_lookup. cbn.
    by rewrite !lookup_insert_eq.
Qed.

Lemma create_document_spec_witness :
  get_role (snd (fst (create_document ∅ (new_DocumentManager "data" ∅) "notes" 5))) 1 5 = Some Owner.
Proof.
  refine (proj1 (proj2 (create_document_spec ∅ (new_DocumentManager "data" ∅) "notes" 5 _ _)));
    [apply dm_wf_new|decide_now].
Defined.

(** A deleted document is gone: it cannot be loaded again, it has no session,
    nobody has a right to it, its cursors are forgotten, and the session that
    was open has been asked to stop. *)
Theorem delete_document_spec a m docId :
  let '(r, a', m') := delete_document a m docId in
  r = true /\ get_document m' docId = (None, m') /\ get_session m' docId = None
  /\ get_cursors m' docId = ∅
  /\ (forall u, is_u32 u -> is_u32 docId -> get_role a' docId u = None)
  /\ (forall loc o, dm_sessions m !! docId = Some loc -> hp_sessions (dm_heap m) !! loc = Some o ->
      hp_sessions (dm_heap m') !! loc = Some (request_stop o)).
Proof.
  rewrite delete_document_eq. cbn. split_and!.
  - done.
  - unfold get_document, get_document_lookup, load_from_disk_unlocked, exists_file. cbn. rewrite lookup_delete_eq.
    rewrite !lookup_remove_file, (bool_decide_true (doc_path _ _ = _)) by done.
    rewrite (bool_decide_false (meta_path _ _ = _)) by apply not_eq_sym, doc_path_ne_meta_path. done.
  - unfold get_session. cbn. apply remove_session_sessions.
  - unfold get_cursors. cbn. by rewrite lookup_delete_eq.
  - intros u Hu Hd. rewrite get_role_revoke_all by done. by rewrite bool_decide_true.
  - intros loc o El Ho. unfold remove_session. rewrite El. cbn. by rewrite lookup_alter_eq, Ho.
Qed.

(** Two callers that load a document at the same time get the same object: the
    second one to publish drops what it has read. *)
Theorem get_document_same_object m docId first second :
  let '(loc, m') := get_document_publish m docId first in
  get_document_publish m' docId second = (loc, m')
  /\ get_document m' docId = (Some loc, m').
Proof.
  unfold get_document_publish. destruct (dm_documents m !! docId) as [loc|] eqn:E.
  - rewrite E. split; [done|]. unfold get_document, get_document_lookup. by rewrite E.
  - cbn. rewrite lookup_insert_eq. split; [done|]. unfold get_document, get_document_lookup. cbn.
    by rewrite lookup_insert_eq.
Qed.

(** After a restart the ids start from 1 again and the rights are empty, so the
    first document created truncates the text that an earlier run saved under
    document 1, whatever the data directory held, if its files can be opened. *)
Theorem restart_overwrites_document data_dir files title ownerId :
  can_open files (doc_path data_dir 1) = true -> can_open files (meta_path data_dir 1) = true ->
  let '(id, _, m) := create_document ∅ (new_DocumentManager data_dir files) title ownerId in
  id = 1 /\ dm_files m !! doc_path data_dir 1 = Some ""%string
  /\ dm_files m !! meta_path data_dir 1 = Some title.
Proof.
  unfold create_document, save_meta, new_DocumentManager. cbn [dm_next_doc_id dm_files dm_data_dir dm_heap alloc_doc].
  intros H1 H2. split; [done|]. cbn.
  assert (can_open (write_file files (doc_path data_dir 1) "") (meta_path data_dir 1) = true) as H3
    by (unfold can_open; by rewrite denied_write_file).
  split; rewrite !lookup_write_file, H3, ?H1; cbn.
  - rewrite (bool_decide_false (meta_path _ _ = _)) by apply not_eq_sym, doc_path_ne_meta_path.
    by rewrite bool_decide_true.
  - by rewrite bool_decide_true.
Qed.
