(* ===== verification/TcpServer.v ===== *)
(** * The listening server (server/include/server/tcp_server.h,
    server/src/tcp_server.cpp)

    [ts_objects] are the session objects, by session id: they outlive their entry in
    [sessions_], which is [ts_sessions]. What the members of a session ask of its
    socket is collected with the session's id. *)
From S2P Require Import Prelude ByteString ClientSession.
Local Open Scope Z_scope.

Record TcpServer := mkTcpServer {
  ts_objects : gmap Z ClientSession;
  ts_sessions : gset Z;
  ts_next_session_id : Z;
  ts_open : bool;
}.
Definition new_TcpServer : TcpServer := mkTcpServer ∅ ∅ 1 true.

Abbreviation Outputs := (list (Z * CsOutput)).

(** The object behind a [shared_ptr<ClientSession>]. *)
Definition session_object (t : TcpServer) (sid : Z) : ClientSession :=
  match ts_objects t !! sid with Some s => s | None => new_ClientSession sid end.
Definition put_session (t : TcpServer) (sid : Z) (s : ClientSession) : TcpServer :=
  mkTcpServer (<[sid := s]> (ts_objects t)) (ts_sessions t) (ts_next_session_id t) (ts_open t).
(** A member function of a session. *)
Definition on_session (t : TcpServer) (sid : Z) (f : ClientSession -> ClientSession * list CsOutput)
    : TcpServer * Outputs :=
  let '(s, out) := f (session_object t sid) in (put_session t sid s, (fun o => (sid, o)) <$> out).

Definition session_send (t : TcpServer) (sid : Z) (payload : string) : TcpServer * Outputs :=
  on_session t sid (fun s => send s payload).

Definition stop (t : TcpServer) : TcpServer :=
  mkTcpServer (ts_objects t) (ts_sessions t) (ts_next_session_id t) false.

(** The completion of [async_accept]: the new session is entered before its first
    read is started. *)
Definition accept (t : TcpServer) (ec : bool) : TcpServer * Outputs :=
  if ec then (t, [])
  else
    let sid := ts_next_session_id t in
    let '(s, out) := start (new_ClientSession sid) in
    (mkTcpServer (<[sid := s]> (ts_objects t)) ({[sid]} ∪ ts_sessions t) (u64 (sid + 1)) (ts_open t),
     (fun o => (sid, o)) <$> out).

(** A map of sessions is iterated in no specified order; [elements] is one. *)
Definition all_sessions (t : TcpServer) : list Z := elements (ts_sessions t).

Definition send_each (t : TcpServer) (sids : list Z) (payload : string) : TcpServer * Outputs :=
  foldl (fun '(t, out) sid => let '(t, o) := session_send t sid payload in (t, out ++ o)) (t, []) sids.
Definition broadcast_all (t : TcpServer) (json_payload : string) : TcpServer * Outputs :=
  send_each t (all_sessions t) json_payload.

Definition find_session_by_user_id (t : TcpServer) (userId : Z) : option Z :=
  head (filter (fun sid => cs_authenticated (session_object t sid) = true
                           /\ cs_userId (session_object t sid) = userId) (all_sessions t)).

Definition remove_session (t : TcpServer) (session_id : Z) : TcpServer :=
  mkTcpServer (ts_objects t) (ts_sessions t ∖ {[session_id]}) (ts_next_session_id t) (ts_open t).

(** ** Lemmas *)

Lemma session_object_put t sid s sid' :
  session_object (put_session t sid s) sid' = if bool_decide (sid = sid') then s else session_object t sid'.
Proof.
  unfold session_object, put_session. cbn. rewrite lookup_insert.
  case_decide; case_bool_decide; done || congruence.
Qed.

(** The session found is registered, authenticated and the user's; none is found
    only when no registered session is. *)
Lemma find_session_by_user_id_spec t userId :
  match find_session_by_user_id t userId with
  | Some sid => sid ∈ ts_sessions t /\ cs_authenticated (session_object t sid) = true
                /\ cs_userId (session_object t sid) = userId
  | None => forall sid, sid ∈ ts_sessions t -> cs_authenticated (session_object t sid) = true ->
            cs_userId (session_object t sid) <> userId
  end.
Proof.
  unfold find_session_by_user_id, all_sessions.
  destruct (filter _ _) as [|sid l] eqn:E; cbn.
  - intros sid Hs Ha Hu. assert (sid ∈ @nil Z) as H; [|by apply elem_of_nil in H].
    rewrite <- E. apply list_elem_of_filter. split; [done|]. by apply elem_of_elements.
  - assert (sid ∈ sid :: l) as H by apply list_elem_of_here. rewrite <- E in H.
    apply list_elem_of_filter in H as [H1 H2]. by apply elem_of_elements in H2.
Qed.
