(* ===== verification/MessageHandler.v ===== *)
(** * The message handler (server/include/server/message_handler.h,
    server/src/message_handler.cpp)

    The handlers run in a state monad with one exception, [json::exception]: the
    state changes made before a throw stay. The state is everything the handler
    holds a reference to, with the outputs of the sessions' sockets in order. Log
    lines are not modelled. The random bytes of a new salt and the text of a caught
    exception are arguments. *)
From S2P Require Import Prelude ByteString Operation Document AccessControl AuthManager Json Protocol Codec.
From S2P Require Import ClientSession DocumentSession DocumentManager TcpServer Color.
Local Open Scope Z_scope.

Record Server := mkServer {
  sv_auth : AuthManager;
  sv_access : AccessControl;
  sv_docs : DocumentManager;
  sv_tcp : TcpServer;
  sv_out : Outputs;
}.

Definition with_auth (s : Server) (a : AuthManager) : Server :=
  mkServer a (sv_access s) (sv_docs s) (sv_tcp s) (sv_out s).
Definition with_access (s : Server) (a : AccessControl) : Server :=
  mkServer (sv_auth s) a (sv_docs s) (sv_tcp s) (sv_out s).
Definition with_docs (s : Server) (d : DocumentManager) : Server :=
  mkServer (sv_auth s) (sv_access s) d (sv_tcp s) (sv_out s).
Definition with_tcp (s : Server) (r : TcpServer * Outputs) : Server :=
  mkServer (sv_auth s) (sv_access s) (sv_docs s) (fst r) (sv_out s ++ snd r).

(** ** The monad *)

Definition M (A : Type) : Type := Server -> Server * option A.
#[export] Instance M_ret : MRet M := fun A x s => (s, Some x).
#[export] Instance M_bind : MBind M := fun A B k m s =>
  match m s with
  | (s, Some x) => k x s
  | (s, None) => (s, None)
  end.
Definition gets {A} (f : Server -> A) : M A := fun s => (s, Some (f s)).
Definition modify (f : Server -> Server) : M () := fun s => (f s, Some ()).
(** A value, or the exception. *)
Definition or_throw {A} (o : option A) : M A := fun s => (s, o).
(** [try { m } catch { h }]: [h] runs in the state [m] threw in. *)
Definition try_catch (m h : M ()) : M () := fun s =>
  match m s with
  | (s, Some x) => (s, Some x)
  | (s, None) => h s
  end.

Section Handlers.
Context {J : Json} (CC_SHA256 : string -> list Z).

(** [session->send(serialize(msg))] *)
Definition send_payload (sid : Z) (payload : string) : M () :=
  modify (fun s => with_tcp s (session_send (sv_tcp s) sid payload)).
Definition send_json (sid : Z) (j : json) : M () :=
  payload ← or_throw (serialize j); send_payload sid payload.

Definition session (sid : Z) : M ClientSession := gets (fun s => session_object (sv_tcp s) sid).
Definition update (sid : Z) (f : ClientSession -> ClientSession) : M () :=
  modify (fun s => with_tcp s (on_session (sv_tcp s) sid (fun c => (f c, [])))).

Definition send_error (sid : Z) (code message : string) : M () :=
  _ ← send_json sid (to_json_ErrorMsg (mkErrorMsg code message));
  if bool_decide (code = "invalid_message"%string) then
    c ← session sid;
    let '(count, c) := increment_error_count c in
    _ ← update sid (fun _ => c);
    if 3 <=? count then modify (fun s => with_tcp s (on_session (sv_tcp s) sid (fun c => (c, close))))
    else mret ()
  else mret ().

Definition check_auth (sid : Z) (type : MessageType) : M bool :=
  if bool_decide (type = MtAuthRequest) then mret true
  else
    c ← session sid;
    if negb (cs_authenticated c) then
      _ ← send_error sid "not_authenticated" "Authentication required"; mret false
    else mret true.

Definition handle_auth_request (sid : Z) (buf : list Z) (j : json) : M () :=
  msg ← or_throw (from_json_AuthRequestMsg j);
  if negb (bool_decide (arq_action msg = "login"%string))
     && negb (bool_decide (arq_action msg = "register"%string)) then
    send_error sid "invalid_message" "Invalid action"
  else
    result ←
      (if bool_decide (arq_action msg = "register"%string) then
         a ← gets sv_auth;
         let '(result, a) := register_user CC_SHA256 a buf (arq_username msg) (arq_password msg) in
         _ ← modify (fun s => with_auth s a); mret result
       else
         a ← gets sv_auth; mret (login CC_SHA256 a (arq_username msg) (arq_password msg)));
    if ar_success result then
      _ ← update sid (fun c => set_auth c (ar_userId result) (arq_username msg)
                                        (generate_color (ar_userId result)));
      send_json sid (to_json_AuthResponseMsg (mkAuthResponseMsg true (ar_userId result) ""))
    else
      let error := if bool_decide (ar_error result = "duplicate_username"%string)
                   then "username_taken"%string else ar_error result in
      send_json sid (to_json_AuthResponseMsg (mkAuthResponseMsg false 0 error)).

Definition handle_doc_list (sid : Z) : M () :=
  c ← session sid;
  items ← gets (fun s => list_documents (sv_access s) (sv_docs s) (cs_userId c));
  send_json sid (to_json_DocListResponseMsg (mkDocListResponseMsg items)).

Definition handle_doc_create (sid : Z) (j : json) : M () :=
  msg ← or_throw (from_json_DocCreateRequestMsg j);
  c ← session sid;
  s ← gets id;
  let '(docId, access, docs) := create_document (sv_access s) (sv_docs s) (dcq_title msg) (cs_userId c) in
  _ ← modify (fun s => with_docs (with_access s access) docs);
  send_json sid (to_json_DocCreateResponseMsg (mkDocCreateResponseMsg true docId)).

Definition join_failure (error : string) : DocJoinResponseMsg :=
  mkDocJoinResponseMsg false 0 "" "" 0 "" [] error.

(** The object a session command is put into the queue of. *)
Definition enqueue_to (loc : Z) (cmd : DocCommand) : M () :=
  modify (fun s => with_docs s (session_enqueue (sv_docs s) loc cmd)).

Definition handle_doc_join (sid : Z) (j : json) : M () :=
  msg ← or_throw (from_json_DocJoinRequestMsg j);
  c ← session sid;
  allowed ← gets (fun s => can_read (sv_access s) (djq_docId msg) (cs_userId c));
  if negb allowed then send_json sid (to_json_DocJoinResponseMsg (join_failure "access_denied"))
  else
    doc ← (fun s => let '(doc, docs) := get_document (sv_docs s) (djq_docId msg) in (with_docs s docs, Some doc));
    match doc with
    | None => send_json sid (to_json_DocJoinResponseMsg (join_failure "doc_not_found"))
    | Some doc =>
        doc_session ← (fun s => let '(loc, docs) := get_or_create_session (sv_docs s) (djq_docId msg) in
                                (with_docs s docs, Some loc));
        match doc_session with
        | None => send_json sid (to_json_DocJoinResponseMsg (join_failure "doc_not_found"))
        | Some loc =>
            role_str ← gets (fun s => role_to_string (sv_access s) (djq_docId msg) (cs_userId c));
            d ← gets (fun s => hp_docs (dm_heap (sv_docs s)) !! doc);
            let d := match d with Some d => d | None => new_Document 0 "" end in
            connected ← gets (fun s => match hp_sessions (dm_heap (sv_docs s)) !! loc with
                                       | Some o => connected_users (so_state o) | None => [] end);
            let users := (fun cu => mkUserInfo (cu_userId cu) (cu_username cu) (cu_color cu)) <$> connected in
            _ ← update sid (fun c => set_current_doc c (djq_docId msg));
            _ ← send_json sid (to_json_DocJoinResponseMsg
                  (mkDocJoinResponseMsg true (djq_docId msg) (doc_title d) (doc_content d) (doc_revision d)
                     role_str users ""));
            c ← session sid;
            enqueue_to loc (mkDocCommand CmdJoin no_operation (cs_userId c) (cs_username c) (cs_color c) sid)
        end
    end.

Definition handle_doc_leave (sid : Z) (j : json) : M () :=
  msg ← or_throw (from_json_DocLeaveRequestMsg j);
  c ← session sid;
  doc_session ← gets (fun s => get_session (sv_docs s) (dvq_docId msg));
  _ ← match doc_session with
      | Some loc => enqueue_to loc (mkDocCommand CmdLeave no_operation (cs_userId c) (cs_username c) "" 0)
      | None => mret ()
      end;
  _ ← update sid (fun c => set_current_doc c 0);
  send_json sid (to_json_DocLeaveResponseMsg (mkDocLeaveResponseMsg true)).

Definition handle_doc_delete (sid : Z) (j : json) : M () :=
  msg ← or_throw (from_json_DocDeleteRequestMsg j);
  c ← session sid;
  allowed ← gets (fun s => can_delete (sv_access s) (ddq_docId msg) (cs_userId c));
  if negb allowed then
    _ ← send_error sid "access_denied" "Only owner can delete documents";
    send_json sid (to_json_DocDeleteResponseMsg (mkDocDeleteResponseMsg false))
  else
    doc_session ← gets (fun s => get_session (sv_docs s) (ddq_docId msg));
    _ ← match doc_session with
        | Some loc => enqueue_to loc (mkDocCommand CmdDelete no_operation 0 "" "" 0)
        | None => mret ()
        end;
    _ ← modify (fun s => let '(_, access, docs) := delete_document (sv_access s) (sv_docs s) (ddq_docId msg) in
                         with_docs (with_access s access) docs);
    send_json sid (to_json_DocDeleteResponseMsg (mkDocDeleteResponseMsg true)).

(** The end of a successful share: the answer, and the notification of the target. *)
Definition share_done (sid docId : Z) (role : string) (target_id : Z) : M () :=
  _ ← send_json sid (to_json_DocShareResponseMsg (mkDocShareResponseMsg true));
  target_session ← gets (fun s => find_session_by_user_id (sv_tcp s) target_id);
  match target_session with
  | Some tid =>
      t ← session tid;
      if cs_currentDocId t =? docId then
        send_json tid (to_json_RoleChangedMsg (mkRoleChangedMsg docId role))
      else mret ()
  | None => mret ()
  end.

Definition handle_doc_share (sid : Z) (j : json) : M () :=
  msg ← or_throw (from_json_DocShareRequestMsg j);
  c ← session sid;
  allowed ← gets (fun s => can_share (sv_access s) (dsq_docId msg) (cs_userId c));
  if negb allowed then send_error sid "access_denied" "Only owner can manage access"
  else
    target ← gets (fun s => find_user_id (sv_auth s) (dsq_targetUsername msg));
    match target with
    | None => send_error sid "user_not_found" "Target user not found"
    | Some target_id =>
        if target_id =? cs_userId c then send_error sid "cannot_modify_own_role" "Cannot modify own role"
        else
          let role := dsq_role msg in
          let change (f : AccessControl -> AccessControl) : M () :=
            _ ← modify (fun s => with_access s (f (sv_access s)));
            share_done sid (dsq_docId msg) role target_id in
          if bool_decide (role = "none"%string) then change (fun a => revoke a (dsq_docId msg) target_id)
          else if bool_decide (role = "editor"%string) then change (fun a => grant a (dsq_docId msg) target_id Editor)
          else if bool_decide (role = "viewer"%string) then change (fun a => grant a (dsq_docId msg) target_id Viewer)
          else send_error sid "invalid_message" "Invalid role"
    end.

Definition handle_operation (sid : Z) (j : json) : M () :=
  msg ← or_throw (from_json_OperationMsg j);
  c ← session sid;
  if negb (cs_currentDocId c =? opm_docId msg) then
    send_error sid "not_in_document" "Not in this document"
  else
    allowed ← gets (fun s => can_edit (sv_access s) (opm_docId msg) (cs_userId c));
    if negb allowed then send_error sid "access_denied" "No edit permission"
    else if 1000 <? Z.of_nat (length (opm_ops msg)) then
      send_error sid "invalid_message" "Too many operations (max 1000)"
    else
      doc_session ← gets (fun s => get_session (sv_docs s) (opm_docId msg));
      match doc_session with
      | None => send_error sid "doc_not_found" "Document not active"
      | Some loc =>
          foldl (fun m op_entry =>
                   _ ← m; enqueue_to loc (command_of_entry (cs_userId c) (cs_username c) (opm_revision msg) op_entry))
                (mret ()) (opm_ops msg)
      end.

Definition handle_cursor_update (sid : Z) (j : json) : M () :=
  msg ← or_throw (from_json_CursorUpdateMsg j);
  c ← session sid;
  if negb (cs_currentDocId c =? cum_docId msg) then mret ()
  else
    doc_session ← gets (fun s => get_session (sv_docs s) (cum_docId msg));
    match doc_session with
    | None => mret ()
    | Some _ =>
        modify (fun s => with_docs s (update_cursor (sv_docs s) (cum_docId msg)
          (mkCursorState (cs_userId c) (cs_username c) (cs_color c) (cum_position msg)
                         (cum_selectionStart msg) (cum_selectionEnd msg))))
    end.

Definition dispatch (sid : Z) (buf : list Z) (type : MessageType) (j : json) : M () :=
  match type with
  | MtAuthRequest => handle_auth_request sid buf j
  | MtDocListRequest => handle_doc_list sid
  | MtDocCreateRequest => handle_doc_create sid j
  | MtDocJoinRequest => handle_doc_join sid j
  | MtDocLeaveRequest => handle_doc_leave sid j
  | MtDocDeleteRequest => handle_doc_delete sid j
  | MtDocShareRequest => handle_doc_share sid j
  | MtOperation => handle_operation sid j
  | MtCursorUpdate => handle_cursor_update sid j
  | MtUndoRequest | MtRedoRequest | MtSnapshotListRequest | MtSnapshotViewRequest
  | MtSnapshotRestoreRequest =>
      send_error sid "not_implemented" "This feature is not available in MVP"
  | _ => send_error sid "invalid_message" "Unknown message type"
  end.

Definition handle_message (sid : Z) (buf : list Z) (what json_payload : string) : M () :=
  match json_parse json_payload with
  | None => send_error sid "invalid_message" "Invalid JSON"
  | Some j =>
      match json_at j "type" with
      | Some t =>
          if negb (json_contains j "type") || negb (json_is_string t) then
            send_error sid "invalid_message" "Missing 'type' field"
          else
            type_str ← or_throw (get_string t);
            let type := parse_message_type type_str in
            authorised ← check_auth sid type;
            if negb authorised then mret ()
            else try_catch (dispatch sid buf type j)
                   (send_error sid "invalid_message" ("Malformed message: " +:+ what))
      | None => send_error sid "invalid_message" "Missing 'type' field"
      end
  end.
End Handlers.
