(* ===== verification/Server.v ===== *)
(** * The server as a whole (server/src/main.cpp)

    The callbacks that [main] wires together and the steps of the running server: a
    message handled for a session, a command taken by a document's thread, a
    connection accepted or lost, a write completed. A handler is one step here;
    [Interleaving] has it as a program of the critical sections it is made of. *)
From S2P Require Import Prelude ByteString Operation Document AccessControl AuthManager Json Frames Protocol Codec.
From S2P Require Import ClientSession DocumentSession DocumentManager TcpServer MessageHandler Color.
Local Open Scope Z_scope.

(** The disconnect callback of [main]. *)
Definition on_disconnect (sid : Z) (s : Server) : Server :=
  let c := session_object (sv_tcp s) sid in
  let s :=
    if 0 <? cs_currentDocId c then
      let docs := match get_session (sv_docs s) (cs_currentDocId c) with
                  | Some loc => session_enqueue (sv_docs s) loc
                      (mkDocCommand CmdLeave no_operation (cs_userId c) (cs_username c) "" 0)
                  | None => sv_docs s
                  end in
      with_docs s (remove_cursor docs (cs_currentDocId c) (cs_userId c))
    else s in
  with_tcp s (TcpServer.remove_session (sv_tcp s) sid, []).

(** A member function of a session whose outputs may call the disconnect callback. *)
Definition session_event (sid : Z) (f : ClientSession -> ClientSession * list CsOutput) (s : Server) : Server :=
  let '(t, out) := on_session (sv_tcp s) sid f in
  let s := with_tcp s (t, out) in
  foldl (fun s '(_, o) => match o with OnDisconnect => on_disconnect sid s | _ => s end) s out.

(** The payloads a document's thread sends. *)
Definition deliver_sends (s : Server) (sends : Sends) : Server :=
  foldl (fun s '(sid, payload) => with_tcp s (session_send (sv_tcp s) sid payload)) s sends.

Definition new_Server (data_dir : string) (files : Files) : Server :=
  mkServer new_AuthManager ∅ (new_DocumentManager data_dir files) new_TcpServer [].

Section Server.
Context {J : Json} (CC_SHA256 : string -> list Z).

(** The steps that handle no message. [io_disk]: another program, or the autosave thread,
    changes the files in any way, or which of them can be opened. *)
Inductive IoStep : Server -> Server -> Prop :=
| io_thread s loc docs sends :
    session_step (sv_docs s) loc = Some (docs, sends) -> IoStep s (deliver_sends (with_docs s docs) sends)
| io_accept s ec : IoStep s (with_tcp s (accept (sv_tcp s) ec))
| io_lost s sid : IoStep s (session_event sid disconnect s)
| io_header s sid ec h : IoStep s (session_event sid (fun c => on_header c ec h) s)
| io_body s sid ec body : IoStep s (session_event sid (fun c => on_body c ec body) s)
| io_written s sid ec : IoStep s (session_event sid (fun c => on_write c ec) s)
| io_disk s files : IoStep s (with_docs s (with_files (sv_docs s) files)).

Inductive SvStep : Server -> Server -> Prop :=
| sv_message s sid buf what payload :
    am_next_id (sv_auth s) + 1 < u32_mod -> dm_next_doc_id (sv_docs s) + 1 < u32_mod ->
    SvStep s (fst (handle_message CC_SHA256 sid buf what payload s))
| sv_io s s' : IoStep s s' -> SvStep s s'.

(** ** Invariant *)

(** The session is logged in as an existing account. *)
Definition identity_ok (a : AuthManager) (c : ClientSession) : Prop :=
  cs_authenticated c = true ->
  exists r, am_users a !! cs_username c = Some r /\ ur_id r = cs_userId c.

(** Rights exist for loaded documents only, and every loaded document has exactly
    one owner. *)
Definition owned (a : AccessControl) (documents : gmap Z Z) : Prop :=
  (forall d u, is_u32 d -> is_u32 u -> get_role a d u <> None -> is_Some (documents !! d))
  /\ (forall d, is_Some (documents !! d) -> is_u32 d /\
      exists u, is_u32 u /\ get_role a d u = Some Owner
      /\ forall u', is_u32 u' -> get_role a d u' = Some Owner -> u' = u).

Record sv_ok (s : Server) : Prop := mkSvOk {
  ok_auth : auth_wf (sv_auth s);
  ok_docs : dm_wf (sv_docs s);
  ok_identity sid : identity_ok (sv_auth s) (session_object (sv_tcp s) sid);
  ok_owned : owned (sv_access s) (dm_documents (sv_docs s));
}.
End Server.

(** ** Frames of the handlers

    [keeps R m]: whatever the outcome, [m] relates its states by [R]. *)
Definition keeps {A} (R : Server -> Server -> Prop) (m : M A) : Prop := forall s, R s (fst (m s)).

Lemma keeps_ret {A} R `{!Reflexive R} (x : A) : keeps R (mret x).
Proof. intros s. reflexivity. Qed.
Lemma keeps_gets {A} R `{!Reflexive R} (f : Server -> A) : keeps R (gets f).
Proof. intros s. reflexivity. Qed.
Lemma keeps_throw {A} R `{!Reflexive R} (o : option A) : keeps R (or_throw o).
Proof. intros s. reflexivity. Qed.
Lemma keeps_modify R f : (forall s, R s (f s)) -> keeps R (modify f).
Proof. intros H s. apply H. Qed.
Lemma keeps_bind {A B} R `{!Transitive R} (m : M A) (k : A -> M B) :
  keeps R m -> (forall x, keeps R (k x)) -> keeps R (m ≫= k).
Proof.
  intros Hm Hk s. unfold mbind, M_bind. specialize (Hm s). destruct (m s) as [s1 [x|]]; [|done].
  cbn in Hm. etrans; [exact Hm|]. apply Hk.
Qed.
Lemma keeps_try_catch R `{!Transitive R} m h : keeps R m -> keeps R h -> keeps R (try_catch m h).
Proof.
  intros Hm Hh s. unfold try_catch. specialize (Hm s). destruct (m s) as [s1 [x|]]; [done|].
  cbn in Hm. etrans; [exact Hm|]. apply Hh.
Qed.

(** Everything but the sockets, the error counts and the current documents of the
    sessions stays. *)
Definition same_identity (c c' : ClientSession) : Prop :=
  cs_authenticated c' = cs_authenticated c /\ cs_userId c' = cs_userId c /\ cs_username c' = cs_username c.
Record quiet (s s' : Server) : Prop := mkQuiet {
  quiet_auth : sv_auth s' = sv_auth s;
  quiet_access : sv_access s' = sv_access s;
  quiet_docs : sv_docs s' = sv_docs s;
  quiet_sessions sid : same_identity (session_object (sv_tcp s) sid) (session_object (sv_tcp s') sid);
}.

#[export] Instance quiet_refl : Reflexive quiet.
Proof. intros s. by split. Qed.
#[export] Instance quiet_trans : Transitive quiet.
Proof.
  intros s1 s2 s3 [A1 A2 A3 A4] [B1 B2 B3 B4]. split; try congruence.
  intros sid. destruct (A4 sid) as (E1 & E2 & E3), (B4 sid) as (F1 & F2 & F3). split_and!; congruence.
Qed.

Lemma quiet_on_session s sid f :
  (forall c, same_identity c (fst (f c))) -> quiet s (with_tcp s (on_session (sv_tcp s) sid f)).
Proof.
  intros Hf. split; try done. intros sid'. unfold on_session. specialize (Hf (session_object (sv_tcp s) sid)).
  destruct (f (session_object (sv_tcp s) sid)) as [c out]. cbn. rewrite session_object_put.
  case_bool_decide as E; [by subst|done].
Qed.

Lemma same_identity_send c payload : same_identity c (fst (ClientSession.send c payload)).
Proof.
  unfold ClientSession.send, do_write. destruct (cs_disconnected c); [done|]. cbn.
  destruct (cs_writing c); [done|]. cbn. by destruct (cs_write_queue c ++ _).
Qed.

Section Quiet.
Context {J : Json}.

Lemma quiet_send_json sid j : keeps quiet (send_json sid j).
Proof.
  apply keeps_bind; [apply _|apply keeps_throw, _|]. intros payload. apply keeps_modify. intros s.
  apply quiet_on_session. intros c. apply same_identity_send.
Qed.
Lemma quiet_update sid f : (forall c, same_identity c (f c)) -> keeps quiet (update sid f).
Proof. intros Hf. apply keeps_modify. intros s. by apply quiet_on_session. Qed.
Lemma quiet_send_error sid code message : keeps quiet (send_error sid code message).
Proof.
  apply keeps_bind; [apply _|apply quiet_send_json|]. intros _. case_bool_decide; [|apply keeps_ret, _].
  intros s. unfold mbind, M_bind, session, gets. cbn.
  set (c := session_object (sv_tcp s) sid). 
  assert (quiet s (fst (update sid (fun _ => snd (increment_error_count c)) s))) as Hu.
  { unfold update, modify. cbn [fst]. split; try done. intros sid'. cbn. rewrite session_object_put.
    case_bool_decide as E; [subst; done|done]. }
  destruct (3 <=? _); cbn; [|exact Hu]. etrans; [exact Hu|].
  match goal with |- quiet ?a _ => apply (quiet_on_session a sid (fun c => (c, close))) end. done.
Qed.
End Quiet.

(** ** The handlers keep the invariant *)

Lemma sv_ok_quiet s s' : quiet s s' -> sv_ok s -> sv_ok s'.
Proof.
  intros [Q1 Q2 Q3 Q4] [H1 H2 H3 H4]. split; rewrite ?Q1, ?Q2, ?Q3; try done.
  intros sid. destruct (Q4 sid) as (E1 & E2 & E3). unfold identity_ok. rewrite E1, E2, E3. apply H3.
Qed.

(** [stays m]: the invariant holds after [m], whatever its outcome. *)
Definition stays {A} (m : M A) : Prop := forall s, sv_ok s -> sv_ok (fst (m s)).
Lemma stays_quiet {A} (m : M A) : keeps quiet m -> stays m.
Proof. intros H s. apply sv_ok_quiet, H. Qed.
Lemma stays_bind {A B} (m : M A) (k : A -> M B) : stays m -> (forall x, stays (k x)) -> stays (m ≫= k).
Proof.
  intros Hm Hk s Hs. unfold mbind, M_bind. specialize (Hm s Hs). destruct (m s) as [s1 [x|]]; [|done].
  by apply Hk.
Qed.
Lemma stays_then {A B} (m : M A) (k : A -> M B) s :
  sv_ok (fst (m s)) -> (forall x, stays (k x)) -> sv_ok (fst ((m ≫= k) s)).
Proof. intros Hm Hk. unfold mbind, M_bind. destruct (m s) as [s1 [x|]]; [|done]. by apply Hk. Qed.

(** Reading the state and unpacking a value. *)
Lemma bind_gets {A B} (f : Server -> A) (k : A -> M B) s : (gets f ≫= k) s = k (f s) s.
Proof. done. Qed.
Lemma bind_session {B} sid (k : ClientSession -> M B) s :
  (session sid ≫= k) s = k (session_object (sv_tcp s) sid) s.
Proof. done. Qed.
Lemma bind_modify {B} f (k : () -> M B) s : (modify f ≫= k) s = k () (f s).
Proof. done. Qed.
Lemma bind_throw {A B} (o : option A) (k : A -> M B) s :
  (or_throw o ≫= k) s = match o with Some x => k x s | None => (s, None) end.
Proof. by destruct o. Qed.

(** A change of the manager alone that keeps its maps of documents. *)
Lemma sv_ok_docs s docs :
  sv_ok s -> dm_wf docs -> dm_documents docs = dm_documents (sv_docs s) -> sv_ok (with_docs s docs).
Proof. intros [H1 H2 H3 H4] W E. split; cbn; try done. by rewrite E. Qed.

Lemma sv_ok_enqueue s loc cmd : sv_ok s -> sv_ok (with_docs s (session_enqueue (sv_docs s) loc cmd)).
Proof. intros H. apply sv_ok_docs; [done|apply dm_wf_enqueue, H|done]. Qed.

Lemma stays_enqueue loc cmd : stays (enqueue_to loc cmd).
Proof. intros s Hs. by apply sv_ok_enqueue. Qed.

(** The owner of a loaded document. *)
Lemma owned_create a m title ownerId id a' m' :
  dm_wf m -> is_u32 ownerId -> dm_next_doc_id m + 1 < u32_mod ->
  owned a (dm_documents m) -> create_document a m title ownerId = (id, a', m') ->
  owned a' (dm_documents m').
Proof.
  intros W Hu Hn [H1 H2]. unfold create_document. cbn. intros [= <- <- <-]. cbn.
  pose proof (wf_counter _ W). pose proof (fresh_doc_id m W) as Hf.
  set (id := dm_next_doc_id m) in *. assert (is_u32 id) as Hid by (unfold is_u32; lia). split.
  - intros d u Hd Hu'. rewrite get_role_grant, lookup_insert by done.
    case_bool_decide as E; [destruct E as [<- _]; intros _; by rewrite decide_True|].
    intros Hr. case_decide; [done|]. by eapply H1.
  - intros d. rewrite lookup_insert. case_decide as E.
    + intros _. split; [by subst|]. exists ownerId. subst d. split; [done|].
      rewrite get_role_grant, bool_decide_true by done. split; [done|].
      intros u' Hu'. rewrite get_role_grant by done. case_bool_decide as E; [by destruct E|].
      intros Hr. destruct (H1 id u' Hid Hu') as [x Hx]; [by rewrite Hr|]. congruence.
    + intros Hd. destruct (H2 d Hd) as (Hd' & u & Hu1 & Hr & Honly). split; [done|]. exists u. split; [done|].
      rewrite get_role_grant, bool_decide_false by (done || by intros [? _]). split; [done|].
      intros u' Hu'. rewrite get_role_grant, bool_decide_false by (done || by intros [? _]). by apply Honly.
Qed.

Lemma owned_delete a m docId r a' m' :
  is_u32 docId -> owned a (dm_documents m) -> delete_document a m docId = (r, a', m') ->
  owned a' (dm_documents m').
Proof.
  intros Hd [H1 H2]. rewrite delete_document_eq. intros [= <- <- <-]. cbn.
  assert (dm_documents (DocumentManager.remove_session m docId) = dm_documents m) as ->
    by (unfold DocumentManager.remove_session; by destruct (dm_sessions m !! docId)). split.
  - intros d u Hd' Hu. rewrite get_role_revoke_all by done. case_bool_decide; [done|]. intros Hr.
    rewrite lookup_delete_ne by done. by eapply H1.
  - intros d [x Hx]. apply lookup_delete_Some in Hx as [Hne Hx].
    destruct (H2 d) as (Hd' & u & Hu1 & Hr & Honly); [by eexists|]. split; [done|]. exists u. split; [done|].
    rewrite get_role_revoke_all, bool_decide_false by done. split; [done|].
    intros u' Hu'. rewrite get_role_revoke_all, bool_decide_false by done. by apply Honly.
Qed.

(** Changing the rights of a user who is not the owner, other than by making it
    one. *)
Lemma owned_change a documents d target o a' :
  is_u32 d -> is_u32 target -> is_u32 o -> owned a documents -> get_role a d o = Some Owner -> target <> o ->
  (forall d' u', is_u32 d' -> is_u32 u' -> (d, target) <> (d', u') -> get_role a' d' u' = get_role a d' u') ->
  get_role a' d target <> Some Owner -> owned a' documents.
Proof.
  intros Hd Ht Ho [H1 H2] Hown Hne Hsame Hnot. split.
  - intros d' u' Hd' Hu' Hr. destruct (decide ((d, target) = (d', u'))) as [[= <- <-]|Hne'].
    + apply (H1 d o); [done..|]. by rewrite Hown.
    + rewrite Hsame in Hr by done. by apply (H1 d' u').
  - intros d' Hl. destruct (H2 d' Hl) as (Hd' & u & Hu1 & Hr & Honly). split; [done|].
    assert ((d, target) <> (d', u)) as Hne'.
    { intros [= <- <-]. apply Hne. symmetry. by apply Honly. }
    exists u. split; [done|]. split; [by rewrite Hsame|]. intros u' Hu' Hr'.
    apply Honly; [done|]. rewrite <- Hsame; [done..|]. by intros [= <- <-].
Qed.

Create HintDb stays.

Section Handlers.
Context {J : Json} {L : JsonLaws J} (CC_SHA256 : string -> list Z).

Lemma stays_send_json sid j : stays (send_json sid j).
Proof. apply stays_quiet, quiet_send_json. Qed.
Lemma stays_send_error sid code message : stays (send_error sid code message).
Proof. apply stays_quiet, quiet_send_error. Qed.
Lemma stays_update sid f : (forall c, same_identity c (f c)) -> stays (update sid f).
Proof. intros Hf. by apply stays_quiet, quiet_update. Qed.
Lemma stays_ret {A} (x : A) : stays (mret x).
Proof. by intros s. Qed.
Lemma stays_gets {A} (f : Server -> A) : stays (gets f).
Proof. by intros s. Qed.
Lemma stays_throw {A} (o : option A) : stays (or_throw o).
Proof. by intros s. Qed.
#[local] Hint Resolve stays_send_json stays_send_error stays_ret stays_gets stays_throw stays_enqueue stays_bind : stays.

(** The id of a logged-in user is a 32-bit id. *)
Lemma identity_u32 s sid :
  sv_ok s -> cs_authenticated (session_object (sv_tcp s) sid) = true ->
  is_u32 (cs_userId (session_object (sv_tcp s) sid)).
Proof.
  intros H Ha. destruct (ok_identity s H sid Ha) as (r & Hr & <-).
  destruct (ok_auth s H) as (Hn & Hu & _). destruct (Hu _ _ Hr) as (_ & _ & Hid). unfold is_u32. lia.
Qed.

Lemma stays_doc_list sid : stays (handle_doc_list sid).
Proof. apply stays_bind; [apply stays_gets|]. intros c. apply stays_bind; [apply stays_gets|]. auto with stays. Qed.

Lemma create_step s title u :
  sv_ok s -> is_u32 u -> dm_next_doc_id (sv_docs s) + 1 < u32_mod ->
  let '(_, access, docs) := create_document (sv_access s) (sv_docs s) title u in
  sv_ok (with_docs (with_access s access) docs).
Proof.
  intros H Hu Hn. destruct (create_document _ _ _ _) as [[id access] docs] eqn:E.
  split; cbn; try apply H.
  - by eapply dm_wf_create; [apply H| |exact E].
  - by eapply owned_create; [apply H|exact Hu|exact Hn|apply H|exact E].
Qed.

Lemma ok_doc_create s sid j :
  sv_ok s -> cs_authenticated (session_object (sv_tcp s) sid) = true ->
  dm_next_doc_id (sv_docs s) + 1 < u32_mod -> sv_ok (fst (handle_doc_create sid j s)).
Proof.
  intros H Ha Hn. unfold handle_doc_create. rewrite bind_throw.
  destruct (from_json_DocCreateRequestMsg j) as [msg|]; [|done]. rewrite bind_session, bind_gets. cbn [id].
  pose proof (create_step s (dcq_title msg) _ H (identity_u32 s sid H Ha) Hn) as S.
  unfold id. destruct (create_document _ _ _ _) as [[docId access] docs].
  rewrite bind_modify. by apply stays_send_json.
Qed.

Lemma ok_doc_join s sid j :
  sv_ok s -> cs_authenticated (session_object (sv_tcp s) sid) = true ->
  sv_ok (fst (handle_doc_join sid j s)).
Proof.
  intros H Ha. unfold handle_doc_join. rewrite bind_throw.
  destruct (from_json_DocJoinRequestMsg j) as [msg|] eqn:Em; [|done]. rewrite bind_session, bind_gets.
  set (c := session_object (sv_tcp s) sid) in *.
  destruct (can_read (sv_access s) (djq_docId msg) (cs_userId c)) eqn:Hr; cbn [negb]; [|by apply stays_send_json].
  assert (is_u32 (djq_docId msg)) as Hd.
  { unfold from_json_DocJoinRequestMsg in Em. apply bind_Some in Em as (n & Hn & [= <-]). by eapply at_get_uint32_range. }
  assert (is_Some (dm_documents (sv_docs s) !! djq_docId msg)) as [doc Hdoc].
  { eapply (proj1 (ok_owned s H)); [exact Hd|by eapply identity_u32|].
    unfold can_read in Hr. unfold get_role. by destruct (get_role_locked _ _ _). }
  eapply stays_then.
  { unfold get_document, get_document_lookup. rewrite Hdoc. cbn. apply sv_ok_docs; [done|apply H|done]. }
  intros [loc|]; [|apply stays_send_json]. apply stays_bind.
  { intros s1 H1. pose proof (dm_wf_open (sv_docs s1) (djq_docId msg) (ok_docs _ H1)) as W.
    pose proof (get_or_create_documents (sv_docs s1) (djq_docId msg)) as E.
    destruct (get_or_create_session (sv_docs s1) (djq_docId msg)) as [l docs]. by apply sv_ok_docs. }
  intros [l|]; [|apply stays_send_json].
  do 3 (apply stays_bind; [apply stays_gets|intros ?]).
  apply stays_bind; [by apply stays_update|intros _].
  apply stays_bind; [apply stays_send_json|intros _]. apply stays_bind; [apply stays_gets|intros ?].
  apply stays_enqueue.
Qed.

Lemma stays_doc_leave sid j : stays (handle_doc_leave sid j).
Proof.
  apply stays_bind; [apply stays_throw|intros msg]. apply stays_bind; [apply stays_gets|intros c].
  apply stays_bind; [apply stays_gets|intros [loc|]];
    (apply stays_bind; [auto with stays|intros _]; apply stays_bind; [by apply stays_update|intros _];
     apply stays_send_json).
Qed.

Lemma ok_doc_delete s sid j :
  sv_ok s -> sv_ok (fst (handle_doc_delete sid j s)).
Proof.
  intros H. unfold handle_doc_delete. rewrite bind_throw.
  destruct (from_json_DocDeleteRequestMsg j) as [msg|] eqn:Em; [|done]. rewrite bind_session, bind_gets.
  assert (is_u32 (ddq_docId msg)) as Hd.
  { unfold from_json_DocDeleteRequestMsg in Em. apply bind_Some in Em as (n & Hn & [= <-]). by eapply at_get_uint32_range. }
  destruct (negb _).
  - apply stays_then; [by apply stays_send_error|]. auto with stays.
  - rewrite bind_gets. apply stays_then.
    + destruct (get_session _ _); [by apply stays_enqueue|done].
    + intros _. apply stays_bind; [|intros _; apply stays_send_json]. intros s1 H1. unfold modify. cbn [fst].
      destruct (delete_document (sv_access s1) (sv_docs s1) (ddq_docId msg)) as [[r access] docs] eqn:E.
      split; cbn; try apply H1.
      * by eapply dm_wf_delete; [apply H1|exact E].
      * eapply owned_delete; [exact Hd|apply H1|exact E].
Qed.

Lemma stays_share_done sid docId role target : stays (share_done sid docId role target).
Proof.
  apply stays_bind; [apply stays_send_json|intros _]. apply stays_bind; [apply stays_gets|intros [tid|]];
    [|apply stays_ret].
  apply stays_bind; [apply stays_gets|intros t]. destruct (cs_currentDocId t =? docId); auto with stays.
Qed.

Lemma ok_rights s a' : sv_ok s -> owned a' (dm_documents (sv_docs s)) -> sv_ok (with_access s a').
Proof. intros [H1 H2 H3 H4] H. by split. Qed.

Lemma grant_change a d u r :
  is_u32 d -> is_u32 u -> r <> Owner ->
  (forall d' u', is_u32 d' -> is_u32 u' -> (d, u) <> (d', u') -> get_role (grant a d u r) d' u' = get_role a d' u')
  /\ get_role (grant a d u r) d u <> Some Owner.
Proof.
  intros Hd Hu Hr. split.
  - intros d' u' Hd' Hu' Hn'. rewrite get_role_grant, bool_decide_false by (done || by intros [-> ->]). done.
  - rewrite get_role_grant, bool_decide_true by done. congruence.
Qed.

Lemma ok_doc_share s sid j :
  sv_ok s -> cs_authenticated (session_object (sv_tcp s) sid) = true ->
  sv_ok (fst (handle_doc_share sid j s)).
Proof.
  intros H Ha. unfold handle_doc_share. rewrite bind_throw.
  destruct (from_json_DocShareRequestMsg j) as [msg|] eqn:Em; [|done]. rewrite bind_session, bind_gets.
  pose proof (identity_u32 s sid H Ha) as Hu. set (c := session_object (sv_tcp s) sid) in *.
  assert (is_u32 (dsq_docId msg)) as Hd.
  { unfold from_json_DocShareRequestMsg in Em. apply bind_Some in Em as (n & Hn & (? & _ & (? & _ & [= <-])%bind_Some)%bind_Some).
    by eapply at_get_uint32_range. }
  destruct (can_share (sv_access s) (dsq_docId msg) (cs_userId c)) eqn:Hs; cbn [negb]; [|by apply stays_send_error].
  rewrite bind_gets. destruct (find_user_id (sv_auth s) (dsq_targetUsername msg)) as [target|] eqn:Ht;
    [|by apply stays_send_error].
  destruct (Z.eqb_spec target (cs_userId c)) as [|Hne]; [by apply stays_send_error|].
  assert (is_u32 target) as Htu.
  { unfold find_user_id in Ht. destruct (am_users (sv_auth s) !! _) as [r|] eqn:Er; [|done]. injection Ht as <-.
    destruct (ok_auth s H) as (Hn & Hr & _). destruct (Hr _ _ Er) as (_ & _ & Hid). unfold is_u32. lia. }
  assert (get_role (sv_access s) (dsq_docId msg) (cs_userId c) = Some Owner) as Hown.
  { unfold can_share in Hs. unfold get_role. destruct (get_role_locked _ _ _) as [r|]; [|done].
    by apply bool_decide_eq_true in Hs as ->. }
  assert (forall a', (forall d' u', is_u32 d' -> is_u32 u' -> (dsq_docId msg, target) <> (d', u') ->
            get_role a' d' u' = get_role (sv_access s) d' u') ->
          get_role a' (dsq_docId msg) target <> Some Owner -> sv_ok (with_access s a')) as Hchange.
  { intros a' Hsame Hnot. apply ok_rights; [done|]. eapply owned_change; [exact Hd|exact Htu|exact Hu|apply H|done..]. }
  assert (forall f role, sv_ok (with_access s (f (sv_access s))) ->
    sv_ok (fst ((modify (fun s => with_access s (f (sv_access s))) ≫= fun _ => share_done sid (dsq_docId msg) role target) s)))
    as Hstays by (intros f role Hf; apply stays_then; [exact Hf|intros _; apply stays_share_done]).
  case_bool_decide; [|case_bool_decide; [|case_bool_decide; [|by apply stays_send_error]]].
  - apply (Hstays (fun a => revoke a (dsq_docId msg) target)), Hchange.
    + intros d' u' Hd' Hu' Hn'. rewrite get_role_revoke, bool_decide_false; [done| |done..].
      intros [E1 E2]. apply Hn'. congruence.
    + rewrite get_role_revoke, bool_decide_true by done. done.
  - apply (Hstays (fun a => grant a (dsq_docId msg) target Editor));
    destruct (grant_change (sv_access s) _ _ Editor Hd Htu) as [G1 G2]; [done|]. by apply Hchange.
  - apply (Hstays (fun a => grant a (dsq_docId msg) target Viewer));
    destruct (grant_change (sv_access s) _ _ Viewer Hd Htu) as [G1 G2]; [done|]. by apply Hchange.
Qed.

Lemma stays_enqueue_all {A} loc (f : A -> DocCommand) (l : list A) (m : M ()) :
  stays m -> stays (foldl (fun m x => _ ← m; enqueue_to loc (f x)) m l).
Proof.
  revert m. induction l as [|x l IH]; intros m Hm; [done|]. cbn. apply IH.
  apply stays_bind; [done|]. auto with stays.
Qed.

Lemma stays_operation sid j : stays (handle_operation sid j).
Proof.
  apply stays_bind; [apply stays_throw|intros msg]. apply stays_bind; [apply stays_gets|intros c].
  destruct (negb _); [apply stays_send_error|]. apply stays_bind; [apply stays_gets|intros allowed].
  destruct (negb allowed); [apply stays_send_error|]. destruct (1000 <? _); [apply stays_send_error|].
  apply stays_bind; [apply stays_gets|intros [loc|]]; [|apply stays_send_error].
  apply stays_enqueue_all, stays_ret.
Qed.

Lemma stays_cursor_update sid j : stays (handle_cursor_update sid j).
Proof.
  apply stays_bind; [apply stays_throw|intros msg]. apply stays_bind; [apply stays_gets|intros c].
  destruct (negb _); [apply stays_ret|]. apply stays_bind; [apply stays_gets|intros [loc|]]; [|apply stays_ret].
  intros s H. apply sv_ok_docs; [done| |done]. split; apply H.
Qed.

(** A registration or a login: the session takes the identity of the account. *)
Lemma ok_set_auth s sid u n color r :
  sv_ok s -> am_users (sv_auth s) !! n = Some r -> ur_id r = u ->
  sv_ok (fst (update sid (fun c => set_auth c u n color) s)).
Proof.
  intros [H1 H2 H3 H4] Hr Hu. split; try done. intros sid'. cbn. rewrite session_object_put.
  case_bool_decide; [|apply H3]. intros _. cbn. by exists r.
Qed.

Lemma ok_register s a' buf n p :
  sv_ok s -> am_next_id (sv_auth s) + 1 < u32_mod ->
  a' = snd (register_user CC_SHA256 (sv_auth s) buf n p) -> sv_ok (with_auth s a').
Proof.
  intros [H1 H2 H3 H4] Hn ->. split; try done.
  - eapply auth_wf_step; [exact H1|]. by apply (auth_register CC_SHA256).
  - intros sid Ha. destruct (H3 sid Ha) as (r & Hr & Hid). exists r. split; [|done]. cbn.
    destruct (register_user_cases CC_SHA256 (sv_auth s) buf n p) as [[e ->]|(_ & _ & Hnone & ->)]; [done|].
    cbn. rewrite lookup_insert_ne; [done|]. intros ->. congruence.
Qed.

Lemma register_success a buf n p :
  ar_success (fst (register_user CC_SHA256 a buf n p)) = true ->
  exists r, am_users (snd (register_user CC_SHA256 a buf n p)) !! n = Some r
  /\ ur_id r = ar_userId (fst (register_user CC_SHA256 a buf n p)).
Proof.
  destruct (register_user_cases CC_SHA256 a buf n p) as [[e ->]|(_ & _ & _ & ->)]; [done|].
  intros _. cbn. rewrite lookup_insert_eq. by eexists.
Qed.

Lemma login_success a n p :
  ar_success (login CC_SHA256 a n p) = true ->
  exists r, am_users a !! n = Some r /\ ur_id r = ar_userId (login CC_SHA256 a n p).
Proof.
  unfold login. destruct (am_users a !! n) as [r|]; [|done]. destruct (verify_password _ _ _ _); [|done]. eauto.
Qed.

Lemma ok_auth_request s sid buf j :
  sv_ok s -> am_next_id (sv_auth s) + 1 < u32_mod ->
  sv_ok (fst (handle_auth_request CC_SHA256 sid buf j s)).
Proof.
  intros H Hn. unfold handle_auth_request. rewrite bind_throw.
  destruct (from_json_AuthRequestMsg j) as [msg|]; [|done].
  destruct (_ && _); [by apply stays_send_error|].
  set (action := bool_decide (arq_action msg = "register"%string)).
  set (read := if action then _ else _).
  assert (exists result s', read s = (s', Some result) /\ sv_ok s' /\
    (ar_success result = true -> exists r, am_users (sv_auth s') !! arq_username msg = Some r
       /\ ur_id r = ar_userId result)) as (result & s' & E & H' & Hres).
  { subst read. destruct action; rewrite bind_gets.
    - destruct (register_user CC_SHA256 (sv_auth s) buf (arq_username msg) (arq_password msg)) as [result a'] eqn:E.
      rewrite bind_modify. exists result, (with_auth s a'). split; [done|]. split.
      + eapply ok_register; [exact H|exact Hn|]. by rewrite E.
      + pose proof (register_success (sv_auth s) buf (arq_username msg) (arq_password msg)) as R. by rewrite E in R.
    - eexists _, s. split; [done|]. split; [exact H|]. apply login_success. }
  unfold mbind, M_bind. rewrite E. destruct (ar_success result); [|by apply stays_send_json].
  destruct (Hres eq_refl) as (r & Hr & Hid).
  apply (stays_then (update sid (fun c => set_auth c (ar_userId result) (arq_username msg)
                                           (generate_color (ar_userId result))))).
  - by eapply ok_set_auth.
  - intros _. apply stays_send_json.
Qed.

(** ** Every step keeps the invariant *)

Lemma ok_handle_message s sid buf what payload :
  sv_ok s -> am_next_id (sv_auth s) + 1 < u32_mod -> dm_next_doc_id (sv_docs s) + 1 < u32_mod ->
  sv_ok (fst (handle_message CC_SHA256 sid buf what payload s)).
Proof.
  intros H Hn Hd. unfold handle_message. destruct (json_parse payload) as [j|]; [|by apply stays_send_error].
  destruct (json_at j "type") as [t|]; [|by apply stays_send_error].
  destruct (_ || _); [by apply stays_send_error|]. rewrite bind_throw.
  destruct (get_string t) as [type_str|]; [|done]. set (type := parse_message_type type_str).
  assert (forall s, sv_ok s -> am_next_id (sv_auth s) + 1 < u32_mod -> dm_next_doc_id (sv_docs s) + 1 < u32_mod ->
    type = MtAuthRequest \/ cs_authenticated (session_object (sv_tcp s) sid) = true ->
    sv_ok (fst (try_catch (dispatch CC_SHA256 sid buf type j)
      (send_error sid "invalid_message" ("Malformed message: " +:+ what)) s))) as Hdisp.
  { clear s H Hn Hd. intros s H Hn Hd Ha. unfold try_catch.
    assert (sv_ok (fst (dispatch CC_SHA256 sid buf type j s))) as Hs.
    { unfold dispatch. destruct type; try (by apply stays_send_error);
        try (by apply ok_auth_request); destruct Ha as [Ha|Ha]; try discriminate Ha;
        auto using ok_doc_create, ok_doc_join, ok_doc_delete, ok_doc_share, stays_doc_list,
          stays_doc_leave, stays_operation, stays_cursor_update.
      all: (by apply stays_doc_list) || (by apply stays_doc_leave) || (by apply stays_operation)
           || by apply stays_cursor_update. }
    destruct (dispatch _ _ _ _ _ s) as [s1 [x|]]; [done|]. by apply stays_send_error. }
  unfold check_auth. case_bool_decide as Ht.
  - unfold mbind, M_bind, mret, M_ret. cbn. apply Hdisp; auto.
  - unfold mbind at 1, M_bind at 1. rewrite bind_session.
    destruct (cs_authenticated (session_object (sv_tcp s) sid)) eqn:Ha; cbn [negb].
    + cbn. apply Hdisp; auto.
    + pose proof (stays_send_error sid "not_authenticated" "Authentication required" s H) as He.
      unfold mbind, M_bind. destruct (send_error _ _ _ s) as [s1 [x|]]; done.
Qed.
End Handlers.

Lemma ok_with_tcp s r :
  sv_ok s -> (forall sid, identity_ok (sv_auth s) (session_object (fst r) sid)) -> sv_ok (with_tcp s r).
Proof. intros [H1 H2 H3 H4] H. by split. Qed.

Lemma ok_on_session s sid f :
  (forall c, same_identity c (fst (f c))) -> sv_ok s -> sv_ok (with_tcp s (on_session (sv_tcp s) sid f)).
Proof. intros Hf. by apply sv_ok_quiet, quiet_on_session. Qed.

Lemma ok_deliver_sends s sends : sv_ok s -> sv_ok (deliver_sends s sends).
Proof.
  unfold deliver_sends. revert s. induction sends as [|[sid payload] sends IH]; intros s H; [done|]. cbn. apply IH.
  apply ok_on_session; [|done]. intros c. apply same_identity_send.
Qed.

Lemma dm_wf_uncursor m docId userId : dm_wf m -> dm_wf (remove_cursor m docId userId).
Proof. intros W. unfold remove_cursor. destruct (dm_cursor_buffers m !! docId); [split; apply W|done]. Qed.

Lemma ok_on_disconnect sid s : sv_ok s -> sv_ok (on_disconnect sid s).
Proof.
  intros H. unfold on_disconnect. apply ok_with_tcp.
  - destruct (0 <? _); [|done]. apply sv_ok_docs; [done| |].
    + apply dm_wf_uncursor. destruct (get_session _ _); [apply dm_wf_enqueue|]; apply H.
    + unfold remove_cursor. destruct (get_session _ _); cbn; by case_match.
  - intros sid'. destruct (0 <? _); apply H.
Qed.

Lemma ok_session_event sid f s :
  (forall c, same_identity c (fst (f c))) -> sv_ok s -> sv_ok (session_event sid f s).
Proof.
  intros Hf H. unfold session_event. pose proof (ok_on_session s sid f Hf H) as H1.
  destruct (on_session (sv_tcp s) sid f) as [t out]. set (s1 := with_tcp s (t, out)) in *. clearbody s1.
  revert s1 H1. induction out as [|[q o] out IH]; intros s1 H1; [done|]. cbn. apply IH.
  destruct o; try done. by apply ok_on_disconnect.
Qed.

Lemma same_identity_disconnect c : same_identity c (fst (disconnect c)).
Proof. done. Qed.
Lemma same_identity_header c ec h : same_identity c (fst (on_header c ec h)).
Proof. unfold on_header. destruct ec; [done|]. by destruct (decode_frame_header h). Qed.
Lemma same_identity_written c ec : same_identity c (fst (on_write c ec)).
Proof.
  unfold on_write. destruct ec; [done|]. unfold do_write. by destruct (tail (cs_write_queue c)).
Qed.

Lemma ok_new data_dir files : sv_ok (new_Server data_dir files).
Proof.
  split.
  - apply auth_wf_new.
  - apply dm_wf_new.
  - intros sid. unfold session_object. cbn. by rewrite lookup_empty.
  - split.
    + intros d u _ _. unfold get_role, get_role_locked. cbn. by rewrite lookup_empty.
    + intros d [x Hx]. cbn in Hx. by rewrite lookup_empty in Hx.
Qed.

Section Properties.
Context {J : Json} {L : JsonLaws J} (CC_SHA256 : string -> list Z).

Lemma ok_io s s' : IoStep s s' -> sv_ok s -> sv_ok s'.
Proof.
  intros St H. destruct St as [s loc docs sends Hs|s ec|s sid|s sid ec h|s sid ec body|s sid ec|s files].
  - apply ok_deliver_sends. assert (dm_documents docs = dm_documents (sv_docs s)) as E.
    { unfold session_step in Hs.
      destruct (hp_sessions _ !! loc) as [[doc [[|cmd q] users] stop]|]; try (by injection Hs as <- _).
      destruct (hp_docs _ !! doc) as [d|]; [|by injection Hs as <- _].
      by apply bind_Some in Hs as ([[d' s'] o] & _ & [= <- _]). }
    apply sv_ok_docs; [done| |done]. eapply dm_wf_thread; [apply H|exact Hs].
  - apply ok_with_tcp; [done|]. intros sid. unfold accept. destruct ec; [apply H|]. cbn.
    unfold session_object. cbn. rewrite lookup_insert. case_decide; [done|]. apply (ok_identity _ H).
  - apply ok_session_event; [|done]. intros c. apply same_identity_disconnect.
  - apply ok_session_event; [|done]. intros c. apply same_identity_header.
  - apply ok_session_event; [|done]. intros c. by destruct ec.
  - apply ok_session_event; [|done]. intros c. apply same_identity_written.
  - apply sv_ok_docs; [done| |done]. destruct H as [_ [] _ _]. by split.
Qed.

Lemma ok_step s s' : SvStep CC_SHA256 s s' -> sv_ok s -> sv_ok s'.
Proof. intros [s0 sid buf what payload Hn Hd|s0 s1 Hio] H; [by apply ok_handle_message|by eapply ok_io]. Qed.

Lemma ok_steps data_dir files s :
  rtc (SvStep CC_SHA256) (new_Server data_dir files) s -> sv_ok s.
Proof.
  intros Hs. refine (rtc_preserved _ _ _ _ _ Hs (ok_new data_dir files)).
  intros s1 s2 H St. by eapply ok_step.
Qed.

(** ** Properties *)

(** C10: the server's security invariant, when handlers do not overlap. In every state the
    server reaches from an empty one by whole handlers, one after the other, for whatever
    messages its sessions send, while ids of users and documents are left; between the
    handlers connections come, go and are written to and document threads take commands in
    any order. Then a session that counts as logged in carries the id and the name of one
    existing account; a right exists only for a loaded document; and every loaded document
    has exactly one owner. (What remains of it when handlers interleave at their locks is
    [Concurrency.concurrent_invariant]; there a document can lose its owner or a right
    outlive its document.) *)
Theorem server_invariant data_dir files s :
  rtc (SvStep CC_SHA256) (new_Server data_dir files) s ->
  (forall sid, let c := session_object (sv_tcp s) sid in cs_authenticated c = true ->
     find_user_id (sv_auth s) (cs_username c) = Some (cs_userId c))
  /\ (forall d u, is_u32 d -> is_u32 u -> get_role (sv_access s) d u <> None ->
     is_Some (dm_documents (sv_docs s) !! d))
  /\ (forall d, is_Some (dm_documents (sv_docs s) !! d) ->
     exists u, is_u32 u /\ get_role (sv_access s) d u = Some Owner
     /\ forall u', is_u32 u' -> get_role (sv_access s) d u' = Some Owner -> u' = u).
Proof.
  intros H%ok_steps. destruct (ok_owned s H) as [H1 H2]. split_and!.
  - intros sid c Ha. destruct (ok_identity s H sid Ha) as (r & Hr & Hid). fold c in Hr, Hid.
    unfold find_user_id. by rewrite Hr, Hid.
  - exact H1.
  - intros d Hd. by destruct (H2 d Hd).
Qed.

(** No document of an earlier run is ever opened. The rights start empty and are
    handed out for documents created in this run only, so that whoever may read a
    document finds it loaded: the file of a saved document is never read. *)
Theorem saved_documents_unreachable data_dir files s d u :
  rtc (SvStep CC_SHA256) (new_Server data_dir files) s ->
  is_u32 d -> is_u32 u -> can_read (sv_access s) d u = true ->
  exists loc, get_document_lookup (sv_docs s) d = Some loc
  /\ get_document (sv_docs s) d = (Some loc, sv_docs s).
Proof.
  intros H%ok_steps Hd Hu Hr. destruct (proj1 (ok_owned s H) d u Hd Hu) as [loc Hl].
  - unfold can_read in Hr. unfold get_role. by destruct (get_role_locked _ _ _).
  - exists loc. unfold get_document, get_document_lookup. by rewrite Hl.
Qed.

(** The relations that say what a message does not touch. *)
Definition same_docs (s s' : Server) : Prop := sv_access s' = sv_access s /\ sv_docs s' = sv_docs s.
Definition only_session (sid : Z) (s s' : Server) : Prop :=
  same_docs s s' /\ forall q, q <> sid -> same_identity (session_object (sv_tcp s) q) (session_object (sv_tcp s') q).
#[local] Instance only_session_refl sid : Reflexive (only_session sid).
Proof. by split. Qed.
#[local] Instance only_session_trans sid : Transitive (only_session sid).
Proof.
  intros s1 s2 s3 [[A1 A2] A3] [[B1 B2] B3]. split; [split; congruence|]. intros q Hq.
  destruct (A3 q Hq) as (E1 & E2 & E3), (B3 q Hq) as (F1 & F2 & F3). split_and!; congruence.
Qed.
Lemma quiet_only_session sid s s' : quiet s s' -> only_session sid s s'.
Proof. intros [Q1 Q2 Q3 Q4]. split; [by split|]. auto. Qed.
Lemma keeps_weaken {A} (R R' : Server -> Server -> Prop) (m : M A) :
  (forall s s', R s s' -> R' s s') -> keeps R m -> keeps R' m.
Proof. intros H Hm s. apply H, Hm. Qed.
Lemma only_send_error q sid code message : keeps (only_session q) (send_error sid code message).
Proof. eapply keeps_weaken; [apply quiet_only_session|apply quiet_send_error]. Qed.
Lemma only_send_json q sid j : keeps (only_session q) (send_json sid j).
Proof. eapply keeps_weaken; [apply quiet_only_session|apply quiet_send_json]. Qed.

Lemma only_auth_request sid buf j :
  keeps (only_session sid) (handle_auth_request CC_SHA256 sid buf j).
Proof.
  apply keeps_bind; [apply _|apply keeps_throw, _|intros msg].
  destruct (_ && _); [apply only_send_error|]. apply keeps_bind; [apply _| |intros result].
  - case_bool_decide; apply keeps_bind; try apply _; try (apply keeps_gets, _); intros a; [|apply keeps_ret, _].
    destruct (register_user _ _ _ _ _) as [r a']. apply keeps_bind; [apply _| |intros _; apply keeps_ret, _].
    apply keeps_modify. intros s. by split.
  - destruct (ar_success result); [|apply only_send_json]. apply keeps_bind; [apply _| |intros _; apply only_send_json].
    apply keeps_modify. intros s. split; [by split|]. intros q Hq. cbn. rewrite session_object_put.
    by rewrite bool_decide_false by congruence.
Qed.

(** C19: without a login nothing can be done. Whatever payload a session that is not
    logged in sends, no right, no document, no document session and no other
    session's identity changes. *)
Theorem unauthenticated_is_harmless sid buf what payload s :
  cs_authenticated (session_object (sv_tcp s) sid) = false ->
  let s' := fst (handle_message CC_SHA256 sid buf what payload s) in
  sv_access s' = sv_access s /\ sv_docs s' = sv_docs s
  /\ forall q, q <> sid -> same_identity (session_object (sv_tcp s) q) (session_object (sv_tcp s') q).
Proof.
  intros Ha s'. assert (only_session sid s s') as [[H1 H2] H3]; [|done]. subst s'. unfold handle_message.
  destruct (json_parse payload) as [j|]; [|apply only_send_error].
  destruct (json_at j "type") as [t|]; [|apply only_send_error].
  destruct (_ || _); [apply only_send_error|]. rewrite bind_throw.
  destruct (get_string t) as [type_str|]; [|done]. unfold check_auth. case_bool_decide as Ht.
  - rewrite Ht. unfold mbind, M_bind, mret, M_ret. cbn [fst negb].
    apply (keeps_try_catch (only_session sid)); [apply only_auth_request|apply only_send_error].
  - unfold mbind at 1, M_bind at 1. rewrite bind_session, Ha. cbn [negb].
    pose proof (only_send_error sid sid "not_authenticated" "Authentication required" s) as He.
    unfold mbind, M_bind. by destruct (send_error _ _ _ s) as [s1 [x|]].
Qed.

Lemma enqueue_all_spec {A} loc (f : A -> DocCommand) (l : list A) s :
  foldl (fun m x => _ ← m; enqueue_to loc (f x)) (mret ()) l s
  = (with_docs s (foldl (fun d x => session_enqueue d loc (f x)) (sv_docs s) l), Some ()).
Proof.
  assert (forall m d, m s = (with_docs s d, Some ()) ->
    foldl (fun m x => _ ← m; enqueue_to loc (f x)) m l s
    = (with_docs s (foldl (fun d x => session_enqueue d loc (f x)) d l), Some ())) as H.
  { induction l as [|x l IH]; intros m d Hm; [done|]. cbn. apply IH. unfold mbind, M_bind. by rewrite Hm. }
  apply H. by destruct s.
Qed.

(** C18: who may edit. An operation message reaches a document only from a session
    that has this document open, whose user may edit it, with at most 1000 entries
    and while the document is active; then its entries are queued in order as
    commands of that user, and nothing else changes. In every other case no
    document and no queue changes. *)
Theorem operation_message_spec sid j msg s :
  from_json_OperationMsg j = Some msg ->
  let c := session_object (sv_tcp s) sid in
  let s' := fst (handle_operation sid j s) in
  match get_session (sv_docs s) (opm_docId msg) with
  | Some loc =>
      if bool_decide (cs_currentDocId c = opm_docId msg)
         && can_edit (sv_access s) (opm_docId msg) (cs_userId c)
         && (Z.of_nat (length (opm_ops msg)) <=? 1000)
      then s' = with_docs s (foldl (fun d e => session_enqueue d loc
             (command_of_entry (cs_userId c) (cs_username c) (opm_revision msg) e)) (sv_docs s) (opm_ops msg))
      else quiet s s'
  | None => quiet s s'
  end.
Proof.
  intros Em c s'. subst s'. unfold handle_operation. rewrite Em, bind_throw, bind_session. fold c.
  destruct (Z.eqb_spec (cs_currentDocId c) (opm_docId msg)) as [E|E]; cbn [negb].
  - rewrite bind_gets. destruct (can_edit _ _ _); cbn [negb].
    + destruct (Z.ltb_spec 1000 (Z.of_nat (length (opm_ops msg)))).
      * rewrite (proj2 (Z.leb_gt _ _)), andb_false_r by lia. by case_match; apply quiet_send_error.
      * rewrite bind_gets, bool_decide_true, (proj2 (Z.leb_le _ _)) by done. cbn.
        destruct (get_session _ _) as [loc|]; [|apply quiet_send_error].
        by rewrite (enqueue_all_spec loc).
    + rewrite andb_false_r. by case_match; apply quiet_send_error.
  - rewrite bool_decide_false by done. by case_match; apply quiet_send_error.
Qed.

(** Taking away a right does not end a connection. A share message changes no
    document session and no queue: a user whose role is set to none stays
    connected and keeps receiving every broadcast of the document. *)
Theorem share_leaves_connections sid j s :
  sv_docs (fst (handle_doc_share sid j s)) = sv_docs s.
Proof.
  set (R := fun s s' => sv_docs s' = sv_docs s).
  assert (Reflexive R) by done. assert (Transitive R) by (intros x y z; unfold R; congruence).
  assert (forall q x, keeps R (send_json q x)) as Hj
    by (intros; eapply keeps_weaken; [|apply quiet_send_json]; by intros ?? []).
  assert (forall q x y, keeps R (send_error q x y)) as He
    by (intros; eapply keeps_weaken; [|apply quiet_send_error]; by intros ?? []).
  assert (forall d r t, keeps R (share_done sid d r t)) as Hd.
  { intros d r t. apply keeps_bind; [done|apply Hj|intros _]. apply keeps_bind; [done|by apply keeps_gets|].
    intros [q|]; [|by apply keeps_ret]. apply keeps_bind; [done|by apply keeps_gets|intros c].
    destruct (_ =? _); [apply Hj|by apply keeps_ret]. }
  assert (forall f d r t, keeps R (modify (fun s => with_access s (f (sv_access s))) ≫= fun _ => share_done sid d r t)) as Hm.
  { intros f d r t. apply keeps_bind; [done|by apply keeps_modify|intros _; apply Hd]. }
  revert s. change (keeps R (handle_doc_share sid j)).
  apply keeps_bind; [done|by apply keeps_throw|intros msg]. apply keeps_bind; [done|by apply keeps_gets|intros c].
  apply keeps_bind; [done|by apply keeps_gets|intros allowed]. destruct (negb allowed); [apply He|].
  apply keeps_bind; [done|by apply keeps_gets|intros [t|]]; [|apply He].
  destruct (_ =? _); [apply He|]. cbv zeta.
  case_bool_decide; [apply (Hm (fun a => revoke a (dsq_docId msg) t))|].
  case_bool_decide; [apply (Hm (fun a => grant a (dsq_docId msg) t Editor))|].
  case_bool_decide; [apply (Hm (fun a => grant a (dsq_docId msg) t Viewer))|apply He].
Qed.

Lemma cs_error_count_send c payload :
  cs_error_count (fst (ClientSession.send c payload)) = cs_error_count c.
Proof.
  unfold ClientSession.send, do_write. destruct (cs_disconnected c); [done|]. cbn.
  destruct (cs_writing c); [done|]. cbn. by destruct (cs_write_queue c ++ _).
Qed.
Lemma send_never_closes c payload : SocketClose ∉ snd (ClientSession.send c payload).
Proof.
  unfold ClientSession.send, do_write. destruct (cs_disconnected c); [apply not_elem_of_nil|]. cbn.
  destruct (cs_writing c); [apply not_elem_of_nil|]. cbn.
  destruct (cs_write_queue c ++ _); [apply not_elem_of_nil|]. cbn. by intros H%list_elem_of_singleton.
Qed.

(** Three malformed messages end a connection. A payload that is not JSON is
    answered with an error and counted; the connection is closed when the count
    reaches three, and by no earlier one. *)
Theorem malformed_counts sid buf what payload s p :
  json_parse payload = None ->
  serialize (to_json_ErrorMsg (mkErrorMsg "invalid_message" "Invalid JSON")) = Some p ->
  let count := cs_error_count (session_object (sv_tcp s) sid) in
  0 <= count -> count + 1 < i32_half ->
  let s' := fst (handle_message CC_SHA256 sid buf what payload s) in
  cs_error_count (session_object (sv_tcp s') sid) = count + 1
  /\ exists out, sv_out s' = sv_out s ++ out /\ ((sid, SocketClose) ∈ out <-> 3 <= count + 1).
Proof.
  intros Hp Hs count H0 H1 s'. subst s'. unfold handle_message. rewrite Hp.
  unfold send_error, send_json. rewrite Hs. unfold send_payload, update, modify, session, gets, or_throw, mret, M_ret.
  unfold mbind, M_bind. cbn [fst].
  unfold session_send, on_session. set (c := session_object (sv_tcp s) sid) in *.
  pose proof (cs_error_count_send c p) as He. pose proof (send_never_closes c p) as Hc.
  destruct (ClientSession.send c p) as [c1 out]. cbn [fst snd] in He, Hc.
  rewrite bool_decide_true by done. cbn. rewrite !session_object_put, !bool_decide_true by done. cbn. rewrite He.
  fold count. rewrite i32_small by lia.
  assert ((sid, SocketClose) ∉ ((fun o => (sid, o)) <$> out)) as Hno.
  { intros (o & [= <-] & Ho)%list_elem_of_fmap. done. }
  destruct (Z.leb_spec 3 (count + 1)) as [Hle|Hgt]; cbn; rewrite !session_object_put, !bool_decide_true by done; cbn;
    (split; [done|]); eexists; rewrite <- ?app_assoc; (split; [reflexivity|]); cbn; rewrite ?app_nil_r.
  - split; [done|]. intros _. apply elem_of_app. right. apply list_elem_of_here.
  - split; [by intros H|lia].
Qed.
End Properties.


(** ** Witnesses *)

Section Concrete.
#[local] Existing Instance json_tree.
Definition sha (s : string) : list Z := [].

(** The text of a client message, and a server where ann has registered. *)
Definition text_of (m : ClientMsg) : string := pos_text (encode (client_json (J := json_tree) m)).
Definition ann_registered : Server :=
  fst (handle_message (J := json_tree) sha 1 [] ""
         (text_of (CAuth (mkAuthRequestMsg "register" "ann" "pw"))) (new_Server "data" ∅)).
Definition ann_created : Server :=
  fst (handle_message (J := json_tree) sha 1 [] ""
         (text_of (CDocCreate (mkDocCreateRequestMsg "notes"))) ann_registered).

Lemma ann_reachable :
  rtc (SvStep (J := json_tree) sha) (new_Server "data" ∅) ann_created.
Proof.
  eapply rtc_l; [eapply sv_message; decide_now|]. apply rtc_once, sv_message; decide_now.
Qed.

Lemma server_invariant_witness :
  find_user_id (sv_auth ann_created) "ann" = Some 1
  /\ get_role (sv_access ann_created) 1 1 = Some Owner.
Proof.
  split; [|by vm_compute].
  pose proof (proj1 (server_invariant (L := json_tree_laws) _ _ _ _ ann_reachable) 1) as H.
  cbv zeta in H. replace (cs_username (session_object (sv_tcp ann_created) 1)) with "ann"%string in H by (by vm_compute).
  replace (cs_userId (session_object (sv_tcp ann_created) 1)) with 1 in H by (by vm_compute).
  apply H. by vm_compute.
Defined.

Lemma saved_documents_unreachable_witness :
  exists loc, get_document (sv_docs ann_created) 1 = (Some loc, sv_docs ann_created).
Proof.
  destruct (saved_documents_unreachable (L := json_tree_laws) _ _ _ _ 1 1 ann_reachable) as (loc & _ & H);
    [decide_now|decide_now|by vm_compute|]. by exists loc.
Defined.

Lemma unauthenticated_is_harmless_witness :
  sv_access (fst (handle_message (J := json_tree) sha 2 [] "" (text_of (CDocDelete (mkDocDeleteRequestMsg 1)))
    ann_created)) = sv_access ann_created.
Proof.
  refine (proj1 (unauthenticated_is_harmless (J := json_tree) sha 2 [] "" _ ann_created _)).
  by vm_compute.
Defined.

Lemma operation_message_spec_witness :
  let msg := mkOperationMsg 1 0 [mkOpEntry "insert" 0 "x" 0] in
  quiet ann_created (fst (handle_operation (J := json_tree) 1 (to_json_OperationMsg msg) ann_created)).
Proof.
  intros msg.
  pose proof (operation_message_spec (J := json_tree) 1 (to_json_OperationMsg msg) msg ann_created) as H.
  cbv zeta in H. replace (get_session (sv_docs ann_created) (opm_docId msg)) with (@None Z) in H by (by vm_compute).
  apply H. by vm_compute.
Defined.

Lemma malformed_counts_witness :
  cs_error_count (session_object (sv_tcp (fst (handle_message (J := json_tree) sha 1 [] "" "" ann_created))) 1) = 1.
Proof.
  refine (proj1 (malformed_counts (J := json_tree) sha 1 [] "" "" ann_created _ _ _ _ _));
    [by vm_compute|reflexivity|by vm_compute|by vm_compute].
Defined.

(** Bob's session (id 2), logged in as user 2 with the right to edit document 1. *)
Definition bob_invited : Server :=
  let s := fst (handle_message (J := json_tree) sha 1 [] ""
                  (text_of (CDocJoin (mkDocJoinRequestMsg 1))) ann_created) in
  let s := fst (handle_message (J := json_tree) sha 2 [] ""
                  (text_of (CAuth (mkAuthRequestMsg "register" "bob" "pw"))) s) in
  fst (handle_message (J := json_tree) sha 1 [] ""
         (text_of (CDocShare (mkDocShareRequestMsg 1 "bob" "editor"))) s).

(** A message handled, and a command taken by the thread of session object [loc]. *)
Definition handled (sid : Z) (m : ClientMsg) (s : Server) : Server :=
  fst (handle_message (J := json_tree) sha sid [] "" (text_of m) s).
Definition thread_takes (loc : Z) (s : Server) : Server :=
  match session_step (J := json_tree) (sv_docs s) loc with
  | Some (docs, sends) => deliver_sends (with_docs s docs) sends
  | None => s
  end.

(** The frames queued for a session. *)
Definition frames_to (sid : Z) (s : Server) : list string := cs_write_queue (session_object (sv_tcp s) sid).

(** A join can miss an operation. The answer to a join carries the text and the
    revision the document has when the message is handled, but the user is
    connected only when the document's thread reaches the join command: an
    operation that was in the queue before it is applied in between, is in neither
    the answer nor any message to the new user, and the user's copy differs from
    the document from then on. *)
Example join_misses_queued_operation :
  let s1 := handled 1 (COperation (mkOperationMsg 1 0 [mkOpEntry "insert" 0 "x" 0])) (thread_takes 1 bob_invited) in
  let s2 := handled 2 (CDocJoin (mkDocJoinRequestMsg 1)) s1 in
  let s3 := thread_takes 1 (thread_takes 1 s2) in
  get_session (sv_docs s1) 1 = Some 1
  /\ frames_to 2 s3 = frames_to 2 s2
  /\ last (frames_to 2 s2) = Some (encode_frame (pos_text (encode (to_json_DocJoinResponseMsg (J := json_tree)
       (mkDocJoinResponseMsg true 1 "notes" "" 0 "editor" [mkUserInfo 1 "ann" "#265AD8"] "")))))
  /\ match hp_docs (dm_heap (sv_docs s3)) !! 0 with
     | Some d => doc_content d = "x"%string /\ doc_revision d = 1
     | None => False
     end
  /\ match hp_sessions (dm_heap (sv_docs s3)) !! 1 with
     | Some o => ds_command_queue (so_state o) = [] /\ is_Some (ds_connected_users (so_state o) !! 2)
     | None => False
     end.
Proof. vm_compute. split_and!; eauto. Qed.
End Concrete.
