(* ===== verification/Autosave.v ===== *)
(** * Saving documents (server/src/autosave.cpp) and sending cursors
    (server/src/cursor_aggregator.cpp)

    One round of each of the two background threads ([Background] has their waiting
    and stopping). Saving a document is not one critical section: the text is read,
    a temporary file is written and renamed, and the dirty flag is cleared, each on
    its own. *)
From S2P Require Import Prelude ByteString Operation OT Document AccessControl Json Protocol.
From S2P Require Import ClientSession DocumentSession DocumentManager TcpServer MessageHandler Server.
From stdpp Require Import pretty.
Local Open Scope Z_scope.

(** ** AutosaveThread *)

Definition tmp_path (data_dir : string) (docId : Z) : string := doc_path data_dir docId +:+ ".tmp".
Definition snapshot_path (data_dir : string) (docId revision : Z) : string :=
  data_dir +:+ "/snapshots/" +:+ fmt_u32 docId +:+ "_" +:+ fmt_u32 revision +:+ ".txt".

(** [fs::rename] replaces the target. *)
Definition rename (files : Files) (old new : string) : Files :=
  match files !! old with
  | Some contents => mkFiles (<[new := contents]> (delete old (fs_contents files))) (fs_denied files)
  | None => files
  end.

(** The middle of [save_document], once the temporary file is open, with the text it has
    read. *)
Definition save_write (files : Files) (data_dir : string) (docId : Z) (content : string) : Files :=
  rename (write_file files (tmp_path data_dir docId) content) (tmp_path data_dir docId) (doc_path data_dir docId).
Definition save_document (files : Files) (data_dir : string) (d : Document) : Files * Document :=
  if negb (can_open files (tmp_path data_dir (doc_id d))) then (files, d)
  else (save_write files data_dir (doc_id d) (doc_content d), mark_saved d).

Definition maybe_create_snapshot (files : Files) (data_dir : string) (d : Document) : Files * Document :=
  if negb (needs_snapshot d) then (files, d)
  else
    let path := snapshot_path data_dir (doc_id d) (doc_revision d) in
    if can_open files path then (write_file files path (doc_content d), mark_snapshot_created d) else (files, d).

(** A change of the files and of one document object. *)
Definition on_document (m : DocumentManager) (loc : Z) (f : Files -> Document -> Files * Document)
    : DocumentManager :=
  match hp_docs (dm_heap m) !! loc with
  | Some d =>
      let '(files, d) := f (dm_files m) d in
      mkDocumentManager (dm_documents m) (dm_titles m) (dm_sessions m) (dm_cursor_buffers m)
        (dm_next_doc_id m) (dm_data_dir m)
        (mkHeap (<[loc := d]> (hp_docs (dm_heap m))) (hp_sessions (dm_heap m)) (hp_next (dm_heap m))) files
  | None => m
  end.

(** The bodies of the two loops over the loaded documents. *)
Definition round_body (data_dir : string) (files : Files) (d : Document) : Files * Document :=
  if doc_dirty d then
    let '(files, d) := save_document files data_dir d in
    maybe_create_snapshot files data_dir d
  else (files, d).
Definition for_documents (f : string -> Files -> Document -> Files * Document)
    (m : DocumentManager) (locs : list Z) : DocumentManager :=
  foldl (fun m loc => on_document m loc (f (dm_data_dir m))) m locs.

Definition force_save_all (m : DocumentManager) : DocumentManager :=
  for_documents (fun dir files d => save_document files dir d) m (all_loaded_documents m).
Definition autosave_round (m : DocumentManager) : DocumentManager :=
  for_documents round_body m (all_loaded_documents m).

(** ** CursorAggregator *)

Definition cursor_info (state : CursorState) : CursorInfo :=
  mkCursorInfo (cst_userId state) (cst_username state) (cst_color state) (cst_position state)
    (cst_selectionStart state) (cst_selectionEnd state).

Section Aggregator.
Context {J : Json}.

(** The body of the loop for one document; [None] is an exception that ends the
    process. *)
Definition broadcast_cursors (s : Server) (docId : Z) : option Server :=
  let cursors := get_cursors (sv_docs s) docId in
  if bool_decide (cursors = ∅) then Some s
  else match get_session (sv_docs s) docId with
  | None => Some s
  | Some loc =>
      let connected := match hp_sessions (dm_heap (sv_docs s)) !! loc with
                       | Some o => connected_users (so_state o) | None => [] end in
      payload ← serialize (to_json_CursorBroadcastMsg
        (mkCursorBroadcastMsg docId (cursor_info ∘ snd <$> map_to_list cursors)));
      Some (deliver_sends s ((fun user => (cu_session user, payload)) <$> connected))
  end.
Definition broadcast_loop (s : Server) : option Server :=
  foldl (fun s docId => s ≫= fun s => broadcast_cursors s docId) (Some s) (all_active_doc_ids (sv_docs s)).
End Aggregator.

(** ** Lemmas *)

Lemma last_bytes_app s t : t <> ""%string -> last (bytes_of (s +:+ t)) = last (bytes_of t).
Proof.
  intros H. rewrite bytes_of_app, last_app. destruct (last (bytes_of t)) eqn:E; [done|].
  apply last_None in E. by destruct t.
Qed.

Lemma fmt_u32_inj x y : 0 <= x -> 0 <= y -> fmt_u32 x = fmt_u32 y -> x = y.
Proof. unfold fmt_u32. intros Hx Hy H. apply (inj pretty) in H. lia. Qed.

Lemma bytes_of_inj_app_l s t u : s +:+ t = s +:+ u -> t = u.
Proof.
  intros H. apply (f_equal bytes_of) in H. rewrite !bytes_of_app in H. apply app_inv_head in H.
  by apply bytes_of_inj.
Qed.
Lemma bytes_of_inj_app_r s t u : s +:+ u = t +:+ u -> s = t.
Proof.
  intros H. apply (f_equal bytes_of) in H. rewrite !bytes_of_app in H. apply app_inv_tail in H.
  by apply bytes_of_inj.
Qed.

Lemma doc_path_inj dir x y : 0 <= x -> 0 <= y -> doc_path dir x = doc_path dir y -> x = y.
Proof.
  unfold doc_path. intros Hx Hy H. apply bytes_of_inj_app_l, bytes_of_inj_app_l, bytes_of_inj_app_r in H.
  by apply fmt_u32_inj.
Qed.
Lemma doc_path_ne_tmp_path dir x y : doc_path dir x <> tmp_path dir y.
Proof.
  unfold tmp_path, doc_path. rewrite !append_assoc. intros E.
  apply (f_equal (fun s => (last (bytes_of s), last (removelast (bytes_of s))))) in E.
  revert E. rewrite !bytes_of_app, !(app_assoc _ _ (bytes_of _)).
  rewrite !removelast_app, !last_app by done. done.
Qed.

(** The text of a saved document is in its file, and no other document's file
    changes. *)
Lemma lookup_rename files old new path :
  old <> new ->
  rename files old new !! path
  = match files !! old with
    | Some contents => if bool_decide (new = path) then Some contents
                       else if bool_decide (old = path) then None else files !! path
    | None => files !! path
    end.
Proof.
  intros Hne. unfold rename. destruct (files !! old) as [contents|] eqn:E; [|done].
  unfold lookup, files_lookup. cbn. rewrite lookup_insert, lookup_delete. by repeat case_decide || case_bool_decide.
Qed.
Lemma denied_rename files old new : fs_denied (rename files old new) = fs_denied files.
Proof. unfold rename. by destruct (files !! old). Qed.

Lemma save_write_lookup files dir id content :
  can_open files (tmp_path dir id) = true -> save_write files dir id content !! doc_path dir id = Some content.
Proof.
  intros H. unfold save_write. rewrite lookup_rename by apply not_eq_sym, doc_path_ne_tmp_path.
  rewrite lookup_write_file, H, bool_decide_true by done. cbn. by rewrite bool_decide_true.
Qed.
Lemma save_write_other files dir id content id' :
  0 <= id -> 0 <= id' -> id <> id' -> can_open files (tmp_path dir id) = true ->
  save_write files dir id content !! doc_path dir id' = files !! doc_path dir id'.
Proof.
  intros H1 H2 Hne H. unfold save_write. rewrite lookup_rename by apply not_eq_sym, doc_path_ne_tmp_path.
  rewrite !lookup_write_file, H, bool_decide_true by done. cbn.
  rewrite (bool_decide_false (tmp_path _ _ = _)) by apply not_eq_sym, doc_path_ne_tmp_path.
  rewrite bool_decide_false by (intros E; by apply Hne, (doc_path_inj dir)). done.
Qed.

Lemma doc_path_ne_snapshot_path dir x y r : doc_path dir x <> snapshot_path dir y r.
Proof. unfold doc_path, snapshot_path. intros E%bytes_of_inj_app_l. discriminate. Qed.

(** What the two loops need of their bodies, where [saved] says whether the body saves the
    document: the document keeps its id, text and revision, and if it was saved it is clean
    and its file holds its text; no other document's file changes. *)
Record saves (f : string -> Files -> Document -> Files * Document)
    (saved : string -> gset string -> Document -> bool) : Prop := mkSaves {
  saves_doc dir files d d' : d' = snd (f dir files d) ->
    doc_id d' = doc_id d /\ doc_content d' = doc_content d /\ doc_revision d' = doc_revision d
    /\ doc_dirty d' = if saved dir (fs_denied files) d then false else doc_dirty d;
  saves_file dir files d :
    fst (f dir files d) !! doc_path dir (doc_id d) =
      if saved dir (fs_denied files) d then Some (doc_content d) else files !! doc_path dir (doc_id d);
  saves_denied dir files d : fs_denied (fst (f dir files d)) = fs_denied files;
  saves_others dir files d id : 0 <= doc_id d -> 0 <= id -> doc_id d <> id ->
    fst (f dir files d) !! doc_path dir id = files !! doc_path dir id;
}.

(** A document can be saved when its temporary file can be opened. *)
Definition can_save (dir : string) (denied : gset string) (d : Document) : bool :=
  bool_decide (tmp_path dir (doc_id d) ∉ denied).
Definition due (dir : string) (denied : gset string) (d : Document) : bool := doc_dirty d && can_save dir denied d.

Lemma saves_force : saves (fun dir files d => save_document files dir d) can_save.
Proof.
  split; unfold save_document; intros dir files d;
    change (can_save dir (fs_denied files) d) with (can_open files (tmp_path dir (doc_id d)));
    destruct (can_open files (tmp_path dir (doc_id d))) eqn:E; cbn; intros *.
  1,2: by intros ->.
  - by apply save_write_lookup.
  - done.
  - unfold save_write. by rewrite denied_rename, denied_write_file.
  - done.
  - intros ? ? ?. by apply save_write_other.
  - done.
Qed.

Lemma saves_round : saves round_body due.
Proof.
  pose proof saves_force as [F1 F2 F3 F4].
  assert (forall dir files d, let r := maybe_create_snapshot files dir d in
    doc_id r.2 = doc_id d /\ doc_content r.2 = doc_content d /\ doc_revision r.2 = doc_revision d /\ doc_dirty r.2 = doc_dirty d
    /\ fs_denied r.1 = fs_denied files /\ forall id, r.1 !! doc_path dir id = files !! doc_path dir id) as S.
  { intros dir files d. unfold maybe_create_snapshot. destruct (needs_snapshot d); [|done]. cbn [negb]. cbv zeta.
    destruct (can_open files _) eqn:E; [|done]. cbn. rewrite denied_write_file. split_and!; try done.
    intros id. rewrite lookup_write_file, (bool_decide_false (_ = doc_path dir id)), andb_false_r; [done|].
    apply not_eq_sym, doc_path_ne_snapshot_path. }
  split; unfold round_body, due; intros dir files d; destruct (doc_dirty d) eqn:E; try (by intros d' ->); try done; cbn [andb].
  all: specialize (F1 dir files d _ eq_refl); specialize (F2 dir files d); specialize (F3 dir files d); specialize (F4 dir files d).
  all: destruct (save_document files dir d) as [files1 d1]; cbn [fst snd] in *; specialize (S dir files1 d1).
  all: destruct (maybe_create_snapshot files1 dir d1) as [files2 d2]; cbn [fst snd] in *.
  - intros d' ->. rewrite E in F1. destruct F1 as (F5 & F6 & F7 & F8), S as (-> & -> & -> & -> & _). done.
  - rewrite <- F2. apply S.
  - by destruct S as (_ & _ & _ & _ & -> & _).
  - intros id H1 H2 H3. rewrite <- F4 by done. apply S.
Qed.

Section Loops.
Context (f : string -> Files -> Document -> Files * Document) (saved : string -> gset string -> Document -> bool).
Context (F : saves f saved).

Lemma on_document_fields m loc :
  let m' := on_document m loc (f (dm_data_dir m)) in
  dm_data_dir m' = dm_data_dir m /\ fs_denied (dm_files m') = fs_denied (dm_files m)
  /\ forall loc', option_map doc_id (hp_docs (dm_heap m') !! loc') = option_map doc_id (hp_docs (dm_heap m) !! loc').
Proof.
  unfold on_document. destruct (hp_docs (dm_heap m) !! loc) as [d|] eqn:E; [|done].
  pose proof (saves_doc _ _ F (dm_data_dir m) (dm_files m) d _ eq_refl) as [Hi _].
  pose proof (saves_denied _ _ F (dm_data_dir m) (dm_files m) d) as Hden.
  destruct (f _ _ d) as [files d']. cbn in *. split; [done|]. split; [done|]. intros loc'. rewrite lookup_insert.
  case_decide; [|done]. subst loc'. rewrite E. cbn. by rewrite Hi.
Qed.

(** A round over other documents leaves a document and its file alone. *)
Lemma for_documents_other locs m loc d :
  loc ∉ locs -> hp_docs (dm_heap m) !! loc = Some d -> 0 <= doc_id d ->
  (forall l e, l ∈ locs -> hp_docs (dm_heap m) !! l = Some e -> 0 <= doc_id e /\ doc_id e <> doc_id d) ->
  let m' := for_documents f m locs in
  dm_data_dir m' = dm_data_dir m /\ fs_denied (dm_files m') = fs_denied (dm_files m)
  /\ hp_docs (dm_heap m') !! loc = Some d
  /\ dm_files m' !! doc_path (dm_data_dir m) (doc_id d) = dm_files m !! doc_path (dm_data_dir m) (doc_id d).
Proof.
  revert m. induction locs as [|l locs IH]; intros m Hn Hd Hid Hne; [done|]. cbn.
  apply not_elem_of_cons in Hn as [Hl Hn]. destruct (on_document_fields m l) as (Edir & Eden & Hids).
  set (m1 := on_document m l (f (dm_data_dir m))) in *.
  assert (hp_docs (dm_heap m1) !! loc = Some d /\
    dm_files m1 !! doc_path (dm_data_dir m) (doc_id d) = dm_files m !! doc_path (dm_data_dir m) (doc_id d)) as [Hd1 Hf1].
  { subst m1. unfold on_document. destruct (hp_docs (dm_heap m) !! l) as [e|] eqn:E; [|done].
    destruct (Hne l e) as [H1 H2]; [by left|done|].
    pose proof (saves_others _ _ F (dm_data_dir m) (dm_files m) e (doc_id d) H1 Hid H2) as Ho.
    destruct (f _ _ e). cbn in *. by rewrite lookup_insert_ne. }
  destruct (IH m1 Hn Hd1 Hid) as (E1 & E4 & E2 & E3).
  { intros l' e Hin He. specialize (Hids l'). rewrite He in Hids. cbn in Hids.
    destruct (hp_docs (dm_heap m) !! l') as [e'|] eqn:E'; [|done]. injection Hids as ->.
    apply (Hne l' e'); [by right|done]. }
  rewrite Edir in E1, E3. rewrite Eden in E4. fold (for_documents f m1 locs). split_and!; [done..|]. by rewrite E3.
Qed.

Lemma for_documents_own locs m loc d :
  NoDup locs -> loc ∈ locs -> hp_docs (dm_heap m) !! loc = Some d -> 0 <= doc_id d ->
  (forall l e, l ∈ locs -> l <> loc -> hp_docs (dm_heap m) !! l = Some e -> 0 <= doc_id e /\ doc_id e <> doc_id d) ->
  let m' := for_documents f m locs in
  (exists d', hp_docs (dm_heap m') !! loc = Some d' /\ doc_id d' = doc_id d /\ doc_content d' = doc_content d
              /\ doc_revision d' = doc_revision d
              /\ doc_dirty d' = if saved (dm_data_dir m) (fs_denied (dm_files m)) d then false else doc_dirty d)
  /\ dm_files m' !! doc_path (dm_data_dir m) (doc_id d)
     = if saved (dm_data_dir m) (fs_denied (dm_files m)) d then Some (doc_content d) else dm_files m !! doc_path (dm_data_dir m) (doc_id d).
Proof.
  intros ND (l1 & l2 & ->)%list_elem_of_split Hd Hid Hne. apply NoDup_app in ND as (_ & N1 & [N2 _]%NoDup_cons).
  cbn. unfold for_documents. rewrite foldl_app. cbn. fold (for_documents f m l1).
  destruct (for_documents_other l1 m loc d) as (E1 & E4 & E2 & E3); [set_solver|done..| |].
  { intros l e Hl He. apply (Hne l e); [set_solver..|done]. }
  assert (forall l, option_map doc_id (hp_docs (dm_heap (for_documents f m l1)) !! l)
                    = option_map doc_id (hp_docs (dm_heap m) !! l)) as Hids1.
  { clear -F. revert m. induction l1 as [|x l1 IH]; intros m l; [done|]. cbn.
    destruct (on_document_fields m x) as (_ & _ & H). rewrite <- (H l). apply IH. }
  set (m1 := for_documents f m l1) in *. destruct (on_document_fields m1 loc) as (Edir & _ & Hids2).
  set (m2 := on_document m1 loc (f (dm_data_dir m1))) in *.
  pose proof (saves_doc _ _ F (dm_data_dir m1) (dm_files m1) d _ eq_refl) as Hown.
  pose proof (saves_file _ _ F (dm_data_dir m1) (dm_files m1) d) as Hfile.
  assert (hp_docs (dm_heap m2) !! loc = Some (snd (f (dm_data_dir m1) (dm_files m1) d))
          /\ dm_files m2 = fst (f (dm_data_dir m1) (dm_files m1) d)) as [Hd2 Hf2].
  { subst m2. unfold on_document. rewrite E2. destruct (f _ _ d). cbn. by rewrite lookup_insert_eq. }
  destruct Hown as (O1 & O2 & O3 & O4).
  destruct (for_documents_other l2 m2 loc _ N2 Hd2) as (G1 & _ & G2 & G3).
  { by rewrite O1. }
  { intros l e Hl He. rewrite O1. pose proof (Hids2 l) as H2. rewrite Hids1, He in H2. cbn in H2.
    destruct (hp_docs (dm_heap m) !! l) as [e'|] eqn:E'; [|done]. injection H2 as ->.
    apply (Hne l e'); [set_solver| |done]. intros ->. done. }
  split. { eexists. split; [exact G2|]. split_and!; [done..|]. by rewrite O4, E1, E4. }
  fold (for_documents f m2 l2). rewrite O1 in G3. rewrite Edir, E1 in G3. rewrite G3, Hf2.
  rewrite E1, E4 in Hfile. rewrite E1, Hfile. by rewrite E3.
Qed.

(** The loop over the loaded documents of a well-formed manager. *)
Lemma for_documents_loaded m docId loc d :
  dm_wf m -> dm_documents m !! docId = Some loc -> hp_docs (dm_heap m) !! loc = Some d ->
  let m' := for_documents f m (all_loaded_documents m) in
  (exists d', hp_docs (dm_heap m') !! loc = Some d' /\ doc_id d' = docId /\ doc_content d' = doc_content d
              /\ doc_revision d' = doc_revision d
              /\ doc_dirty d' = if saved (dm_data_dir m) (fs_denied (dm_files m)) d then false else doc_dirty d)
  /\ dm_files m' !! doc_path (dm_data_dir m) docId
     = if saved (dm_data_dir m) (fs_denied (dm_files m)) d then Some (doc_content d) else dm_files m !! doc_path (dm_data_dir m) docId.
Proof.
  intros W Hdoc Hd. destruct (wf_document _ W _ _ Hdoc) as (_ & d0 & H0 & Hid & _).
  rewrite Hd in H0. injection H0 as <-. pose proof (wf_next _ W _ _ Hdoc) as Hn. subst docId.
  assert (forall l, l ∈ all_loaded_documents m -> exists id, dm_documents m !! id = Some l) as Hin.
  { intros l ([id l'] & -> & H%elem_of_map_to_list)%list_elem_of_fmap. by exists id. }
  apply for_documents_own; [|..|lia|]; try done.
  - unfold all_loaded_documents. apply NoDup_fmap_2_strong; [|apply NoDup_map_to_list].
    intros [i x] [j y] Hi%elem_of_map_to_list Hj%elem_of_map_to_list E. cbn in E. subst y.
    destruct (wf_document _ W _ _ Hi) as (_ & e & He & <- & _).
    destruct (wf_document _ W _ _ Hj) as (_ & e' & He' & <- & _). congruence.
  - apply list_elem_of_fmap. exists (doc_id d, loc). split; [done|]. by apply elem_of_map_to_list.
  - intros l e (id & Hl)%Hin Hne He. destruct (wf_document _ W _ _ Hl) as (_ & e' & He' & Hid & _).
    rewrite He in He'. injection He' as <-. pose proof (wf_next _ W _ _ Hl). split; [lia|].
    intros Eid. apply Hne. congruence.
Qed.
End Loops.

(** ** Properties *)

(** What is saved is what is loaded. When the temporary file can be opened, saving a
    document puts its text into the file of its id, leaves it clean and changes no other
    document's file, and loading the id, if that file can be opened, yields a document with
    the same text. *)
Theorem save_then_load m d :
  0 <= doc_id d -> can_open (dm_files m) (tmp_path (dm_data_dir m) (doc_id d)) = true ->
  can_open (dm_files m) (doc_path (dm_data_dir m) (doc_id d)) = true ->
  let '(files, d') := save_document (dm_files m) (dm_data_dir m) d in
  doc_dirty d' = false /\ doc_content d' = doc_content d /\ doc_revision d' = doc_revision d
  /\ (forall id, 0 <= id -> id <> doc_id d ->
      files !! doc_path (dm_data_dir m) id = dm_files m !! doc_path (dm_data_dir m) id)
  /\ exists d2, load_from_disk_unlocked (with_files m files) (doc_id d) = Some d2
     /\ doc_content d2 = doc_content d /\ doc_id d2 = doc_id d /\ doc_dirty d2 = false.
Proof.
  intros Hid Ho Hr. unfold save_document. rewrite Ho. cbn [negb]. split_and!; try done.
  - intros id Hi Hne. by apply save_write_other; [..|apply not_eq_sym|].
  - unfold load_from_disk_unlocked, exists_file, read_file. cbn [dm_files dm_data_dir with_files].
    rewrite save_write_lookup by done.
    replace (can_open (save_write _ _ _ _) _) with true; [by eexists|].
    unfold can_open, save_write. by rewrite denied_rename, denied_write_file.
Qed.

(** C36: what one round of the autosave thread does, when nothing else runs meanwhile. For
    every loaded document of a consistent manager: it keeps its id, text and revision; if
    it was dirty and its temporary file can be opened, it is clean afterwards and its file
    holds its text; if the temporary file cannot be opened, it stays dirty, for the next
    round, and its file is as it was; the file of a clean document is untouched, whatever is
    done for the others. [force_save_all], at shutdown, does the same for all documents,
    dirty or not. (Once a file is open, writing, closing and renaming it succeed.) *)
Theorem autosave_round_saves m docId loc d :
  dm_wf m -> dm_documents m !! docId = Some loc -> hp_docs (dm_heap m) !! loc = Some d ->
  let path := doc_path (dm_data_dir m) docId in
  let opens := can_open (dm_files m) (tmp_path (dm_data_dir m) docId) in
  ((exists d', hp_docs (dm_heap (autosave_round m)) !! loc = Some d' /\ doc_id d' = docId
     /\ doc_content d' = doc_content d /\ doc_revision d' = doc_revision d /\ doc_dirty d' = doc_dirty d && negb opens)
   /\ dm_files (autosave_round m) !! path = (if doc_dirty d && opens then Some (doc_content d) else dm_files m !! path))
  /\ dm_files (force_save_all m) !! path = if opens then Some (doc_content d) else dm_files m !! path.
Proof.
  intros W Hdoc Hd. destruct (wf_document _ W _ _ Hdoc) as (_ & d0 & H0 & Hid & _).
  rewrite Hd in H0. injection H0 as <-. cbv zeta. rewrite <- Hid.
  change (can_open (dm_files m) (tmp_path (dm_data_dir m) (doc_id d))) with (can_save (dm_data_dir m) (fs_denied (dm_files m)) d).
  rewrite <- Hid in Hdoc. split.
  - destruct (for_documents_loaded round_body due saves_round m _ _ _ W Hdoc Hd) as [(d' & H1 & H2 & H3 & H4 & H5) H6].
    split; [|exact H6]. exists d'. split_and!; try done. rewrite H5. unfold due.
    destruct (doc_dirty d), (can_save (dm_data_dir m) (fs_denied (dm_files m)) d); reflexivity.
  - apply (for_documents_loaded _ _ saves_force m _ _ _ W Hdoc Hd).
Qed.

Lemma autosave_round_saves_witness :
  let m := mkDocumentManager {[1 := 0]} {[1 := "t"%string]} ∅ ∅ 2 "data"
             (mkHeap {[0 := with_dirty (doc_init 1 "t" "hello") true]} ∅ 1) (mkFiles {["data/documents/1.txt"%string := ""%string]} ∅) in
  dm_files (autosave_round m) !! doc_path "data" 1 = Some "hello"%string.
Proof.
  intros m. assert (dm_wf m) as W.
  { split; cbn.
    - intros docId loc [<- <-]%lookup_singleton_Some. split; [lia|]. by eexists.
    - by intros docId loc E%lookup_empty_Some.
    - intros docId title [<- <-]%lookup_singleton_Some. by eexists.
    - intros docId loc [<- <-]%lookup_singleton_Some. lia.
    - by split; vm_compute.
    - by intros docId docId' loc E%lookup_empty_Some. }
  refine (proj2 (proj1 (autosave_round_saves m 1 0 _ W eq_refl eq_refl))).
Defined.

(** An edit during a save can be lost. When an operation is applied after the
    text has been read for saving and before the dirty flag is cleared, the file
    holds the text without it and the document counts as clean: no later round
    saves the edit unless there is another one. *)
Example save_race_loses_edit :
  let d := doc_init 1 "t" "A" in
  let d1 := snd (apply_with_ot d (make_insert 1 "B" 1 0)) in
  let read := doc_content d1 in
  let d2 := snd (apply_with_ot d1 (make_insert 2 "C" 1 1)) in
  let files := save_write ∅ "data" 1 read in
  let d3 := mark_saved d2 in
  doc_content d3 = "ABC"%string /\ doc_dirty d3 = false
  /\ files !! doc_path "data" 1 = Some "AB"%string.
Proof. split_and!; vm_compute; reflexivity. Qed.
