(* ===== verification/RemoteCursors.v ===== *)
(** * Remote cursors (client/src/remote_cursors_model.cpp,
    client/src/cursor_translator.cpp)

    The cursors of the other users and how a remote operation moves them. A
    [QString] and a [QColor] are Qt's: their types, the decoding of a byte string, the
    reading of a colour name and its validity test are arguments. *)
From S2P Require Import Prelude ByteString Operation OT Json Protocol.
Local Open Scope Z_scope.

(** ** cursor_translator *)

Definition translate (my_pos : Z) (op : Operation) : Z :=
  if is_noop op then my_pos
  else match op_type op with
  | Insert =>
      let len := u32 (slen (op_text op)) in
      if op_position op <=? my_pos then my_pos +₃₂ len else my_pos
  | Delete =>
      let p := op_position op in
      let end_ := p +₃₂ op_length op in
      if end_ <=? my_pos then my_pos -₃₂ op_length op
      else if my_pos <=? p then my_pos
      else p
  end.

(** ** RemoteCursorsModel *)

Section Model.
Context {QString QColor : Type} (fromStdString : string -> QString) (toColor : QString -> QColor)
  (isValid : QColor -> bool).

Record RemoteCursor := mkRemoteCursor {
  rc_userId : Z;
  rc_username : QString;
  rc_color : QColor;
  rc_position : Z;
  rc_selectionStart : option Z;
  rc_selectionEnd : option Z;
}.

Record RemoteCursorsModel := mkRemoteCursorsModel {
  rcm_local_user_id : Z;
  rcm_cursors : gmap Z RemoteCursor;
}.
Inductive RcSignal := SigCursorsChanged.

Definition new_RemoteCursorsModel (local_user_id : Z) : RemoteCursorsModel :=
  mkRemoteCursorsModel local_user_id ∅.
Definition cursors (m : RemoteCursorsModel) : list RemoteCursor := snd <$> map_to_list (rcm_cursors m).

Definition remote_cursor (c : CursorInfo) : RemoteCursor :=
  let color := toColor (fromStdString (ci_color c)) in
  let color := if negb (isValid color) then toColor (fromStdString "#808080") else color in
  mkRemoteCursor (ci_userId c) (fromStdString (ci_username c)) color (ci_position c)
    (ci_selectionStart c) (ci_selectionEnd c).

(** [emplace] keeps the entry that is already there. *)
Definition emplace (next : gmap Z RemoteCursor) (k : Z) (c : RemoteCursor) : gmap Z RemoteCursor :=
  match next !! k with Some _ => next | None => <[k := c]> next end.

Definition applyBroadcast (m : RemoteCursorsModel) (msg : CursorBroadcastMsg)
    : RemoteCursorsModel * list RcSignal :=
  let next := foldl (fun next c =>
                if ci_userId c =? rcm_local_user_id m then next
                else emplace next (ci_userId c) (remote_cursor c)) ∅ (cbm_cursors msg) in
  (mkRemoteCursorsModel (rcm_local_user_id m) next, [SigCursorsChanged]).

Definition move_cursor (op : Operation) (c : RemoteCursor) : RemoteCursor :=
  mkRemoteCursor (rc_userId c) (rc_username c) (rc_color c) (translate (rc_position c) op)
    ((fun p => translate p op) <$> rc_selectionStart c) ((fun p => translate p op) <$> rc_selectionEnd c).

Definition applyRemoteOperation (m : RemoteCursorsModel) (op : Operation)
    : RemoteCursorsModel * list RcSignal :=
  if is_noop op || bool_decide (rcm_cursors m = ∅) then (m, [])
  else (mkRemoteCursorsModel (rcm_local_user_id m) (move_cursor op <$> rcm_cursors m), [SigCursorsChanged]).

Definition removeUser (m : RemoteCursorsModel) (userId : Z) : RemoteCursorsModel * list RcSignal :=
  match rcm_cursors m !! userId with
  | Some _ => (mkRemoteCursorsModel (rcm_local_user_id m) (delete userId (rcm_cursors m)), [SigCursorsChanged])
  | None => (m, [])
  end.

Definition clear (m : RemoteCursorsModel) : RemoteCursorsModel * list RcSignal :=
  if bool_decide (rcm_cursors m = ∅) then (m, [])
  else (mkRemoteCursorsModel (rcm_local_user_id m) ∅, [SigCursorsChanged]).

(** ** Lemmas *)

Lemma emplace_lookup next k c i :
  emplace next k c !! i = if bool_decide (i = k) then (match next !! k with Some x => Some x | None => Some c end)
                          else next !! i.
Proof.
  unfold emplace. destruct (next !! k) eqn:E; case_bool_decide; subst; try done.
  - apply lookup_insert_eq.
  - by apply lookup_insert_ne.
Qed.

(** What the loop of [applyBroadcast] leaves under an id: what was there, else the
    first entry of that user, never one of the local user. *)
Lemma broadcast_lookup local entries next i :
  foldl (fun next c => if ci_userId c =? local then next
                       else emplace next (ci_userId c) (remote_cursor c)) next entries !! i
  = match next !! i with
    | Some c => Some c
    | None => if i =? local then None
              else remote_cursor <$> head (filter (fun c => ci_userId c = i) entries)
    end.
Proof.
  revert next. induction entries as [|c entries IH]; intros next; cbn [foldl].
  - rewrite filter_nil. cbn. by destruct (next !! i), (i =? local).
  - rewrite IH. rewrite filter_cons. destruct (Z.eqb_spec (ci_userId c) local) as [E|Hl].
    + destruct (next !! i); [done|]. destruct (Z.eqb_spec i local); [done|]. by rewrite decide_False by congruence.
    + rewrite emplace_lookup. case_bool_decide as Ei.
      * subst i. destruct (next !! ci_userId c); [done|]. rewrite (proj2 (Z.eqb_neq _ _) Hl).
        by rewrite decide_True.
      * destruct (next !! i); [done|]. by rewrite decide_False by congruence.
Qed.
End Model.

(** ** The text left of a cursor *)

Lemma slen_str_mid s n : 0 <= n <= slen s -> slen (str_mid s 0 n) = n.
Proof.
  rewrite !slen_bytes. intros. unfold str_mid. autorewrite with collab. rewrite length_take, length_drop. lia.
Qed.
Lemma lookup_str_mid s n i :
  0 <= n -> bytes_of (str_mid s 0 n) !! i = if Z.of_nat i <? n then bytes_of s !! i else None.
Proof.
  intros Hn. unfold str_mid. autorewrite with collab. cbn [Z.to_nat]. rewrite drop_0.
  destruct (Z.ltb_spec (Z.of_nat i) n); [apply lookup_take_lt|apply lookup_take_ge]; lia.
Qed.

(** On a fitting operation nothing wraps around. *)
Lemma translate_fits n op p :
  fits n op -> 0 <= p <= n -> n + slen (op_text op) < u32_mod ->
  translate p op = match op_type op with
    | Insert => if op_position op <=? p then p + slen (op_text op) else p
    | Delete => if op_position op + op_length op <=? p then p - op_length op
                else Z.min p (op_position op)
    end.
Proof.
  pose proof (slen_nonneg (op_text op)) as Ht. unfold fits, translate, is_noop.
  destruct op as [[] q t l u r]; cbn in *; intros [Hq Hl] Hp Hn.
  - case_bool_decide; [subst t; rewrite slen_empty; zcases; lia|].
    unwrap. destruct (Z.leb_spec q p); unwrap; done.
  - unwrap. destruct (Z.eqb_spec l 0); [zcases; lia|]. zcases; unwrap; lia.
Qed.

(** ** Properties *)

(** A remote cursor stays where it is in the text. For an operation made
    against the document, the text left of the moved cursor in the new document is
    what the operation makes of the text that was left of the cursor: an insertion
    at or before the cursor pushes it along, a deletion takes away exactly the
    deleted bytes left of it, and the cursor stays inside the document. *)
Theorem cursor_follows_text doc op p :
  fits (slen doc) op -> slen doc + slen (op_text op) < u32_mod -> 0 <= p <= slen doc ->
  0 <= translate p op <= slen (apply doc op)
  /\ str_mid (apply doc op) 0 (translate p op)
     = if op_position op <=? p then apply (str_mid doc 0 p) op else str_mid doc 0 p.
Proof.
  intros Hf Hn Hp. pose proof (slen_nonneg (op_text op)) as Ht. pose proof (slen_nonneg doc) as Hd.
  assert (0 <= translate p op <= slen (apply doc op)) as Hb.
  { rewrite (translate_fits (slen doc)), slen_apply_fits by (done || lia). unfold fits, grow in *.
    destruct (op_type op); zcases; lia. }
  split; [done|]. apply string_eq_lookup. intros i. rewrite lookup_str_mid by lia.
  rewrite (translate_fits (slen doc)) by done. rewrite apply_fits by (done || lia).
  unfold fits in Hf. destruct Hf as [Hq Hf]. destruct op as [[] q t l u r]; cbn in *.
  - destruct (Z.leb_spec q p); rewrite lookup_str_insert by lia.
    + rewrite apply_fits by (unfold fits; cbn; rewrite slen_str_mid by lia; lia). cbn.
      rewrite lookup_str_insert, !lookup_str_mid by (rewrite ?slen_str_mid by lia; lia). zcases; done || lia.
    + rewrite lookup_str_mid by lia. zcases; done || lia.
  - rewrite lookup_str_erase by lia. destruct (Z.leb_spec (q + l) p), (Z.leb_spec q p); try lia.
    1,2: unfold apply, is_noop; cbn; rewrite slen_str_mid by lia; unwrap;
      destruct (Z.eqb_spec l 0) as [->|]; [|rewrite lookup_str_erase by (rewrite ?slen_str_mid by lia; lia)];
        rewrite !lookup_str_mid by lia; zcases; done || (f_equal; lia) || lia.
    rewrite lookup_str_mid by lia. zcases; done || lia.
Qed.

Lemma cursor_follows_text_witness :
  str_mid (apply "hello" (make_delete 1 3 "" 1 0)) 0 (translate 4 (make_delete 1 3 "" 1 0)) = "h"%string.
Proof.
  refine (proj2 (cursor_follows_text "hello" (make_delete 1 3 "" 1 0) 4 _ _ _)); decide_now.
Defined.

(** The model shows each other user once and the local user never: after a
    broadcast the cursor under an id is the first entry of that user, and it moves
    with every remote operation, under the same id; [removeUser] removes one user's
    cursor only. *)
Theorem model_shows_others {QString QColor : Type} (fromStdString : string -> QString)
    (toColor : QString -> QColor) (isValid : QColor -> bool) m msg op userId :
  let m1 := fst (applyBroadcast fromStdString toColor isValid m msg) in
  let m2 := fst (applyRemoteOperation m1 op) in
  let m3 := fst (removeUser m2 userId) in
  forall i,
    let shown := if i =? rcm_local_user_id m then None
                 else remote_cursor fromStdString toColor isValid
                        <$> head (filter (fun c => ci_userId c = i) (cbm_cursors msg)) in
    rcm_cursors m1 !! i = shown
    /\ rcm_cursors m2 !! i = (if is_noop op then shown else move_cursor op <$> shown)
    /\ rcm_cursors m3 !! i = (if i =? userId then None else rcm_cursors m2 !! i).
Proof.
  intros m1 m2 m3 i shown.
  assert (rcm_cursors m1 !! i = shown) as H1.
  { subst m1 shown. unfold applyBroadcast. cbn. by rewrite broadcast_lookup, lookup_empty. }
  clearbody m1 shown.
  split_and!; [done| |].
  - subst m2. unfold applyRemoteOperation. destruct (is_noop op); cbn; [done|].
    case_bool_decide as E; cbn; [|by rewrite lookup_fmap, H1]. rewrite H1. rewrite E, lookup_empty in H1. by rewrite <- H1.
  - subst m3. unfold removeUser. destruct (rcm_cursors m2 !! userId) eqn:E; cbn.
    + rewrite lookup_delete. destruct (Z.eqb_spec i userId); case_decide; done || congruence.
    + destruct (Z.eqb_spec i userId) as [->|]; done.
Qed.
