(* ===== verification/MpscQueue.v ===== *)
(** * The lock-free command queue (core/include/collab/mpsc_queue.h)

    The queue as it is: linked nodes, a shared tail that may lag one node behind,
    hazard pointers, and a consumer that frees retired nodes. Every atomic access is
    one step, and steps of any number of producers and of the one consumer interleave;
    memory is sequentially consistent (the orderings the source names are not
    modelled). Freed addresses may be allocated again. [None] is an access to, or a
    second release of, memory that is not allocated.

    A thread finds its slot in a cache of its own, keyed by the address of the queue; the
    caches outlive the queue. The theorems about the queue assume that no thread's cache
    names its address yet; [reused_address_use_after_free] is what happens otherwise. *)
From S2P Require Import Prelude.
Local Open Scope Z_scope.

Section Queue.
(** [this] is the address of the queue. *)
Context {T : Type} (MaxProducers : nat) (this : Z).

(** [retired_next] is not a field: the list of retired nodes is a list. *)
Record Node := mkNode { nd_data : T; nd_next : option Z }.

(** Where a thread is in [enqueue], with its locals [node], [t] and [t_next]. *)
Inductive ProducerPc :=
| PIdle
| PAcquire (node : Z)
| PLoadTail (node : Z)
| PStoreHazard (node t : Z)
| PCheckTail (node t : Z)
| PLoadNext (node t : Z)
| PSwingNext (node t t_next : Z)
| PLinkNext (node t : Z)
| PSwingNode (node t : Z)
| PClearHazard
| PAborted (node : Z).
(** [pr_slot] is the slot that [hp] refers to, from the first [enqueue] on. *)
Record Producer := mkProducer { pr_slot : option nat; pr_pc : ProducerPc }.

(** [slot_cache_]: queues and slots. *)
Definition SlotCache := list (Z * nat).
Fixpoint find_slot (cache : SlotCache) : option nat :=
  match cache with
  | [] => None
  | (q, s) :: cache => if q =? this then Some s else find_slot cache
  end.

(** Where the consumer is in [try_dequeue] and [try_reclaim_]. *)
Inductive Consumer :=
| CIdle
| CLoadTail (next : Z)
| CSwing (next : Z)
| CTake (next : Z)
| CReclaim
| CScan (used i : nat) (snapshot : list Z)
| CFree (snapshot cur survivors : list Z) (kept : nat).

Record Queue := mkQueue {
  q_heap : gmap Z Node;
  q_tail : Z;
  q_slots_used : nat;
  q_hazards : gmap nat Z;
  q_head : Z;
  q_retired : list Z;
  q_retired_count : nat;
  q_producers : gmap nat Producer;
  q_caches : gmap nat SlotCache;        (* thread_local *)
  q_consumer : Consumer;
}.

(** What a step does to the queue its callers see. *)
Inductive Event := Tau | Enqueued (value : T) | Dequeued (value : T) | Empty.

(** A queue at the address [this], of threads that have used the queues in their caches. *)
Definition new_MPSCQueue (sentinel : Z) (data : T) (caches : gmap nat SlotCache) : Queue :=
  mkQueue {[sentinel := mkNode data None]} sentinel 0 ∅ sentinel [] 0 ∅ caches CIdle.
Definition cache_of (caches : gmap nat SlotCache) (tid : nat) : SlotCache :=
  match caches !! tid with Some cache => cache | None => [] end.

Definition producer (q : Queue) (tid : nat) : Producer :=
  match q_producers q !! tid with Some p => p | None => mkProducer None PIdle end.

Definition goto (q : Queue) (tid : nat) (slot : option nat) (pc : ProducerPc) : Queue :=
  mkQueue (q_heap q) (q_tail q) (q_slots_used q) (q_hazards q) (q_head q) (q_retired q) (q_retired_count q)
    (<[tid := mkProducer slot pc]> (q_producers q)) (q_caches q) (q_consumer q).
Definition with_mem (q : Queue) (heap : gmap Z Node) (tail : Z) : Queue :=
  mkQueue heap tail (q_slots_used q) (q_hazards q) (q_head q) (q_retired q) (q_retired_count q)
    (q_producers q) (q_caches q) (q_consumer q).
Definition with_slots (q : Queue) (used : nat) (hazards : gmap nat Z) : Queue :=
  mkQueue (q_heap q) (q_tail q) used hazards (q_head q) (q_retired q) (q_retired_count q)
    (q_producers q) (q_caches q) (q_consumer q).
Definition with_consumer (q : Queue) (c : Consumer) : Queue :=
  mkQueue (q_heap q) (q_tail q) (q_slots_used q) (q_hazards q) (q_head q) (q_retired q) (q_retired_count q)
    (q_producers q) (q_caches q) c.

Definition with_cache (q : Queue) (tid : nat) (cache : SlotCache) : Queue :=
  mkQueue (q_heap q) (q_tail q) (q_slots_used q) (q_hazards q) (q_head q) (q_retired q) (q_retired_count q)
    (q_producers q) (<[tid := cache]> (q_caches q)) (q_consumer q).

(** [compare_exchange_strong] on the tail. *)
Definition cas_tail (q : Queue) (expected desired : Z) : Queue :=
  if q_tail q =? expected then with_mem q (q_heap q) desired else q.

(** [acquire_slot_]; a slot number out of range aborts the process. *)
Definition acquire_slot (q : Queue) (tid : nat) (node : Z) : Queue :=
  let cache := cache_of (q_caches q) tid in
  match find_slot cache with
  | Some s => goto q tid (Some s) (PLoadTail node)
  | None =>
      let s := q_slots_used q in
      let q := with_slots q (S s) (q_hazards q) in
      if (MaxProducers <=? s)%nat then goto q tid None (PAborted node)
      else goto (with_cache q tid (cache ++ [(this, s)])) tid (Some s) (PLoadTail node)
  end.

(** One step of a thread inside [enqueue]. *)
Definition producer_step (tid : nat) (q : Queue) : option (Queue * Event) :=
  let p := producer q tid in
  match pr_pc p, pr_slot p with
  | PIdle, _ | PAborted _, _ => Some (q, Tau)
  | PAcquire node, _ => Some (acquire_slot q tid node, Tau)
  | _, None => None
  | PLoadTail node, slot => Some (goto q tid slot (PStoreHazard node (q_tail q)), Tau)
  | PStoreHazard node t, Some s =>
      Some (goto (with_slots q (q_slots_used q) (<[s := t]> (q_hazards q))) tid (Some s) (PCheckTail node t), Tau)
  | PCheckTail node t, slot =>
      Some (goto q tid slot (if q_tail q =? t then PLoadNext node t else PLoadTail node), Tau)
  | PLoadNext node t, slot =>
      n ← q_heap q !! t;
      Some (goto q tid slot (match nd_next n with
                             | Some t_next => PSwingNext node t t_next
                             | None => PLinkNext node t
                             end), Tau)
  | PSwingNext node t t_next, slot => Some (goto (cas_tail q t t_next) tid slot (PLoadTail node), Tau)
  | PLinkNext node t, slot =>
      n ← q_heap q !! t;
      match nd_next n with
      | Some _ => Some (goto q tid slot (PLoadTail node), Tau)
      | None =>
          v ← q_heap q !! node;
          Some (goto (with_mem q (<[t := mkNode (nd_data n) (Some node)]> (q_heap q)) (q_tail q))
                     tid slot (PSwingNode node t), Enqueued (nd_data v))
      end
  | PSwingNode node t, slot => Some (goto (cas_tail q t node) tid slot PClearHazard, Tau)
  | PClearHazard, Some s =>
      Some (goto (with_slots q (q_slots_used q) (delete s (q_hazards q))) tid (Some s) PIdle, Tau)
  end.

(** [new Node(std::move(value))] at an address that is not in use. *)
Definition start_enqueue (tid : nat) (value : T) (addr : Z) (q : Queue) : Queue :=
  goto (with_mem q (<[addr := mkNode value None]> (q_heap q)) (q_tail q)) tid
       (pr_slot (producer q tid)) (PAcquire addr).

(** The node at the head leaves the queue. *)
Definition retire_head (q : Queue) (next : Z) : Queue :=
  mkQueue (q_heap q) (q_tail q) (q_slots_used q) (q_hazards q) next
    (q_head q :: q_retired q) (S (q_retired_count q)) (q_producers q) (q_caches q)
    (if (2 * MaxProducers <=? S (q_retired_count q))%nat then CReclaim else CIdle).

(** One step of the consumer; at [CIdle] it is the first of a call to
    [try_dequeue]. *)
Definition consumer_step (q : Queue) : option (Queue * Event) :=
  match q_consumer q with
  | CIdle =>
      n ← q_heap q !! q_head q;
      match nd_next n with
      | None => Some (q, Empty)
      | Some next => Some (with_consumer q (CLoadTail next), Tau)
      end
  | CLoadTail next => Some (with_consumer q (if q_tail q =? q_head q then CSwing next else CTake next), Tau)
  | CSwing next => Some (with_consumer (cas_tail q (q_head q) next) (CTake next), Tau)
  | CTake next =>
      n ← q_heap q !! next;
      Some (retire_head q next, Dequeued (nd_data n))
  | CReclaim => Some (with_consumer q (CScan (Nat.min (q_slots_used q) MaxProducers) 0 []), Tau)
  | CScan used i snapshot =>
      if (i <? used)%nat then
        Some (with_consumer q (CScan used (S i) (match q_hazards q !! i with
                                                 | Some p => snapshot ++ [p] | None => snapshot end)), Tau)
      else Some (with_consumer q (CFree snapshot (q_retired q) [] 0), Tau)
  | CFree snapshot [] survivors kept =>
      Some (mkQueue (q_heap q) (q_tail q) (q_slots_used q) (q_hazards q) (q_head q) survivors kept
              (q_producers q) (q_caches q) CIdle, Tau)
  | CFree snapshot (cur :: rest) survivors kept =>
      if bool_decide (cur ∈ snapshot) then
        Some (with_consumer q (CFree snapshot rest (cur :: survivors) (S kept)), Tau)
      else
        _ ← q_heap q !! cur;
        Some (with_consumer (with_mem q (delete cur (q_heap q)) (q_tail q)) (CFree snapshot rest survivors kept), Tau)
  end.

Inductive QStep : Queue -> Event -> Queue -> Prop :=
| q_start q tid value addr :
    pr_pc (producer q tid) = PIdle -> q_heap q !! addr = None ->
    QStep q Tau (start_enqueue tid value addr q)
| q_producer q tid q' e : producer_step tid q = Some (q', e) -> QStep q e q'
| q_consumer_step q q' e : consumer_step q = Some (q', e) -> QStep q e q'.

Inductive QReach (q0 : Queue) : Queue -> Prop :=
| q_here : QReach q0 q0
| q_step q e q' : QReach q0 q -> QStep q e q' -> QReach q0 q'.

(** The destructor frees the retired nodes and the one at the head, after the calls
    that empty the queue. *)
Definition destroy_list (q : Queue) : list Z := q_retired q ++ [q_head q].
Fixpoint release (addrs : list Z) (heap : gmap Z Node) : option (gmap Z Node) :=
  match addrs with
  | [] => Some heap
  | a :: addrs => _ ← heap !! a; release addrs (delete a heap)
  end.

(** ** What the callers see *)

Fixpoint follow (fuel : nat) (heap : gmap Z Node) (next : option Z) : list T :=
  match fuel, next with
  | S fuel, Some a =>
      match heap !! a with Some n => nd_data n :: follow fuel heap (nd_next n) | None => [] end
  | _, _ => []
  end.
(** The values in the nodes after the head. *)
Definition contents (q : Queue) : list T :=
  match q_heap q !! q_head q with
  | Some n => follow (size (q_heap q)) (q_heap q) (nd_next n)
  | None => []
  end.

(** The abstract queue: first in, first out. *)
Definition fifo_step (l : list T) (e : Event) (l' : list T) : Prop :=
  match e with
  | Tau => l' = l
  | Enqueued v => l' = l ++ [v]
  | Dequeued v => l = v :: l'
  | Empty => l = [] /\ l' = []
  end.

(** ** Invariant *)

(** The node a thread has allocated and not linked yet. *)
Definition pending (pc : ProducerPc) : option Z :=
  match pc with
  | PAcquire n | PLoadTail n | PStoreHazard n _ | PCheckTail n _ | PLoadNext n _
  | PSwingNext n _ _ | PLinkNext n _ | PAborted n => Some n
  | PIdle | PSwingNode _ _ | PClearHazard => None
  end.
(** The node that is in its hazard slot, and the one it may dereference. *)
Definition published (pc : ProducerPc) : option Z :=
  match pc with
  | PCheckTail _ t | PLoadNext _ t | PSwingNext _ t _ | PLinkNext _ t | PSwingNode _ t => Some t
  | _ => None
  end.
Definition protected (pc : ProducerPc) : option Z :=
  match pc with
  | PLoadNext _ t | PSwingNext _ t _ | PLinkNext _ t | PSwingNode _ t => Some t
  | _ => None
  end.
(** The link it has seen or made. *)
Definition link_seen (pc : ProducerPc) : option (Z * Z) :=
  match pc with
  | PSwingNext _ t t_next => Some (t, t_next)
  | PSwingNode node t => Some (t, node)
  | _ => None
  end.
Definition needs_slot (pc : ProducerPc) : bool :=
  match pc with PIdle | PAcquire _ | PAborted _ => false | _ => true end.

(** The retired nodes that are not freed yet. *)
Definition retired (q : Queue) : list Z :=
  match q_consumer q with CFree _ cur survivors _ => cur ++ survivors | _ => q_retired q end.
(** The consumer will find the node in the slot, or has found it. *)
Definition guarded (c : Consumer) (s : nat) (t : Z) : Prop :=
  match c with
  | CScan used i snapshot => (s < used)%nat /\ ((s < i)%nat -> t ∈ snapshot)
  | CFree snapshot _ _ _ => t ∈ snapshot
  | _ => True
  end.

(** [c] are the nodes from the head on, linked in this order. *)
Definition linked (heap : gmap Z Node) (c : list Z) : Prop :=
  forall i a, c !! i = Some a -> exists v, heap !! a = Some (mkNode v (c !! S i)).

Record thread_ok (q : Queue) (c : list Z) (p : Producer) : Prop := mkThreadOk {
  t_pending node : pending (pr_pc p) = Some node ->
    (exists v, q_heap q !! node = Some (mkNode v None)) /\ node ∉ c ++ retired q;
  t_slot s : pr_slot p = Some s -> (s < q_slots_used q)%nat /\ (s < MaxProducers)%nat;
  t_has_slot : needs_slot (pr_pc p) = true -> is_Some (pr_slot p);
  t_hazard s t : pr_slot p = Some s -> published (pr_pc p) = Some t -> q_hazards q !! s = Some t;
  t_protected s t : pr_slot p = Some s -> protected (pr_pc p) = Some t ->
    (exists n, q_heap q !! t = Some n /\ (nd_next n = None -> q_tail q = t))
    /\ (t ∈ retired q -> guarded (q_consumer q) s t);
  t_link t x : link_seen (pr_pc p) = Some (t, x) -> exists v, q_heap q !! t = Some (mkNode v (Some x));
}.

(** The invariant, for all threads but [out]; [x] is the node that this thread owns. *)
Record Inv (q : Queue) (c : list Z) (out : option nat) (x : option Z) : Prop := mkInv {
  i_head : head c = Some (q_head q);
  i_linked : linked (q_heap q) c;
  i_tail : exists pre, c = pre ++ [q_tail q] \/ exists y, c = pre ++ [q_tail q; y];
  i_nodup : NoDup (c ++ retired q);
  i_retired a : a ∈ retired q -> is_Some (q_heap q !! a);
  i_consumer : match q_consumer q with
               | CLoadTail next | CSwing next => c !! 1%nat = Some next
               | CTake next => c !! 1%nat = Some next /\ q_tail q <> q_head q
               | _ => True
               end;
  i_threads tid : Some tid <> out -> thread_ok q c (producer q tid);
  i_slots tid tid' s : Some tid <> out -> Some tid' <> out ->
    pr_slot (producer q tid) = Some s -> pr_slot (producer q tid') = Some s -> tid = tid';
  i_cache tid : Some tid <> out -> find_slot (cache_of (q_caches q) tid) = pr_slot (producer q tid);
  i_nodes tid tid' n : Some tid <> out -> Some tid' <> out ->
    pending (pr_pc (producer q tid)) = Some n -> pending (pr_pc (producer q tid')) = Some n -> tid = tid';
  i_owned a : is_Some (q_heap q !! a) -> a ∈ c ++ retired q \/ x = Some a
    \/ exists tid, Some tid <> out /\ pending (pr_pc (producer q tid)) = Some a;
}.

Lemma protected_published pc t : protected pc = Some t -> published pc = Some t.
Proof. by destruct pc. Qed.
Lemma link_protected pc t x : link_seen pc = Some (t, x) -> protected pc = Some t /\ needs_slot pc = true.
Proof. destruct pc; try done; by intros [= -> ->]. Qed.

(** ** Lemmas: lists of linked nodes *)

Lemma linked_heap heap heap' c :
  linked heap c -> (forall a, a ∈ c -> heap' !! a = heap !! a) -> linked heap' c.
Proof.
  intros L H i a E. destruct (L i a E) as [v Hv]. exists v. rewrite H; [done|]. by eapply list_elem_of_lookup_2.
Qed.

Lemma linked_some heap c a : linked heap c -> a ∈ c -> is_Some (heap !! a).
Proof. intros L [i E]%list_elem_of_lookup. destruct (L i a E) as [v ->]. done. Qed.

(** The last node is the one without a successor. *)
Lemma linked_snoc heap c t node v w :
  linked heap (c ++ [t]) -> NoDup (c ++ [t; node]) -> heap !! node = Some (mkNode v None) ->
  heap !! t = Some w -> linked (<[t := mkNode (nd_data w) (Some node)]> heap) (c ++ [t; node]).
Proof.
  intros L ND Hn Ht i a E.
  assert (t <> node) as Hne. { intros ->. apply NoDup_app in ND as (_ & _ & [H _]%NoDup_cons). set_solver. }
  destruct (decide (i < length c)%nat) as [Hi|Hi].
  - rewrite lookup_app_l in E by done.
    assert (a <> t) as Ha. { intros ->. apply NoDup_app in ND as (_ & H & _). eapply H; [by eapply list_elem_of_lookup_2|set_solver]. }
    destruct (L i a) as [u Hu]; [by rewrite lookup_app_l|]. exists u. rewrite lookup_insert_ne by done. rewrite Hu.
    do 2 f_equal. destruct (decide (S i < length c)%nat).
    + by rewrite !lookup_app_l by done.
    + rewrite !lookup_app_r by lia. by replace (S i - length c)%nat with 0%nat by lia.
  - rewrite lookup_app_r in E by lia. destruct (i - length c)%nat as [|[|k]] eqn:Ek; [| |done]; injection E as <-.
    + exists (nd_data w). rewrite lookup_insert_eq. rewrite lookup_app_r by lia.
      by replace (S i - length c)%nat with 1%nat by lia.
    + exists v. rewrite lookup_insert_ne by done. rewrite Hn. rewrite lookup_app_r by lia.
      by replace (S i - length c)%nat with 2%nat by lia.
Qed.

(** ** Lemmas: one thread out of the others *)

Lemma producer_goto q tid slot pc tid' :
  producer (goto q tid slot pc) tid' = if decide (tid = tid') then mkProducer slot pc else producer q tid'.
Proof. unfold producer, goto. cbn. rewrite lookup_insert. by case_decide. Qed.

Lemma inv_take q c tid :
  Inv q c None None -> Inv q c (Some tid) (pending (pr_pc (producer q tid))).
Proof.
  intros I. split; try apply I; try done.
  - intros tid' _. by apply I.
  - intros t1 t2 s _ _. by apply I.
  - intros t _. by apply I.
  - intros t1 t2 n _ _. by apply I.
  - intros a Ha. destruct (i_owned _ _ _ _ I a Ha) as [?|[?|(t & _ & Ht)]]; [by left|done|].
    right. destruct (decide (t = tid)) as [->|Hne]; [by left|right]. exists t. split; [congruence|done].
Qed.

Lemma inv_put q c tid slot pc :
  Inv q c (Some tid) (pending pc) -> thread_ok q c (mkProducer slot pc) ->
  find_slot (cache_of (q_caches q) tid) = slot ->
  (forall s tid', tid' <> tid -> slot = Some s -> pr_slot (producer q tid') <> Some s) ->
  (forall n tid', tid' <> tid -> pending pc = Some n -> pending (pr_pc (producer q tid')) <> Some n) ->
  Inv (goto q tid slot pc) c None None.
Proof.
  intros I O Hc Hs Hn. split; try apply I.
  - intros tid' _. rewrite producer_goto. case_decide as E.
    + destruct O. by split.
    + destruct (i_threads _ _ _ _ I tid'); [congruence|]. by split.
  - clear Hc. intros t1 t2 s _ _. rewrite !producer_goto. repeat case_decide; cbn; subst; try done.
    + intros -> E2. exfalso. by apply (Hs s t2).
    + intros E1 ->. exfalso. by apply (Hs s t1).
    + apply (i_slots _ _ _ _ I); congruence.
  - intros t _. rewrite producer_goto. case_decide; [by subst|]. apply (i_cache _ _ _ _ I). congruence.
  - clear Hc. intros t1 t2 n _ _. rewrite !producer_goto. repeat case_decide; cbn; subst; try done.
    + intros E1 E2. exfalso. by apply (Hn n t2).
    + intros E1 E2. exfalso. by apply (Hn n t1).
    + apply (i_nodes _ _ _ _ I); congruence.
  - intros a Ha. destruct (i_owned _ _ _ _ I a Ha) as [?|[E|(t & Ht & Et)]]; [by left|..]; right; right.
    + exists tid. split; [done|]. rewrite producer_goto. by rewrite decide_True.
    + exists t. split; [done|]. rewrite producer_goto. rewrite decide_False by congruence. done.
Qed.

(** A step that only moves a thread, or makes it forget its node once that is in the
    chain. *)
Lemma inv_goto q c tid pc :
  let p := producer q tid in
  Inv q c None None -> pending pc = pending (pr_pc p) -> thread_ok q c (mkProducer (pr_slot p) pc) ->
  Inv (goto q tid (pr_slot p) pc) c None None.
Proof.
  intros p I Hp O. apply inv_put; [rewrite Hp; by apply inv_take|done|by apply (i_cache _ _ _ _ I)|..].
  - intros s t Hne E1 E2. by apply Hne, (i_slots _ _ _ _ I t tid s).
  - intros n t Hne. rewrite Hp. intros E1 E2. by apply Hne, (i_nodes _ _ _ _ I t tid n).
Qed.

(** ** Lemmas: changes of the shared state *)

Lemma tail_in_chain q c out x : Inv q c out x -> q_tail q ∈ c.
Proof. intros I. destruct (i_tail _ _ _ _ I) as [pre [->|[y ->]]]; set_solver. Qed.

Lemma chain_some q c out x a : Inv q c out x -> a ∈ c ++ retired q -> is_Some (q_heap q !! a).
Proof.
  intros I [H|H]%elem_of_app; [|by apply I]. eapply linked_some; [apply I|done].
Qed.

(** The last node of the chain is the tail or its successor. *)
Lemma tail_last q c out x v :
  Inv q c out x -> q_heap q !! q_tail q = Some (mkNode v None) -> exists pre, c = pre ++ [q_tail q].
Proof.
  intros I E. destruct (i_tail _ _ _ _ I) as [pre [->|[y ->]]]; [by exists pre|].
  destruct (i_linked _ _ _ _ I (length pre) (q_tail q)) as [w Hw]; [by rewrite lookup_app_r, Nat.sub_diag by lia|].
  rewrite E, lookup_app_r in Hw by lia. by replace (S (length pre) - length pre)%nat with 1%nat in Hw by lia.
Qed.
Lemma tail_next q c out x v y :
  Inv q c out x -> q_heap q !! q_tail q = Some (mkNode v (Some y)) -> exists pre, c = pre ++ [q_tail q; y].
Proof.
  intros I E. destruct (i_tail _ _ _ _ I) as [pre [->|[z ->]]];
    (destruct (i_linked _ _ _ _ I (length pre) (q_tail q)) as [w Hw]; [by rewrite lookup_app_r, Nat.sub_diag by lia|]);
    rewrite E, lookup_app_r in Hw by lia; replace (S (length pre) - length pre)%nat with 1%nat in Hw by lia;
    cbn in Hw.
  - discriminate.
  - injection Hw as _ ->. by exists pre.
Qed.

Lemma inv_cas_tail q c out x t y v :
  Inv q c out x -> q_heap q !! t = Some (mkNode v (Some y)) -> Inv (cas_tail q t y) c out x.
Proof.
  intros I E. unfold cas_tail. destruct (Z.eqb_spec (q_tail q) t) as [<-|]; [|done].
  destruct (tail_next q c out x v y I E) as [pre Ec].
  assert (forall tid, Some tid <> out -> thread_ok (with_mem q (q_heap q) y) c (producer q tid)) as Ht.
  { intros tid Hne. destruct (i_threads _ _ _ _ I tid Hne) as [? ? ? ? P ?]. split; try done.
    intros s t Hs Hp. destruct (P s t Hs Hp) as [(n & Hn & Hl) G]. split; [|done].
    exists n. split; [done|]. intros Hnone. specialize (Hl Hnone). subst t.
    rewrite E in Hn. injection Hn as <-. discriminate Hnone. }
  split; try apply I; try done.
  - cbn. exists (pre ++ [q_tail q]). left. by rewrite <- app_assoc.
  - pose proof (i_consumer _ _ _ _ I) as C. cbn. destruct (q_consumer q); try done. destruct C as [C1 _].
    split; [done|]. intros ->. pose proof (i_head _ _ _ _ I) as H.
    pose proof (i_nodup _ _ _ _ I) as ND. apply NoDup_app in ND as (ND & _ & _). rewrite Ec in H, ND.
    destruct pre as [|a pre]; cbn in H, ND; injection H as H; rewrite H in ND; apply NoDup_cons in ND as [ND _]; set_solver.
Qed.

(** A hazard slot of no other thread, and the count of slots. *)
Lemma inv_slots q c out x s used hazards :
  Inv q c out x -> (q_slots_used q <= used)%nat ->
  (forall s', s' <> s -> hazards !! s' = q_hazards q !! s') ->
  (forall tid, Some tid <> out -> pr_slot (producer q tid) <> Some s) ->
  Inv (with_slots q used hazards) c out x.
Proof.
  intros I Hu Hh Hs. split; try apply I.
  intros tid Hne. destruct (i_threads _ _ _ _ I tid Hne) as [? S1 ? H1 ? ?]. split; try done.
  - intros s' E. destruct (S1 s' E). cbn. split; [lia|done].
  - intros s' t E Hp. cbn. rewrite Hh; [by apply H1|]. intros ->. by apply (Hs tid Hne).
Qed.

Lemma inv_with_cache q c tid x cache : Inv q c (Some tid) x -> Inv (with_cache q tid cache) c (Some tid) x.
Proof.
  intros I. split; try apply I.
  - intros t Ht. destruct (i_threads _ _ _ _ I t Ht). by split.
  - intros t Ht. cbn. unfold cache_of. rewrite lookup_insert_ne by congruence. by apply (i_cache _ _ _ _ I).
Qed.
Lemma find_slot_snoc cache s : find_slot cache = None -> find_slot (cache ++ [(this, s)]) = Some s.
Proof.
  induction cache as [|[q s'] cache IH]; cbn; [by rewrite Z.eqb_refl|]. by destruct (q =? this).
Qed.

Lemma inv_alloc q c tid addr v :
  Inv q c (Some tid) None -> q_heap q !! addr = None ->
  Inv (with_mem q (<[addr := mkNode v None]> (q_heap q)) (q_tail q)) c (Some tid) (Some addr).
Proof.
  intros I Hf.
  assert (forall a, is_Some (q_heap q !! a) -> a <> addr) as Hne.
  { intros a [n Hn] ->. congruence. }
  split; try apply I; cbn.
  - eapply linked_heap; [apply I|]. intros a Ha. apply lookup_insert_ne, not_eq_sym, Hne.
    eapply chain_some; [exact I|]. set_solver.
  - intros a Ha. rewrite lookup_insert_ne by (apply not_eq_sym, Hne; by apply I). by apply I.
  - intros tid' Hn. destruct (i_threads _ _ _ _ I tid' Hn) as [P1 ? ? ? P2 P3]. split; try done; cbn.
    + intros n Hp. destruct (P1 n Hp) as [[w Hw] Hc]. split; [|done]. exists w.
      rewrite lookup_insert_ne; [done|]. apply not_eq_sym, Hne. by rewrite Hw.
    + intros s t Hs Hp. destruct (P2 s t Hs Hp) as [(n & Ht & Hl) G]. split; [|done]. exists n.
      rewrite lookup_insert_ne by (apply not_eq_sym, Hne; by rewrite Ht). done.
    + intros t y Hl. destruct (P3 t y Hl) as [w Hw]. exists w.
      rewrite lookup_insert_ne by (apply not_eq_sym, Hne; by rewrite Hw). done.
  - intros a. rewrite lookup_insert. case_decide as E; [subst; auto|].
    intros Ha. destruct (i_owned _ _ _ _ I a Ha) as [?|[?|?]]; auto; done.
Qed.

(** Linking a node behind the last one. *)
Lemma inv_link q c tid node v w :
  Inv q c (Some tid) (Some node) ->
  q_heap q !! node = Some (mkNode v None) -> node ∉ c ++ retired q ->
  (forall tid', tid' <> tid -> pending (pr_pc (producer q tid')) <> Some node) ->
  q_heap q !! q_tail q = Some (mkNode w None) ->
  Inv (with_mem q (<[q_tail q := mkNode w (Some node)]> (q_heap q)) (q_tail q)) (c ++ [node]) (Some tid) None.
Proof.
  intros I Hn Hc Hp Ht. destruct (tail_last q c _ _ w I Ht) as [pre Ec].
  pose proof (tail_in_chain q c _ _ I) as Htc.
  assert (NoDup ((c ++ [node]) ++ retired q)) as ND.
  { rewrite <- app_assoc. apply (NoDup_Permutation_proper (node :: c ++ retired q)).
    - cbn. by rewrite (Permutation_middle c (retired q) node).
    - apply NoDup_cons. split; [done|apply I]. }
  assert (forall a, a ∉ c ++ retired q -> a <> q_tail q) as Hne by (intros a Ha ->; set_solver).
  split; try apply I; cbn; try done.
  - rewrite Ec. pose proof (i_head _ _ _ _ I) as H. rewrite Ec in H. by destruct pre.
  - pose proof (i_linked _ _ _ _ I) as L. apply NoDup_app in ND as (ND & _ & _).
    rewrite Ec in L. rewrite Ec, <- app_assoc in ND. rewrite Ec, <- app_assoc.
    by apply (linked_snoc _ pre _ node v (mkNode w None)).
  - exists pre. right. exists node. by rewrite Ec, <- app_assoc.
  - intros a Ha. rewrite lookup_insert. case_decide; [done|by apply I].
  - pose proof (i_consumer _ _ _ _ I) as C.
    destruct (q_consumer q); try done; [| |destruct C as [C ?]; split; [|done]]; by apply lookup_app_l_Some.
  - intros tid' Hn'. destruct (i_threads _ _ _ _ I tid' Hn') as [P1 ? ? ? P2 P3]. split; try done; cbn.
    + intros n E. destruct (P1 n E) as [[u Hu] Hc']. assert (n <> node) as Hnn.
      { intros ->. apply (Hp tid'); [congruence|done]. }
      split; [|set_solver]. exists u. by rewrite lookup_insert_ne by (apply not_eq_sym, Hne; set_solver).
    + intros s t Hs E. destruct (P2 s t Hs E) as [(n & Hn1 & Hl) G]. split; [|done]. rewrite lookup_insert.
      case_decide; [by eexists|]. by exists n.
    + intros t y Hl. destruct (P3 t y Hl) as [u Hu]. exists u. rewrite lookup_insert_ne; [done|]. congruence.
  - intros a. rewrite lookup_insert. case_decide as E; [subst a; intros _; left; set_solver|].
    intros Ha. destruct (i_owned _ _ _ _ I a Ha) as [?|[[= <-]|?]]; [left; set_solver|left; set_solver|auto].
Qed.

(** ** Lemmas: the steps of a producer *)

(** What a step does to the chain and to the values in it. *)
Definition chain_step (q : Queue) (c : list Z) (e : Event) (q' : Queue) (c' : list Z) : Prop :=
  (forall a, a ∈ c' -> a ∈ c -> nd_data <$> q_heap q' !! a = nd_data <$> q_heap q !! a) /\
  match e with
  | Tau => c' = c
  | Enqueued v => exists node, c' = c ++ [node] /\ nd_data <$> q_heap q' !! node = Some v
  | Dequeued v => exists h next r, c = h :: next :: r /\ c' = next :: r /\ nd_data <$> q_heap q !! next = Some v
  | Empty => c' = c /\ exists h, c = [h]
  end.

Lemma chain_step_tau q c q' : q_heap q' = q_heap q -> chain_step q c Tau q' c.
Proof. intros E. split; [|done]. by rewrite E. Qed.

Lemma heap_cas_tail q t y : q_heap (cas_tail q t y) = q_heap q.
Proof. unfold cas_tail. by destruct (q_tail q =? t). Qed.
Lemma producer_cas_tail q t y tid : producer (cas_tail q t y) tid = producer q tid.
Proof. unfold cas_tail. by destruct (q_tail q =? t). Qed.

(** The steps that only read, and so only move the thread. *)
Lemma inv_move q c tid slot pc pc' :
  Inv q c None None -> producer q tid = mkProducer slot pc -> pending pc' = pending pc ->
  thread_ok q c (mkProducer slot pc') -> Inv (goto q tid slot pc') c None None.
Proof.
  intros I Ep Hp O. pose proof (inv_goto q c tid pc' I) as H. cbv zeta in H. rewrite Ep in H. by apply H.
Qed.

Lemma inv_acquire q c tid cached node :
  Inv q c None None -> producer q tid = mkProducer cached (PAcquire node) ->
  Inv (acquire_slot q tid node) c None None.
Proof.
  intros I Ep. pose proof (i_threads _ _ _ _ I tid) as O. rewrite Ep in O. destruct O as [P1 S1 _ _ _ _]; [done|].
  pose proof (i_cache _ _ _ _ I tid ltac:(done)) as Hcache. rewrite Ep in Hcache. cbn in Hcache.
  unfold acquire_slot. rewrite Hcache. destruct cached as [s|].
  - eapply inv_move; [done..|]. by split.
  - assert (forall tid', Some tid' <> (None : option nat) -> pr_slot (producer q tid') <> Some (q_slots_used q)) as Hf.
    { intros t _ E. destruct (t_slot _ _ _ (i_threads _ _ _ _ I t ltac:(done)) _ E). lia. }
    assert (Inv (with_slots q (S (q_slots_used q)) (q_hazards q)) c None None) as I'.
    { eapply inv_slots; [done|lia|done|exact Hf]. }
    destruct (Nat.leb_spec MaxProducers (q_slots_used q)).
    + eapply inv_move; [done|exact Ep|done|by split].
    + apply inv_put; [|split; cbn; try done| | |].
      * apply inv_with_cache. pose proof (inv_take _ c tid I') as I2.
        change (producer _ tid) with (producer q tid) in I2. by rewrite Ep in I2.
      * intros s [= <-]. lia.
      * cbn. unfold cache_of at 1. rewrite lookup_insert_eq. by apply find_slot_snoc.
      * intros s t Hne [= <-]. by apply Hf.
      * intros n t Hne E1 E2. apply Hne, (i_nodes _ _ _ _ I t tid n); [done..|]. by rewrite Ep.
Qed.

(** A compare-and-swap of the tail along a link the thread knows, and its next
    program point. *)
Lemma inv_swing q c tid slot pc pc' t y v :
  Inv q c None None -> producer q tid = mkProducer slot pc -> q_heap q !! t = Some (mkNode v (Some y)) ->
  pending pc' = pending pc -> published pc' = None -> needs_slot pc = true ->
  Inv (goto (cas_tail q t y) tid slot pc') c None None.
Proof.
  intros I Ep Et Hp Hpub Hs. pose proof (inv_cas_tail q c None None t y v I Et) as I'.
  eapply inv_move; [done|by rewrite producer_cas_tail|done|].
  pose proof (i_threads _ _ _ _ I' tid) as O. rewrite producer_cas_tail, Ep in O. destruct O as [P1 S1 HS _ _ _]; [done|].
  split; cbn in *.
  - rewrite Hp. exact P1.
  - exact S1.
  - intros _. by apply HS.
  - by rewrite Hpub.
  - intros s u _ E. by destruct pc'.
  - intros u w E. by destruct pc'.
Qed.

(** The slot a thread has is the one it finds. *)
Lemma slot_cached q c tid slot pc :
  Inv q c None None -> producer q tid = mkProducer slot pc -> find_slot (cache_of (q_caches q) tid) = slot.
Proof. intros I Ep. rewrite (i_cache _ _ _ _ I tid) by done. by rewrite Ep. Qed.

(** The link itself. *)
Lemma inv_publish q c tid slot node t n v :
  Inv q c None None -> producer q tid = mkProducer slot (PLinkNext node t) ->
  q_heap q !! t = Some n -> nd_next n = None -> q_heap q !! node = Some v ->
  let q' := goto (with_mem q (<[t := mkNode (nd_data n) (Some node)]> (q_heap q)) (q_tail q)) tid slot (PSwingNode node t) in
  Inv q' (c ++ [node]) None None /\ chain_step q c (Enqueued (nd_data v)) q' (c ++ [node]).
Proof.
  intros I Ep Et Hnone Ev q'. pose proof (i_threads _ _ _ _ I tid) as O. rewrite Ep in O.
  destruct O as [P1 S1 HS H1 P2 _]; [done|]. cbn in *. destruct (HS eq_refl) as [s ->].
  destruct (P1 node eq_refl) as [[w Hw] Hc]. rewrite Ev in Hw. injection Hw as ->. cbn.
  destruct (P2 s t eq_refl eq_refl) as [(n0 & Hn0 & Hl) G]. rewrite Et in Hn0. injection Hn0 as <-.
  specialize (Hl Hnone). subst t. destruct n as [d nx]. cbn in *. subst nx.
  pose proof (inv_take q c tid I) as It. rewrite Ep in It. cbn in It.
  assert (forall t', t' <> tid -> pending (pr_pc (producer q t')) <> Some node) as Hother.
  { intros t' Hne E. apply Hne, (i_nodes _ _ _ _ I t' tid node); [done..|]. by rewrite Ep. }
  pose proof (inv_link q c tid node w d It Ev Hc Hother Et) as I'.
  assert (node <> q_tail q) as Hnt.
  { intros ->. apply Hc, elem_of_app. left. by eapply tail_in_chain. }
  split.
  - apply inv_put; cbn; try done.
    + split; cbn; try done.
      * intros s' t' Hs [= <-]. split; [|apply (P2 s' _ Hs eq_refl)].
        exists (mkNode d (Some node)). split; [apply lookup_insert_eq|done].
      * intros t' y [= <- <-]. exists d. apply lookup_insert_eq.
    + by apply (slot_cached q c tid _ _ I Ep).
    + intros s' t' Hne [= <-] E2. apply Hne, (i_slots _ _ _ _ I t' tid s); [done..|]. by rewrite Ep.
  - split; cbn.
    + intros a _ _. rewrite lookup_insert. case_decide as E; [|done]. subst a. by rewrite Et.
    + exists node. split; [done|]. rewrite lookup_insert_ne by done. by rewrite Ev.
Qed.

(** Writing one's own hazard slot. *)
Lemma inv_hazard q c tid s pc pc' hazards :
  Inv q c None None -> producer q tid = mkProducer (Some s) pc -> pending pc' = pending pc ->
  (forall s', s' <> s -> hazards !! s' = q_hazards q !! s') ->
  thread_ok (with_slots q (q_slots_used q) hazards) c (mkProducer (Some s) pc') ->
  Inv (goto (with_slots q (q_slots_used q) hazards) tid (Some s) pc') c None None.
Proof.
  intros I Ep Hp Hh O.
  assert (forall t, t <> tid -> pr_slot (producer q t) <> Some s) as Hs.
  { intros t Hne E. apply Hne, (i_slots _ _ _ _ I t tid s); [done..|]. by rewrite Ep. }
  apply inv_put; [|done|by apply (slot_cached q c tid _ _ I Ep)| |].
  - eapply inv_slots; [|done|exact Hh|].
    + pose proof (inv_take q c tid I) as It. rewrite Ep in It. by rewrite Hp.
    + intros t Hne. apply Hs. congruence.
  - intros s' t Hne [= <-]. by apply Hs.
  - intros n t Hne. rewrite Hp. intros E1 E2. apply Hne, (i_nodes _ _ _ _ I t tid n); [done..|]. by rewrite Ep.
Qed.

Lemma inv_producer_step q c tid :
  Inv q c None None -> exists q' e c', producer_step tid q = Some (q', e) /\ Inv q' c' None None /\ chain_step q c e q' c'.
Proof.
  intros I. pose proof (i_threads _ _ _ _ I tid) as O. specialize (O ltac:(done)).
  unfold producer_step. destruct (producer q tid) as [slot pc] eqn:Ep. cbn [pr_pc pr_slot].
  destruct O as [P1 S1 HS H1 P2 P3]. cbn in *.
  destruct pc as [|node|node|node t|node t|node t|node t t_next|node t|node t| |node]; cbn in *.
  1, 11: by do 3 eexists; split; [done|]; split; [exact I|apply chain_step_tau].
  1: { do 3 eexists; split; [done|]; split; [by eapply inv_acquire|]. apply chain_step_tau.
       unfold acquire_slot. destruct (find_slot _); [done|]. by destruct (_ <=? _)%nat. }
  all: destruct (HS eq_refl) as [s ->].
  - do 3 eexists; split; [done|]; split; [|by apply chain_step_tau]. eapply inv_move; [done..|]. by split.
  - do 3 eexists; split; [done|]; split; [|by apply chain_step_tau].
    eapply inv_hazard; [done..|intros; by apply lookup_insert_ne|]. split; cbn; try done.
    intros s' u [= <-] [= <-]. apply lookup_insert_eq.
  - do 3 eexists; split; [done|]; split; [|by apply chain_step_tau]. eapply inv_move; [done..| |].
    + by destruct (q_tail q =? t).
    + destruct (Z.eqb_spec (q_tail q) t) as [<-|]; [|by split]. split; cbn; try done.
      intros s' u Hs [= <-]. pose proof (tail_in_chain q c _ _ I) as Ht. split.
      * destruct (chain_some q c _ _ (q_tail q) I) as [n Hn]; [set_solver|]. by exists n.
      * intros Hr. pose proof (i_nodup _ _ _ _ I) as ND. apply NoDup_app in ND as (_ & ND & _). by destruct (ND _ Ht).
  - destruct (P2 s t eq_refl eq_refl) as [([d nx] & Hn & Hl) G]. rewrite Hn. cbn.
    do 3 eexists; split; [done|]; split; [|by apply chain_step_tau].
    eapply inv_move; [done|done|by destruct nx|]. destruct nx as [x|]; split; cbn; try done.
    intros u y [= <- <-]. by exists d.
  - destruct (P3 t t_next eq_refl) as [v Hv].
    do 3 eexists; split; [done|]; split; [by eapply inv_swing|]. apply chain_step_tau. apply heap_cas_tail.
  - destruct (P2 s t eq_refl eq_refl) as [(n & Hn & Hl) G]. rewrite Hn. cbn.
    destruct (nd_next n) as [x|] eqn:En.
    + do 3 eexists; split; [done|]; split; [|by apply chain_step_tau]. eapply inv_move; [done..|]. by split.
    + destruct (P1 node eq_refl) as [[w Hw] _]. rewrite Hw. cbn. do 3 eexists; split; [done|].
      by eapply (inv_publish q c tid (Some s) node t n (mkNode w None)).
  - destruct (P3 t node eq_refl) as [v Hv].
    do 3 eexists; split; [done|]; split; [by eapply inv_swing|]. apply chain_step_tau. apply heap_cas_tail.
  - do 3 eexists; split; [done|]; split; [|by apply chain_step_tau].
    eapply inv_hazard; [done..|intros; by apply lookup_delete_ne|]. by split.
Qed.

Lemma inv_start_enqueue q c tid value addr :
  Inv q c None None -> pr_pc (producer q tid) = PIdle -> q_heap q !! addr = None ->
  Inv (start_enqueue tid value addr q) c None None /\ chain_step q c Tau (start_enqueue tid value addr q) c.
Proof.
  intros I Ep Hf. unfold start_enqueue. pose proof (i_threads _ _ _ _ I tid) as O.
  destruct (producer q tid) as [slot pc] eqn:E. cbn in *. subst pc. destruct O as [_ S1 _ _ _ _]; [done|].
  assert (addr ∉ c ++ retired q) as Hc.
  { intros [n Hn]%(chain_some q c _ _ _ I). congruence. }
  pose proof (inv_take q c tid I) as It. rewrite E in It. split.
  - apply inv_put; [by apply inv_alloc| |..]; cbn.
    + split; cbn; try done. intros n [= <-]. split; [|done]. exists value. apply lookup_insert_eq.
    + by apply (slot_cached q c tid _ _ I E).
    + intros s t Hne -> E2. apply Hne, (i_slots _ _ _ _ I t tid s); [done..|]. by rewrite E.
    + intros n t Hne [= <-] E2. destruct (t_pending _ _ _ (i_threads _ _ _ _ I t ltac:(done)) _ E2) as [[v Hv] _]. congruence.
  - split; [|done]. intros a _ Ha. cbn. rewrite lookup_insert_ne; [done|]. intros ->. set_solver.
Qed.

(** ** Lemmas: the steps of the consumer *)

(** A step that changes the consumer only. *)
Lemma inv_consumer q c k :
  Inv q c None None -> retired (with_consumer q k) ≡ₚ retired q ->
  (match k with
   | CLoadTail next | CSwing next => c !! 1%nat = Some next
   | CTake next => c !! 1%nat = Some next /\ q_tail q <> q_head q
   | _ => True
   end) ->
  (forall s t, (s < q_slots_used q)%nat -> (s < MaxProducers)%nat ->
     guarded (q_consumer q) s t -> q_hazards q !! s = Some t -> guarded k s t) ->
  Inv (with_consumer q k) c None None.
Proof.
  intros I Hr Hk Hg. split; try apply I; try done.
  - rewrite Hr. apply I.
  - intros a. rewrite Hr. apply I.
  - intros tid _. destruct (i_threads _ _ _ _ I tid ltac:(done)) as [P1 S1 HS H1 P2 P3]. split; try done.
    + intros node E. destruct (P1 node E) as [? H]. split; [done|]. by rewrite Hr.
    + intros s t Es E. destruct (P2 s t Es E) as [H G]. split; [done|]. rewrite Hr. intros Ht.
      destruct (S1 s Es). apply Hg; auto. apply H1; [done|].
      by apply protected_published.
  - intros a Ha. destruct (i_owned _ _ _ _ I a Ha) as [?|?]; [left; by rewrite Hr|by right].
Qed.

(** The head leaves the chain. *)
Lemma inv_retire q h next r :
  Inv q (h :: next :: r) None None -> q_consumer q = CTake next -> Inv (retire_head q next) (next :: r) None None.
Proof.
  intros I Ec. pose proof (i_head _ _ _ _ I) as Eh. cbn in Eh. injection Eh as ->.
  pose proof (i_consumer _ _ _ _ I) as C. rewrite Ec in C. destruct C as [_ Ht].
  assert (retired q = q_retired q) as Er by (unfold retired; by rewrite Ec).
  assert (retired (retire_head q next) = q_head q :: q_retired q) as Er'.
  { unfold retired, retire_head. cbn. by destruct (_ <=? _)%nat. }
  assert ((next :: r) ++ q_head q :: q_retired q ≡ₚ (q_head q :: next :: r) ++ q_retired q) as Pm.
  { cbn. rewrite <- (Permutation_middle r). apply Permutation_swap. }
  assert (forall s t, guarded (q_consumer (retire_head q next)) s t) as Hg.
  { intros s t. cbn. by destruct (_ <=? _)%nat. }
  split; try done.
  - intros i a E. apply (i_linked _ _ _ _ I (S i) a E).
  - destruct (i_tail _ _ _ _ I) as [[|a pre] [E|[y E]]]; cbn in E; injection E as E1 E2; try (by rewrite E1 in Ht).
    + exists pre. by left.
    + exists pre. right. by exists y.
  - rewrite Er', Pm, <- Er. apply I.
  - intros a. rewrite Er'. intros [->|Ha]%elem_of_cons; [apply (chain_some q _ _ _ _ I); set_solver|].
    cbn. apply (i_retired _ _ _ _ I). by rewrite Er.
  - cbn. by destruct (_ <=? _)%nat.
  - intros tid _. destruct (i_threads _ _ _ _ I tid ltac:(done)) as [P1 S1 HS H1 P2 P3]. split; try done.
    + intros node E. destruct (P1 node E) as [? H]. split; [done|]. rewrite Er', Pm, <- Er. done.
    + intros s t Es E. destruct (P2 s t Es E) as [H _]. done.
  - apply I.
  - apply I.
  - apply I.
  - intros a Ha. rewrite Er', Pm, <- Er. by apply (i_owned _ _ _ _ I).
Qed.

(** A retired node that is in no hazard slot is freed. *)
Lemma inv_free q c snapshot cur rest survivors kept :
  Inv q c None None -> q_consumer q = CFree snapshot (cur :: rest) survivors kept -> cur ∉ snapshot ->
  Inv (with_consumer (with_mem q (delete cur (q_heap q)) (q_tail q)) (CFree snapshot rest survivors kept)) c None None.
Proof.
  intros I Ec Hs. assert (retired q = cur :: rest ++ survivors) as Er by (unfold retired; by rewrite Ec).
  set (q' := with_consumer _ _). assert (retired q' = rest ++ survivors) as Er' by done.
  pose proof (i_nodup _ _ _ _ I) as ND. rewrite Er in ND.
  assert ((cur ∉ c ++ rest ++ survivors) /\ NoDup (c ++ rest ++ survivors)) as [Hcur ND'].
  { rewrite <- Permutation_middle in ND. by apply NoDup_cons in ND. }
  assert (forall a, a ∈ c ++ retired q' -> a ∈ c ++ retired q /\ a <> cur) as Hin.
  { intros a. rewrite Er, Er'. intros Ha. split; [set_solver|]. intros ->. done. }
  split; try apply I; try done.
  - eapply linked_heap; [apply I|]. intros a Ha. apply lookup_delete_ne. destruct (Hin a) as [_ H]; [set_solver|done].
  - intros a Ha. destruct (Hin a) as [_ H]; [set_solver|]. cbn. rewrite lookup_delete_ne by done. apply I.
    rewrite Er. rewrite Er' in Ha. set_solver.
  - intros tid _. destruct (i_threads _ _ _ _ I tid ltac:(done)) as [P1 S1 HS H1 P2 P3]. split; try done; cbn.
    + intros n E. destruct (P1 n E) as [[v Hv] Hc]. rewrite Er in Hc. split; [|try rewrite Er'; set_solver].
      exists v. rewrite lookup_delete_ne; [done|]. intros ->. set_solver.
    + intros s t Es E. destruct (P2 s t Es E) as [(n & Hn & Hl) G]. rewrite Er, Ec in G. cbn in G. split.
      * exists n. split; [|done]. rewrite lookup_delete_ne; [done|]. intros ->. apply Hs, G. set_solver.
      * try rewrite Er'. intros Ht. apply G. set_solver.
    + intros t y E. destruct (P3 t y E) as [v Hv]. exists v. rewrite lookup_delete_ne; [done|]. intros ->.
      apply link_protected in E as [E2 [s Es]%HS].
      destruct (P2 s t Es E2) as [_ G]. rewrite Er, Ec in G. apply Hs, G. set_solver.
  - intros a. cbn. rewrite lookup_delete. case_decide; [by intros []|]. intros Ha.
    destruct (i_owned _ _ _ _ I a Ha) as [Hi|?]; [left|by right]. rewrite Er in Hi. try rewrite Er'. set_solver.
Qed.

(** The end of the loop over the retired nodes. *)
Lemma inv_swept q c snapshot survivors kept :
  Inv q c None None -> q_consumer q = CFree snapshot [] survivors kept ->
  Inv (mkQueue (q_heap q) (q_tail q) (q_slots_used q) (q_hazards q) (q_head q) survivors kept
         (q_producers q) (q_caches q) CIdle) c None None.
Proof.
  intros I Ec. set (q' := mkQueue _ _ _ _ _ _ _ _ _ _).
  assert (retired q' = retired q) as Er by (unfold retired; by rewrite Ec).
  split; rewrite ?Er; try apply I; try done.
  intros tid _. destruct (i_threads _ _ _ _ I tid ltac:(done)) as [P1 S1 HS H1 P2 P3]. split; try done.
  - by rewrite Er.
  - intros s t Es E. by destruct (P2 s t Es E).
Qed.

Lemma inv_consumer_step q c :
  Inv q c None None -> exists q' e c', consumer_step q = Some (q', e) /\ Inv q' c' None None /\ chain_step q c e q' c'.
Proof.
  intros I. pose proof (i_consumer _ _ _ _ I) as C. pose proof (i_head _ _ _ _ I) as Eh.
  destruct c as [|h r]; [done|]. injection Eh as Eh. pose proof (i_linked _ _ _ _ I 0%nat h eq_refl) as [v Hv].
  unfold consumer_step. destruct (q_consumer q) as [|next|next|next| |used i snapshot|snapshot cur survivors kept] eqn:Ec.
  - rewrite <- Eh, Hv. cbn. destruct r as [|next r]; cbn.
    + do 3 eexists; split; [done|]; split; [exact I|]. split; [done|]. split; [done|by exists h].
    + do 3 eexists; split; [done|]; split; [|by apply chain_step_tau].
      apply inv_consumer; try done. unfold retired. by rewrite Ec.
  - do 3 eexists; split; [done|]; split; [|by apply chain_step_tau].
    destruct (Z.eqb_spec (q_tail q) (q_head q)); apply inv_consumer; try done; unfold retired; by rewrite Ec.
  - destruct r as [|b r]; [done|]. injection C as ->.
    do 3 eexists; split; [done|]; split; [|by apply chain_step_tau, heap_cas_tail].
    rewrite <- Eh. pose proof (inv_cas_tail q _ None None h next v I Hv) as I'.
    assert (q_consumer (cas_tail q h next) = CSwing next) as Ec' by (unfold cas_tail; by destruct (_ =? _)).
    apply inv_consumer; try done; [unfold retired; by rewrite Ec'|].
    split; [done|]. intros E. pose proof (i_head _ _ _ _ I') as Eh'. injection Eh' as Eh'.
    pose proof (i_nodup _ _ _ _ I) as ND. cbn in ND. apply NoDup_cons in ND as [ND _].
    unfold cas_tail in E, Eh'. destruct (Z.eqb_spec (q_tail q) h); cbn in E, Eh'; [|congruence]. set_solver.
  - destruct C as [C Ht]. destruct r as [|b r]; [done|]. injection C as ->.
    pose proof (i_linked _ _ _ _ I 1%nat next eq_refl) as [w Hw]. rewrite Hw. cbn.
    do 3 eexists; split; [done|]; split; [by eapply inv_retire|]. split; [done|].
    exists h, next, r. split_and!; [done..|]. by rewrite Hw.
  - do 3 eexists; split; [done|]; split; [|by apply chain_step_tau].
    apply inv_consumer; try done; [unfold retired; by rewrite Ec|]. intros s t H1 H2 _ _. cbn. lia.
  - destruct (Nat.ltb_spec i used).
    + do 3 eexists; split; [done|]; split; [|by apply chain_step_tau].
      apply inv_consumer; try done; [unfold retired; by rewrite Ec|].
      intros s t _ _ G Hh. rewrite Ec in G. cbn in *. destruct G as [G1 G2]. split; [done|]. intros Hs.
      destruct (decide (s = i)) as [->|].
      * rewrite Hh. set_solver.
      * specialize (G2 ltac:(lia)). destruct (q_hazards q !! i); set_solver.
    + do 3 eexists; split; [done|]; split; [|by apply chain_step_tau].
      apply inv_consumer; try done; [unfold retired; rewrite Ec; cbn; by rewrite app_nil_r|].
      intros s t _ _ G _. rewrite Ec in G. cbn in *. apply G. lia.
  - destruct cur as [|a rest].
    + do 3 eexists; split; [done|]; split; [|by apply chain_step_tau].
      by eapply inv_swept.
    + case_bool_decide as Hin.
      * do 3 eexists; split; [done|]; split; [|by apply chain_step_tau].
        apply inv_consumer; try done; [unfold retired; rewrite Ec; cbn; by rewrite Permutation_middle|].
        intros s t _ _ G _. by rewrite Ec in G.
      * destruct (i_retired _ _ _ _ I a) as [n Hn]; [unfold retired; rewrite Ec; set_solver|]. rewrite Hn. cbn.
        do 3 eexists; split; [done|]; split; [by eapply inv_free|]. split; [|done]. cbn.
        intros x Hx _. rewrite lookup_delete_ne; [done|]. intros ->. pose proof (i_nodup _ _ _ _ I) as ND.
        apply NoDup_app in ND as (_ & ND & _). apply (ND x Hx). unfold retired. rewrite Ec. set_solver.
Qed.

(** ** Lemmas: what the callers see *)

Definition values (heap : gmap Z Node) (l : list Z) : list T := omap (fun a => nd_data <$> heap !! a) l.

Lemma follow_values heap a r fuel :
  linked heap (a :: r) -> (length r <= fuel)%nat -> follow fuel heap (head r) = values heap r.
Proof.
  revert a r. induction fuel as [|fuel IH]; intros a [|b r] L Hl; cbn in *; try done; [lia|].
  destruct (L 1%nat b eq_refl) as [v Hv]. cbn in Hv. unfold values. cbn. rewrite Hv. cbn. f_equal.
  assert (linked heap (b :: r)) as L' by (intros i x E; apply (L (S i) x E)).
  replace (r !! 0%nat) with (head r) by (by destruct r). apply (IH b r L'). lia.
Qed.

Lemma chain_size q c out x : Inv q c out x -> (length c <= size (q_heap q))%nat.
Proof.
  intros I. pose proof (i_nodup _ _ _ _ I) as ND. apply NoDup_app in ND as (ND & _ & _).
  rewrite <- (size_dom (D := gset Z)), <- (size_list_to_set (C := gset Z) c) by done. apply subseteq_size.
  intros a Ha. apply elem_of_list_to_set in Ha. apply elem_of_dom. eapply chain_some; [done|]. set_solver.
Qed.

Lemma contents_values q c out x : Inv q c out x -> contents q = values (q_heap q) (tail c).
Proof.
  intros I. pose proof (i_head _ _ _ _ I) as Eh. pose proof (chain_size _ _ _ _ I) as Hs.
  destruct c as [|h r]; [done|]. injection Eh as Eh. pose proof (i_linked _ _ _ _ I) as L.
  destruct (L 0%nat h eq_refl) as [v Hv]. unfold contents. rewrite <- Eh, Hv. cbn.
  replace (r !! 0%nat) with (head r) by (by destruct r). eapply follow_values; [done|]. cbn in Hs. lia.
Qed.

Lemma values_ext heap heap' l :
  (forall a, a ∈ l -> nd_data <$> heap' !! a = nd_data <$> heap !! a) -> values heap' l = values heap l.
Proof.
  induction l as [|a l IH]; intros H; [done|]. unfold values in *. cbn. rewrite (H a) by set_solver.
  destruct (nd_data <$> heap !! a); rewrite IH by set_solver; done.
Qed.

Lemma chain_step_fifo q c e q' c' :
  Inv q c None None -> Inv q' c' None None -> chain_step q c e q' c' -> fifo_step (contents q) e (contents q').
Proof.
  intros I I' [Hd He]. rewrite (contents_values q c _ _ I), (contents_values q' c' _ _ I').
  destruct e as [|v|v|]; cbn.
  - subst c'. apply values_ext. intros a Ha. apply Hd; by destruct c; cbn in Ha; [|set_solver].
  - destruct He as (node & -> & Hn). destruct c as [|h r]; [by pose proof (i_head _ _ _ _ I)|]. cbn.
    unfold values. rewrite omap_app. cbn. rewrite Hn. f_equal. apply values_ext. intros a Ha. apply Hd; set_solver.
  - destruct He as (h & next & r & -> & -> & Hn). cbn. unfold values. cbn. rewrite Hn. cbn. f_equal.
    symmetry. apply values_ext. intros a Ha. apply Hd; set_solver.
  - destruct He as (-> & h & ->). done.
Qed.

(** No thread has used a queue at this address. *)
Definition unknown (caches : gmap nat SlotCache) : Prop := forall tid, find_slot (cache_of caches tid) = None.

Lemma inv_new sentinel data caches : unknown caches -> Inv (new_MPSCQueue sentinel data caches) [sentinel] None None.
Proof.
  intros Hu. assert (forall tid, producer (new_MPSCQueue sentinel data caches) tid = mkProducer None PIdle) as Hp by done.
  split; cbn; try done.
  - intros [|i] a E; [|done]. injection E as <-. exists data. apply lookup_singleton_eq.
  - exists []. by left.
  - apply NoDup_singleton.
  - by intros a Ha%elem_of_nil.
  - intros a [n [<- _]%lookup_singleton_Some]. left. set_solver.
Qed.

Lemma queue_inv_step q c e q' :
  Inv q c None None -> QStep q e q' -> exists c', Inv q' c' None None /\ chain_step q c e q' c'.
Proof.
  intros I Hst. revert I. destruct Hst as [q tid v a E Hf|q tid q' e E|q q' e E]; intros I.
  - exists c. by apply inv_start_enqueue.
  - destruct (inv_producer_step q c tid I) as (q1 & e1 & c' & E1 & H). rewrite E in E1. injection E1 as <- <-. by exists c'.
  - destruct (inv_consumer_step q c I) as (q1 & e1 & c' & E1 & H). rewrite E in E1. injection E1 as <- <-. by exists c'.
Qed.

Lemma inv_reach sentinel data caches q :
  unknown caches -> QReach (new_MPSCQueue sentinel data caches) q -> exists c, Inv q c None None.
Proof.
  intros Hu. induction 1 as [|q e q' _ [c I] Hst]; [eexists; by apply inv_new|].
  destruct (queue_inv_step q c e q' I Hst) as (c' & I' & _). by exists c'.
Qed.

Lemma release_all l heap :
  NoDup l -> (forall a, a ∈ l <-> is_Some (heap !! a)) -> release l heap = Some ∅.
Proof.
  revert heap. induction l as [|a l IH]; intros heap ND H; cbn.
  - f_equal. apply map_eq. intros i. rewrite lookup_empty. destruct (heap !! i) eqn:E; [|done].
    assert (i ∈ @nil Z) as Hi by (apply H; by eexists). by apply elem_of_nil in Hi.
  - apply NoDup_cons in ND as [Ha ND]. destruct (proj1 (H a)) as [n Hn]; [set_solver|]. rewrite Hn. cbn.
    apply IH; [done|]. intros b. rewrite lookup_delete. case_decide as E; [subst|].
    + split; [by intros|by intros []].
    + rewrite <- H, elem_of_cons. naive_solver.
Qed.

(** ** A thread that runs alone *)

Fixpoint run_alone (tid : nat) (n : nat) (q : Queue) : option Queue :=
  match n with
  | O => Some q
  | S n => '(q, _) ← producer_step tid q; run_alone tid n q
  end.
Definition finishes (tid n : nat) (q : Queue) : Prop :=
  exists q', run_alone tid n q = Some q' /\ pr_pc (producer q' tid) = PIdle.

Lemma finishes_idle tid n q : pr_pc (producer q tid) = PIdle -> finishes tid n q.
Proof.
  intros E. induction n as [|n [q' IH]]; [by exists q|]. exists q'. cbn. unfold producer_step. by rewrite E.
Qed.
Lemma finishes_step tid n q q' e : producer_step tid q = Some (q', e) -> finishes tid n q' -> finishes tid (S n) q.
Proof. intros E [q1 H]. exists q1. cbn. by rewrite E. Qed.
Lemma finishes_more tid n m q : (n <= m)%nat -> finishes tid n q -> finishes tid m q.
Proof.
  revert m q. induction n as [|n IH]; intros m q Hm [q' [H1 H2]]; cbn in H1.
  - injection H1 as ->. by apply finishes_idle.
  - destruct m as [|m]; [lia|]. destruct (producer_step tid q) as [[q1 e]|] eqn:E; [|done].
    eapply finishes_step; [done|]. apply IH; [lia|]. by exists q'.
Qed.

(** One step of a thread, with the state it leads to. *)
Ltac alone :=
  eapply finishes_step;
  [ unfold producer_step;
    match goal with E : producer ?q ?t = _ |- context [producer ?q ?t] => rewrite E end;
    cbn [pr_pc pr_slot]; reflexivity | ].

Lemma finishes_clear tid q s : producer q tid = mkProducer (Some s) PClearHazard -> finishes tid 1 q.
Proof. intros E. alone. apply finishes_idle. rewrite producer_goto. by rewrite decide_True. Qed.

Lemma finishes_swing tid q s node t : producer q tid = mkProducer (Some s) (PSwingNode node t) -> finishes tid 2 q.
Proof. intros E. alone. eapply finishes_clear. rewrite producer_goto. by rewrite decide_True. Qed.
Ltac moved := match goal with |- producer ?q _ = _ => try unfold q end; rewrite producer_goto; by rewrite decide_True.

(** With the last node in hand: linking it, and the steps that lead there. *)
Section LastNode.
Context (tid s : nat) (node : Z) (v : Node).

Lemma finishes_link q t d :
  producer q tid = mkProducer (Some s) (PLinkNext node t) ->
  q_heap q !! t = Some (mkNode d None) -> q_heap q !! node = Some v -> finishes tid 3 q.
Proof.
  intros E Ht Hn. eapply finishes_step; [|eapply finishes_swing].
  - unfold producer_step. rewrite E. cbn [pr_pc pr_slot]. rewrite Ht. cbn. rewrite Hn. reflexivity.
  - moved.
Qed.
Lemma finishes_load_next q t d :
  producer q tid = mkProducer (Some s) (PLoadNext node t) ->
  q_heap q !! t = Some (mkNode d None) -> q_heap q !! node = Some v -> finishes tid 4 q.
Proof.
  intros E Ht Hn. eapply finishes_step.
  - unfold producer_step. rewrite E. cbn [pr_pc pr_slot]. rewrite Ht. reflexivity.
  - eapply (finishes_link _ t d); [moved|done|done].
Qed.
Lemma finishes_load_tail q d :
  producer q tid = mkProducer (Some s) (PLoadTail node) ->
  q_heap q !! q_tail q = Some (mkNode d None) -> q_heap q !! node = Some v -> finishes tid 7 q.
Proof.
  intros E Ht Hn. alone. set (q1 := goto q _ _ _).
  assert (producer q1 tid = mkProducer (Some s) (PStoreHazard node (q_tail q))) as E1 by moved.
  alone. set (q2 := goto _ _ _ _).
  assert (producer q2 tid = mkProducer (Some s) (PCheckTail node (q_tail q))) as E2 by moved.
  alone. change (q_tail q2) with (q_tail q). rewrite Z.eqb_refl.
  eapply (finishes_load_next _ (q_tail q) d); [moved|done|done].
Qed.
(** With the tail one node behind it is moved first. *)
Lemma finishes_lagging q d y w :
  producer q tid = mkProducer (Some s) (PLoadTail node) ->
  q_heap q !! q_tail q = Some (mkNode d (Some y)) -> q_heap q !! y = Some (mkNode w None) ->
  q_heap q !! node = Some v -> finishes tid 12 q.
Proof.
  intros E Ht Hy Hn. alone. set (q1 := goto q _ _ _).
  assert (producer q1 tid = mkProducer (Some s) (PStoreHazard node (q_tail q))) as E1 by moved.
  alone. set (q2 := goto _ _ _ _).
  assert (producer q2 tid = mkProducer (Some s) (PCheckTail node (q_tail q))) as E2 by moved.
  alone. change (q_tail q2) with (q_tail q). rewrite Z.eqb_refl. set (q3 := goto q2 _ _ _).
  assert (producer q3 tid = mkProducer (Some s) (PLoadNext node (q_tail q))) as E3 by moved.
  eapply finishes_step.
  { unfold producer_step. rewrite E3. cbn [pr_pc pr_slot]. change (q_heap q3) with (q_heap q). rewrite Ht. reflexivity. }
  cbn [nd_next]. set (q4 := goto q3 _ _ _).
  assert (producer q4 tid = mkProducer (Some s) (PSwingNext node (q_tail q) y)) as E4 by moved.
  alone. unfold cas_tail. change (q_tail q4) with (q_tail q). rewrite Z.eqb_refl.
  eapply finishes_load_tail; [moved|exact Hy|exact Hn].
Qed.
End LastNode.

(** From the loading of the tail, whatever the other threads have left. *)
Lemma finishes_loop q c tid s node :
  Inv q c None None -> producer q tid = mkProducer (Some s) (PLoadTail node) -> finishes tid 12 q.
Proof.
  intros I E. destruct (t_pending _ _ _ (i_threads _ _ _ _ I tid ltac:(done)) node) as [[v Hv] _]; [by rewrite E|].
  destruct (chain_some q c _ _ (q_tail q) I) as [[d nx] Hd].
  { apply elem_of_app. left. by eapply tail_in_chain. }
  destruct nx as [y|]; [|eapply finishes_more; [|by eapply finishes_load_tail]; lia].
  destruct (tail_next q c _ _ d y I Hd) as [pre ->].
  destruct (i_linked _ _ _ _ I (S (length pre)) y) as [w Hw].
  { rewrite lookup_app_r by lia. by replace (S (length pre) - length pre)%nat with 1%nat by lia. }
  rewrite lookup_app_r in Hw by lia. replace (S (S (length pre)) - length pre)%nat with 2%nat in Hw by lia.
  by eapply finishes_lagging.
Qed.

(** A step after which the loop starts over, or is closer to its end. *)
Lemma finishes_via q c tid n q' e :
  Inv q c None None -> producer_step tid q = Some (q', e) ->
  (forall c', Inv q' c' None None -> finishes tid n q') -> finishes tid (S n) q.
Proof.
  intros I E H. destruct (queue_inv_step q c e q' I) as (c' & I' & _); [by apply q_producer with tid|].
  eapply finishes_step; [done|]. by apply (H c').
Qed.

Ltac step_from E := unfold producer_step; rewrite E; cbn [pr_pc pr_slot]; reflexivity.

Lemma finishes_from_swing q c tid s node t y :
  Inv q c None None -> producer q tid = mkProducer (Some s) (PSwingNext node t y) -> finishes tid 13 q.
Proof. intros I E. eapply finishes_via; [done|step_from E|]. intros c' I'. eapply finishes_loop; [done|moved]. Qed.

Lemma finishes_from_load_next q c tid s node t :
  Inv q c None None -> producer q tid = mkProducer (Some s) (PLoadNext node t) -> finishes tid 14 q.
Proof.
  intros I E. pose proof (i_threads _ _ _ _ I tid ltac:(done)) as O. rewrite E in O.
  destruct (t_protected _ _ _ O s t eq_refl eq_refl) as [([d nx] & Ht & _) _].
  destruct (t_pending _ _ _ O node eq_refl) as [[v Hv] _]. destruct nx as [y|].
  - eapply finishes_via; [done| |intros c' I'; eapply finishes_from_swing; [done|moved]].
    unfold producer_step. rewrite E. cbn [pr_pc pr_slot]. rewrite Ht. reflexivity.
  - eapply finishes_more; [|by eapply finishes_load_next]. lia.
Qed.

Lemma finishes_from_link q c tid s node t :
  Inv q c None None -> producer q tid = mkProducer (Some s) (PLinkNext node t) -> finishes tid 13 q.
Proof.
  intros I E. pose proof (i_threads _ _ _ _ I tid ltac:(done)) as O. rewrite E in O.
  destruct (t_protected _ _ _ O s t eq_refl eq_refl) as [([d nx] & Ht & _) _].
  destruct (t_pending _ _ _ O node eq_refl) as [[v Hv] _]. destruct nx as [y|].
  - eapply finishes_via; [done| |intros c' I'; eapply finishes_loop; [done|moved]].
    unfold producer_step. rewrite E. cbn [pr_pc pr_slot]. rewrite Ht. reflexivity.
  - eapply finishes_more; [|by eapply finishes_link]. lia.
Qed.

Lemma finishes_from_check q c tid s node t :
  Inv q c None None -> producer q tid = mkProducer (Some s) (PCheckTail node t) -> finishes tid 15 q.
Proof.
  intros I E. eapply finishes_via; [done|step_from E|]. intros c' I'. destruct (q_tail q =? t).
  - eapply finishes_from_load_next; [done|moved].
  - eapply finishes_more; [|eapply finishes_loop; [done|moved]]. lia.
Qed.

Lemma finishes_from_store q c tid s node t :
  Inv q c None None -> producer q tid = mkProducer (Some s) (PStoreHazard node t) -> finishes tid 16 q.
Proof. intros I E. eapply finishes_via; [done|step_from E|]. intros c' I'. eapply finishes_from_check; [done|moved]. Qed.

Lemma finishes_from_acquire q c tid slot node :
  Inv q c None None -> producer q tid = mkProducer slot (PAcquire node) ->
  is_Some slot \/ (q_slots_used q < MaxProducers)%nat -> finishes tid 13 q.
Proof.
  intros I E Hs. eapply finishes_via; [done|step_from E|]. intros c' I'. unfold acquire_slot in *.
  rewrite (slot_cached q c tid _ _ I E) in *. destruct slot as [s|]; [eapply finishes_loop; [done|moved]|]. destruct Hs as [[]|Hs]; [done|].
  destruct (Nat.leb_spec MaxProducers (q_slots_used q)); [lia|]. eapply finishes_loop; [done|moved].
Qed.

(** ** Properties *)

(** C12: the lock-free queue is a queue, at an address where the threads that use it have
    used no earlier queue. However the steps of the producers and of the consumer
    interleave, in sequentially consistent memory, each step changes what the callers see
    as one step of a first-in-first-out list: linking a node appends its value, taking the
    head returns and removes the first value, a call that returns nothing finds the list
    empty, and every other step changes nothing. [unknown]: no thread's cache of slots has
    an entry for the queue's address; entries for other queues are allowed. *)
Theorem queue_refines_fifo sentinel data caches q e q' :
  unknown caches -> QReach (new_MPSCQueue sentinel data caches) q -> QStep q e q' -> fifo_step (contents q) e (contents q').
Proof.
  intros Hu [c I]%(inv_reach _ _ _ _ Hu) Hst. destruct (queue_inv_step q c e q' I Hst) as (c' & I' & H). by eapply chain_step_fifo.
Qed.

(** C13: no use after free, in a queue at an address where the threads that use it have
    used no earlier queue ([unknown]: no thread's cache of slots has an entry for the
    address). In every state reached in sequentially consistent memory every thread and
    the consumer can take their next step: no node is read, linked to or freed after it was
    freed, although freed addresses may be allocated again; the hazard pointers protect
    exactly long enough. *)
Theorem queue_memory_safe sentinel data caches q :
  unknown caches -> QReach (new_MPSCQueue sentinel data caches) q ->
  (forall tid, is_Some (producer_step tid q)) /\ is_Some (consumer_step q).
Proof.
  intros Hu [c I]%(inv_reach _ _ _ _ Hu). split.
  - intros tid. destruct (inv_producer_step q c tid I) as (q' & e & c' & -> & _). done.
  - destruct (inv_consumer_step q c I) as (q' & e & c' & -> & _). done.
Qed.

(** No leak. When no thread is inside [enqueue] and the consumer has found the
    queue empty, the destructor frees every node there is, each exactly once. *)
Theorem queue_frees_all sentinel data caches q q' :
  unknown caches -> QReach (new_MPSCQueue sentinel data caches) q -> (forall tid, pr_pc (producer q tid) = PIdle) ->
  consumer_step q = Some (q', Empty) -> release (destroy_list q) (q_heap q) = Some ∅.
Proof.
  intros Hu [c I]%(inv_reach _ _ _ _ Hu) Hidle E. destruct (inv_consumer_step q c I) as (q1 & e & c' & E1 & _ & [_ H]).
  rewrite E in E1. injection E1 as <- <-. destruct H as (-> & h & ->).
  pose proof (i_head _ _ _ _ I) as Eh. injection Eh as ->.
  assert (retired q = q_retired q) as Er.
  { unfold retired. unfold consumer_step in E. destruct (q_consumer q) as [| | | | |used i snap|snap [|cur rest] surv kept]; try done.
    case_bool_decide; [done|]. by destruct (q_heap q !! cur). }
  pose proof (i_nodup _ _ _ _ I) as ND. rewrite Er in ND.
  assert (destroy_list q ≡ₚ [q_head q] ++ q_retired q) as Pm by (unfold destroy_list; by rewrite Permutation_app_comm).
  apply release_all; [by rewrite Pm|]. intros a. rewrite Pm, <- Er. split; [by apply (chain_some q _ _ _ _ I)|].
  intros Ha. destruct (i_owned _ _ _ _ I a Ha) as [?|[?|(tid & _ & Ht)]]; [done..|]. by rewrite Hidle in Ht.
Qed.

(** An [enqueue] never waits for another thread. Wherever the others have
    stopped, a thread inside [enqueue] that runs alone is done within sixteen of its
    own steps, unless the hazard slots are used up. *)
Theorem enqueue_never_waits sentinel data caches q tid :
  unknown caches -> QReach (new_MPSCQueue sentinel data caches) q ->
  match pr_pc (producer q tid) with
  | PAborted _ => False
  | PAcquire _ => is_Some (pr_slot (producer q tid)) \/ (q_slots_used q < MaxProducers)%nat
  | _ => True
  end ->
  exists q', run_alone tid 16 q = Some q' /\ pr_pc (producer q' tid) = PIdle.
Proof.
  intros Hu [c I]%(inv_reach _ _ _ _ Hu) H. change (finishes tid 16 q).
  pose proof (t_has_slot _ _ _ (i_threads _ _ _ _ I tid ltac:(done))) as HS.
  destruct (producer q tid) as [slot pc] eqn:E. cbn in *.
  destruct pc as [|node|node|node t|node t|node t|node t t_next|node t|node t| |node]; cbn in *; try done;
    try destruct (HS eq_refl) as [s ->];
    (eapply finishes_more;
     [|first [apply (finishes_idle tid 0); by rewrite E | by eapply finishes_from_acquire | by eapply finishes_loop
             |by eapply finishes_from_store | by eapply finishes_from_check | by eapply finishes_from_load_next
             |by eapply finishes_from_swing | by eapply finishes_from_link | by eapply finishes_swing
             |by eapply finishes_clear]]); lia.
Qed.
End Queue.

(** ** Runs *)

(** A schedule: who takes the next step. *)
Inductive Turn := TStart (tid : nat) (value addr : Z) | TProducer (tid : nat) | TConsumer.
Definition turn (MaxProducers : nat) (this : Z) (q : Queue (T := Z)) (t : Turn) : option (Queue (T := Z)) :=
  match t with
  | TStart tid value addr =>
      match pr_pc (producer q tid), q_heap q !! addr with
      | PIdle, None => Some (start_enqueue tid value addr q)
      | _, _ => None
      end
  | TProducer tid => fst <$> producer_step MaxProducers this tid q
  | TConsumer => fst <$> consumer_step MaxProducers q
  end.
Definition play (MaxProducers : nat) (this : Z) (ts : list Turn) (q : Queue (T := Z)) : option (Queue (T := Z)) :=
  foldl (fun q t => q ≫= fun q => turn MaxProducers this q t) (Some q) ts.

Lemma turn_step max this q t q' : turn max this q t = Some q' -> exists e, QStep max this q e q'.
Proof.
  destruct t as [tid v a|tid|]; cbn.
  - destruct (pr_pc (producer q tid)) eqn:E; try done. destruct (q_heap q !! a) eqn:Ea; [done|].
    intros [= <-]. exists Tau. by apply q_start.
  - intros ([q1 e] & E & ->)%fmap_Some. exists e. by eapply q_producer.
  - intros ([q1 e] & E & ->)%fmap_Some. exists e. by apply q_consumer_step.
Qed.

Lemma play_reach max this ts q0 q q' : QReach max this q0 q -> play max this ts q = Some q' -> QReach max this q0 q'.
Proof.
  unfold play. revert q. induction ts as [|t ts IH]; intros q H E; [by injection E as <-|]. cbn in E.
  destruct (turn max this q t) as [q1|] eqn:Et; [|exfalso; clear -E; induction ts as [|u ts IHt]; [done|exact (IHt E)]].
  apply (IH q1); [|done]. destruct (turn_step max this q t q1 Et) as [e Hst]. by eapply q_step.
Qed.

(** Thread 0 has used slot 1 of the queue at 60; this one is at 50. *)
Definition start_caches : gmap nat SlotCache := {[0%nat := [(60, 1%nat)]]}.
Definition start_state : Queue (T := Z) := new_MPSCQueue 100 0 start_caches.
Lemma start_unknown : unknown 50 start_caches.
Proof. intros tid. unfold cache_of, start_caches. rewrite lookup_singleton. by case_decide. Qed.
(** Two threads enqueue: the second one finds the tail behind the first one's node,
    moves it and links its own, and the consumer is about to take the first value
    while neither thread has finished. *)
Definition two_producers : list Turn :=
  [TStart 0 7 101] ++ repeat (TProducer 0) 6 ++ [TStart 1 8 102] ++ repeat (TProducer 1) 11
  ++ repeat TConsumer 2.
Definition two_producers_state : Queue (T := Z) :=
  match play 2 50 two_producers start_state with Some q => q | None => start_state end.
Lemma two_producers_reached : QReach 2 50 start_state two_producers_state.
Proof. apply (play_reach 2 50 two_producers start_state start_state); [apply q_here|vm_compute; reflexivity]. Qed.

Lemma queue_refines_fifo_witness :
  fifo_step (contents two_producers_state) (Dequeued 7)
    (contents (match consumer_step 2 two_producers_state with Some (q, _) => q | None => start_state end)).
Proof.
  apply (queue_refines_fifo 2 50 100 0 start_caches two_producers_state); [apply start_unknown|apply two_producers_reached|].
  apply q_consumer_step. vm_compute. reflexivity.
Defined.

Lemma queue_memory_safe_witness : is_Some (producer_step 2 50 0 two_producers_state).
Proof. exact (proj1 (queue_memory_safe 2 50 100 0 start_caches two_producers_state start_unknown two_producers_reached) 0%nat). Defined.

(** Both threads have finished and the queue is empty; the two nodes that left it are
    retired and not freed, since there are fewer than four. *)
Definition drained : list Turn := repeat (TProducer 0) 4 ++ repeat (TProducer 1) 4 ++ repeat TConsumer 12.
Definition drained_state : Queue (T := Z) :=
  match play 2 50 drained two_producers_state with Some q => q | None => start_state end.
Lemma queue_frees_all_witness : release (destroy_list drained_state) (q_heap drained_state) = Some ∅.
Proof.
  apply (queue_frees_all 2 50 100 0 start_caches drained_state drained_state); [apply start_unknown|..].
  - apply (play_reach 2 50 drained start_state two_producers_state); [apply two_producers_reached|vm_compute; reflexivity].
  - assert (map_Forall (fun _ p => needs_slot (pr_pc p) = false /\ pending (pr_pc p) = None) (q_producers drained_state)) as H
      by decide_now.
    intros tid. unfold producer. destruct (q_producers drained_state !! tid) as [p|] eqn:E; [|done].
    destruct (H tid p E) as [H1 H2]. by destruct (pr_pc p).
  - vm_compute. reflexivity.
Defined.

Lemma enqueue_never_waits_witness :
  exists q', run_alone 2 50 0 16 two_producers_state = Some q' /\ pr_pc (producer q' 0) = PIdle.
Proof. apply (enqueue_never_waits 2 50 100 0 start_caches two_producers_state 0 start_unknown two_producers_reached). vm_compute. exact I. Defined.

(** The next queue is allocated at the same address: both threads find the slots they had
    in the old one, which the new one has not counted. Thread 0 stops before it reads the
    node at the tail, thread 1 enqueues four values and the consumer takes them and frees
    that node. *)
Definition next_start : Queue (T := Z) := new_MPSCQueue 200 0 (q_caches drained_state).
Definition freed_under_hazard : list Turn :=
  [TStart 0 9 201] ++ repeat (TProducer 0) 4
  ++ concat ((fun i => TStart 1 i (210 + i) :: repeat (TProducer 1) 8) <$> [1; 2; 3; 4])
  ++ repeat TConsumer 30.
Definition freed_state : Queue (T := Z) :=
  match play 2 50 freed_under_hazard next_start with Some q => q | None => next_start end.

(** C14: a thread that has used an earlier queue at the address of a new one can read
    freed memory. Two threads use a queue, finish, and it is empty and destroyed; the next
    queue is allocated at the same address, with no more producers than it allows. Then a
    state is reached in which a thread's hazard slot names the node it is about to read,
    and the consumer has freed that node, because the new queue counts no slots. *)
Theorem reused_address_use_after_free :
  exists (q q' : Queue (T := Z)) node t,
    QReach 2 50 (new_MPSCQueue 100 0 start_caches) q
    /\ contents q = [] /\ (forall tid, pr_pc (producer q tid) = PIdle)
    /\ release (destroy_list q) (q_heap q) = Some ∅
    /\ QReach 2 50 (new_MPSCQueue 200 0 (q_caches q)) q'
    /\ producer q' 0 = mkProducer (Some 0%nat) (PLoadNext node t)
    /\ q_hazards q' !! 0%nat = Some t /\ q_slots_used q' = 0%nat
    /\ producer_step 2 50 0 q' = None.
Proof.
  exists drained_state, freed_state, 201, 200. split_and!; try by vm_compute.
  - apply (play_reach 2 50 drained start_state two_producers_state); [apply two_producers_reached|vm_compute; reflexivity].
  - assert (map_Forall (fun _ p => needs_slot (pr_pc p) = false /\ pending (pr_pc p) = None) (q_producers drained_state)) as H
      by decide_now.
    intros tid. unfold producer. destruct (q_producers drained_state !! tid) as [p|] eqn:E; [|done].
    destruct (H tid p E) as [H1 H2]. by destruct (pr_pc p).
  - apply (play_reach 2 50 freed_under_hazard next_start next_start); [apply q_here|vm_compute; reflexivity].
Qed.
