(* ===== verification/ThreadPool.v ===== *)
(** * The thread pool (core/include/collab/thread_pool.h,
    core/src/thread_pool.cpp)

    A task is any value; what matters is when a worker takes it and when it has run
    it. Every critical section and every atomic operation is a step. A task that
    throws counts as run, as in the code. A worker that finds no task sleeps on the
    condition variable; it looks at the queue and falls asleep in one critical section, and
    goes on when it is notified, when it is asked to stop, or for no reason. [submit] is
    two steps, since it notifies after it has released the lock. The workers are asked to
    stop all at once; the code asks and joins one after the other. *)
From S2P Require Import Prelude.
Local Open Scope Z_scope.

(** ** Fair rounds

    A run in rounds. [bounded s n]: at most [n] units of work are left in [s]; [helpful k
    s]: the next turn of the participant [k] does one, and stays one until it is taken or
    somebody else did one. *)
Section Fair.
Context {State T K : Type} `{EqDecision K} (turn : T -> State -> State) (key : T -> option K).
Context (needed : K -> Prop) (bounded : State -> nat -> Prop) (finished : State -> Prop) (helpful : K -> State -> Prop).
Context (Hkey : forall k, needed k -> exists t, key t = Some k).
Context (Hkeep : forall t s n, bounded s n -> bounded (turn t s) n).
Context (Hhelp : forall s n, bounded s n -> finished s \/ exists k, needed k /\ helpful k s).
Context (Hturn : forall t s n k, bounded s n -> helpful k s ->
  (key t <> Some k /\ helpful k (turn t s)) \/ exists m, (m < n)%nat /\ bounded (turn t s) m).
Context (Hfinished : forall t s n, bounded s n -> finished s -> finished (turn t s)).

Definition turns (ts : list T) (s : State) : State := foldl (fun s t => turn t s) s ts.
(** Everybody who is needed has a turn in the round. *)
Definition fair (ts : list T) : Prop := forall k, needed k -> exists t, t ∈ ts /\ key t = Some k.

Lemma turns_keep ts s n : bounded s n -> bounded (turns ts s) n.
Proof. revert s. induction ts as [|t ts IH]; intros s H; [exact H|]. apply IH, Hkeep, H. Qed.
Lemma turns_finished ts s n : bounded s n -> finished s -> finished (turns ts s).
Proof. revert s. induction ts as [|t ts IH]; intros s B H; [done|]. apply IH; [by apply Hkeep|by apply (Hfinished t s n)]. Qed.
Lemma round_progress ts s n k :
  bounded s n -> helpful k s -> (exists t, t ∈ ts /\ key t = Some k) ->
  exists m, (m < n)%nat /\ bounded (turns ts s) m.
Proof.
  revert s. induction ts as [|t ts IH]; intros s B H (t0 & Hin & E); [by apply elem_of_nil in Hin|].
  destruct (Hturn t s n k B H) as [[Hne H']|(m & Hm & B')].
  - apply IH; [by apply Hkeep|exact H'|]. exists t0. split; [|done]. by apply elem_of_cons in Hin as [->|].
  - exists m. split; [done|]. apply (turns_keep ts (turn t s)), B'.
Qed.
Lemma fair_rounds rounds s n :
  bounded s n -> Forall fair rounds -> (n <= length rounds)%nat -> finished (turns (concat rounds) s).
Proof.
  revert s n. induction rounds as [|ts rounds IH]; intros s n B F Hn.
  - assert (n = 0%nat) as -> by (cbn in Hn; lia). destruct (Hhelp s 0 B) as [?|(k & Hk & H)]; [done|].
    destruct (Hkey k Hk) as [t Ht]. destruct (Hturn t s 0 k B H) as [[Hne _]|(m & Hm & _)]; [done|lia].
  - apply Forall_cons in F as [F1 F]. cbn. unfold turns. rewrite foldl_app. fold (turns ts s).
    destruct (Hhelp s n B) as [Hf|(k & Hk & H)].
    + apply (turns_finished (concat rounds) _ n); [by apply turns_keep|by eapply turns_finished].
    + destruct (round_progress ts s n k B H (F1 k Hk)) as (m & Hm & B'). apply (IH _ m B' F). cbn in Hn. lia.
Qed.
End Fair.

Section Pool.
Context {T : Type}.

(** Where a worker is in its loop: before it looks at the queue, on the condition
    variable, with a task. *)
Inductive Worker :=
| Waiting
| Asleep
| Taken (task : T)
| Running (task : T)
| Done
| Exited.

(** [tp_notifies]: how many calls of [submit] have still to notify. [tp_submitted],
    [tp_taken] and [tp_run] record what has happened, in order. *)
Record ThreadPool := mkThreadPool {
  tp_tasks : list T;
  tp_active_tasks : Z;
  tp_workers : list Worker;
  tp_stop : bool;
  tp_notifies : nat;
  tp_submitted : list T;
  tp_taken : list T;
  tp_run : list T;
}.

Definition new_ThreadPool (num_threads : nat) : ThreadPool :=
  mkThreadPool [] 0 (replicate num_threads Waiting) false 0 [] [] [].

(** [submit]: the critical section, and [notify_one]. *)
Definition push (p : ThreadPool) (task : T) : ThreadPool :=
  mkThreadPool (tp_tasks p ++ [task]) (tp_active_tasks p) (tp_workers p) (tp_stop p) (S (tp_notifies p))
    (tp_submitted p ++ [task]) (tp_taken p) (tp_run p).

Definition is_asleep (w : Worker) : bool := match w with Asleep => true | _ => false end.
(** The system picks one of the sleeping threads, if there is one. *)
Definition wake_one (pick : nat) (ws : list Worker) : list Worker :=
  match ws !! pick with
  | Some Asleep => <[pick := Waiting]> ws
  | _ => match list_find (fun w => is_asleep w = true) ws with
         | Some (i, _) => <[i := Waiting]> ws
         | None => ws
         end
  end.
Definition notify_one (pick : nat) (p : ThreadPool) : ThreadPool :=
  match tp_notifies p with
  | O => p
  | S k => mkThreadPool (tp_tasks p) (tp_active_tasks p) (wake_one pick (tp_workers p)) (tp_stop p) k
             (tp_submitted p) (tp_taken p) (tp_run p)
  end.

(** The predicate [wait_idle] waits for. *)
Definition idle (p : ThreadPool) : bool :=
  match tp_tasks p with [] => tp_active_tasks p =? 0 | _ => false end.

(** The destruction of the workers asks each of them to stop, and wakes it. *)
Definition wake_up (w : Worker) : Worker := match w with Asleep => Waiting | w => w end.
Definition request_stop (p : ThreadPool) : ThreadPool :=
  mkThreadPool (tp_tasks p) (tp_active_tasks p) (wake_up <$> tp_workers p) true (tp_notifies p)
    (tp_submitted p) (tp_taken p) (tp_run p).

Definition set_worker (p : ThreadPool) (i : nat) (w : Worker) (active : Z) : ThreadPool :=
  mkThreadPool (tp_tasks p) active (<[i := w]> (tp_workers p)) (tp_stop p) (tp_notifies p)
    (tp_submitted p) (tp_taken p) (tp_run p).

(** One step of worker [i]; a worker that sleeps or has left takes none. *)
Definition worker (i : nat) (p : ThreadPool) : ThreadPool :=
  match tp_workers p !! i with
  | Some Waiting =>
      match tp_tasks p with
      | task :: tasks =>
          mkThreadPool tasks (tp_active_tasks p) (<[i := Taken task]> (tp_workers p)) (tp_stop p) (tp_notifies p)
            (tp_submitted p) (tp_taken p ++ [task]) (tp_run p)
      | [] => set_worker p i (if tp_stop p then Exited else Asleep) (tp_active_tasks p)
      end
  | Some (Taken task) => set_worker p i (Running task) (tp_active_tasks p + 1)
  | Some (Running task) =>
      mkThreadPool (tp_tasks p) (tp_active_tasks p) (<[i := Done]> (tp_workers p)) (tp_stop p) (tp_notifies p)
        (tp_submitted p) (tp_taken p) (tp_run p ++ [task])
  | Some Done => set_worker p i Waiting (tp_active_tasks p - 1)
  | Some Asleep | Some Exited | None => p
  end.
(** Worker [i] wakes up for no reason. *)
Definition wake (i : nat) (p : ThreadPool) : ThreadPool :=
  match tp_workers p !! i with
  | Some Asleep => set_worker p i Waiting (tp_active_tasks p)
  | _ => p
  end.

Inductive TpStep : ThreadPool -> ThreadPool -> Prop :=
| tp_push p task : TpStep p (push p task)
| tp_notify p pick : TpStep p (notify_one pick p)
| tp_worker p i : TpStep p (worker i p)
| tp_wake p i : TpStep p (wake i p)
| tp_request_stop p : TpStep p (request_stop p).

(** ** Lemmas *)

(** The tasks the workers hold, and the workers that count as active. *)
Definition in_hand (ws : list Worker) : list T :=
  omap (fun w => match w with Taken t | Running t => Some t | _ => None end) ws.
Definition busy (w : Worker) : Prop := match w with Running _ | Done => True | _ => False end.
#[local] Instance busy_dec w : Decision (busy w).
Proof. destruct w; apply _. Defined.
Definition active (ws : list Worker) : Z := Z.of_nat (length (filter busy ws)).

Lemma omap_insert {A} (f : Worker -> option A) ws i w w' :
  ws !! i = Some w -> omap f [w'] ++ omap f ws ≡ₚ omap f [w] ++ omap f (<[i := w']> ws).
Proof.
  intros E. apply list_elem_of_split_length in E as (l1 & l2 & -> & ->).
  rewrite insert_app_r_alt, Nat.sub_diag by lia. rewrite !omap_app.
  assert (forall x, omap f (x :: l2) = omap f [x] ++ omap f l2) as Hc by (intros x; cbn; by destruct (f x)).
  cbn [list_insert insert]. rewrite !Hc. solve_Permutation.
Qed.
Lemma in_hand_insert ws i w w' :
  ws !! i = Some w -> in_hand [w'] ++ in_hand ws ≡ₚ in_hand [w] ++ in_hand (<[i := w']> ws).
Proof. apply omap_insert. Qed.

Lemma active_insert ws i w w' :
  ws !! i = Some w ->
  active (<[i := w']> ws) = active ws - (if decide (busy w) then 1 else 0) + (if decide (busy w') then 1 else 0).
Proof.
  intros E. apply list_elem_of_split_length in E as (l1 & l2 & -> & ->).
  rewrite insert_app_r_alt, Nat.sub_diag by lia. unfold active. cbn [list_insert insert].
  rewrite !filter_app, !length_app, !filter_cons. repeat case_decide; cbn; lia.
Qed.

(** A worker that will look at the queue again without being woken. *)
Definition awake (w : Worker) : Prop := match w with Asleep | Exited => False | _ => True end.
#[local] Instance awake_dec w : Decision (awake w).
Proof. destruct w; apply _. Defined.
(** No wake-up is lost: while there is a task somebody is awake or about to be notified, or
    everybody has left. *)
Definition attended (p : ThreadPool) : Prop :=
  tp_tasks p = [] \/ (0 < tp_notifies p)%nat \/ (exists w, w ∈ tp_workers p /\ awake w)
  \/ forall w, w ∈ tp_workers p -> w = Exited.

Record tp_ok (p : ThreadPool) : Prop := mkTpOk {
  ok_order : tp_submitted p = tp_taken p ++ tp_tasks p;
  ok_taken : tp_taken p ≡ₚ tp_run p ++ in_hand (tp_workers p);
  ok_active : tp_active_tasks p = active (tp_workers p);
  ok_exited : Exited ∈ tp_workers p -> tp_stop p = true;
  ok_attended : attended p;
}.
Lemma tp_ok_new n : tp_ok (new_ThreadPool n).
Proof.
  split; cbn; try done.
  - unfold in_hand. induction n; [done|]. by cbn.
  - unfold active. induction n as [|n IH]; [done|].
    change (replicate (S n) Waiting) with (Waiting :: replicate n Waiting). by rewrite filter_cons.
  - intros H%elem_of_replicate. by destruct H.
  - by left.
Qed.

Lemma insert_elem (ws : list Worker) (i : nat) w w' : ws !! i = Some w -> w' ∈ <[i := w']> ws.
Proof. intros E. apply list_elem_of_lookup. exists i. apply list_lookup_insert_eq. by eapply lookup_lt_Some. Qed.

(** A worker changes its place in the loop. *)
Lemma tp_ok_move p i w w' a k run taken tasks :
  tp_ok p -> tp_workers p !! i = Some w ->
  tp_taken p ++ tp_tasks p = taken ++ tasks ->
  taken ++ tp_run p ++ in_hand [w] ≡ₚ tp_taken p ++ run ++ in_hand [w'] ->
  a = tp_active_tasks p - (if decide (busy w) then 1 else 0) + (if decide (busy w') then 1 else 0) ->
  (w' = Exited -> tp_stop p = true) -> tasks = [] \/ awake w' ->
  tp_ok (mkThreadPool tasks a (<[i := w']> (tp_workers p)) (tp_stop p) k (tp_submitted p) taken run).
Proof.
  intros [O T1 A E _] Ew Et Er Ea Hx Hw. split; cbn.
  - by rewrite O.
  - pose proof (in_hand_insert _ _ _ w' Ew) as Hp.
    apply (Permutation_app_inv_l (tp_run p ++ in_hand [w])).
    transitivity (taken ++ tp_run p ++ in_hand [w]); [solve_Permutation|]. rewrite Er, T1.
    transitivity (tp_run p ++ run ++ in_hand [w'] ++ in_hand (tp_workers p)); [solve_Permutation|].
    rewrite Hp. solve_Permutation.
  - rewrite Ea, A. by rewrite (active_insert _ _ _ _ Ew).
  - intros Hin. apply list_elem_of_lookup in Hin as [j Hj]. destruct (decide (i = j)) as [->|Hne].
    + rewrite list_lookup_insert_eq in Hj by (by eapply lookup_lt_Some). injection Hj as ->. by apply Hx.
    + rewrite list_lookup_insert_ne in Hj by done. apply E. by eapply list_elem_of_lookup_2.
  - destruct Hw as [->|Hw]; [by left|right; right; left]. exists w'. split; [by eapply insert_elem|done].
Qed.

Ltac busy_lia := repeat case_decide; cbn [busy] in *; tauto || lia.

Lemma tp_ok_worker i p : tp_ok p -> tp_ok (worker i p).
Proof.
  intros H. unfold worker. destruct (tp_workers p !! i) as [[| |task|task| |]|] eqn:Ew; try done.
  - destruct (tp_tasks p) as [|task tasks] eqn:Et.
    + unfold set_worker. destruct (tp_stop p) eqn:Es; rewrite <- Es; eapply tp_ok_move; first [done | left; done | busy_lia].
    + eapply tp_ok_move; first [done | right; done | busy_lia | by rewrite Et, <- app_assoc | cbn; solve_Permutation].
  - eapply tp_ok_move; first [done | right; done | busy_lia].
  - eapply tp_ok_move; first [done | right; done | busy_lia | cbn; solve_Permutation].
  - eapply tp_ok_move; first [done | right; done | busy_lia].
Qed.

Lemma wake_one_spec pick ws :
  (wake_one pick ws = ws /\ forall w, w ∈ ws -> w <> Asleep)
  \/ exists i, ws !! i = Some Asleep /\ wake_one pick ws = <[i := Waiting]> ws.
Proof.
  unfold wake_one. destruct (list_find (fun w => is_asleep w = true) ws) as [[i w]|] eqn:E.
  - right. apply list_find_Some in E as (Hi & Hw & _). destruct w; try done.
    destruct (ws !! pick) as [[]|] eqn:Ep; eauto.
  - left. apply list_find_None in E. assert (forall w, w ∈ ws -> w <> Asleep) as H.
    { intros w Hin ->. rewrite Forall_forall in E. by apply (E Asleep Hin). }
    destruct (ws !! pick) as [[]|] eqn:Ep; try done. by destruct (H Asleep); [eapply list_elem_of_lookup_2|].
Qed.

Lemma nobody_asleep (ws : list Worker) :
  (forall w, w ∈ ws -> w <> Asleep) -> (exists w, w ∈ ws /\ awake w) \/ forall w, w ∈ ws -> w = Exited.
Proof.
  intros H. destruct (decide (Exists awake ws)) as [Hx|Hx]; [left; by apply Exists_exists|right].
  intros w Hw. specialize (H w Hw). assert (~ awake w) as Ha by (intros Ha; apply Hx, Exists_exists; by exists w).
  destruct w; cbn in Ha; tauto || congruence.
Qed.

Lemma tp_ok_notify pick p : tp_ok p -> tp_ok (notify_one pick p).
Proof.
  intros H. unfold notify_one. destruct (tp_notifies p) as [|k]; [done|].
  destruct (wake_one_spec pick (tp_workers p)) as [[-> Hn]|(i & Hi & ->)].
  - destruct H as [O T1 A E _]. split; cbn; try done. right. right. by apply nobody_asleep.
  - eapply tp_ok_move; first [done | right; done | busy_lia].
Qed.
Lemma tp_ok_wake i p : tp_ok p -> tp_ok (wake i p).
Proof.
  intros H. unfold wake. destruct (tp_workers p !! i) as [[]|] eqn:Ew; try done.
  eapply tp_ok_move; first [done | right; done | busy_lia].
Qed.

Lemma in_hand_wake_up ws : in_hand (wake_up <$> ws) = in_hand ws.
Proof. unfold in_hand. induction ws as [|[] ws IH]; cbn; by rewrite ?IH. Qed.
Lemma active_wake_up ws : active (wake_up <$> ws) = active ws.
Proof.
  unfold active. f_equal. induction ws as [|w ws IH]; [done|]. rewrite fmap_cons, !filter_cons.
  destruct w; cbn [wake_up]; repeat case_decide; cbn [busy length] in *; tauto || lia.
Qed.
Lemma wake_up_exited (ws : list Worker) : Exited ∈ wake_up <$> ws <-> Exited ∈ ws.
Proof.
  rewrite list_elem_of_fmap. split; [intros (w & E & Hw); by destruct w|intros H; by exists Exited].
Qed.
Lemma tp_ok_stop p : tp_ok p -> tp_ok (request_stop p).
Proof.
  intros [O T1 A E Ha]. split; cbn; try done.
  - by rewrite in_hand_wake_up.
  - by rewrite active_wake_up.
  - destruct Ha as [H|[H|[(w & Hw & Ha)|H]]]; [by left|right; by left|right; right; left|do 3 right].
    + exists (wake_up w). split; [by apply list_elem_of_fmap_2|]. by destruct w.
    + intros w (w0 & -> & Hw)%list_elem_of_fmap. by rewrite (H w0 Hw).
Qed.

Lemma tp_ok_step p p' : tp_ok p -> TpStep p p' -> tp_ok p'.
Proof.
  intros H Hst. revert H. destruct Hst as [p task|p pick|p i|p i|p]; intros H.
  - destruct H as [O T1 A E _]. split; cbn; try done; [by rewrite O, app_assoc|right; left; cbn; lia].
  - by apply tp_ok_notify.
  - by apply tp_ok_worker.
  - by apply tp_ok_wake.
  - by apply tp_ok_stop.
Qed.

Lemma tp_ok_steps n p : rtc TpStep (new_ThreadPool n) p -> tp_ok p.
Proof.
  intros Hs. apply (rtc_ind_r tp_ok (new_ThreadPool n)) in Hs; [done|apply tp_ok_new|].
  intros q q' _ Hst H. by eapply tp_ok_step.
Qed.

(** ** The work that is left

    A task takes at most [max] steps to run beyond the last one; [m i] are the steps
    worker [i] may still need for the task it runs. *)
Section Work.
Context (max : nat).

Definition weight (m : nat) (w : Worker) : nat :=
  match w with Taken _ => max + 3 | Running _ => m + 2 | Done => 1 | Waiting | Asleep | Exited => 0 end.
Fixpoint weights (m : nat -> nat) (ws : list Worker) : nat :=
  match ws with
  | [] => 0
  | w :: ws => weight (m 0%nat) w + weights (fun i => m (S i)) ws
  end.
Definition work_left (m : nat -> nat) (p : ThreadPool) : nat :=
  ((max + 4) * length (tp_tasks p) + tp_notifies p + weights m (tp_workers p))%nat.

(** Everybody who can add to the work or take from it. *)
Inductive PoolTurn := TWorker (i : nat) | TNotify (pick : nat) | TWake (i : nat).
Definition move (t : PoolTurn) (p : ThreadPool) : ThreadPool :=
  match t with TWorker i => worker i p | TNotify pick => notify_one pick p | TWake i => wake i p end.
Definition participant (t : PoolTurn) : option (option nat) :=
  match t with TWorker i => Some (Some i) | TNotify _ => Some None | TWake _ => None end.
(** The participants of a pool of [n] workers: the workers, and whoever notifies. *)
Definition in_pool (n : nat) (k : option nat) : Prop := match k with Some i => (i < n)%nat | None => True end.

Definition helps (k : option nat) (p : ThreadPool) : Prop :=
  match k with
  | None => (0 < tp_notifies p)%nat
  | Some i => match tp_workers p !! i with
              | Some Waiting => tp_tasks p <> []
              | Some (Taken _) | Some (Running _) | Some Done => True
              | _ => False
              end
  end.
#[export] Instance helps_dec k p : Decision (helps k p).
Proof.
  destruct k as [i|]; unfold helps; [|apply _]. destruct (tp_workers p !! i) as [[]|]; try apply _.
Defined.
Definition at_rest (p : ThreadPool) : Prop :=
  tp_tasks p = [] /\ forall w, w ∈ tp_workers p -> w = Waiting \/ w = Asleep \/ w = Exited.
Definition live (p : ThreadPool) : Prop := exists w, w ∈ tp_workers p /\ w <> Exited.

Lemma weights_ext m m' ws : (forall i, m i = m' i) -> weights m ws = weights m' ws.
Proof. revert m m'. induction ws as [|w ws IH]; intros m m' H; [done|]. cbn. rewrite H. f_equal. by apply IH. Qed.
Lemma weights_insert m m' ws i w w' :
  ws !! i = Some w -> (forall j, j <> i -> m' j = m j) ->
  (weights m' (<[i := w']> ws) + weight (m i) w = weights m ws + weight (m' i) w')%nat.
Proof.
  revert m m' i. induction ws as [|w0 ws IH]; intros m m' i E H; [done|]. destruct i as [|i]; cbn in E |- *.
  - injection E as ->. rewrite (weights_ext (fun j => m' (S j)) (fun j => m (S j))) by (intros; by apply H). lia.
  - rewrite (H 0%nat) by done. specialize (IH (fun j => m (S j)) (fun j => m' (S j)) i E).
    specialize (IH ltac:(intros; apply H; congruence)). cbn in IH. unfold insert in *. lia.
Qed.

(** A helpful turn of a worker does a unit of work, any other changes nothing that counts. *)
Lemma worker_works m m' i p :
  helps (Some i) p -> (forall j, j <> i -> m' j = m j) -> (m' i <= max)%nat ->
  (work_left m' (worker i p) < work_left m p)%nat.
Proof.
  unfold helps, work_left, worker. intros H Hm Hi. destruct (tp_workers p !! i) as [w|] eqn:Ew; [|done].
  destruct w as [| |task|task| |]; try done; cbn.
  - destruct (tp_tasks p) as [|task tasks]; [done|]. cbn.
    pose proof (weights_insert m m' _ _ _ (Taken task) Ew Hm) as Hw. cbn in Hw. lia.
  - pose proof (weights_insert m m' _ _ _ (Running task) Ew Hm) as Hw. cbn in Hw. lia.
  - pose proof (weights_insert m m' _ _ _ Done Ew Hm) as Hw. cbn in Hw. lia.
  - pose proof (weights_insert m m' _ _ _ Waiting Ew Hm) as Hw. cbn in Hw. lia.
Qed.
Lemma worker_rests m i p :
  ~ helps (Some i) p -> work_left m (worker i p) = work_left m p /\ tp_tasks (worker i p) = tp_tasks p.
Proof.
  unfold helps, work_left, worker. intros H. destruct (tp_workers p !! i) as [w|] eqn:Ew; [|done].
  destruct w as [| |task|task| |]; try tauto. destruct (tp_tasks p) as [|task tasks] eqn:Et; [|by destruct H].
  cbn. rewrite Et. cbn. split; [|done].
  pose proof (weights_insert m m _ _ _ (if tp_stop p then Exited else Asleep) Ew ltac:(done)) as Hw.
  destruct (tp_stop p); cbn in Hw; lia.
Qed.
Lemma weights_waking m ws i : ws !! i = Some Asleep -> weights m (<[i := Waiting]> ws) = weights m ws.
Proof. intros E. pose proof (weights_insert m m _ _ _ Waiting E ltac:(done)) as Hw. cbn in Hw. lia. Qed.
Lemma weights_wake_one m pick ws : weights m (wake_one pick ws) = weights m ws.
Proof. destruct (wake_one_spec pick ws) as [[-> _]|(i & Hi & ->)]; [done|by apply weights_waking]. Qed.
Lemma notify_works m pick p :
  work_left m (notify_one pick p) = (work_left m p - (if decide (0 < tp_notifies p) then 1 else 0))%nat
  /\ tp_tasks (notify_one pick p) = tp_tasks p.
Proof.
  unfold notify_one, work_left. destruct (tp_notifies p) as [|k] eqn:E; cbn; rewrite ?weights_wake_one, ?E; split; try done; case_decide; lia.
Qed.
Lemma wake_works m i p :
  work_left m (wake i p) = work_left m p /\ tp_tasks (wake i p) = tp_tasks p /\ tp_notifies (wake i p) = tp_notifies p.
Proof.
  unfold wake, work_left. destruct (tp_workers p !! i) as [[]|] eqn:E; try done. cbn. by rewrite weights_waking.
Qed.

(** Until it has had its turn a helpful participant stays helpful, or somebody else did
    a unit of work. *)
Lemma helps_tasks i p p' :
  tp_tasks p' = tp_tasks p -> tp_workers p' !! i = tp_workers p !! i -> helps (Some i) p -> helps (Some i) p'.
Proof. unfold helps. by intros -> ->. Qed.
Lemma helps_kept t k p m :
  (forall i, m i <= max)%nat -> helps k p -> participant t <> Some k ->
  helps k (move t p) \/ (work_left m (move t p) < work_left m p)%nat.
Proof.
  intros Hm H Hne. destruct t as [j|pick|j]; cbn.
  - destruct (decide (helps (Some j) p)) as [Hj|Hj]; [right; by apply worker_works|left].
    destruct (worker_rests m j p Hj) as [_ Et]. destruct k as [i|].
    + apply (helps_tasks i p); [done| |done]. unfold worker. assert (j <> i) by (cbn in Hne; congruence).
      destruct (tp_workers p !! j) as [[]|]; try done; [destruct (tp_tasks p)|..]; cbn; by rewrite list_lookup_insert_ne.
    + cbn in *. unfold worker. destruct (tp_workers p !! j) as [[]|]; try done. by destruct (tp_tasks p).
  - destruct (notify_works m pick p) as [Ew Et]. destruct (tp_notifies p) as [|n] eqn:En; [left|right].
    + unfold notify_one. by rewrite En.
    + rewrite Ew. case_decide; [|lia]. unfold work_left. rewrite En. lia.
  - left. destruct (wake_works m j p) as (_ & Et & En). destruct k as [i|]; [|cbn in *; lia].
    apply (helps_tasks i p); [done| |done]. unfold wake. unfold helps in H.
    destruct (tp_workers p !! j) as [[]|] eqn:Ej; try done. cbn. apply list_lookup_insert_ne. intros ->.
    by rewrite Ej in H.
Qed.

(** A turn adds no work, and the turn of a helpful participant does some. *)
Lemma turn_works m t p : (forall i, m i <= max)%nat -> (work_left m (move t p) <= work_left m p)%nat.
Proof.
  intros Hm. destruct t as [i|pick|i]; cbn.
  - destruct (decide (helps (Some i) p)) as [H|H]; [apply Nat.lt_le_incl; by apply worker_works|].
    by destruct (worker_rests m i p H) as [-> _].
  - destruct (notify_works m pick p) as [-> _]. lia.
  - by destruct (wake_works m i p) as [-> _].
Qed.
Lemma turn_helps m t k p :
  (forall i, m i <= max)%nat -> participant t = Some k -> helps k p -> (work_left m (move t p) < work_left m p)%nat.
Proof.
  intros Hm E H. destruct t as [i|pick|i]; cbn in E |- *; [injection E as <-; by apply worker_works|injection E as <-|done].
  cbn in H. destruct (notify_works m pick p) as [-> _]. rewrite decide_True by done. unfold work_left. lia.
Qed.
Lemma turn_submitted t p : tp_submitted (move t p) = tp_submitted p.
Proof.
  destruct t as [i|pick|i]; cbn; unfold worker, notify_one, wake; [|by destruct (tp_notifies p)|];
    destruct (tp_workers p !! i) as [[]|]; try done. by destruct (tp_tasks p).
Qed.

(** Somebody can help, as long as not everything is done. *)
Definition manned (p : ThreadPool) : Prop := tp_tasks p = [] \/ live p.
Lemma somebody_helps p : tp_ok p -> manned p -> at_rest p \/ exists k, in_pool (length (tp_workers p)) k /\ helps k p.
Proof.
  intros Ok Hm.
  assert (forall i, helps (Some i) p -> in_pool (length (tp_workers p)) (Some i)) as Hin.
  { intros i H. unfold helps in H. destruct (tp_workers p !! i) eqn:E; [by eapply lookup_lt_Some|done]. }
  assert (forall i, helps (Some i) p -> exists k, in_pool (length (tp_workers p)) k /\ helps k p) as Hyes by eauto.
  destruct (decide (Exists (fun w => weight 0 w <> 0%nat) (tp_workers p))) as [H|H].
  - right. apply Exists_exists in H as (w & [i Hi]%list_elem_of_lookup & Hw). apply (Hyes i).
    unfold helps. rewrite Hi. destruct w; cbn in Hw; done || lia.
  - assert (forall w, w ∈ tp_workers p -> w = Waiting \/ w = Asleep \/ w = Exited) as Hall.
    { intros w Hw. assert (weight 0 w = 0%nat) as E.
      { destruct (decide (weight 0 w = 0%nat)); [done|]. destruct H. apply Exists_exists. eauto. }
      destruct w; cbn in E; auto; lia. }
    destruct (tp_tasks p) as [|task tasks] eqn:Et; [by left|right].
    destruct Hm as [Hm|(w0 & Hw0 & Hx)]; [congruence|].
    destruct (ok_attended _ Ok) as [Ha|[Ha|[(w & Hw & Ha)|Ha]]]; [congruence|by exists None| |by destruct Hx; apply Ha].
    destruct (Hall w Hw) as [->|[->| ->]]; [|done..]. apply list_elem_of_lookup in Hw as [i Hi]. apply (Hyes i).
    unfold helps. by rewrite Hi, Et.
Qed.
Lemma at_rest_helps k p : at_rest p -> helps k p -> k = None.
Proof.
  intros [Et Hw]. destruct k as [i|]; [|done]. unfold helps. rewrite Et.
  destruct (tp_workers p !! i) as [w|] eqn:E; [|done]. apply list_elem_of_lookup_2, Hw in E. by destruct E as [->|[->| ->]].
Qed.

Lemma worker_length i p : length (tp_workers (worker i p)) = length (tp_workers p).
Proof.
  unfold worker. destruct (tp_workers p !! i) as [[]|]; cbn; rewrite ?length_insert; try done.
  destruct (tp_tasks p); cbn; by rewrite ?length_insert.
Qed.
Lemma wake_one_length pick ws : length (wake_one pick ws) = length ws.
Proof. destruct (wake_one_spec pick ws) as [[-> _]|(i & _ & ->)]; by rewrite ?length_insert. Qed.
Lemma move_length t p : length (tp_workers (move t p)) = length (tp_workers p).
Proof.
  destruct t as [i|pick|i]; cbn; [apply worker_length| |].
  - unfold notify_one. destruct (tp_notifies p); [done|]. apply wake_one_length.
  - unfold wake. destruct (tp_workers p !! i) as [[]|]; try done. apply length_insert.
Qed.

Lemma live_insert (ws : list Worker) i w w' :
  ws !! i = Some w -> w' <> Exited -> exists w0, w0 ∈ <[i := w']> ws /\ w0 <> Exited.
Proof. intros E Hw. exists w'. split; [by eapply insert_elem|done]. Qed.
Lemma manned_turn t p : manned p -> manned (move t p).
Proof.
  intros [H|H].
  - left. destruct t as [i|pick|i]; cbn.
    + unfold worker. destruct (tp_workers p !! i) as [[]|]; try done. by rewrite H.
    + unfold notify_one. by destruct (tp_notifies p).
    + unfold wake. by destruct (tp_workers p !! i) as [[]|].
  - destruct t as [i|pick|i]; cbn.
    + unfold worker. destruct (tp_workers p !! i) as [w|] eqn:E; [|by right].
      destruct w; try (right; unfold live; cbn; by eapply live_insert); try (by right).
      destruct (tp_tasks p) eqn:Et; [by left; cbn|right; unfold live; cbn; by eapply live_insert].
    + right. unfold notify_one. destruct (tp_notifies p); [done|]. unfold live. cbn.
      destruct (wake_one_spec pick (tp_workers p)) as [[-> _]|(i & Hi & ->)]; [done|by eapply live_insert].
    + right. unfold wake. destruct (tp_workers p !! i) as [[]|] eqn:E; try done. unfold live. cbn. by eapply live_insert.
Qed.
Lemma at_rest_turn t p : at_rest p -> at_rest (move t p).
Proof.
  intros [Et Hw].
  assert (forall i w, w = Waiting \/ w = Asleep \/ w = Exited ->
    forall w0, w0 ∈ <[i := w]> (tp_workers p) -> w0 = Waiting \/ w0 = Asleep \/ w0 = Exited) as Hi.
  { intros i w H w0 [j Hj]%list_elem_of_lookup. apply list_lookup_insert_Some in Hj as [(_ & <- & _)|[_ Hj]]; [done|].
    apply Hw. by eapply list_elem_of_lookup_2. }
  destruct t as [i|pick|i]; cbn.
  - unfold worker. destruct (tp_workers p !! i) as [w|] eqn:E; [|done].
    pose proof (Hw w ltac:(by eapply list_elem_of_lookup_2)) as H. destruct H as [->|[->| ->]]; try done.
    rewrite Et. split; [done|]. apply Hi. destruct (tp_stop p); auto.
  - unfold notify_one. destruct (tp_notifies p); [done|]. split; [done|]. cbn.
    destruct (wake_one_spec pick (tp_workers p)) as [[-> _]|(i & _ & ->)]; [done|apply Hi; auto].
  - unfold wake. destruct (tp_workers p !! i) as [[]|]; try done. split; [done|]. apply Hi. auto.
Qed.
End Work.

(** Rounds in which every worker and the notifying thread have a turn. *)
Definition moves_all (ts : list PoolTurn) (p : ThreadPool) : ThreadPool := turns move ts p.
Definition fair_round (n : nat) (ts : list PoolTurn) : Prop := fair participant (in_pool n) ts.

Lemma tp_ok_turn t p : tp_ok p -> tp_ok (move t p).
Proof. destruct t; [apply tp_ok_worker|apply tp_ok_notify|apply tp_ok_wake]. Qed.
Lemma in_pool_turn n k : in_pool n k -> exists t, participant t = Some k.
Proof. intros _. destruct k as [i|]; [by exists (TWorker i)|by exists (TNotify 0)]. Qed.


Lemma rest_run p : tp_ok p -> at_rest p -> tp_run p ≡ₚ tp_submitted p.
Proof.
  intros [O T1 _ _ _] [Ht Hw]. rewrite O, Ht, T1, app_nil_r.
  assert (in_hand (tp_workers p) = []) as ->; [|by rewrite app_nil_r].
  revert Hw. unfold in_hand. generalize (tp_workers p). intros ws. induction ws as [|w ws IH]; intros Hw; [done|].
  cbn. rewrite IH by (intros; apply Hw; set_solver). by destruct (Hw w) as [->|[->| ->]]; [set_solver|..].
Qed.

(** The workers after a step, when none of them is asked to stop: one of them changes. *)
Lemma step_workers p p' : TpStep p p' -> length (tp_workers p') = length (tp_workers p).
Proof.
  destruct 1 as [p task|p pick|p i|p i|p]; [done|apply (move_length (TNotify pick))|apply worker_length
    |apply (move_length (TWake i))|cbn; by rewrite length_fmap].
Qed.
Lemma steps_workers n p : rtc TpStep (new_ThreadPool n) p -> length (tp_workers p) = n.
Proof.
  intros Hs. apply (rtc_ind_r (fun p => length (tp_workers p) = n) (new_ThreadPool n)) in Hs; [done| |].
  - cbn. by rewrite length_replicate.
  - intros q q' _ St H. by rewrite (step_workers _ _ St).
Qed.

(** A single worker runs the tasks in the order of their submission. *)
Lemma one_worker_order p :
  rtc TpStep (new_ThreadPool 1) p -> tp_taken p = tp_run p ++ in_hand (tp_workers p).
Proof.
  intros Hs. apply (rtc_ind_r (fun p => tp_taken p = tp_run p ++ in_hand (tp_workers p)) (new_ThreadPool 1)) in Hs; [done|done|].
  intros q q' Hq St Ht. pose proof (steps_workers _ _ Hq) as Hl.
  destruct (tp_workers q) as [|w [|]] eqn:Ew; try done. destruct St as [q task|q pick|q i|q i|q]; cbn in *.
  - by rewrite Ew.
  - unfold notify_one. destruct (tp_notifies q); [by rewrite Ew|]. cbn.
    rewrite Ew. destruct (wake_one_spec pick [w]) as [[-> _]|(i & Hi & ->)]; [done|].
    destruct i; [|done]. injection Hi as ->. done.
  - destruct i as [|i]; [|assert (worker (S i) q = q) as -> by (unfold worker; by rewrite Ew); by rewrite Ew].
    unfold worker. rewrite Ew. cbn. rewrite ?Ew.
    destruct w as [| |task|task| |]; cbn in *; rewrite ?Ew; try done.
    + destruct (tp_tasks q) as [|task tasks]; cbn; rewrite ?Ew; cbn; [by destruct (tp_stop q)|].
      by rewrite Ht, <- app_assoc.
    + by rewrite Ht, app_nil_r.
  - destruct i as [|i]; [|assert (wake (S i) q = q) as -> by (unfold wake; by rewrite Ew); by rewrite Ew].
    unfold wake. rewrite Ew. cbn. destruct w; cbn; by rewrite ?Ew.
  - rewrite ?Ew. by destruct w.
Qed.

(** No worker leaves before the pool's end. *)
Lemma not_stopped_live n p :
  rtc TpStep (new_ThreadPool n) p -> (0 < n)%nat -> tp_stop p = false -> live p.
Proof.
  intros Hs Hn Hp. pose proof (ok_exited _ (tp_ok_steps _ _ Hs)) as Hx. pose proof (steps_workers _ _ Hs) as Hl.
  destruct (tp_workers p) as [|w ws] eqn:E; [cbn in Hl; lia|]. exists w. rewrite E. split; [by left|].
  intros ->. rewrite Hx in Hp; [done|by left].
Qed.

(** A worker leaves only when the queue is empty; once nobody submits it stays so. *)
Definition left_empty (p : ThreadPool) : Prop := Exited ∈ tp_workers p -> tp_tasks p = [].
Lemma left_empty_worker i p : left_empty p -> left_empty (worker i p).
Proof.
  intros H. unfold left_empty, worker. destruct (tp_workers p !! i) as [w|] eqn:Ei; [|done].
  assert (forall w', Exited ∈ <[i := w']> (tp_workers p) -> w' <> Exited -> tp_tasks p = []) as Hin.
  { intros w' Hx Hw. apply H. apply list_elem_of_lookup in Hx as [j Hj].
    destruct (decide (i = j)) as [->|Hne].
    - rewrite list_lookup_insert_eq in Hj by (by eapply lookup_lt_Some). congruence.
    - rewrite list_lookup_insert_ne in Hj by done. by eapply list_elem_of_lookup_2. }
  destruct w as [| |task|task| |]; cbn; eauto using Hin.
  destruct (tp_tasks p) as [|task tasks] eqn:Et; [done|]. cbn. intros Hx. by apply Hin in Hx.
Qed.
Lemma worker_submitted i p : tp_submitted (worker i p) = tp_submitted p.
Proof. unfold worker. destruct (tp_workers p !! i) as [[]|]; try done. by destruct (tp_tasks p). Qed.

(** The end of the pool: all the workers have left, and everything has run. *)
Lemma exited_run p :
  tp_ok p -> left_empty p -> tp_workers p <> [] -> (forall w, w ∈ tp_workers p -> w = Exited) ->
  tp_run p ≡ₚ tp_submitted p.
Proof.
  intros Ok He Hne Hx. apply rest_run; [done|]. split; [|intros w Hw; right; right; by apply Hx].
  apply He. destruct (tp_workers p) as [|w ws] eqn:E; [done|]. rewrite <- (Hx w); by left.
Qed.

(** ** Properties *)

(** The pool runs every task once and takes them in order. In every reachable
    state the tasks submitted are those taken so far followed by those in the queue,
    in the order of their submission; the tasks taken are those that have run and
    those in a worker's hands, each exactly once; and [active_tasks_] is the number of
    workers between the two atomic updates of it. *)
Theorem pool_runs_each_task_once n p :
  rtc TpStep (new_ThreadPool n) p ->
  tp_submitted p = tp_taken p ++ tp_tasks p /\ tp_taken p ≡ₚ tp_run p ++ in_hand (tp_workers p)
  /\ tp_active_tasks p = active (tp_workers p).
Proof. intros H%tp_ok_steps. split_and!; apply H. Qed.

(** C31: No wake-up is lost. In every reachable state in which a task waits, some worker is
    awake and will look at the queue, or a thread inside [submit] is about to notify one,
    or all the workers have left. *)
Theorem no_lost_wakeup n p :
  rtc TpStep (new_ThreadPool n) p -> tp_tasks p <> [] ->
  (exists w, w ∈ tp_workers p /\ awake w) \/ (0 < tp_notifies p)%nat \/ forall w, w ∈ tp_workers p -> w = Exited.
Proof. intros H%tp_ok_steps Ht. destruct (ok_attended _ H) as [|[|[|]]]; auto; done. Qed.

(** The pool serves. However the workers are scheduled, once nobody submits any more:
    after as many rounds as [work_left] counts, in each of which every worker and the
    thread that notifies have a turn, in any order, with further turns and with workers
    that wake up for no reason, every task that was submitted has run. *)
Theorem pool_serves n p rounds :
  rtc TpStep (new_ThreadPool n) p -> live p ->
  Forall (fair_round n) rounds -> (work_left 0 (fun _ => 0%nat) p <= length rounds)%nat ->
  let p' := moves_all (concat rounds) p in at_rest p' /\ tp_run p' ≡ₚ tp_submitted p.
Proof.
  intros Hs Hl F Hn p'. set (m0 := fun _ : nat => 0%nat) in *.
  set (kept q := tp_ok q /\ manned q /\ length (tp_workers q) = n /\ tp_submitted q = tp_submitted p).
  set (bounded q k := kept q /\ (work_left 0 m0 q <= k)%nat).
  assert (forall t q, kept q -> kept (move t q)) as Hk.
  { intros t q (B1 & B2 & B3 & B4). split_and!; [by apply tp_ok_turn|by apply manned_turn| |].
    - by rewrite move_length.
    - by rewrite turn_submitted. }
  assert (forall t q k, bounded q k -> bounded (move t q) k) as Hkeep.
  { intros t q k [B1 B2]. split; [by apply Hk|]. etrans; [by apply turn_works|done]. }
  assert (bounded p (work_left 0 m0 p)) as B0.
  { split; [|done]. split_and!; [by apply tp_ok_steps with n|by right|by apply steps_workers|done]. }
  assert (at_rest p') as H1.
  { apply (fair_rounds move participant (in_pool n) bounded at_rest helps) with (n := work_left 0 m0 p); try done.
    - apply in_pool_turn.
    - intros q k [(B1 & B2 & B3 & _) _]. rewrite <- B3. by apply (somebody_helps 0).
    - intros t q k key [B1 B2] H.
      assert (helps key (move t q) /\ participant t <> Some key
              \/ (work_left 0 m0 (move t q) < work_left 0 m0 q)%nat) as [[H1 H2]|H1]; [|by left|right].
      { destruct (decide (participant t = Some key)); [right; by eapply turn_helps|].
        destruct (helps_kept 0 t key q m0); auto; done. }
      exists (work_left 0 m0 (move t q)). split; [lia|]. split; [by apply Hk|done].
    - intros t q k _. apply at_rest_turn. }
  split; [done|]. destruct (turns_keep move bounded Hkeep (concat rounds) p _ B0) as [(K1 & _ & _ & K2) _].
  unfold p', moves_all. rewrite <- K2. by apply rest_run.
Qed.
End Pool.

(** [wait_idle] can return too early. A worker takes a task off the queue before
    it counts itself as active: in between the queue is empty and nobody is active,
    and the task has not run. *)
Example wait_idle_too_early :
  let p := worker 0 (push (new_ThreadPool 2) "task"%string) in
  idle p = true /\ in_hand (tp_workers p) = ["task"%string] /\ tp_run p = [].
Proof. done. Qed.

Lemma pool_runs_each_task_once_witness :
  let p := worker 0 (push (push (new_ThreadPool 2) 7) 8) in tp_submitted p = tp_taken p ++ tp_tasks p.
Proof.
  refine (proj1 (pool_runs_each_task_once 2 _ _)).
  eapply rtc_l; [apply (tp_push _ 7)|]. eapply rtc_l; [apply (tp_push _ 8)|]. apply rtc_once, tp_worker.
Defined.

(** Both workers sleep when the task arrives; the first is notified, and the second never
    gets a turn that counts. *)
Definition both_asleep : ThreadPool (T := Z) := worker 1 (worker 0 (new_ThreadPool 2)).
Lemma both_asleep_steps : rtc TpStep (new_ThreadPool 2) (push both_asleep 7).
Proof. eapply rtc_l; [apply (tp_worker _ 0)|]. eapply rtc_l; [apply (tp_worker _ 1)|]. apply rtc_once, tp_push. Qed.

Lemma no_lost_wakeup_witness :
  (exists w, w ∈ tp_workers (push both_asleep 7%Z) /\ awake w)
  \/ (0 < tp_notifies (push both_asleep 7%Z))%nat \/ forall w, w ∈ tp_workers (push both_asleep 7) -> w = Exited.
Proof. apply (no_lost_wakeup 2 _ both_asleep_steps). by vm_compute. Defined.

Lemma pool_serves_witness :
  let rounds := replicate 5 [TWorker 0; TWorker 1; TNotify 0] in
  tp_run (moves_all (concat rounds) (push both_asleep 7)) ≡ₚ [7].
Proof.
  intros rounds. refine (proj2 (pool_serves 2 (push both_asleep 7%Z) rounds both_asleep_steps _ _ _)).
  - exists Asleep. split; [by left|done].
  - apply Forall_replicate. intros [i|] Hi; cbn in Hi.
    + destruct i as [|[|i]]; [exists (TWorker 0)|exists (TWorker 1)|lia]; (split; [set_solver|done]).
    + exists (TNotify 0). split; [set_solver|done].
  - vm_compute. lia.
Defined.
