(* ===== verification/Qt.v ===== *)
(** * What the client uses of Qt

    Qt is not part of the repository. A [QString] is the sequence of its UTF-16 code
    units, a [QByteArray] a byte string. [Qt] lists the functions of Qt the source
    calls, [QtLaws] what Qt documents about them and the source relies on: on
    well-formed text the conversions are the encoding forms of the Unicode standard,
    which are defined here; on ill-formed text nothing is assumed. [qt_basic] is a
    concrete instance that satisfies the laws. *)
From S2P Require Import Prelude ByteString Frames.
Local Open Scope Z_scope.

Abbreviation QString := (list Z).

(** ** The encoding forms of the Unicode standard *)

(** A character is a scalar value: a code point that is not a surrogate. *)
Definition scalar (c : Z) : Prop := 0 <= c < 55296 \/ 57344 <= c < 1114112.
#[export] Instance scalar_dec c : Decision (scalar c).
Proof. unfold scalar. apply _. Defined.

Definition utf8_units (c : Z) : list Z :=
  if c <? 128 then [c]
  else if c <? 2048 then [192 + c / 64; 128 + c mod 64]
  else if c <? 65536 then [224 + c / 4096; 128 + c / 64 mod 64; 128 + c mod 64]
  else [240 + c / 262144; 128 + c / 4096 mod 64; 128 + c / 64 mod 64; 128 + c mod 64].
Definition utf16_units (c : Z) : list Z :=
  if c <? 65536 then [c] else [55296 + (c - 65536) / 1024; 56320 + (c - 65536) mod 1024].

Definition utf8 (text : list Z) : string := of_bytes (val_byte <$> (text ≫= utf8_units)).
Definition utf16 (text : list Z) : QString := text ≫= utf16_units.

(** Characters that a text document returns as they were put in: not a carriage
    return or one of the characters it uses as separators, not the object replacement
    character, and not the no-break space. *)
Definition plain (c : Z) : Prop :=
  scalar c /\ c ∉ [0; 13; 160; 8232; 8233; 64976; 64977; 65532].
#[export] Instance plain_dec c : Decision (plain c).
Proof. unfold plain. apply _. Defined.

(** ** The interface *)

Class Qt := {
  (** [fromUtf8] and [fromStdString], [toUtf8] and [toStdString]. *)
  fromUtf8 : string -> QString;
  toUtf8 : QString -> string;
  (** [toPlainText] of a text document that a text was put into. *)
  plainText : QString -> QString;
  trimmed : QString -> QString;
  toUInt : QString -> Z;
  QColor : Type;
  toColor : QString -> QColor;
  isValid : QColor -> bool;
  red : QColor -> Z;
  green : QColor -> Z;
  blue : QColor -> Z;
  darker : QColor -> Z -> QColor;
  colorName : QColor -> QString;
}.

(** [#RRGGBB]. *)
Definition hex_digit (c : ascii) : bool :=
  let n := Z.of_N (N_of_ascii c) in
  ((48 <=? n) && (n <=? 57)) || ((65 <=? n) && (n <=? 70)) || ((97 <=? n) && (n <=? 102)).
Definition hex_color (s : string) : bool :=
  match s with
  | String "#" rest => (String.length rest =? 6)%nat && forallb hex_digit (bytes_of rest)
  | _ => false
  end.

Class QtLaws (Q : Qt) : Prop := {
  qt_fromUtf8 text : Forall scalar text -> fromUtf8 (utf8 text) = utf16 text;
  qt_toUtf8 text : Forall scalar text -> toUtf8 (utf16 text) = utf8 text;
  qt_plainText text : Forall plain text -> plainText (utf16 text) = utf16 text;
  qt_plainText_nbsp : plainText [160] = [32];
  qt_toUInt s : is_u32 (toUInt s);
  qt_color s : hex_color s = true -> isValid (toColor (fromUtf8 s)) = true;
}.

(** [QString::left] and [QString::mid], for arguments that are not negative;
    [QByteArray::left]. *)
Definition qleft (s : QString) (n : Z) : QString := take (Z.to_nat n) s.
Definition qmid (s : QString) (pos n : Z) : QString := take (Z.to_nat n) (drop (Z.to_nat pos) s).
Definition qsize (s : QString) : Z := Z.of_nat (length s).
(** [QStringLiteral] and the conversion of a literal. *)
Definition qliteral {Q : Qt} (s : string) : QString := fromUtf8 s.

(** A text for the user: a template with its arguments, or a string as it is. *)
Inductive Text := Tr (template : string) (args : list TextArg) | TextOf (s : QString)
with TextArg := ArgString (s : QString) | ArgNumber (n : Z) | ArgText (t : Text).

(** ** Lemmas *)

Lemma utf8_app a b : utf8 (a ++ b) = utf8 a +:+ utf8 b.
Proof.
  apply bytes_of_inj. unfold utf8. rewrite bytes_of_app, !bytes_of_of_bytes. by rewrite bind_app, fmap_app.
Qed.
Lemma utf16_app a b : utf16 (a ++ b) = utf16 a ++ utf16 b.
Proof. apply bind_app. Qed.
Lemma plain_scalar text : Forall plain text -> Forall scalar text.
Proof. intros H. eapply Forall_impl; [done|]. by intros c []. Qed.

Lemma slen_utf8_nil text : slen (utf8 text) = 0 -> text = [].
Proof.
  destruct text as [|c text]; [done|]. change (c :: text) with ([c] ++ text). rewrite utf8_app, slen_app.
  assert (0 < slen (utf8 [c])) as H; [|pose proof (slen_nonneg (utf8 text)); lia].
  unfold utf8. rewrite slen_bytes, bytes_of_of_bytes, length_fmap. cbn. rewrite app_nil_r.
  unfold utf8_units. zcases; cbn; lia.
Qed.
Lemma utf16_nil text : utf16 text = [] -> text = [].
Proof.
  destruct text as [|c text]; [done|]. unfold utf16. cbn. unfold utf16_units. destruct (c <? 65536); done.
Qed.

(** ** A concrete instance *)

(** Decoding; what is not well-formed becomes the replacement character. *)
Fixpoint decode8 (bs : list Z) : list Z :=
  match bs with
  | [] => []
  | b0 :: r0 =>
      if b0 <? 128 then b0 :: decode8 r0
      else if b0 <? 224 then
        match r0 with
        | b1 :: r1 => ((b0 - 192) * 64 + (b1 - 128)) :: decode8 r1
        | _ => [65533]
        end
      else if b0 <? 240 then
        match r0 with
        | b1 :: b2 :: r2 => ((b0 - 224) * 4096 + (b1 - 128) * 64 + (b2 - 128)) :: decode8 r2
        | _ => [65533]
        end
      else
        match r0 with
        | b1 :: b2 :: b3 :: r3 =>
            ((b0 - 240) * 262144 + (b1 - 128) * 4096 + (b2 - 128) * 64 + (b3 - 128)) :: decode8 r3
        | _ => [65533]
        end
  end.
Fixpoint decode16 (us : list Z) : list Z :=
  match us with
  | [] => []
  | u :: r =>
      if (u <? 55296) || (57344 <=? u) then u :: decode16 r
      else match r with
           | v :: r => ((u - 55296) * 1024 + (v - 56320) + 65536) :: decode16 r
           | [] => [65533]
           end
  end.

Definition plain_unit (u : Z) : Z :=
  if u =? 160 then 32 else if (u =? 8232) || (u =? 8233) || (u =? 13) then 10 else u.
Fixpoint trim_left (s : QString) : QString :=
  match s with [] => [] | u :: r => if (u =? 32) || ((9 <=? u) && (u <=? 13)) then trim_left r else s end.
Definition digits_value (s : QString) : option Z :=
  match s with
  | [] => None
  | _ => foldl (fun acc u => n ← acc; if (48 <=? u) && (u <=? 57) then Some (n * 10 + (u - 48)) else None) (Some 0) s
  end.

Definition qt_basic : Qt := {|
  fromUtf8 s := utf16 (decode8 (byte_val <$> bytes_of s));
  toUtf8 s := utf8 (decode16 s);
  plainText s := plain_unit <$> s;
  trimmed s := rev (trim_left (rev (trim_left s)));
  toUInt s := match digits_value s with Some n => if (0 <=? n) && (n <? u32_mod) then n else 0 | None => 0 end;
  QColor := option QString;
  toColor s := if bool_decide (head s = Some 35) then Some s else None;
  isValid c := bool_decide (is_Some c);
  red c := 0;
  green c := 0;
  blue c := 0;
  darker c _ := c;
  colorName c := default [] c;
|}.

Lemma decode8_utf8 text : Forall scalar text -> decode8 (text ≫= utf8_units) = text.
Proof.
  induction 1 as [|c text Hc _ IH]; [done|]. cbn [mbind list_bind]. unfold utf8_units, scalar in *.
  Z.to_euclidean_division_equations.
  zcases; cbn [app decode8]; zcases; try lia; rewrite IH; f_equal; lia.
Qed.

Lemma decode16_utf16 text : Forall scalar text -> decode16 (text ≫= utf16_units) = text.
Proof.
  induction 1 as [|c text Hc _ IH]; [done|]. cbn [mbind list_bind]. unfold utf16_units, scalar in *.
  Z.to_euclidean_division_equations.
  zcases; cbn [app decode16]; zcases; cbn [orb]; try lia; rewrite IH; f_equal; lia.
Qed.

Lemma utf8_units_bytes c : scalar c -> Forall (fun b => 0 <= b < 256) (utf8_units c).
Proof.
  unfold utf8_units, scalar. intros Hc. Z.to_euclidean_division_equations. zcases; repeat constructor; lia.
Qed.
Lemma utf8_bytes text : Forall scalar text -> Forall (fun b => 0 <= b < 256) (text ≫= utf8_units).
Proof.
  induction 1 as [|c text Hc _ IH]; [constructor|]. cbn [mbind list_bind].
  apply Forall_app. split; [by apply utf8_units_bytes|done].
Qed.

Lemma plain_unit_plain c : plain c -> plain_unit <$> utf16_units c = utf16_units c.
Proof.
  intros [Hs Hc]. rewrite !not_elem_of_cons in Hc. unfold utf16_units, scalar in *.
  Z.to_euclidean_division_equations.
  zcases; cbn; unfold plain_unit; zcases; cbn [orb]; try lia; done.
Qed.

Lemma bytes_back bs : Forall (fun b => 0 <= b < 256) bs -> byte_val <$> (val_byte <$> bs) = bs.
Proof. induction 1 as [|b bs Hb _ IH]; [done|]. cbn. by rewrite IH, byte_val_val_byte. Qed.

#[export] Instance qt_basic_laws : QtLaws qt_basic.
Proof.
  split; cbn.
  - intros text H. unfold utf8. by rewrite bytes_of_of_bytes, bytes_back, decode8_utf8 by (done || by apply utf8_bytes).
  - intros text H. unfold utf16. by rewrite decode16_utf16.
  - intros text H. unfold utf16. induction H as [|c text Hc _ IH]; [done|]. cbn [mbind list_bind].
    rewrite fmap_app, IH. f_equal. by apply plain_unit_plain.
  - done.
  - intros s. destruct (digits_value s) as [n|]; [|done]. unfold is_u32.
    destruct (Z.leb_spec 0 n), (Z.ltb_spec n u32_mod); cbn; lia.
  - intros [|[[] [] [] [] [] [] [] []] s]; done.
Qed.
