(* ===== verification/Widgets.v ===== *)
(** * The small widgets of the client (client/src/theme.cpp,
    client/src/status_bar_widget.cpp, client/src/user_panel_widget.cpp)

    What a widget shows is its state: the texts and colours of its labels and the rows
    of its lists. Layouts, fonts and icons are in [Layout]. *)
From stdpp Require Import sorting.
From S2P Require Import Prelude ByteString Frames Qt.
Local Open Scope Z_scope.

(** The boxes of [QMessageBox]. *)
Inductive BoxKind := BoxInformation | BoxWarning | BoxCritical | BoxQuestion.

Section Widgets.
Context {Q : Qt}.

(** ** theme *)

Definition roleColor (role : QString) : QColor :=
  if bool_decide (role = qliteral "owner") then toColor (qliteral "#8e44ad")
  else if bool_decide (role = qliteral "editor") then toColor (qliteral "#2d6cdf")
  else if bool_decide (role = qliteral "viewer") then toColor (qliteral "#8a8f98")
  else toColor (qliteral "#8a8f98").

Definition stateColor (state : QString) : QColor :=
  if bool_decide (state = qliteral "SYN") then toColor (qliteral "#2e7d32")
  else if bool_decide (state = qliteral "ACK") then toColor (qliteral "#c07a1a")
  else if bool_decide (state = qliteral "BUF") then toColor (qliteral "#b8622f")
  else toColor (qliteral "#6a737d").

Definition chipQss (color : QColor) : Text :=
  Tr "background: rgba(%1, %2, %3, 38);color: %4;border-radius: 9px;padding: 2px 10px;font-size: 11px;font-weight: 600;"
    [ArgNumber (red color); ArgNumber (green color); ArgNumber (blue color);
     ArgString (colorName (darker color 135))].

(** A label with its style sheet. *)
Record QLabel := mkQLabel { label_text : Text; label_style : option Text }.
Definition chip_style (color : QColor) : Text := Tr "QLabel { %1 }" [ArgText (chipQss color)].
Definition makeBadge (text : Text) (color : QColor) : QLabel := mkQLabel text (Some (chip_style color)).

(** ** StatusBarWidget *)

Record StatusBarWidget := mkStatusBarWidget {
  sb_cursor : Text;
  sb_revision : Text;
  sb_state : QLabel;
  sb_online : Text;
  sb_message : option (Text * Z);    (* QStatusBar::showMessage: text and timeout *)
}.

Definition setCursorPosition (s : StatusBarWidget) (line column : Z) : StatusBarWidget :=
  mkStatusBarWidget (Tr "%1:%2" [ArgNumber line; ArgNumber column]) (sb_revision s) (sb_state s)
    (sb_online s) (sb_message s).
Definition sb_setRevision (s : StatusBarWidget) (revision : Z) : StatusBarWidget :=
  mkStatusBarWidget (sb_cursor s) (Tr "rev %1" [ArgNumber revision]) (sb_state s) (sb_online s) (sb_message s).
Definition setStateLabel (s : StatusBarWidget) (label : QString) : StatusBarWidget :=
  mkStatusBarWidget (sb_cursor s) (sb_revision s)
    (mkQLabel (TextOf label) (Some (chip_style (stateColor label)))) (sb_online s) (sb_message s).
Definition setOnlineCount (s : StatusBarWidget) (count : Z) : StatusBarWidget :=
  mkStatusBarWidget (sb_cursor s) (sb_revision s) (sb_state s) (Tr "online: %1" [ArgNumber count]) (sb_message s).
Definition showMessage (s : StatusBarWidget) (text : Text) (timeout : Z) : StatusBarWidget :=
  mkStatusBarWidget (sb_cursor s) (sb_revision s) (sb_state s) (sb_online s) (Some (text, timeout)).

Definition new_StatusBarWidget : StatusBarWidget :=
  setStateLabel
    (mkStatusBarWidget (TextOf (qliteral "1:1")) (TextOf (qliteral "rev 0"))
       (mkQLabel (TextOf (qliteral "SYN")) None) (TextOf (qliteral "online: 0")) None)
    (qliteral "SYN").

(** ** UserPanelWidget *)

Record PanelEntry := mkPanelEntry { pe_username : QString; pe_color : QColor; pe_local : bool }.
(** A row: the colour of its icon, its label, and whether it is bold. *)
Record PanelRow := mkPanelRow { pr_color : QColor; pr_label : Text; pr_bold : bool }.
Record UserPanelWidget := mkUserPanelWidget {
  up_users : gmap Z PanelEntry;
  up_local_user_id : Z;
  up_header : Text;
  up_rows : list PanelRow;
}.
Definition new_UserPanelWidget : UserPanelWidget := mkUserPanelWidget ∅ 0 (Tr "Online" []) [].

(** The entries of a [std::map] in the order of its keys. *)
Definition by_key (x y : Z * PanelEntry) : Prop := fst x <= fst y.
#[export] Instance by_key_dec x y : Decision (by_key x y).
Proof. unfold by_key. apply _. Defined.
Definition in_order (m : gmap Z PanelEntry) : list (Z * PanelEntry) := merge_sort by_key (map_to_list m).

Definition panel_row (e : PanelEntry) : PanelRow :=
  mkPanelRow (pe_color e)
    (if pe_local e then Tr "%1  ·  you" [ArgString (pe_username e)] else TextOf (pe_username e)) (pe_local e).
Definition rebuild (p : UserPanelWidget) : UserPanelWidget :=
  mkUserPanelWidget (up_users p) (up_local_user_id p)
    (Tr "Online · %1" [ArgNumber (Z.of_nat (size (up_users p)))])
    ((fun '(_, e) => panel_row e) <$> in_order (up_users p)).

Definition with_users (p : UserPanelWidget) (users : gmap Z PanelEntry) : UserPanelWidget :=
  mkUserPanelWidget users (up_local_user_id p) (up_header p) (up_rows p).

Definition grey : QColor := toColor (qliteral "#808080").

Definition setLocalUser (p : UserPanelWidget) (userId : Z) (username : QString) (color : QColor)
    : UserPanelWidget :=
  let p := mkUserPanelWidget (up_users p) userId (up_header p) (up_rows p) in
  rebuild (with_users p
    (<[userId := mkPanelEntry username (if isValid color then color else grey) true]> (up_users p))).

Definition upsertUser (p : UserPanelWidget) (userId : Z) (username : QString) (color : QColor)
    : UserPanelWidget :=
  let is_local := userId =? up_local_user_id p in
  let c := if isValid color then color else grey in
  rebuild (with_users p
    match up_users p !! userId with
    | None => <[userId := mkPanelEntry username c is_local]> (up_users p)
    | Some e =>
        let e := if bool_decide (username = []) then e else mkPanelEntry username (pe_color e) (pe_local e) in
        let e := if isValid color then mkPanelEntry (pe_username e) c (pe_local e) else e in
        <[userId := mkPanelEntry (pe_username e) (pe_color e) is_local]> (up_users p)
    end).

Definition up_removeUser (p : UserPanelWidget) (userId : Z) : UserPanelWidget :=
  if userId =? up_local_user_id p then p
  else match up_users p !! userId with
  | None => p
  | Some _ => rebuild (with_users p (delete userId (up_users p)))
  end.

Definition clearRemoteUsers (p : UserPanelWidget) : UserPanelWidget :=
  rebuild (with_users p (filter (fun '(id, _) => id = up_local_user_id p) (up_users p))).
End Widgets.

(** ** Invariant of the panel *)

Section Panel.
Context {Q : Qt} {L : QtLaws Q}.

#[export] Instance by_key_total : Total by_key.
Proof. intros x y. unfold by_key. lia. Qed.
#[export] Instance by_key_trans : Transitive by_key.
Proof. intros x y z. unfold by_key. lia. Qed.

Definition entry_ok (user id : Z) (e : PanelEntry) : Prop :=
  pe_local e = (id =? user) /\ isValid (pe_color e) = true.

(** The panel of a user: that user is in it, the users are marked and coloured as they
    should, and the list shows them. *)
Record panel_ok (user : Z) (p : UserPanelWidget) : Prop := mkPanelOk {
  panel_user : up_local_user_id p = user;
  panel_there : is_Some (up_users p !! user);
  panel_entries : map_Forall (entry_ok user) (up_users p);
  panel_rows : rebuild p = p;
}.

Lemma grey_valid : isValid grey = true.
Proof. apply qt_color. reflexivity. Qed.
Lemma or_grey color : isValid (if isValid color then color else grey) = true.
Proof. destruct (isValid color) eqn:E; [done|apply grey_valid]. Qed.

Lemma with_users_ok user p users :
  up_local_user_id p = user -> is_Some (users !! user) -> map_Forall (entry_ok user) users ->
  panel_ok user (rebuild (with_users p users)).
Proof. by split. Qed.

Lemma setLocalUser_ok user username color :
  panel_ok user (setLocalUser new_UserPanelWidget user username color).
Proof.
  apply with_users_ok; [done|rewrite lookup_insert_eq; eauto|].
  apply map_Forall_insert_2; [|apply map_Forall_empty]. split; [by rewrite Z.eqb_refl|apply or_grey].
Qed.
Lemma upsertUser_ok user p userId username color :
  panel_ok user p -> panel_ok user (upsertUser p userId username color).
Proof.
  intros [Hu Ht He _]. apply with_users_ok; [done| |].
  - destruct (up_users p !! userId); apply lookup_insert_is_Some;
      (destruct (decide (userId = user)); [by left|by right]).
  - rewrite Hu. destruct (up_users p !! userId) as [e|] eqn:E; apply map_Forall_insert_2; try done.
    + specialize (He _ _ E) as [_ Hc]. split; [done|].
      case_bool_decide; destruct (isValid color) eqn:Ev; done.
    + split; [done|apply or_grey].
Qed.
Lemma up_removeUser_ok user p userId : panel_ok user p -> panel_ok user (up_removeUser p userId).
Proof.
  intros Hp. unfold up_removeUser. destruct (Z.eqb_spec userId (up_local_user_id p)) as [|Hne]; [done|].
  destruct (up_users p !! userId); [|done]. destruct Hp as [Hu Ht He _].
  apply with_users_ok; [done|by rewrite lookup_delete_ne by congruence|by apply map_Forall_delete].
Qed.
Lemma clearRemoteUsers_ok user p : panel_ok user p -> panel_ok user (clearRemoteUsers p).
Proof.
  intros [Hu [e Ht] He _]. apply with_users_ok; [done| |].
  - exists e. by apply map_lookup_filter_Some_2.
  - intros id x [Hx _]%map_lookup_filter_Some. by apply He.
Qed.

Lemma panel_rows_length user p : panel_ok user p -> length (up_rows p) = size (up_users p).
Proof.
  intros [_ _ _ H]. rewrite <- H. cbn. rewrite length_fmap. unfold in_order.
  by rewrite merge_sort_Permutation, length_map_to_list.
Qed.

(** The calls the window makes. *)
Inductive PanelStep : UserPanelWidget -> UserPanelWidget -> Prop :=
| panel_upsert p userId username color : PanelStep p (upsertUser p userId username color)
| panel_remove p userId : PanelStep p (up_removeUser p userId)
| panel_clear p : PanelStep p (clearRemoteUsers p).

Lemma PanelStep_ok user p p' : PanelStep p p' -> panel_ok user p -> panel_ok user p'.
Proof. destruct 1; auto using upsertUser_ok, up_removeUser_ok, clearRemoteUsers_ok. Qed.
End Panel.

(** ** Properties *)

(** The panel always shows the user itself, and everyone once. After the local user
    was set, whatever is called, the local user is in the panel and is the only one marked
    as such, every entry has a valid colour, and the rows are those of the users in the
    order of their ids, as many as the header says. *)
Theorem panel_shows_everyone {Q : Qt} {L : QtLaws Q} user username color p :
  rtc PanelStep (setLocalUser new_UserPanelWidget user username color) p ->
  is_Some (up_users p !! user)
  /\ (forall id e, up_users p !! id = Some e -> pe_local e = (id =? user) /\ isValid (pe_color e) = true)
  /\ (exists entries, entries ≡ₚ map_to_list (up_users p) /\ StronglySorted by_key entries
        /\ up_rows p = panel_row <$> entries.*2)
  /\ up_header p = Tr "Online · %1" [ArgNumber (Z.of_nat (length (up_rows p)))].
Proof.
  intros Hs. assert (panel_ok user p) as Hp.
  { pose proof (setLocalUser_ok user username color) as H0. revert H0.
    exact (rtc_preserved _ _ _ _ (fun _ _ H Hst => PanelStep_ok _ _ _ Hst H) Hs). }
  pose proof (panel_rows_length user p Hp) as Hl. destruct Hp as [Hu Ht He Hr]. split_and!; [done|done| |].
  - exists (in_order (up_users p)). split; [apply merge_sort_Permutation|].
    split; [apply (StronglySorted_merge_sort by_key)|]. rewrite <- Hr at 1. cbn.
    rewrite <- list_fmap_compose. apply list_fmap_ext. by intros ? [].
  - rewrite Hl. by rewrite <- Hr at 1.
Qed.

Lemma panel_shows_everyone_witness :
  is_Some (up_users (up_removeUser (upsertUser (setLocalUser (Q := qt_basic) new_UserPanelWidget 2 [97] None)
                       1 [98] None) 2) !! 2%Z).
Proof.
  refine (proj1 (panel_shows_everyone (Q := qt_basic) 2 [97] None _ _)).
  eapply rtc_l; [apply panel_upsert|]. apply rtc_once, panel_remove.
Defined.
