(* ===== verification/CursorAnimation.v ===== *)
(** * The animation of the remote cursors (client/src/editor_widget.cpp)

    A cursor of another user is drawn at a position that moves towards the real one: a
    timer of 16 ms moves it by a fraction of the distance, in [double] arithmetic, and snaps
    it when it is near. The file models the positions and the timer; EditorWidget.v holds
    them in the widget. *)
From S2P Require Import Prelude Protocol Operation RemoteCursors Double DoubleError.
Local Open Scope Z_scope.

Section Animation.
Context {QString QColor : Type}.
Abbreviation Cursor := (RemoteCursor (QString := QString) (QColor := QColor)).

Record CursorAnim := mkCursorAnim {
  an_display_position : double;
  an_display_sel_start : option double;
  an_display_sel_end : option double;
}.
Definition no_anim : CursorAnim := mkCursorAnim (of_int 0) None None.

(** [cursor_anim_], and whether [cursor_anim_timer_] is active. *)
Record CursorAnimation := mkCursorAnimation {
  ca_anims : gmap Z CursorAnim;
  ca_active : bool;
}.
Definition new_CursorAnimation : CursorAnimation := mkCursorAnimation ∅ false.

Definition no_cursors (cursors : list Cursor) : bool := match cursors with [] => true | _ => false end.

Definition anim_of (rc : Cursor) : CursorAnim :=
  mkCursorAnim (of_int (rc_position rc)) (of_int <$> rc_selectionStart rc) (of_int <$> rc_selectionEnd rc).

(** The animation part of [setRemoteCursors]; [emplace] keeps an entry that is there. *)
Definition animate (ca : CursorAnimation) (cursors : list Cursor) : CursorAnimation :=
  let next := foldl (fun next rc =>
      match next !! rc_userId rc with
      | Some _ => next
      | None => <[rc_userId rc := default (anim_of rc) (ca_anims ca !! rc_userId rc)]> next
      end) ∅ cursors in
  mkCursorAnimation next
    (if negb (ca_active ca) && negb (no_cursors cursors) then true else ca_active ca).

Definition kEase : double := literal 28 100.
Definition kSnap : double := literal 1 2.

(** The lambda [step], with whether it moved. *)
Definition step (disp target : double) : double * bool :=
  let diff := dsub target disp in
  if dlt (dabs diff) kSnap then (target, false)
  else (dadd disp (dmul diff kEase), true).
Definition step_selection (disp : option double) (target : option Z) : option double * bool :=
  match target with
  | Some t => let '(d, moving) := step (default (of_int t) disp) (of_int t) in (Some d, moving)
  | None => (None, false)
  end.
Definition step_cursor (a : CursorAnim) (rc : Cursor) : CursorAnim * bool :=
  let '(p, m1) := step (an_display_position a) (of_int (rc_position rc)) in
  let '(s, m2) := step_selection (an_display_sel_start a) (rc_selectionStart rc) in
  let '(e, m3) := step_selection (an_display_sel_end a) (rc_selectionEnd rc) in
  (mkCursorAnim p s e, m1 || m2 || m3).

Definition tick (ca : CursorAnimation) (cursors : list Cursor) : CursorAnimation :=
  if no_cursors cursors then mkCursorAnimation (ca_anims ca) false
  else
    let '(anims, any_moving) := foldl (fun '(m, moving) rc =>
        let '(a, moved) := step_cursor (default no_anim (m !! rc_userId rc)) rc in
        (<[rc_userId rc := a]> m, moving || moved)) (ca_anims ca, false) cursors in
    mkCursorAnimation anims (if negb any_moving then false else ca_active ca).

Record DisplayedPositions := mkDisplayedPositions {
  dp_position : Z;
  dp_selectionStart : option Z;
  dp_selectionEnd : option Z;
}.
(** [None]: the rounded position is unspecified. *)
Definition pick (anim : option double) (fallback : Z) : option Z :=
  match anim with
  | Some d => u32 <$> lround d
  | None => Some fallback
  end.
Definition pick_selection (anim : option double) (selection : option Z) : option (option Z) :=
  match selection with
  | Some fallback => Some <$> pick anim fallback
  | None => Some None
  end.
Definition displayedPositionsFor (ca : CursorAnimation) (rc : Cursor) : option DisplayedPositions :=
  let a := ca_anims ca !! rc_userId rc in
  position ← pick (an_display_position <$> a) (rc_position rc);
  selectionStart ← pick_selection (a ≫= an_display_sel_start) (rc_selectionStart rc);
  selectionEnd ← pick_selection (a ≫= an_display_sel_end) (rc_selectionEnd rc);
  Some (mkDisplayedPositions position selectionStart selectionEnd).
End Animation.

(** ** One step *)

Definition good (d : double) : Prop := valid d /\ 0 <= value d <= (u32_mod - 1) * ulp0.
Definition distance (t : Z) (d : double) : Z := Z.abs (t * ulp0 - value d).

Lemma approx_sum r s : approx r (s * ulp0) -> 2 ^ 53 * Z.abs (value r - s) <= Z.abs s + 2 ^ 52.
Proof.
  intros [_ H _]. pose proof ulp0_pos.
  rewrite <- Z.mul_sub_distr_r, !Z.abs_mul, (Z.abs_eq ulp0), Z.mul_assoc, <- Z.mul_add_distr_r in H by lia.
  by apply Z.mul_le_mono_pos_r in H.
Qed.

Lemma ulp0_large : 2 ^ 100 <= ulp0.
Proof. unfold ulp0. by apply Z.pow_le_mono_r. Qed.

Lemma kSnap_spec : valid kSnap /\ 2 * value kSnap = ulp0.
Proof. split; [by apply is_valid_spec; vm_compute|by vm_compute]. Qed.
Lemma kEase_spec : valid kEase /\ 279999 * ulp0 <= 10 ^ 6 * value kEase <= 280001 * ulp0.
Proof. split; [by apply is_valid_spec; vm_compute|]. split; apply Z.leb_le; by vm_compute. Qed.

(** The product of a distance with the fraction. *)
Lemma ease_spec r x :
  approx r (x * value kEase) -> ulp0 <= 4 * Z.abs x ->
  if 0 <=? x then 279 * x <= 1000 * value r <= 281 * x else 281 * x <= 1000 * value r <= 279 * x.
Proof.
  intros [_ H _] Hx. destruct kEase_spec as [_ B]. pose proof ulp0_large as Hu.
  set (c := value kEase) in *. set (v := value r) in *. clearbody c v.
  assert (279999 * (Z.abs x * ulp0) <= 10 ^ 6 * (Z.abs x * c) <= 280001 * (Z.abs x * ulp0)) as BQ by nia.
  assert (2 ^ 52 * ulp0 <= Z.abs x * ulp0) as BP by nia.
  assert (Z.abs (x * c) = Z.abs x * c) as Eabs by (rewrite Z.abs_mul; f_equal; nia).
  rewrite Eabs in H. destruct (Z.leb_spec 0 x) as [C|C].
  - rewrite (Z.abs_eq x) in * by lia.
    assert (279 * x * ulp0 <= 1000 * v * ulp0 <= 281 * x * ulp0) as [H1 H2] by lia.
    split; apply (Z.mul_le_mono_pos_r _ _ ulp0); lia.
  - rewrite (Z.abs_neq x) in * by lia. rewrite !Z.mul_opp_l in *.
    assert (281 * x * ulp0 <= 1000 * v * ulp0 <= 279 * x * ulp0) as [H1 H2] by lia.
    split; apply (Z.mul_le_mono_pos_r _ _ ulp0); lia.
Qed.

(** The arithmetic of a step that moves, all values in units of [2 ^ -1074]. *)
Lemma ease_arithmetic U T d D x y z :
  2 ^ 100 <= U -> 0 <= T <= 4294967295 * U -> 0 <= d <= 4294967295 * U -> D = T - d ->
  2 ^ 53 * Z.abs (x - D) <= Z.abs D + 2 ^ 52 -> U <= 2 * Z.abs x ->
  (if 0 <=? x then 279 * x <= 1000 * y <= 281 * x else 281 * x <= 1000 * y <= 279 * x) ->
  2 ^ 53 * Z.abs (z - (d + y)) <= Z.abs (d + y) + 2 ^ 52 ->
  0 <= z <= 4294967295 * U /\ 100 * Z.abs (T - z) <= 73 * Z.abs D /\ 49 * U < 100 * Z.abs D.
Proof.
  intros HU HT Hd HD Hx Hxu Hy Hz.
  assert (2 ^ 19 * Z.abs (x - D) <= U) as Hx' by lia.
  assert (Z.abs (d + y) <= 2 ^ 34 * U) as Hdy by (destruct (0 <=? x); lia).
  assert (2 ^ 18 * Z.abs (z - (d + y)) <= U) as Hz' by lia.
  clear Hx Hz Hdy. destruct (Z.leb_spec 0 x); split_and!; lia.
Qed.

(** A step keeps within the two positions; it snaps, or comes nearer by a fixed factor;
    and near the target it snaps. *)
Lemma step_spec t d : is_u32 t -> good d ->
  let '(d', moving) := step d (of_int t) in
  good d' /\ (moving = false -> d' = of_int t)
  /\ 100 * distance t d' <= 73 * distance t d
  /\ (100 * distance t d <= 49 * ulp0 -> moving = false).
Proof.
  intros Ht [Hd Bd]. unfold is_u32 in Ht. pose proof ulp0_large as Hu.
  destruct (of_int_spec t) as [Hvt Evt]; [lia|].
  assert (approx (dsub (of_int t) d) ((t * ulp0 - value d) * ulp0)) as Ha.
  { rewrite <- Evt. apply dsub_spec; [done..|]. rewrite Evt. unfold bound.
    transitivity (2 ^ 33 * ulp0); [nia|]. apply Z.mul_le_mono_nonneg_r; [lia|].
    by apply Z.pow_le_mono_r. }
  pose proof (approx_sum _ _ Ha) as He. destruct Ha as [Hv _ _]. unfold step.
  destruct kSnap_spec as [Hsn Esn]. destruct (dabs_spec _ Hv) as [Hva Eva]. rewrite dlt_spec, Eva by done.
  set (x := value (dsub (of_int t) d)) in *. set (D := t * ulp0 - value d) in *.
  assert (0 <= t * ulp0 <= 4294967295 * ulp0) as BT by nia.
  assert (D = t * ulp0 - value d) as ED by done. assert (Z.abs D <= 2 ^ 33 * ulp0) as BD by lia.
  destruct (Z.ltb_spec (Z.abs x) (value kSnap)) as [C|C].
  - split_and!; [|done| |done].
    + split; [done|]. rewrite Evt. nia.
    + unfold distance at 1. rewrite Evt, Z.sub_diag. unfold distance. lia.
  - assert (valid kEase) as Hke by apply kEase_spec.
    assert (approx (dmul (dsub (of_int t) d) kEase) (x * value kEase)) as Hm.
    { apply dmul_spec; [done..|]. fold x. destruct kEase_spec as [_ BE]. rewrite Z.abs_mul.
      transitivity (2 ^ 34 * ulp0 * ulp0); [apply Z.mul_le_mono_nonneg; lia|].
      unfold ulp0. rewrite <- !Z.pow_add_r by lia. by apply Z.pow_le_mono_r. }
    pose proof (ease_spec _ _ Hm ltac:(lia)) as Hy. destruct Hm as [Hvy _ _].
    set (y := value (dmul (dsub (of_int t) d) kEase)) in *.
    assert (approx (dadd d (dmul (dsub (of_int t) d) kEase)) ((value d + y) * ulp0)) as Hz.
    { apply dadd_spec; [done..|]. fold y. unfold bound. transitivity (2 ^ 35 * ulp0).
      - destruct (0 <=? x); lia.
      - apply Z.mul_le_mono_nonneg_r; [lia|]. by apply Z.pow_le_mono_r. }
    pose proof (approx_sum _ _ Hz) as Hez. destruct Hz as [Hvz _ _].
    set (z := value (dadd d (dmul (dsub (of_int t) d) kEase))) in *.
    assert (Z.abs (value d + y) <= 2 ^ 35 * ulp0) as Bs by (destruct (0 <=? x); lia).
    destruct (ease_arithmetic ulp0 (t * ulp0) (value d) D x y z) as (H1 & H2 & H3); [done..|lia|done|done|].
    split_and!; [done|done|exact H2|]. unfold distance. fold D. lia.
Qed.

Lemma good_of_int t : is_u32 t -> good (of_int t).
Proof.
  intros Ht. unfold is_u32 in Ht. pose proof ulp0_pos. destruct (of_int_spec t) as [H1 H2]; [lia|]. split; [done|].
  rewrite H2. nia.
Qed.
Lemma distance_of_int t : is_u32 t -> distance t (of_int t) = 0.
Proof. intros Ht. unfold is_u32 in Ht. unfold distance. rewrite (proj2 (of_int_spec t ltac:(lia))). lia. Qed.
Lemma distance_bound t d : is_u32 t -> good d -> distance t d <= 2 ^ 32 * ulp0.
Proof. intros Ht [_ Hd]. unfold is_u32 in Ht. unfold distance. pose proof ulp0_pos. nia. Qed.
Lemma pick_good d f : good d -> is_Some (pick (Some d) f).
Proof.
  intros [Hv Hd]. unfold pick, lround. rewrite scaled_value by done. cbn [mbind option_bind]. pose proof ulp0_pos.
  assert (0 <= (2 * value d + ulp0) / (2 * ulp0) < u32_mod).
  { split; [apply Z.div_pos; lia|apply Z.div_lt_upper_bound; lia]. }
  rewrite bool_decide_true; [by eexists|]. rewrite (Z.abs_eq (value d)) by lia.
  destruct (Z.sgn_spec (value d)) as [[_ ->]|[[_ ->]|[? _]]]; lia.
Qed.
Lemma pick_of_int t f : is_u32 t -> pick (Some (of_int t)) f = Some t.
Proof.
  intros Ht. unfold is_u32 in Ht. destruct (of_int_spec t) as [H1 H2]; [lia|]. unfold pick.
  rewrite (lround_spec _ t) by (done || lia). cbn. f_equal. apply Z.mod_small. lia.
Qed.

(** ** The animation of a cursor *)

Section Facts.
Context {QString QColor : Type}.
Abbreviation Cursor := (RemoteCursor (QString := QString) (QColor := QColor)).
Implicit Types (rc : Cursor) (cursors : list Cursor).

Definition cursor_ok rc : Prop :=
  is_u32 (rc_position rc) /\ (forall t, rc_selectionStart rc = Some t -> is_u32 t)
  /\ (forall t, rc_selectionEnd rc = Some t -> is_u32 t).
Definition anim_good (a : CursorAnim) : Prop :=
  good (an_display_position a) /\ (forall d, an_display_sel_start a = Some d -> good d)
  /\ (forall d, an_display_sel_end a = Some d -> good d).
(** All that is shown is within [k] of its target. *)
Definition within (k : Z) (a : CursorAnim) rc : Prop :=
  distance (rc_position rc) (an_display_position a) <= k
  /\ (forall t d, rc_selectionStart rc = Some t -> an_display_sel_start a = Some d -> distance t d <= k)
  /\ (forall t d, rc_selectionEnd rc = Some t -> an_display_sel_end a = Some d -> distance t d <= k).

Definition next_distance (k : Z) : Z := 73 * k / 100.

Lemma step_selection_spec k target disp :
  0 <= k -> (forall t, target = Some t -> is_u32 t) -> (forall d, disp = Some d -> good d) ->
  (forall t d, target = Some t -> disp = Some d -> distance t d <= k) ->
  let '(disp', moving) := step_selection disp target in
  (forall d, disp' = Some d -> good d) /\ (moving = false -> disp' = of_int <$> target)
  /\ (forall t d, target = Some t -> disp' = Some d -> distance t d <= next_distance k)
  /\ (100 * k <= 49 * ulp0 -> moving = false).
Proof.
  intros Hk Ht Hd Hw. unfold step_selection. destruct target as [t|]; [|by split_and!].
  specialize (Ht t eq_refl).
  assert (good (default (of_int t) disp)) as Hg by (destruct disp; [by apply Hd|by apply good_of_int]).
  assert (distance t (default (of_int t) disp) <= k) as Hdist
    by (destruct disp; [by apply Hw|cbn; by rewrite distance_of_int]).
  pose proof (step_spec t _ Ht Hg) as Hs. destruct (step (default (of_int t) disp) (of_int t)) as [d' moving].
  destruct Hs as (H1 & H2 & H3 & H4). split_and!.
  - by intros d [= <-].
  - intros Hm. cbn. by rewrite (H2 Hm).
  - intros t' d [= <-] [= <-]. apply Z.div_le_lower_bound; lia.
  - intros. apply H4. lia.
Qed.

Lemma step_cursor_spec k a rc :
  0 <= k -> cursor_ok rc -> anim_good a -> within k a rc ->
  let '(a', moving) := step_cursor a rc in
  anim_good a' /\ (moving = false -> a' = anim_of rc) /\ within (next_distance k) a' rc
  /\ (100 * k <= 49 * ulp0 -> moving = false).
Proof.
  intros Hk (Hp & Hs & He) (Gp & Gs & Ge) (Wp & Ws & We). unfold step_cursor.
  pose proof (step_spec _ _ Hp Gp) as Sp. destruct (step _ _) as [p m1]. destruct Sp as (P1 & P2 & P3 & P4).
  pose proof (step_selection_spec k _ _ Hk Hs Gs Ws) as Ss. destruct (step_selection _ _) as [s m2].
  destruct Ss as (S1 & S2 & S3 & S4).
  pose proof (step_selection_spec k _ _ Hk He Ge We) as Se. destruct (step_selection (an_display_sel_end a) _) as [e m3].
  destruct Se as (E1 & E2 & E3 & E4). split_and!.
  - by split_and!.
  - intros [[H1 H2]%orb_false_elim H3]%orb_false_elim. unfold anim_of. by rewrite P2, S2, E2.
  - split_and!; [|done|done]. apply Z.div_le_lower_bound; cbn [an_display_position]; lia.
  - intros H. rewrite P4, S4, E4 by lia. done.
Qed.

Lemma anim_of_good rc : cursor_ok rc -> anim_good (anim_of rc).
Proof.
  intros (Hp & Hs & He). split_and!; [by apply good_of_int|..]; cbn; intros d Hd;
    apply fmap_Some in Hd as (t & Ht & ->); apply good_of_int; eauto.
Qed.
Lemma no_anim_good : anim_good no_anim.
Proof. split_and!; [by apply good_of_int|done|done]. Qed.
Lemma within_bound a rc : cursor_ok rc -> anim_good a -> within (2 ^ 32 * ulp0) a rc.
Proof. intros (Hp & Hs & He) (Gp & Gs & Ge). split_and!; [by apply distance_bound|..]; intros t d Ht Hd; apply distance_bound; eauto. Qed.

Abbreviation ids cursors := (rc_userId <$> cursors).

(** The two loops, over cursors of different users. *)
Lemma animate_anims ca cursors rc : NoDup (ids cursors) -> rc ∈ cursors ->
  ca_anims (animate ca cursors) !! rc_userId rc = Some (default (anim_of rc) (ca_anims ca !! rc_userId rc)).
Proof.
  cbn [ca_anims animate].
  assert (forall m : gmap Z CursorAnim, NoDup (ids cursors) -> (forall rc, rc ∈ cursors -> m !! rc_userId rc = None) ->
    let m' := foldl (fun next rc => match next !! rc_userId rc with Some _ => next
      | None => <[rc_userId rc := default (anim_of rc) (ca_anims ca !! rc_userId rc)]> next end) m cursors in
    (forall rc, rc ∈ cursors -> m' !! rc_userId rc = Some (default (anim_of rc) (ca_anims ca !! rc_userId rc)))
    /\ (forall k, k ∉ ids cursors -> m' !! k = m !! k)) as H.
  { induction cursors as [|c cs IH]; intros m Hn Hm; cbn [foldl].
    - split; [|done]. intros r Hr. by apply elem_of_nil in Hr.
    - apply NoDup_cons in Hn as [Hc Hn]. rewrite Hm by apply list_elem_of_here.
      destruct (IH (<[rc_userId c := default (anim_of c) (ca_anims ca !! rc_userId c)]> m)) as [H1 H2].
      + done.
      + intros r Hr. rewrite lookup_insert_ne; [apply Hm; by apply list_elem_of_further|].
        intros E. apply Hc. rewrite E. by apply list_elem_of_fmap_2.
      + split.
        * intros r [->|Hr]%elem_of_cons; [|by apply H1]. rewrite H2 by done. apply lookup_insert_eq.
        * intros k Hk. apply not_elem_of_cons in Hk as [Hk1 Hk2]. rewrite H2 by done. by apply lookup_insert_ne. }
  intros Hn Hrc. by apply H.
Qed.

Lemma tick_anims (m : gmap Z CursorAnim) mv cursors : NoDup (ids cursors) ->
  let r := foldl (fun '(m, moving) rc =>
    let '(a, moved) := step_cursor (default no_anim (m !! rc_userId rc)) rc in
    (<[rc_userId rc := a]> m, moving || moved)) (m, mv) cursors in
  (forall rc, rc ∈ cursors -> fst r !! rc_userId rc = Some (fst (step_cursor (default no_anim (m !! rc_userId rc)) rc)))
  /\ (forall k, k ∉ ids cursors -> fst r !! k = m !! k)
  /\ (snd r = false <-> mv = false
        /\ forall rc, rc ∈ cursors -> snd (step_cursor (default no_anim (m !! rc_userId rc)) rc) = false).
Proof.
  revert m mv. induction cursors as [|c cs IH]; intros m mv Hn; cbn [foldl].
  - split_and!; [|done|].
    + intros rc Hr. by apply elem_of_nil in Hr.
    + split; [intros H; split; [done|]|by intros []]. intros rc Hr. by apply elem_of_nil in Hr.
  - apply NoDup_cons in Hn as [Hc Hn].
    destruct (step_cursor (default no_anim (m !! rc_userId c)) c) as [a moved] eqn:Ec.
    specialize (IH (<[rc_userId c := a]> m) (mv || moved) Hn).
    assert (forall rc, rc ∈ cs -> <[rc_userId c := a]> m !! rc_userId rc = m !! rc_userId rc) as Hsame.
    { intros rc Hr. apply lookup_insert_ne. intros E. apply Hc. rewrite E. by apply list_elem_of_fmap_2. }
    destruct IH as (H1 & H2 & H3). split_and!.
    + intros rc [->|Hr]%elem_of_cons; [|rewrite H1, Hsame by done; done].
      rewrite H2 by done. rewrite lookup_insert_eq. by rewrite Ec.
    + intros k [Hk1 Hk2]%not_elem_of_cons. rewrite H2 by done. by apply lookup_insert_ne.
    + rewrite H3, orb_false_iff. split.
      * intros [[-> ->] H]. split; [done|]. intros rc [->|Hr]%elem_of_cons; [by rewrite Ec|]. rewrite <- Hsame by done. by apply H.
      * intros [-> H]. split.
        -- split; [done|]. specialize (H c (list_elem_of_here _ _)). by rewrite Ec in H.
        -- intros rc Hr. rewrite Hsame by done. apply H. by apply list_elem_of_further.
Qed.

(** ** Invariant *)

Record anim_ok (ca : CursorAnimation) cursors : Prop := mkAnimOk {
  ao_users : NoDup (ids cursors);
  ao_cursors : forall rc, rc ∈ cursors -> cursor_ok rc;
  ao_good : forall k a, ca_anims ca !! k = Some a -> anim_good a;
  ao_keys : forall rc, rc ∈ cursors -> is_Some (ca_anims ca !! rc_userId rc);
  ao_rest : ca_active ca = false -> forall rc, rc ∈ cursors -> ca_anims ca !! rc_userId rc = Some (anim_of rc);
}.

Lemma animate_good ca cursors : NoDup (ids cursors) -> (forall rc, rc ∈ cursors -> cursor_ok rc) ->
  (forall k a, ca_anims ca !! k = Some a -> anim_good a) ->
  forall k a, ca_anims (animate ca cursors) !! k = Some a -> anim_good a.
Proof.
  intros _ Hc Hg. cbn [ca_anims animate].
  assert (forall m : gmap Z CursorAnim, (forall k a, m !! k = Some a -> anim_good a) ->
    (forall rc, rc ∈ cursors -> cursor_ok rc) ->
    forall k a, foldl (fun next rc => match next !! rc_userId rc with Some _ => next
      | None => <[rc_userId rc := default (anim_of rc) (ca_anims ca !! rc_userId rc)]> next end) m cursors !! k = Some a ->
    anim_good a) as H; [|apply H; [by intros k a; rewrite lookup_empty|done]].
  clear Hc. induction cursors as [|c cs IH]; intros m Hm Hc; [done|]. cbn [foldl]. apply IH.
  - destruct (m !! rc_userId c); [done|]. intros k a. rewrite lookup_insert. case_decide; [|apply Hm].
    intros [= <-]. destruct (ca_anims ca !! rc_userId c) eqn:E; [by eapply Hg|]. apply anim_of_good, Hc, list_elem_of_here.
  - intros rc Hr. by apply Hc, list_elem_of_further.
Qed.

Lemma animate_ok ca old cursors :
  NoDup (ids cursors) -> (forall rc, rc ∈ cursors -> cursor_ok rc) -> anim_ok ca old -> anim_ok (animate ca cursors) cursors.
Proof.
  intros Hn Hc H. split; [done|done|by apply animate_good, H| |].
  - intros rc Hr. rewrite animate_anims by done. by eexists.
  - cbn [ca_active animate]. destruct (ca_active ca), cursors as [|c cs]; try done. cbn. intros _ rc Hr. by apply elem_of_nil in Hr.
Qed.

Lemma at_rest_stays rc : cursor_ok rc -> snd (step_cursor (anim_of rc) rc) = false.
Proof.
  intros Hc. pose proof ulp0_pos.
  assert (within 0 (anim_of rc) rc) as Hw.
  { destruct Hc as (Hp & Hs & He). split_and!; cbn; [by rewrite distance_of_int|..]; intros t d Ht Hd;
      apply fmap_Some in Hd as (t' & Ht' & ->); rewrite Ht in Ht'; injection Ht' as <-; rewrite distance_of_int; eauto; lia. }
  pose proof (step_cursor_spec 0 _ rc ltac:(lia) Hc (anim_of_good rc Hc) Hw) as Hs.
  destruct (step_cursor (anim_of rc) rc). apply Hs. lia.
Qed.

(** What one tick does to a state in which everything is within [k]. *)
Definition all_within (k : Z) (ca : CursorAnimation) cursors : Prop :=
  forall rc a, rc ∈ cursors -> ca_anims ca !! rc_userId rc = Some a -> within k a rc.

Lemma tick_ok k ca cursors :
  0 <= k -> anim_ok ca cursors -> all_within k ca cursors ->
  let ca' := tick ca cursors in
  anim_ok ca' cursors /\ all_within (next_distance k) ca' cursors
  /\ (100 * k <= 49 * ulp0 -> ca_active ca' = false).
Proof.
  intros Hk H Hw. unfold tick. destruct (no_cursors cursors) eqn:En.
  { destruct cursors; [|done]. split_and!; [|intros rc a Hr; by apply elem_of_nil in Hr|done].
    split; cbn; [constructor|intros rc Hr|apply H|intros rc Hr|intros _ rc Hr]; by apply elem_of_nil in Hr. }
  pose proof (tick_anims (ca_anims ca) false cursors (ao_users _ _ H)) as Ht. cbv zeta in Ht.
  destruct (foldl _ (ca_anims ca, false) cursors) as [m moving]. cbn [fst snd] in Ht. destruct Ht as (H1 & H2 & H3).
  assert (forall rc, rc ∈ cursors -> exists a, ca_anims ca !! rc_userId rc = Some a
    /\ m !! rc_userId rc = Some (fst (step_cursor a rc))
    /\ anim_good (fst (step_cursor a rc)) /\ (snd (step_cursor a rc) = false -> fst (step_cursor a rc) = anim_of rc)
    /\ within (next_distance k) (fst (step_cursor a rc)) rc /\ (100 * k <= 49 * ulp0 -> snd (step_cursor a rc) = false)) as Hs.
  { intros rc Hr. destruct (ao_keys _ _ H rc Hr) as [a Ha]. exists a. split; [done|].
    rewrite H1 by done. rewrite Ha. split; [done|]. cbn [default].
    pose proof (step_cursor_spec k a rc Hk (ao_cursors _ _ H rc Hr) (ao_good _ _ H _ _ Ha) (Hw rc a Hr Ha)) as Hsc.
    by destruct (step_cursor a rc). }
  split_and!.
  - split; cbn [ca_anims ca_active]; try apply H.
    + intros j a Ha. destruct (decide (j ∈ ids cursors)) as [Hj|Hj]; [|rewrite H2 in Ha by done; by eapply H].
      apply list_elem_of_fmap in Hj as (rc & -> & Hr). destruct (Hs rc Hr) as (a0 & _ & E & G & _). congruence.
    + intros rc Hr. destruct (Hs rc Hr) as (a0 & _ & E & _). rewrite E. by eexists.
    + intros Hact rc Hr. destruct (Hs rc Hr) as (a0 & E0 & E & _ & G & _). rewrite E. f_equal. apply G.
      destruct moving; cbn [negb] in Hact.
      * rewrite (ao_rest _ _ H Hact rc Hr) in E0. injection E0 as <-.
        apply at_rest_stays. by apply (ao_cursors _ _ H).
      * destruct (proj1 H3 eq_refl) as [_ Hm]. specialize (Hm rc Hr). by rewrite E0 in Hm.
  - intros rc a Hr Ha. destruct (Hs rc Hr) as (a0 & _ & E & _ & _ & G & _). cbn in Ha. congruence.
  - intros Hk'. cbn [ca_active]. replace moving with false; [done|]. symmetry. apply H3. split; [done|].
    intros rc Hr. destruct (Hs rc Hr) as (a0 & E0 & _ & _ & _ & _ & G). rewrite E0. by apply G.
Qed.

Lemma first_stop (f : nat -> bool) n : f n = false -> exists k, (k <= n)%nat /\ f k = false /\ forall j, (j < k)%nat -> f j = true.
Proof.
  revert f. induction n as [|n IH]; intros f Hf; [exists O; split_and!; [lia|done|lia]|].
  destruct (f O) eqn:E0; [|exists O; split_and!; [lia|done|lia]].
  destruct (IH (fun i => f (S i)) Hf) as (k & Hk & Hk0 & Hj). exists (S k). split_and!; [lia|done|].
  intros [|j] Hlt; [done|apply Hj; lia].
Qed.

Lemma next_distance_nonneg k : 0 <= k -> 0 <= next_distance k.
Proof. intros. apply Z.div_pos; lia. Qed.

Lemma ticks_ok n k ca cursors :
  0 <= k -> anim_ok ca cursors -> all_within k ca cursors ->
  anim_ok (Nat.iter n (fun ca => tick ca cursors) ca) cursors
  /\ all_within (Nat.iter n next_distance k) (Nat.iter n (fun ca => tick ca cursors) ca) cursors
  /\ 0 <= Nat.iter n next_distance k.
Proof.
  intros Hk H Hw. induction n as [|n (IH1 & IH2 & IH3)]; [done|]. cbn [Nat.iter].
  destruct (tick_ok _ _ _ IH3 IH1 IH2) as (H1 & H2 & _). split_and!; [done|done|]. by apply next_distance_nonneg.
Qed.
End Facts.

(** The widget's cursors and their animation, as the window and the timer change them. *)
Inductive AnimRun {QString QColor : Type} : CursorAnimation -> list (RemoteCursor (QString := QString) (QColor := QColor)) -> Prop :=
| anim_start : AnimRun new_CursorAnimation []
| anim_set ca old cursors :
    AnimRun ca old -> NoDup (rc_userId <$> cursors) -> (forall rc, rc ∈ cursors -> cursor_ok rc) ->
    AnimRun (animate ca cursors) cursors
| anim_tick ca cursors : AnimRun ca cursors -> ca_active ca = true -> AnimRun (tick ca cursors) cursors.

Lemma AnimRun_ok {QString QColor : Type} ca (cursors : list (RemoteCursor (QString := QString) (QColor := QColor))) :
  AnimRun ca cursors -> anim_ok ca cursors.
Proof.
  induction 1 as [|ca old cursors H IH Hn Hc|ca cursors H IH Ha].
  - split; [constructor|intros rc Hr; by apply elem_of_nil in Hr|done|intros rc Hr|intros _ rc Hr]; by apply elem_of_nil in Hr.
  - by eapply animate_ok.
  - eapply (tick_ok (2 ^ 32 * ulp0)); [pose proof ulp0_pos; lia|done|].
    intros rc a Hr Hl. apply within_bound; [by apply (ao_cursors _ _ IH)|by eapply (ao_good _ _ IH)].
Qed.

(** The position every cursor really has. *)
Definition real_positions {QString QColor : Type} (rc : RemoteCursor (QString := QString) (QColor := QColor)) : DisplayedPositions :=
  mkDisplayedPositions (rc_position rc) (rc_selectionStart rc) (rc_selectionEnd rc).

Lemma displayed_anim_of {QString QColor : Type} ca (rc : RemoteCursor (QString := QString) (QColor := QColor)) :
  cursor_ok rc -> ca_anims ca !! rc_userId rc = Some (anim_of rc) -> displayedPositionsFor ca rc = Some (real_positions rc).
Proof.
  intros (Hp & Hs & He) E. unfold displayedPositionsFor, real_positions. rewrite E. cbn [fmap option_fmap option_map mbind option_bind anim_of
    an_display_position an_display_sel_start an_display_sel_end].
  rewrite pick_of_int by done. cbn [mbind option_bind].
  assert (forall sel, (forall t, sel = Some t -> is_u32 t) -> pick_selection (of_int <$> sel) sel = Some sel) as H.
  { intros [t|] Ht; [|done]. pose proof (pick_of_int t t (Ht t eq_refl)) as Et. cbn in *. by rewrite Et. }
  by rewrite !H by done.
Qed.

Lemma displayed_defined {QString QColor : Type} ca (rc : RemoteCursor (QString := QString) (QColor := QColor)) a :
  ca_anims ca !! rc_userId rc = Some a -> anim_good a -> is_Some (displayedPositionsFor ca rc).
Proof.
  intros E (Gp & Gs & Ge). unfold displayedPositionsFor. rewrite E. cbn [fmap option_fmap option_map mbind option_bind].
  destruct (pick_good _ (rc_position rc) Gp) as [p ->]. cbn [mbind option_bind].
  assert (forall disp sel, (forall d, disp = Some d -> good d) -> is_Some (pick_selection disp sel)) as H.
  { intros [d|] [t|] Hd; cbn; try by eexists. destruct (pick_good d t (Hd d eq_refl)) as [x Hx]. cbn in Hx. rewrite Hx. by eexists. }
  destruct (H (an_display_sel_start a) (rc_selectionStart rc) Gs) as [s ->].
  destruct (H (an_display_sel_end a) (rc_selectionEnd rc) Ge) as [e ->]. by eexists.
Qed.

(** ** The cursors of the model

    What the model of the remote cursors holds is what [AnimRun] asks for. *)
Section ModelCursors.
Context {QString QColor : Type} (fromStdString : string -> QString) (toColor : QString -> QColor) (isValid : QColor -> bool).
Abbreviation Model := (RemoteCursorsModel (QString := QString) (QColor := QColor)).
Implicit Types (m : Model).

Definition model_ok m : Prop := forall k c, rcm_cursors m !! k = Some c -> rc_userId c = k /\ cursor_ok c.
Definition info_ok (c : CursorInfo) : Prop :=
  is_u32 (ci_position c) /\ (forall t, ci_selectionStart c = Some t -> is_u32 t)
  /\ (forall t, ci_selectionEnd c = Some t -> is_u32 t).

Lemma translate_u32 p op : is_u32 p -> is_u32 (op_position op) -> is_u32 (translate p op).
Proof. intros Hp Ho. unfold translate. destruct (is_noop op); [done|]. destruct (op_type op); repeat case_match; try done; apply is_u32_u32. Qed.

Lemma model_ok_broadcast m msg : Forall info_ok (cbm_cursors msg) ->
  model_ok (fst (applyBroadcast fromStdString toColor isValid m msg)).
Proof.
  intros Hi k c. cbn. rewrite broadcast_lookup, lookup_empty. destruct (k =? _); [done|].
  intros (i & Hh & ->)%fmap_Some. apply head_Some_elem_of, list_elem_of_filter in Hh as [Hk Hin].
  rewrite Forall_forall in Hi. split; [done|]. apply (Hi i Hin).
Qed.
Lemma model_ok_operation m op : is_u32 (op_position op) -> model_ok m -> model_ok (fst (RemoteCursors.applyRemoteOperation m op)).
Proof.
  intros Ho Hm. unfold RemoteCursors.applyRemoteOperation. destruct (_ || _); [done|]. intros k c. cbn. rewrite lookup_fmap.
  intros (c0 & Hc & ->)%fmap_Some. destruct (Hm _ _ Hc) as (Hk & Hp & Hs & He). split; [done|].
  split_and!; [by apply translate_u32|..]; cbn; intros t (t0 & Ht & ->)%fmap_Some; apply translate_u32; eauto.
Qed.
Lemma model_ok_remove m userId : model_ok m -> model_ok (fst (removeUser m userId)).
Proof.
  intros Hm. unfold removeUser. destruct (rcm_cursors m !! userId); [|done]. intros k c. cbn.
  intros [_ Hc]%lookup_delete_Some. by apply Hm.
Qed.
Lemma model_ok_clear m : model_ok m -> model_ok (fst (clear m)).
Proof. intros Hm. unfold clear. by case_bool_decide. Qed.

Lemma model_cursors m : model_ok m ->
  NoDup (rc_userId <$> cursors m) /\ forall rc, rc ∈ cursors m -> cursor_ok rc.
Proof.
  intros Hm. unfold cursors. split.
  - replace (rc_userId <$> (snd <$> map_to_list (rcm_cursors m))) with (map_to_list (rcm_cursors m)).*1; [apply NoDup_fst_map_to_list|].
    rewrite <- list_fmap_compose. apply list_fmap_ext. intros i [k c] Hl. apply list_elem_of_lookup_2, elem_of_map_to_list in Hl.
    by destruct (Hm _ _ Hl).
  - intros rc ([k c] & -> & Hl%elem_of_map_to_list)%list_elem_of_fmap. by destruct (Hm _ _ Hl).
Qed.
End ModelCursors.

(** C30: the animation of the cursors settles. In the [double] arithmetic of the machine,
    whatever cursors arrive and however often the timer fires between them, the position
    shown of a cursor is always defined; and if no new positions arrive the timer stops
    after 74 ticks at most (1.2 seconds), with every cursor and selection shown exactly
    where it is. *)
Theorem animation_settles {QString QColor : Type} ca (cursors : list (RemoteCursor (QString := QString) (QColor := QColor))) :
  AnimRun ca cursors ->
  (forall rc, rc ∈ cursors -> is_Some (displayedPositionsFor ca rc))
  /\ exists n, (n <= 74)%nat
     /\ let after k := Nat.iter k (fun ca => tick ca cursors) ca in
        ca_active (after n) = false /\ (forall k, (k < n)%nat -> ca_active (after k) = true)
        /\ forall rc, rc ∈ cursors -> displayedPositionsFor (after n) rc = Some (real_positions rc).
Proof.
  intros H%AnimRun_ok. split.
  { intros rc Hr. destruct (ao_keys _ _ H rc Hr) as [a Ha]. eapply displayed_defined; [done|by eapply (ao_good _ _ H)]. }
  assert (all_within (2 ^ 32 * ulp0) ca cursors) as Hw.
  { intros rc a Hr Hl. apply within_bound; [by apply (ao_cursors _ _ H)|by eapply (ao_good _ _ H)]. }
  pose proof ulp0_pos as Hu.
  destruct (first_stop (fun k => ca_active (Nat.iter k (fun ca => tick ca cursors) ca)) 74) as (n & Hn & Hs & Hj).
  { destruct (ticks_ok 73 (2 ^ 32 * ulp0) ca cursors ltac:(lia) H Hw) as (H1 & H2 & H3).
    refine (proj2 (proj2 (tick_ok _ _ _ H3 H1 H2)) _). apply Z.leb_le. vm_compute. reflexivity. }
  exists n. split; [done|]. intros after. split; [done|]. split; [intros k Hk; by apply Hj|]. intros rc Hr.
  destruct (ticks_ok n (2 ^ 32 * ulp0) ca cursors ltac:(lia) H Hw) as (H1 & _ & _).
  apply displayed_anim_of; [by apply (ao_cursors _ _ H)|by apply (ao_rest _ _ H1)].
Qed.

Lemma animation_settles_witness :
  let rc p := mkRemoteCursor (QString := ()) (QColor := ()) 7 () () p (Some 3) None in
  let ca := animate (tick (animate new_CursorAnimation [rc 1000000]) [rc 1000000]) [rc 5] in
  ca_active ca = true /\ ca_active (Nat.iter 40 (fun ca => tick ca [rc 5]) ca) = true
  /\ exists n, (n <= 74)%nat /\ ca_active (Nat.iter n (fun ca => tick ca [rc 5]) ca) = false.
Proof.
  intros rc ca. split; [by vm_compute|]. split; [by vm_compute|].
  assert (forall p, is_u32 p -> NoDup (rc_userId <$> [rc p]) /\ forall r, r ∈ [rc p] -> cursor_ok r) as Hok.
  { intros p Hp. split; [apply NoDup_singleton|]. intros r ->%list_elem_of_singleton. split_and!; [done| |done].
    intros t [= <-]. by unfold is_u32. }
  destruct (animation_settles ca [rc 5]) as (_ & n & Hn & Ha & _); [|by exists n].
  apply (anim_set _ [rc 1000000]); [|by apply Hok; unfold is_u32..].
  apply anim_tick; [|by vm_compute]. apply (anim_set _ []); [constructor|by apply Hok; unfold is_u32..].
Defined.
