(* ===== verification/EditorWidget.v ===== *)
(** * The editor (client/src/editor_widget.cpp, client/src/utf8_codec.cpp)

    The editor shows UTF-16 text and speaks of operations on UTF-8 bytes. The text of
    the Qt document, its cursor and the read-only flag are part of the state;
    [contentsChange] is the call of the slot with the arguments Qt documents: the
    offset of the change and the numbers of code units removed and added. Positions
    given to a [QTextCursor] are inside the document. The animation of remote cursors
    is in CursorAnimation.v, their drawing in Painting.v. *)
From S2P Require Import Prelude ByteString Operation OT Ladder Qt Json Protocol RemoteCursors CursorAnimation.
Local Open Scope Z_scope.

(** ** utf8_codec *)

Section Editor.
Context {Q : Qt}.

Definition utf16_to_utf8_offset (text : QString) (utf16_offset : Z) : Z :=
  if utf16_offset <=? 0 then 0
  else if qsize text <=? utf16_offset then u32 (slen (toUtf8 text))
  else u32 (slen (toUtf8 (qleft text utf16_offset))).

Definition utf8_to_utf16_offset (utf8_text : string) (utf8_offset : Z) : Z :=
  if utf8_offset =? 0 then 0
  else if u32 (slen utf8_text) <=? utf8_offset then i32 (qsize (fromUtf8 utf8_text))
  else i32 (qsize (fromUtf8 (str_mid utf8_text 0 (i32 utf8_offset)))).

(** ** EditorWidget *)

Record EditorWidget := mkEditorWidget {
  ew_user_id : Z;
  ew_current_revision : Z;
  ew_applying_remote : bool;
  ew_last_known_text : QString;
  ew_document : QString;                        (* toPlainText() *)
  ew_cursor : Z * Z;                            (* textCursor(): anchor and position *)
  ew_read_only : bool;
  ew_remote_cursors : list (RemoteCursor (QString := QString) (QColor := QColor));
  ew_animation : CursorAnimation;               (* cursor_anim_ and its timer *)
}.

Definition new_EditorWidget : EditorWidget := 
  mkEditorWidget 0 0 false [] [] (0, 0) false [] new_CursorAnimation.

Definition with_applying (w : EditorWidget) (b : bool) : EditorWidget :=
  mkEditorWidget (ew_user_id w) (ew_current_revision w) b (ew_last_known_text w) (ew_document w)
    (ew_cursor w) (ew_read_only w) (ew_remote_cursors w) (ew_animation w).
Definition with_last_known (w : EditorWidget) (s : QString) : EditorWidget :=
  mkEditorWidget (ew_user_id w) (ew_current_revision w) (ew_applying_remote w) s (ew_document w)
    (ew_cursor w) (ew_read_only w) (ew_remote_cursors w) (ew_animation w).
Definition with_document (w : EditorWidget) (s : QString) (cursor : Z * Z) : EditorWidget :=
  mkEditorWidget (ew_user_id w) (ew_current_revision w) (ew_applying_remote w) (ew_last_known_text w) s
    cursor (ew_read_only w) (ew_remote_cursors w) (ew_animation w).

Definition setIdentity (w : EditorWidget) (user_id revision : Z) : EditorWidget :=
  mkEditorWidget user_id revision (ew_applying_remote w) (ew_last_known_text w) (ew_document w)
    (ew_cursor w) (ew_read_only w) (ew_remote_cursors w) (ew_animation w).
Definition setRevision (w : EditorWidget) (revision : Z) : EditorWidget := setIdentity w (ew_user_id w) revision.
Definition setReadOnly (w : EditorWidget) (b : bool) : EditorWidget :=
  mkEditorWidget (ew_user_id w) (ew_current_revision w) (ew_applying_remote w) (ew_last_known_text w)
    (ew_document w) (ew_cursor w) b (ew_remote_cursors w) (ew_animation w).
Definition setRemoteCursors (w : EditorWidget) (cursors : list RemoteCursor) : EditorWidget :=
  mkEditorWidget (ew_user_id w) (ew_current_revision w) (ew_applying_remote w) (ew_last_known_text w)
    (ew_document w) (ew_cursor w) (ew_read_only w) cursors (animate (ew_animation w) cursors).
(** The timer of the animation fires. *)
Definition tickCursorAnimation (w : EditorWidget) : EditorWidget :=
  mkEditorWidget (ew_user_id w) (ew_current_revision w) (ew_applying_remote w) (ew_last_known_text w)
    (ew_document w) (ew_cursor w) (ew_read_only w) (ew_remote_cursors w) (tick (ew_animation w) (ew_remote_cursors w)).

(** The slot, with the operations of [localOperationsGenerated]; the list is empty
    when the signal is not emitted. *)
Definition onContentsChange (w : EditorWidget) (position charsRemoved charsAdded : Z)
    : EditorWidget * list Operation :=
  if ew_applying_remote w then (with_last_known w (ew_document w), [])
  else
    let utf8_pos := utf16_to_utf8_offset (ew_last_known_text w) position in
    let ops :=
      if 0 <? charsRemoved then
        let removed_utf8 := toUtf8 (qmid (ew_last_known_text w) position charsRemoved) in
        [make_delete utf8_pos (u32 (slen removed_utf8)) removed_utf8 (ew_user_id w) (ew_current_revision w)]
      else [] in
    let ops :=
      if 0 <? charsAdded then
        let added_utf8 := toUtf8 (qmid (ew_document w) position charsAdded) in
        ops ++ [make_insert utf8_pos added_utf8 (ew_user_id w) (ew_current_revision w)]
      else ops in
    (with_last_known w (ew_document w), ops).

(** Both calls change the document and so run the slot, whose operations they return with
    the editor. *)
Definition resetContent (w : EditorWidget) (content : QString) : EditorWidget * list Operation :=
  let w := with_applying w true in
  let old := ew_document w in
  let w := with_document w (plainText content) (0, 0) in
  let '(w, ops) := onContentsChange w 0 (qsize old) (qsize (plainText content)) in
  (with_applying (with_last_known w content) false, ops).

(** An edit of the document from a cursor: the code units of a range are replaced,
    and the slot is called. *)
Definition edit_document (w : EditorWidget) (pos len : Z) (text : QString) : EditorWidget * list Operation :=
  let added := plainText text in
  let w := with_document w (qleft (ew_document w) pos ++ added ++ drop (Z.to_nat (pos + len)) (ew_document w))
             (ew_cursor w) in
  onContentsChange w pos len (qsize added).

Definition applyRemoteOperation (w : EditorWidget) (op : Operation) : EditorWidget * list Operation :=
  if is_noop op then (w, [])
  else
    let utf8_before := toUtf8 (ew_last_known_text w) in
    let '(anchor, position) := ew_cursor w in
    let old_anchor_utf8 := utf16_to_utf8_offset (ew_last_known_text w) anchor in
    let old_position_utf8 := utf16_to_utf8_offset (ew_last_known_text w) position in
    let w := with_applying w true in
    let utf16_pos := utf8_to_utf16_offset utf8_before (op_position op) in
    let '(w, ops) :=
      match op_type op with
      | Insert => edit_document w utf16_pos 0 (fromUtf8 (op_text op))
      | Delete =>
          let utf16_end := utf8_to_utf16_offset utf8_before (op_position op +₃₂ op_length op) in
          let first := Z.min utf16_pos utf16_end in
          edit_document w first (Z.max utf16_pos utf16_end - first) []
      end in
    let w := with_last_known w (ew_document w) in
    let utf8_after := toUtf8 (ew_last_known_text w) in
    let new_anchor_utf16 := utf8_to_utf16_offset utf8_after (translate old_anchor_utf8 op) in
    let new_position_utf16 := utf8_to_utf16_offset utf8_after (translate old_position_utf8 op) in
    (with_applying (with_document w (ew_document w) (new_anchor_utf16, new_position_utf16)) false, ops).

Definition localCursorUtf8Position (w : EditorWidget) : Z :=
  utf16_to_utf8_offset (ew_last_known_text w) (snd (ew_cursor w)).
Definition localSelectionUtf8 (w : EditorWidget) : option (Z * Z) :=
  let '(anchor, position) := ew_cursor w in
  if anchor =? position then None
  else Some (utf16_to_utf8_offset (ew_last_known_text w) (Z.min anchor position),
             utf16_to_utf8_offset (ew_last_known_text w) (Z.max anchor position)).

(** The user edits: the document has a new text and a new cursor, and the slot is
    called. *)
Definition user_edit (w : EditorWidget) (document : QString) (cursor : Z * Z)
    (position charsRemoved charsAdded : Z) : EditorWidget * list Operation :=
  onContentsChange (with_document w document cursor) position charsRemoved charsAdded.

(** ** Lemmas: offsets at the boundary of a character *)

Context {L : QtLaws Q}.

(** A text whose sizes fit the integer types. *)
Definition small (text : list Z) : Prop := slen (utf8 text) < i32_half /\ qsize (utf16 text) < i32_half.

Lemma qsize_app (s t : QString) : qsize (s ++ t) = qsize s + qsize t.
Proof. unfold qsize. rewrite length_app. lia. Qed.
Lemma qsize_nonneg (s : QString) : 0 <= qsize s.
Proof. unfold qsize. lia. Qed.
Lemma qleft_app (s t : QString) : qleft (s ++ t) (qsize s) = s.
Proof. unfold qleft, qsize. by rewrite Nat2Z.id, take_app_length. Qed.
Lemma qmid_app (s t u : QString) n :
  qsize t <= n -> (n <= qsize t \/ u = []) -> qmid (s ++ t ++ u) (qsize s) n = t.
Proof.
  unfold qmid, qsize. intros H1 H2. rewrite Nat2Z.id, drop_app_length. destruct H2 as [H2| ->].
  - replace n with (Z.of_nat (length t)) by lia. by rewrite Nat2Z.id, take_app_length.
  - rewrite app_nil_r. apply take_ge. lia.
Qed.
Lemma small_app a b : small (a ++ b) -> small a /\ small b.
Proof.
  unfold small. rewrite utf8_app, utf16_app, slen_app, qsize_app.
  pose proof (slen_nonneg (utf8 a)). pose proof (slen_nonneg (utf8 b)).
  pose proof (qsize_nonneg (utf16 a)). pose proof (qsize_nonneg (utf16 b)). lia.
Qed.

Lemma to_utf8_offset a b :
  Forall scalar (a ++ b) -> small (a ++ b) ->
  utf16_to_utf8_offset (utf16 (a ++ b)) (qsize (utf16 a)) = slen (utf8 a).
Proof.
  intros Hs [Hm _]. pose proof Hs as [Ha _]%Forall_app. unfold utf16_to_utf8_offset.
  rewrite utf16_app, qsize_app, qleft_app, <- utf16_app, !qt_toUtf8 by done.
  rewrite utf8_app, slen_app in *. pose proof (slen_nonneg (utf8 a)). pose proof (slen_nonneg (utf8 b)).
  pose proof (qsize_nonneg (utf16 a)). pose proof (qsize_nonneg (utf16 b)).
  destruct (Z.leb_spec (qsize (utf16 a)) 0) as [Hz|Hz]; [|destruct (Z.leb_spec (qsize (utf16 a) + qsize (utf16 b)) (qsize (utf16 a)))].
  - assert (a = []) as ->; [|done]. apply utf16_nil. unfold qsize in Hz. by destruct (utf16 a).
  - assert (b = []) as ->; [|change (slen (utf8 [])) with 0; unwrap; lia]. apply utf16_nil. unfold qsize in *. destruct (utf16 b); [done|cbn in *; lia].
  - unwrap. done.
Qed.

Lemma to_utf16_offset a b :
  Forall scalar (a ++ b) -> small (a ++ b) ->
  utf8_to_utf16_offset (utf8 (a ++ b)) (slen (utf8 a)) = qsize (utf16 a).
Proof.
  intros Hs Hm. pose proof Hs as [Ha Hb]%Forall_app. pose proof (small_app _ _ Hm) as [[Ha8 Ha16] _].
  destruct Hm as [H8 H16]. unfold utf8_to_utf16_offset.
  pose proof (slen_nonneg (utf8 a)). pose proof (qsize_nonneg (utf16 a)).
  rewrite (i32_small (slen (utf8 a))) by lia.
  rewrite qt_fromUtf8 by done. rewrite utf8_app, slen_app in *. pose proof (slen_nonneg (utf8 b)).
  rewrite str_mid_app, qt_fromUtf8 by done. rewrite (i32_small (qsize (utf16 a))) by lia.
  destruct (Z.eqb_spec (slen (utf8 a)) 0) as [Hz|Hz]; [by rewrite (slen_utf8_nil a Hz)|].
  unwrap. destruct (Z.leb_spec (slen (utf8 a) + slen (utf8 b)) (slen (utf8 a))) as [Hle|]; [|done].
  assert (b = []) as -> by (apply slen_utf8_nil; lia). rewrite app_nil_r in *. apply i32_small. lia.
Qed.

(** ** Lemmas: edits on characters *)

(** The operation replaces the characters [r] by [i] between [a] and [b]. *)
Definition edits (op : Operation) (a r i b : list Z) : Prop :=
  op_position op = slen (utf8 a) /\
  match op_type op with
  | Insert => r = [] /\ op_text op = utf8 i /\ op_length op = slen (utf8 i)
  | Delete => i = [] /\ op_length op = slen (utf8 r)
  end.

Lemma edits_fits op a r i b : edits op a r i b -> fits (slen (utf8 (a ++ r ++ b))) op.
Proof.
  unfold edits, fits. rewrite !utf8_app, !slen_app.
  pose proof (slen_nonneg (utf8 a)). pose proof (slen_nonneg (utf8 b)). pose proof (slen_nonneg (utf8 r)).
  intros [-> He]. split; [done|]. destruct (op_type op).
  - destruct He as (-> & -> & ->). change (slen (utf8 [])) with 0. lia.
  - destruct He as [-> ->]. lia.
Qed.

Lemma edits_apply op a r i b :
  edits op a r i b -> small (a ++ r ++ b) -> apply (utf8 (a ++ r ++ b)) op = utf8 (a ++ i ++ b).
Proof.
  intros H [Hs _]. rewrite apply_fits by (by eapply edits_fits || lia).
  destruct H as [-> H]. destruct (op_type op).
  - destruct H as (-> & -> & _). rewrite !utf8_app. apply str_insert_app.
  - destruct H as [-> ->]. rewrite !utf8_app. apply str_erase_app.
Qed.

Lemma edits_make_insert a i b u rev : small (a ++ i ++ b) -> edits (make_insert (slen (utf8 a)) (utf8 i) u rev) a [] i b.
Proof.
  intros [_ [[H _] _]%small_app]%small_app. pose proof (slen_nonneg (utf8 i)).
  unfold edits, make_insert. cbn. unwrap. done.
Qed.
Lemma edits_make_delete a r b u rev t : small (a ++ r ++ b) -> edits (make_delete (slen (utf8 a)) (u32 (slen (utf8 r))) t u rev) a r [] b.
Proof.
  intros [_ [[H _] _]%small_app]%small_app. pose proof (slen_nonneg (utf8 r)).
  unfold edits, make_delete. cbn. unwrap. done.
Qed.

(** Where an edit takes a cursor: one left of the edit stays, one inside the removed
    text goes to its start, one at or after its end keeps the text on its right. *)
Inductive moves (a r i b : list Z) : Z -> Z -> Prop :=
| moves_before a1 a2 : a = a1 ++ a2 -> a2 <> [] -> moves a r i b (qsize (utf16 a1)) (qsize (utf16 a1))
| moves_inside r1 r2 : r = r1 ++ r2 -> r2 <> [] -> moves a r i b (qsize (utf16 (a ++ r1))) (qsize (utf16 a))
| moves_after b1 b2 : b = b1 ++ b2 ->
    moves a r i b (qsize (utf16 (a ++ r ++ b1))) (qsize (utf16 (a ++ i ++ b1))).

Lemma moves_bytes a r i b offset offset' :
  moves a r i b offset offset' -> exists l1 l2 l1' l2',
    a ++ r ++ b = l1 ++ l2 /\ offset = qsize (utf16 l1) /\ a ++ i ++ b = l1' ++ l2' /\ offset' = qsize (utf16 l1')
    /\ forall op, edits op a r i b -> small (a ++ r ++ b) -> small (a ++ i ++ b) ->
         translate (slen (utf8 l1)) op = slen (utf8 l1').
Proof.
  assert (forall l, l <> [] -> 0 < slen (utf8 l)) as Hpos.
  { intros l Hl. pose proof (slen_nonneg (utf8 l)). destruct (Z.eq_dec (slen (utf8 l)) 0) as [E|]; [|lia].
    by apply slen_utf8_nil in E. }
  destruct 1 as [a1 a2 -> Hne|r1 r2 -> Hne|b1 b2 ->].
  1: exists a1, (a2 ++ r ++ b), a1, (a2 ++ i ++ b). 2: exists (a ++ r1), (r2 ++ b), a, (i ++ b).
  3: exists (a ++ r ++ b1), b2, (a ++ i ++ b1), b2.
  all: rewrite <- ?app_assoc; split_and!; try done.
  all: intros op He [Hm _] [Hm' _]; pose proof (edits_fits _ _ _ _ _ He) as Hf; destruct He as [Hp He].
  all: unfold translate, is_noop, fits in *; rewrite ?utf8_app, ?slen_app in *.
  1: specialize (Hpos a2 Hne); pose proof (slen_nonneg (utf8 r)).
  2: specialize (Hpos r2 Hne); pose proof (slen_nonneg (utf8 r1)).
  3: pose proof (slen_nonneg (utf8 r)); pose proof (slen_nonneg (utf8 b1)); pose proof (slen_nonneg (utf8 b2)).
  1,2: pose proof (slen_nonneg (utf8 b)).
  1: pose proof (slen_nonneg (utf8 a1)). 2,3: pose proof (slen_nonneg (utf8 a)).
  all: pose proof (slen_nonneg (utf8 i)).
  all: destruct (op_type op); [destruct He as (Hr & Ht & Hl)|destruct He as [-> Hl]].
  1: subst r; case_bool_decide; [done|zcases; lia].
  1: unwrap; zcases; lia.
  1: by destruct r1, r2.
  1: change (slen (utf8 [])) with 0 in *; unwrap; zcases; lia.
  1: subst r; change (slen (utf8 [])) with 0 in *; rewrite Ht in *;
     case_bool_decide as E; [rewrite E, slen_empty; lia|unwrap; zcases; lia].
  change (slen (utf8 [])) with 0 in *; unwrap; zcases; lia.
Qed.

(** ** Lemmas: the slots on characters *)

(** The numbers a [contentsChange] may give for a range that holds [r] and is followed
    by [b]: the size of the range, or more at the end of the text, where Qt also
    counts the end of the last paragraph. *)
Definition change_size (n : Z) (r b : list Z) : Prop :=
  qsize (utf16 r) <= n /\ (n <= qsize (utf16 r) \/ b = []).

(** The editor shows [text] and knows it. *)
Definition shows (w : EditorWidget) (text : list Z) : Prop :=
  ew_applying_remote w = false /\ ew_last_known_text w = utf16 text /\ ew_document w = utf16 text.

Lemma change_size_zero n r b : change_size n r b -> ~ 0 < n -> r = [].
Proof.
  intros [H _] Hn. apply utf16_nil. unfold qsize in H. destruct (utf16 r); [done|cbn in H; lia].
Qed.

Definition change_ops (w : EditorWidget) (a r i : list Z) (n m : Z) : list Operation :=
  (if 0 <? n then [make_delete (slen (utf8 a)) (u32 (slen (utf8 r))) (utf8 r) (ew_user_id w) (ew_current_revision w)]
   else [])
  ++ (if 0 <? m then [make_insert (slen (utf8 a)) (utf8 i) (ew_user_id w) (ew_current_revision w)] else []).

Lemma user_edit_spec w a r i b cursor n m :
  shows w (a ++ r ++ b) -> Forall scalar (a ++ r ++ b) -> Forall scalar i -> small (a ++ r ++ b) ->
  change_size n r b -> change_size m i b ->
  user_edit w (utf16 (a ++ i ++ b)) cursor (qsize (utf16 a)) n m
  = (with_last_known (with_document w (utf16 (a ++ i ++ b)) cursor) (utf16 (a ++ i ++ b)), change_ops w a r i n m).
Proof.
  intros (Ha & Hl & Hd) Hs Hi Hm [Hn Hn'] [Hk Hk']. unfold user_edit, onContentsChange. cbn.
  rewrite Ha, Hl, to_utf8_offset by done. f_equal. unfold change_ops.
  apply Forall_app in Hs as [_ [Hr _]%Forall_app].
  assert (b = [] -> utf16 b = []) as Hb by (by intros ->).
  rewrite !utf16_app, (qmid_app _ (utf16 r)), (qmid_app _ (utf16 i)), (qt_toUtf8 r), (qt_toUtf8 i) by (done || tauto).
  by destruct (0 <? n), (0 <? m).
Qed.

Lemma change_ops_spec w a r i b n m :
  small (a ++ r ++ b) -> small (a ++ i ++ b) -> change_size n r b -> change_size m i b ->
  fits_chain (utf8 (a ++ r ++ b)) (change_ops w a r i n m)
  /\ apply_all (utf8 (a ++ r ++ b)) (change_ops w a r i n m) = utf8 (a ++ i ++ b).
Proof.
  intros Hr Hi Hn Hm. unfold change_ops.
  pose proof (edits_make_delete a r b (ew_user_id w) (ew_current_revision w) (utf8 r) Hr) as Ed.
  pose proof (edits_make_insert a i b (ew_user_id w) (ew_current_revision w) Hi) as Ei.
  pose proof (edits_fits _ _ _ _ _ Ed) as Fd. pose proof (edits_fits _ _ _ _ _ Ei) as Fi.
  pose proof (edits_apply _ _ _ _ _ Ed Hr) as Ad. cbn [app] in *.
  assert (small (a ++ b)) as Hab.
  { unfold small in *. rewrite !utf8_app, !utf16_app, !slen_app, !qsize_app in *.
    pose proof (slen_nonneg (utf8 r)). pose proof (qsize_nonneg (utf16 r)). lia. }
  pose proof (edits_apply _ a [] i b Ei Hab) as Ai. cbn [app] in Ai.
  destruct (Z.ltb_spec 0 n) as [H|H], (Z.ltb_spec 0 m) as [H'|H']; cbn [app fits_chain apply_all foldl];
    try (rewrite (change_size_zero n r b Hn) in * by lia); try (rewrite (change_size_zero m i b Hm) in * by lia);
    cbn [app] in *; rewrite ?Ad, ?Ai; done.
Qed.

Lemma edit_document_applying w a r i b :
  ew_applying_remote w = true -> ew_document w = utf16 (a ++ r ++ b) -> Forall plain i ->
  edit_document w (qsize (utf16 a)) (qsize (utf16 r)) (utf16 i)
  = (with_last_known (with_document w (utf16 (a ++ i ++ b)) (ew_cursor w)) (utf16 (a ++ i ++ b)), []).
Proof.
  intros Ha Hd Hi. unfold edit_document. rewrite qt_plainText by done. rewrite Hd, !utf16_app, qleft_app.
  replace (drop _ _) with (utf16 b); [unfold onContentsChange; cbn; by rewrite Ha|].
  unfold qsize. rewrite <- Nat2Z.inj_add, Nat2Z.id, app_assoc, <- length_app. by rewrite drop_app_length.
Qed.

Lemma scalar_replace (a r i b : list Z) :
  Forall scalar (a ++ r ++ b) -> Forall scalar i -> Forall scalar (a ++ i ++ b).
Proof. rewrite !Forall_app. tauto. Qed.

Lemma shows_replace w text cursor : ew_applying_remote w = false ->
  shows (with_last_known (with_document w (utf16 text) cursor) (utf16 text)) text.
Proof. done. Qed.

(** A cursor goes where the translation takes it. *)
Lemma cursor_moves op a r i b offset offset' :
  edits op a r i b -> moves a r i b offset offset' ->
  Forall scalar (a ++ r ++ b) -> Forall scalar i -> small (a ++ r ++ b) -> small (a ++ i ++ b) ->
  utf8_to_utf16_offset (utf8 (a ++ i ++ b))
    (translate (utf16_to_utf8_offset (utf16 (a ++ r ++ b)) offset) op) = offset'.
Proof.
  intros He (l1 & l2 & l1' & l2' & E & -> & E' & -> & Ht)%moves_bytes Hs Hi Hm Hm'.
  pose proof (scalar_replace _ _ _ _ Hs Hi) as Hs'. specialize (Ht op He Hm Hm').
  rewrite E in *. rewrite E' in *. rewrite to_utf8_offset, Ht by done. by apply to_utf16_offset.
Qed.

(** An operation that does nothing leaves the text and every cursor alone. *)
Lemma edits_noop op a r i b : edits op a r i b -> is_noop op = true -> r = [] /\ i = [].
Proof.
  unfold edits, is_noop. intros [_ He] Hn. destruct (op_type op).
  - destruct He as (-> & Ht & _). split; [done|]. apply slen_utf8_nil. rewrite <- Ht.
    by rewrite (bool_decide_eq_true_1 _ Hn).
  - destruct He as [-> Hl]. split; [|done]. apply slen_utf8_nil. rewrite <- Hl. by apply Z.eqb_eq.
Qed.
Lemma moves_same a b offset offset' : moves a [] [] b offset offset' -> offset' = offset.
Proof. inversion 1 as [| r1 r2 E |]; subst; try done. by destruct r1, r2. Qed.

Lemma applyRemoteOperation_spec w op a r i b :
  shows w (a ++ r ++ b) -> edits op a r i b -> Forall scalar (a ++ r ++ b) -> Forall plain i ->
  small (a ++ r ++ b) -> small (a ++ i ++ b) ->
  exists cursor',
    applyRemoteOperation w op
    = (with_last_known (with_document w (utf16 (a ++ i ++ b)) cursor') (utf16 (a ++ i ++ b)), [])
    /\ forall x y x' y', ew_cursor w = (x, y) -> moves a r i b x x' -> moves a r i b y y' -> cursor' = (x', y').
Proof.
  intros (Ha & Hl & Hd) He Hs Hp Hm Hm'. pose proof (plain_scalar _ Hp) as Hi. unfold applyRemoteOperation.
  destruct (is_noop op) eqn:Hn.
  { pose proof (edits_noop _ _ _ _ _ He Hn) as [-> ->]. cbn [app] in *. exists (ew_cursor w). split.
    - destruct w; cbn in *. by subst.
    - intros x y x' y' -> ->%moves_same ->%moves_same. done. }
  destruct (ew_cursor w) as [x0 y0] eqn:Ec. rewrite Hl, qt_toUtf8 by done.
  assert (utf8_to_utf16_offset (utf8 (a ++ r ++ b)) (op_position op) = qsize (utf16 a)) as E1.
  { destruct He as [-> _]. by apply to_utf16_offset. }
  rewrite E1.
  match goal with |- context [match ?r with pair w1 ops => _ end] => set (W := r) end.
  assert (W = (with_last_known (with_document (with_applying w true) (utf16 (a ++ i ++ b)) (ew_cursor w)) (utf16 (a ++ i ++ b)), [])) as ->.
  { subst W. destruct He as [Hpos He]. destruct (op_type op).
    - destruct He as (-> & -> & _). rewrite qt_fromUtf8 by done. by apply (edit_document_applying (with_applying w true) a []).
    - destruct He as [-> Hlen]. rewrite Hpos, Hlen.
      assert (utf8_to_utf16_offset (utf8 (a ++ r ++ b)) (slen (utf8 a) +₃₂ slen (utf8 r)) = qsize (utf16 (a ++ r))) as ->.
      { rewrite app_assoc in Hs, Hm |- *. pose proof (small_app _ _ Hm) as [[Hm8 _] _].
        replace (slen (utf8 a) +₃₂ slen (utf8 r)) with (slen (utf8 (a ++ r))); [by apply to_utf16_offset|].
        rewrite utf8_app, slen_app in Hm8 |- *.
        pose proof (slen_nonneg (utf8 a)). pose proof (slen_nonneg (utf8 r)). by unwrap. }
      rewrite utf16_app, qsize_app. pose proof (qsize_nonneg (utf16 r)).
      rewrite Z.min_l, Z.max_r, Z.add_simpl_l by lia.
      by apply (edit_document_applying (with_applying w true) a r []). }
  cbn. rewrite qt_toUtf8 by (by eapply scalar_replace).
  eexists. split; [by destruct w; cbn in *; subst|].
  intros x y x' y' [= -> ->] Hx Hy. f_equal; by apply cursor_moves.
Qed.
End Editor.

(** ** Properties *)

(** The editor's two counts agree. At every character boundary of a text the
    offset in UTF-16 code units and the offset in UTF-8 bytes are converted into each
    other, in both directions. *)
Theorem offsets_convert {Q : Qt} {L : QtLaws Q} a b :
  Forall scalar (a ++ b) -> small (a ++ b) ->
  utf16_to_utf8_offset (utf16 (a ++ b)) (qsize (utf16 a)) = slen (utf8 a)
  /\ utf8_to_utf16_offset (utf8 (a ++ b)) (slen (utf8 a)) = qsize (utf16 a).
Proof. split; [by apply to_utf8_offset|by apply to_utf16_offset]. Qed.

(** "aé" before an emoji: 3 bytes, 2 code units. *)
Lemma offsets_convert_witness :
  utf16_to_utf8_offset (Q := qt_basic) [97; 233; 55357; 56832] 2 = 3
  /\ utf8_to_utf16_offset (Q := qt_basic) (utf8 [97; 233; 128512]) 3 = 2.
Proof. apply (offsets_convert (Q := qt_basic) [97; 233] [128512]); decide_now. Defined.

(** C27: what the user types reaches the server byte for byte. The editor shows a text of
    Unicode characters, and the text it last knew is the shown one (it is not after a
    no-break space was inserted into the document, and then typing is reordered:
    [nbsp_reorders_typing]); the user replaces the characters [r] by [i] between [a] and
    [b], and the text is below 2 GiB before and after. Then the editor knows the new text
    and the operations it emits, at most two, each fit the text they meet and turn the old
    text in UTF-8 into the new one; they carry the editor's user and revision. *)
Theorem local_edit_in_bytes {Q : Qt} {L : QtLaws Q} w a r i b cursor n m :
  shows w (a ++ r ++ b) -> Forall scalar (a ++ r ++ b) -> Forall scalar i ->
  small (a ++ r ++ b) -> small (a ++ i ++ b) -> change_size n r b -> change_size m i b ->
  let '(w', ops) := user_edit w (utf16 (a ++ i ++ b)) cursor (qsize (utf16 a)) n m in
  shows w' (a ++ i ++ b) /\ ew_cursor w' = cursor
  /\ fits_chain (utf8 (a ++ r ++ b)) ops
  /\ apply_all (utf8 (a ++ r ++ b)) ops = utf8 (a ++ i ++ b)
  /\ Forall (fun op => op_userId op = ew_user_id w /\ op_revision op = ew_current_revision w) ops
  /\ (length ops <= 2)%nat.
Proof.
  intros Hw Hs Hi Hm Hm' Hn Hk. rewrite (user_edit_spec w a r i b) by done.
  destruct (change_ops_spec w a r i b n m) as [H1 H2]; [done..|].
  split_and!; try done; [by apply shows_replace, Hw|..]; unfold change_ops;
    destruct (0 <? n), (0 <? m); cbn; repeat constructor.
Qed.

Lemma local_edit_in_bytes_witness :
  let w := mkEditorWidget 7 3 false (utf16 [97; 233; 98]) (utf16 [97; 233; 98]) (0, 0) false [] new_CursorAnimation in
  apply_all (utf8 [97; 233; 98])
    (snd (user_edit (Q := qt_basic) w (utf16 [97; 128512; 98]) (3, 3) 1 1 2)) = utf8 [97; 128512; 98].
Proof.
  intros w.
  refine (proj1 (proj2 (proj2 (proj2
    (local_edit_in_bytes (Q := qt_basic) w [97] [233] [128512] [98] (3, 3) 1 2 _ _ _ _ _ _ _)))));
    try decide_now; try done; unfold change_size; cbn; lia.
Defined.

(** C28: a remote operation is shown as it was made, and is not echoed. The editor shows a
    text of Unicode characters and knows it; the operation replaces the characters [r] by
    [i] between [a] and [b]; the text is below 2 GiB before and after; and every character
    inserted is one that a Qt text document keeps (a no-break space, a carriage return and
    a paragraph separator are not). Then the editor shows the new text and knows it, in
    UTF-8 it is what the operation makes of the old one, the slot that runs while the
    document changes emits no operation to the controller, and both ends of the local
    selection stay where they were in the text. *)
Theorem remote_edit_in_sync {Q : Qt} {L : QtLaws Q} w op a r i b x y x' y' :
  shows w (a ++ r ++ b) -> edits op a r i b -> Forall scalar (a ++ r ++ b) -> Forall plain i ->
  small (a ++ r ++ b) -> small (a ++ i ++ b) ->
  ew_cursor w = (x, y) -> moves a r i b x x' -> moves a r i b y y' ->
  let '(w', ops) := applyRemoteOperation w op in
  shows w' (a ++ i ++ b) /\ ops = [] /\ ew_cursor w' = (x', y')
  /\ toUtf8 (ew_document w') = apply (toUtf8 (ew_document w)) op
  /\ ew_user_id w' = ew_user_id w /\ ew_current_revision w' = ew_current_revision w
  /\ ew_read_only w' = ew_read_only w.
Proof.
  intros Hw He Hs Hi Hm Hm' Hc Hx Hy.
  destruct (applyRemoteOperation_spec w op a r i b) as (cursor' & E & Hcur); [done..|].
  rewrite E. pose proof (scalar_replace _ _ _ _ Hs (plain_scalar _ Hi)) as Hs'.
  split_and!; try done; [by apply shows_replace, Hw|by eapply Hcur|].
  cbn. destruct Hw as (_ & _ & ->). rewrite !qt_toUtf8 by done. symmetry. by apply edits_apply.
Qed.

Lemma remote_edit_in_sync_witness :
  let w := mkEditorWidget 7 3 false (utf16 [97; 233; 98]) (utf16 [97; 233; 98]) (2, 3) false [] new_CursorAnimation in
  let r := applyRemoteOperation (Q := qt_basic) w (make_delete 1 2 "" 8 3) in
  shows (fst r) [97; 98] /\ snd r = [] /\ ew_cursor (fst r) = (1, 2).
Proof.
  intros w r.
  destruct (remote_edit_in_sync (Q := qt_basic) w (make_delete 1 2 "" 8 3) [97] [233] [] [98] 2 3 1 2)
    as (H1 & H2 & H3 & _); try decide_now; try done.
  - apply (moves_after [97] [233] [] [98] [] [98]). done.
  - apply (moves_after [97] [233] [] [98] [98] []). done.
Defined.

(** A no-break space breaks the count. The editor is given a document that is one
    no-break space and the user types x and y behind it; Qt returns the no-break space
    as a space, which is a byte shorter, so that the server puts the y before the x. *)
Theorem nbsp_reorders_typing {Q : Qt} {L : QtLaws Q} w :
  let '(w0, _) := resetContent w (utf16 [160]) in
  let '(w1, ops1) := user_edit w0 (utf16 [32; 120]) (2, 2) 1 0 1 in
  let '(w2, ops2) := user_edit w1 (utf16 [32; 120; 121]) (3, 3) 2 0 1 in
  ew_document w0 = utf16 [32]
  /\ apply_all (utf8 [160]) (ops1 ++ ops2) = utf8 [160; 121; 120].
Proof.
  unfold user_edit, resetContent, onContentsChange. cbn.
  unfold utf16_to_utf8_offset. cbn.
  repeat match goal with
  | |- context [toUtf8 ?s] =>
      let v := eval vm_compute in s in
      change (toUtf8 s) with (toUtf8 (utf16 v)); rewrite (qt_toUtf8 v) by decide_now
  end.
  split; [apply qt_plainText_nbsp|]. vm_compute. reflexivity.
Qed.
