(* ===== verification/Painting.v ===== *)
(** * Drawing the cursors of the other users (client/src/editor_widget.cpp)

    [paintEvent] draws, over the text, the selection and the caret of every remote
    cursor. What it draws is a list of drawing commands; where Qt puts a position of
    the text on the viewport, the rectangles and the blocks of the document are Qt's,
    through the interface [QtPaint]. A [QTextCursor] takes positions inside the
    document only, so every position used is part of the model. *)
From Stdlib Require Import Sorted.
From S2P Require Import Prelude ByteString Operation OT Qt Json Protocol RemoteCursors Double CursorAnimation EditorWidget.
Local Open Scope Z_scope.

(** ** What is used of Qt *)

Class QtPaint (Q : Qt) := {
  QRect : Type;
  (** [QRect(left, top, width, height)]. *)
  rect : Z -> Z -> Z -> Z -> QRect;
  r_left : QRect -> Z;
  r_top : QRect -> Z;
  r_right : QRect -> Z;
  r_bottom : QRect -> Z;
  r_height : QRect -> Z;
  adjusted : QRect -> Z -> Z -> Z -> Z -> QRect;
  moveTop : QRect -> Z -> QRect;
  intersects : QRect -> QRect -> bool;
  setAlpha : QColor -> Z -> QColor;
  white : QColor;
  (** [QFontMetrics] of the editor's font. *)
  fm_height : Z;
  horizontalAdvance : QString -> Z;
  (** [cursorRect] for a document and a position in it. *)
  cursorRect : QString -> Z -> QRect;
  (** The lengths of the document's blocks, each with its separator. *)
  block_lengths : QString -> list Z;
}.

(** The documented coordinates of rectangles ([bottom] is [top + height - 1]), and that
    the blocks are the [characterCount] of the document. *)
Class QtPaintLaws (Q : Qt) `{!QtPaint Q} : Prop := {
  qp_rect_top l t w h : r_top (rect l t w h) = t;
  qp_rect_height l t w h : r_height (rect l t w h) = h;
  qp_bottom r : r_bottom r = r_top r + r_height r - 1;
  qp_moveTop_top r t : r_top (moveTop r t) = t;
  qp_moveTop_height r t : r_height (moveTop r t) = r_height r;
  qp_font : 0 < fm_height;
  qp_blocks s : Forall (fun n => 1 <= n) (block_lengths s) /\ foldr Z.add 0 (block_lengths s) = qsize s + 1;
}.

Section Painting.
Context {Q : Qt} {P : QtPaint Q}.

(** Painter, pen and brush of a command together. *)
Inductive Draw :=
| FillRect (brush : QColor) (r : QRect)
| DrawLine (pen : QColor) (width : Z) (from to : Z * Z)
| DrawText (pen : QColor) (r : QRect) (text : QString).

Record QTextBlock := mkQTextBlock { bl_position : Z; bl_length : Z }.

(** The blocks from a position on; [block.next()] is the tail, a block that is not
    valid the empty list. *)
Fixpoint blocks_at (position : Z) (lengths : list Z) : list QTextBlock :=
  match lengths with
  | [] => []
  | n :: lengths => mkQTextBlock position n :: blocks_at (position + n) lengths
  end.
Fixpoint find_block (blocks : list QTextBlock) (pos : Z) : list QTextBlock :=
  match blocks with
  | [] => []
  | b :: rest => if (bl_position b <=? pos) && (pos <? bl_position b + bl_length b) then blocks else find_block rest pos
  end.
Definition findBlock (w : EditorWidget) (pos : Z) : list QTextBlock :=
  find_block (blocks_at 0 (block_lengths (ew_document w))) pos.

(** The positions between which the loop of [paintSelectionBand] draws. *)
Fixpoint bands (block : list QTextBlock) (cursor_in_block e16 : Z) : list (Z * Z) :=
  match block with
  | [] => []
  | b :: next =>
      if cursor_in_block <? e16 then
        let block_end := Z.min (bl_position b + bl_length b - 1) e16 in
        (cursor_in_block, block_end) :: bands next (block_end + 1) e16
      else []
  end.
Definition band_rect (w : EditorWidget) (ab : Z * Z) : QRect :=
  let ra := cursorRect (ew_document w) (fst ab) in
  let rb := cursorRect (ew_document w) (snd ab) in
  rect (r_left ra) (r_top ra) (Z.max 2 (r_right rb - r_left ra)) (r_height ra).

Definition selection_bands (w : EditorWidget) (utf8 : string) (start_utf8 end_utf8 : Z) : list (Z * Z) :=
  let s16 := utf8_to_utf16_offset utf8 start_utf8 in
  let e16 := utf8_to_utf16_offset utf8 end_utf8 in
  bands (findBlock w s16) s16 e16.
Definition paintSelectionBand (w : EditorWidget) (utf8 : string) (start_utf8 end_utf8 : Z) (color : QColor) : list Draw :=
  let fill := setAlpha color 60 in
  FillRect fill ∘ band_rect w <$> selection_bands w utf8 start_utf8 end_utf8.

Definition label_rect (caret : QRect) (username : QString) : QRect :=
  let label_height := fm_height in
  let label_w := horizontalAdvance username + 6 in
  let r := rect (r_left caret) (r_top caret - label_height - 1) label_w label_height in
  if r_top r <? 0 then moveTop r (r_bottom caret + 1) else r.
Definition paintCaretAndLabel (caret : QRect) (rc : RemoteCursor) : list Draw :=
  let label := label_rect caret (rc_username rc) in
  [DrawLine (rc_color rc) 2 (r_left caret, r_top caret) (r_left caret, r_bottom caret);
   FillRect (rc_color rc) label;
   DrawText white (adjusted label 3 0 (-3) 0) (rc_username rc)].

(** [characterCount] counts the separator at the end. *)
Definition characterCount (w : EditorWidget) : Z := foldr Z.add 0 (block_lengths (ew_document w)).
Definition clamp (v lo hi : Z) : Z := if v <? lo then lo else if hi <? v then hi else v.
Definition caret_position (w : EditorWidget) (utf8 : string) (disp : DisplayedPositions) : Z :=
  clamp (utf8_to_utf16_offset utf8 (dp_position disp)) 0 (characterCount w - 1).

(** The selection that is drawn: its ends in order, when they differ. *)
Definition drawn_selection (disp : DisplayedPositions) : option (Z * Z) :=
  match dp_selectionStart disp, dp_selectionEnd disp with
  | Some s, Some e => if s =? e then None else Some (Z.min s e, Z.max s e)
  | _, _ => None
  end.

(** The body of the loop of [paintEvent]. *)
Definition paint_cursor (w : EditorWidget) (event_rect : QRect) (utf8 : string) (rc : RemoteCursor)
    (disp : DisplayedPositions) : list Draw :=
  let caret := cursorRect (ew_document w) (caret_position w utf8 disp) in
  let caret_visible := intersects event_rect (adjusted caret (-2) (- fm_height - 2) 2 2) in
  match drawn_selection disp with
  | None => if negb caret_visible then [] else paintCaretAndLabel caret rc
  | Some (s8, e8) =>
      paintSelectionBand w utf8 s8 e8 (rc_color rc)
      ++ if caret_visible then paintCaretAndLabel caret rc else []
  end.

(** [None]: a rounded position is unspecified. *)
Definition paintEvent (w : EditorWidget) (event_rect : QRect) : option (list Draw) :=
  match ew_remote_cursors w with
  | [] => Some []
  | cursors =>
      let utf8 := toUtf8 (ew_last_known_text w) in
      @concat Draw <$> mapM (fun rc => paint_cursor w event_rect utf8 rc <$> displayedPositionsFor (ew_animation w) rc) cursors
  end.

(** ** Lemmas *)

Context {L : QtPaintLaws Q}.

Definition bl_end (b : QTextBlock) : Z := bl_position b + bl_length b - 1.
Abbreviation total lengths := (foldr Z.add 0 lengths).

(** A cursor stands in the first block of a list. *)
Definition starts_in (position : Z) (lengths : list Z) (c : Z) : Prop :=
  match lengths with [] => True | n :: _ => position <= c < position + n end.

Lemma blocks_at_bounds position lengths b :
  Forall (fun n => 1 <= n) lengths -> b ∈ blocks_at position lengths ->
  position <= bl_position b <= bl_end b /\ bl_end b < position + total lengths.
Proof.
  intros H. revert position. induction H as [|n lengths Hn Hl IH]; intros position; cbn; [by intros ?%elem_of_nil|].
  assert (0 <= total lengths) as Ht.
  { clear -Hl. induction Hl as [|m l Hm _ IH]; cbn; lia. }
  intros [->|Hb]%elem_of_cons; [unfold bl_end; cbn; lia|]. apply IH in Hb. lia.
Qed.

Lemma find_block_at position lengths c :
  Forall (fun n => 1 <= n) lengths ->
  exists position' lengths', find_block (blocks_at position lengths) c = blocks_at position' lengths'
  /\ Forall (fun n => 1 <= n) lengths' /\ starts_in position' lengths' c
  /\ position' + total lengths' = position + total lengths
  /\ (forall b, b ∈ blocks_at position' lengths' -> b ∈ blocks_at position lengths)
  /\ (lengths' = [] -> ~ position <= c < position + total lengths).
Proof.
  intros H. revert position. induction H as [|n lengths Hn Hl IH]; intros position.
  - exists position, []. by split_and!; [..|cbn; lia].
  - cbn [blocks_at find_block bl_position bl_length].
    destruct (Z.leb_spec position c) as [H1|H1]; [destruct (Z.ltb_spec c (position + n)) as [H2|H2]|]; cbn [andb].
    + exists position, (n :: lengths). split_and!; try done. by constructor.
    + destruct (IH (position + n)) as (p' & l' & E & F & S & T & I & N). exists p', l'. split_and!; try done.
      * cbn. lia.
      * intros b Hb. cbn. apply list_elem_of_further. by apply I.
      * intros El. specialize (N El). cbn. lia.
    + destruct (IH (position + n)) as (p' & l' & E & F & S & T & I & N). exists p', l'. split_and!; try done.
      * cbn. lia.
      * intros b Hb. cbn. apply list_elem_of_further. by apply I.
      * intros El. cbn. lia.
Qed.

(** The loop, from a block that contains the cursor. *)
Lemma bands_end lengths position c e : e <= c -> bands (blocks_at position lengths) c e = [].
Proof. intros H. destruct lengths as [|n lengths]; [done|]. cbn. by rewrite (proj2 (Z.ltb_ge c e)). Qed.

Definition band_in (blocks : list QTextBlock) (c e : Z) (ab : Z * Z) : Prop :=
  c <= fst ab <= snd ab /\ snd ab <= e /\ exists b, b ∈ blocks /\ bl_position b <= fst ab /\ snd ab <= bl_end b.

Lemma bands_in lengths position c e : Forall (fun n => 1 <= n) lengths -> starts_in position lengths c ->
  Forall (band_in (blocks_at position lengths) c e) (bands (blocks_at position lengths) c e).
Proof.
  intros H. revert position c. induction H as [|n lengths Hn Hl IH]; intros position c Hc; [constructor|].
  cbn [starts_in] in Hc. cbn [blocks_at bands bl_position bl_length].
  destruct (Z.ltb_spec c e) as [He|He]; [|constructor]. constructor.
  - unfold band_in. cbn [fst snd]. split_and!; [lia..|]. exists (mkQTextBlock position n).
    split; [apply list_elem_of_here|]. unfold bl_end. cbn. lia.
  - destruct (Z.le_gt_cases e (position + n - 1)) as [Hm|Hm].
    + rewrite bands_end by lia. constructor.
    + rewrite Z.min_l by lia. replace (position + n - 1 + 1) with (position + n) by lia.
      eapply Forall_impl; [apply IH|].
      * destruct lengths as [|m lengths]; [done|]. apply Forall_cons in Hl as [Hm' _]. cbn. lia.
      * intros [a b] (H1 & H2 & bl & H3 & H4). cbn [fst snd] in *. split_and!; [cbn; lia..|].
        exists bl. split; [by apply list_elem_of_further|done].
Qed.

Lemma bands_sorted lengths position c e : Forall (fun n => 1 <= n) lengths -> starts_in position lengths c ->
  StronglySorted (fun x y => snd x < fst y) (bands (blocks_at position lengths) c e).
Proof.
  intros H. revert position c. induction H as [|n lengths Hn Hl IH]; intros position c Hc; [constructor|].
  cbn [starts_in] in Hc. cbn [blocks_at bands bl_position bl_length].
  destruct (Z.ltb_spec c e) as [He|He]; [|constructor].
  destruct (Z.le_gt_cases e (position + n - 1)) as [Hm|Hm]; [rewrite bands_end by lia; repeat constructor|].
  rewrite Z.min_l by lia. replace (position + n - 1 + 1) with (position + n) by lia.
  assert (starts_in (position + n) lengths (position + n)) as Hs.
  { destruct lengths as [|m lengths]; [done|]. apply Forall_cons in Hl as [Hm' _]. cbn. lia. }
  constructor; [by apply IH|]. eapply Forall_impl; [by apply bands_in|]. intros [a b] (H1 & _). cbn in *. lia.
Qed.

Lemma bands_cover lengths position c e x : Forall (fun n => 1 <= n) lengths -> starts_in position lengths c ->
  position <= c <= x -> x < e -> x < position + total lengths ->
  (exists a b, (a, b) ∈ bands (blocks_at position lengths) c e /\ a <= x < b)
  \/ exists b, b ∈ blocks_at position lengths /\ x = bl_end b.
Proof.
  intros H. revert position c. induction H as [|n lengths Hn Hl IH]; intros position c Hc Hx He Ht; cbn in Ht, Hc; [lia|].
  cbn [blocks_at bands bl_position bl_length]. rewrite (proj2 (Z.ltb_lt c e)) by lia.
  destruct (Z.lt_trichotomy x (position + n - 1)) as [Hlt|[->|Hgt]].
  - left. exists c, (Z.min (position + n - 1) e). split; [apply list_elem_of_here|lia].
  - right. exists (mkQTextBlock position n). split; [apply list_elem_of_here|done].
  - rewrite Z.min_l by lia. replace (position + n - 1 + 1) with (position + n) by lia.
    destruct (IH (position + n) (position + n)) as [(a & b & Hab & Hin)|(b & Hb & Hin)]; try lia.
    + destruct lengths as [|m lengths]; [done|]. apply Forall_cons in Hl as [Hm' _]. cbn. lia.
    + left. exists a, b. split; [by apply list_elem_of_further|done].
    + right. exists b. split; [by apply list_elem_of_further|done].
Qed.

(** ** What is drawn *)

(** The blocks of the editor's document. *)
Definition document_blocks (w : EditorWidget) : list QTextBlock := blocks_at 0 (block_lengths (ew_document w)).

(** The selection of another user is drawn line by line. Whatever offsets arrive, every
    position that is handed to a text cursor lies in the document, both ends of a band lie
    in one line, and the bands are in order and disjoint. For a selection that starts in the
    document the bands cover it: a character of the selection is in a band unless it is the
    separator at the end of its line. *)
Theorem selection_band_covers w utf8 start_utf8 end_utf8 :
  let s := utf8_to_utf16_offset utf8 start_utf8 in
  let e := utf8_to_utf16_offset utf8 end_utf8 in
  let bs := selection_bands w utf8 start_utf8 end_utf8 in
  Forall (fun '(a, b) => 0 <= a <= b /\ b <= qsize (ew_document w) /\ s <= a /\ b <= e
            /\ exists bl, bl ∈ document_blocks w /\ bl_position bl <= a /\ b <= bl_end bl) bs
  /\ StronglySorted (fun x y => snd x < fst y) bs
  /\ forall x, 0 <= s <= x -> x < e -> x <= qsize (ew_document w) ->
       (exists a b, (a, b) ∈ bs /\ a <= x < b) \/ exists bl, bl ∈ document_blocks w /\ x = bl_end bl.
Proof.
  intros s e bs. destruct (qp_blocks (ew_document w)) as [Hp Hs].
  destruct (find_block_at 0 (block_lengths (ew_document w)) s Hp) as (p' & l' & E & F & S & T & I & N).
  assert (bs = bands (blocks_at p' l') s e) as -> by (unfold bs, selection_bands, findBlock; fold s e; by rewrite E).
  split_and!.
  - eapply Forall_impl; [by apply bands_in|]. intros [a b] (H1 & H2 & bl & Hbl & H3 & H4). cbn in H1, H2, H3, H4.
    apply I in Hbl. pose proof (blocks_at_bounds _ _ _ Hp Hbl) as Hb. rewrite Hs in Hb.
    split_and!; try lia. by exists bl.
  - by apply bands_sorted.
  - intros x Hx He Hq. destruct l' as [|n l'].
    + exfalso. apply (N eq_refl). lia.
    + cbn [starts_in] in S. destruct (bands_cover (n :: l') p' s e x F S) as [H|(bl & Hbl & ->)]; [lia..|by left|].
      right. exists bl. split; [by apply I|done].
Qed.

(** A caret is drawn at a position of the document, whatever position arrives. *)
Theorem caret_in_document w utf8 disp : 0 <= caret_position w utf8 disp <= qsize (ew_document w).
Proof.
  unfold caret_position, characterCount, clamp. destruct (qp_blocks (ew_document w)) as [_ ->].
  pose proof (qsize_nonneg (ew_document w)). zcases; lia.
Qed.

(** The label with the name is as high as the font, never covers the line of its caret,
    and is not cut at the top of the viewport unless the caret is. *)
Theorem label_beside_caret caret username :
  let label := label_rect caret username in
  r_height label = fm_height
  /\ ((0 <= r_top label /\ r_bottom label < r_top caret) \/ r_top label = r_bottom caret + 1).
Proof.
  unfold label_rect. cbv zeta. pose proof qp_font. set (r := rect _ _ _ _).
  assert (r_top r = r_top caret - fm_height - 1) as Ht by apply qp_rect_top.
  assert (r_height r = fm_height) as Hh by apply qp_rect_height.
  destruct (Z.ltb_spec (r_top r) 0).
  - rewrite qp_moveTop_height, qp_moveTop_top. split; [done|by right].
  - split; [done|]. left. rewrite qp_bottom. lia.
Qed.

(** Without remote cursors nothing is drawn; with them painting is always defined, and
    each is drawn on its own, in the order of the cursors. *)
Theorem paint_defined w event_rect :
  anim_ok (ew_animation w) (ew_remote_cursors w) ->
  exists disps, Forall2 (fun rc disp => displayedPositionsFor (ew_animation w) rc = Some disp) (ew_remote_cursors w) disps
  /\ paintEvent w event_rect
     = Some (concat (zip_with (paint_cursor w event_rect (toUtf8 (ew_last_known_text w))) (ew_remote_cursors w) disps)).
Proof.
  intros H.
  assert (forall rc, rc ∈ ew_remote_cursors w -> is_Some (displayedPositionsFor (ew_animation w) rc)) as Hd.
  { intros rc Hr. destruct (ao_keys _ _ H rc Hr) as [a Ha]. eapply displayed_defined; [done|by eapply (ao_good _ _ H)]. }
  clear H. unfold paintEvent. set (utf8 := toUtf8 _).
  assert (exists disps, Forall2 (fun rc disp => displayedPositionsFor (ew_animation w) rc = Some disp) (ew_remote_cursors w) disps
    /\ mapM (fun rc => paint_cursor w event_rect utf8 rc <$> displayedPositionsFor (ew_animation w) rc) (ew_remote_cursors w)
       = Some (zip_with (paint_cursor w event_rect utf8) (ew_remote_cursors w) disps)) as (disps & F & E).
  { induction (ew_remote_cursors w) as [|rc cursors IH]; [by exists []|].
    destruct (Hd rc (list_elem_of_here _ _)) as [disp Ed]. destruct IH as (disps & F & E).
    { intros r Hr. by apply Hd, list_elem_of_further. }
    exists (disp :: disps). split; [by constructor|]. cbn. rewrite Ed. cbn. by rewrite E. }
  exists disps. split; [done|]. destruct (ew_remote_cursors w) as [|rc cursors]; [by inversion F|]. by rewrite E.
Qed.
End Painting.

(** ** An instance

    Characters of 8 by 16 pixels, lines that are not wrapped. *)
Record Rectangle := mkRectangle { x1 : Z; y1 : Z; x2 : Z; y2 : Z }.
Fixpoint split_blocks (s : QString) (n : Z) : list Z :=
  match s with
  | [] => [n + 1]
  | c :: s => if c =? 10 then (n + 1) :: split_blocks s 0 else split_blocks s (n + 1)
  end.
Fixpoint place (s : QString) (pos : nat) (line column : Z) : Z * Z :=
  match pos, s with
  | S pos, c :: s => if c =? 10 then place s pos (line + 1) 0 else place s pos line (column + 1)
  | _, _ => (line, column)
  end.

#[export] Instance paint_basic : QtPaint qt_basic := {|
  QRect := Rectangle;
  rect l t w h := mkRectangle l t (l + w - 1) (t + h - 1);
  r_left := x1; r_top := y1; r_right := x2; r_bottom := y2;
  r_height r := y2 r - y1 r + 1;
  adjusted r a b c d := mkRectangle (x1 r + a) (y1 r + b) (x2 r + c) (y2 r + d);
  moveTop r t := mkRectangle (x1 r) t (x2 r) (t + (y2 r - y1 r));
  intersects r s := (x1 r <=? x2 s) && (x1 s <=? x2 r) && (y1 r <=? y2 s) && (y1 s <=? y2 r);
  setAlpha c _ := c;
  white := toColor (Qt := qt_basic) (qliteral (Q := qt_basic) "#ffffff");
  fm_height := 16;
  horizontalAdvance s := 8 * qsize s;
  cursorRect s pos := let '(line, column) := place s (Z.to_nat pos) 0 0 in
                      mkRectangle (8 * column) (16 * line) (8 * column) (16 * line + 15);
  block_lengths s := split_blocks s 0;
|}.

Lemma split_blocks_spec s n : 0 <= n ->
  Forall (fun k => 1 <= k) (split_blocks s n) /\ foldr Z.add 0 (split_blocks s n) = qsize s + n + 1.
Proof.
  revert n. induction s as [|c s IH]; intros n Hn; cbn [split_blocks].
  - split; [repeat constructor; lia|]. unfold qsize. cbn. lia.
  - assert (qsize (c :: s) = qsize s + 1) as -> by (unfold qsize; cbn [length]; lia). destruct (c =? 10).
    + destruct (IH 0 ltac:(lia)) as [F E]. split; [constructor; [lia|done]|]. cbn [foldr]. rewrite E. lia.
    + destruct (IH (n + 1) ltac:(lia)) as [F E]. split; [done|]. rewrite E. lia.
Qed.

#[export] Instance paint_basic_laws : QtPaintLaws qt_basic.
Proof.
  split; cbn; try (intros; lia); try done.
  intros s. destruct (split_blocks_spec s 0 ltac:(lia)) as [F E]. split; [done|]. rewrite E. lia.
Qed.

(** Three lines, and a selection from the second character of the first to the first of
    the third: three bands. *)
Example three_bands :
  let text := utf16 [97; 98; 99; 10; 10; 100; 101] in
  let w := with_document (Q := qt_basic) new_EditorWidget text (0, 0) in
  selection_bands w "abc

de" 1 6 = [(1, 3); (4, 4); (5, 6)].
Proof. vm_compute. reflexivity. Qed.
