(* ===== verification/EditorWindow.v ===== *)
(** * The window of a document (client/src/editor_window.cpp)

    The window owns the client's copy of a document, its controller, the editor, the
    remote cursors, the user panel and the status bar, and connects their signals. A slot
    of the window takes the window and returns it with what it emits, in order; [None] is
    an exception out of [dump], or undefined behaviour, in the controller or a writer.
    The slots connected to the controller touch neither it nor the local document, so
    they are run on the signals it returns. [WinEcho] is the one exception: operations the
    editor emits while it applies a remote one, which would reach the controller inside its
    own slot; there never are any ([no_echo] of [editor_stays_in_sync]). Opening a message box is an output, and the
    code behind the box is [box_closed]: other messages are handled while it is open.
    Notifications of Qt about the cursor are events of their own. A closed window is
    deleted and has no further events. *)
From S2P Require Import Prelude ByteString Operation OT Ladder Json Protocol Codec OTController RemoteCursors CursorAnimation Frames Qt Widgets EditorWidget.
Local Open Scope Z_scope.

Section Window.
Context {Q : Qt} {J : Json}.
Abbreviation Cursors := (@RemoteCursorsModel QString QColor).

Inductive WindowOutput :=
| WinSend (payload : string)
| WinLeftDocument
| WinEcho (ops : list Operation)
| WinBox (kind : BoxKind) (title body : Text).

Record EditorWindow := mkEditorWindow {
  wn_user_id : Z;                  (* nm_->userId() *)
  wn_doc_id : Z;
  wn_base_title : Text;
  wn_title : Text;
  wn_role : QString;
  wn_closing : bool;
  wn_closed : bool;
  wn_boxes : nat;                  (* boxes that are open *)
  wn_local_doc : LocalDocument;
  wn_remote_cursors : Cursors;
  wn_ot : OTController;
  wn_editor : EditorWidget;
  wn_status : StatusBarWidget;
  wn_panel : UserPanelWidget;
  wn_timer_active : bool;          (* the single-shot timer of 80 ms *)
  wn_online_user_ids : gset Z;
  wn_cursor_dirty : bool;
}.

Definition with_title (w : EditorWindow) (t : Text) : EditorWindow :=
  mkEditorWindow (wn_user_id w) (wn_doc_id w) (wn_base_title w) t (wn_role w) (wn_closing w) (wn_closed w)
    (wn_boxes w) (wn_local_doc w) (wn_remote_cursors w) (wn_ot w) (wn_editor w) (wn_status w) (wn_panel w)
    (wn_timer_active w) (wn_online_user_ids w) (wn_cursor_dirty w).
Definition with_role (w : EditorWindow) (r : QString) : EditorWindow :=
  mkEditorWindow (wn_user_id w) (wn_doc_id w) (wn_base_title w) (wn_title w) r (wn_closing w) (wn_closed w)
    (wn_boxes w) (wn_local_doc w) (wn_remote_cursors w) (wn_ot w) (wn_editor w) (wn_status w) (wn_panel w)
    (wn_timer_active w) (wn_online_user_ids w) (wn_cursor_dirty w).
Definition with_closing (w : EditorWindow) (closing closed : bool) (boxes : nat) : EditorWindow :=
  mkEditorWindow (wn_user_id w) (wn_doc_id w) (wn_base_title w) (wn_title w) (wn_role w) closing closed
    boxes (wn_local_doc w) (wn_remote_cursors w) (wn_ot w) (wn_editor w) (wn_status w) (wn_panel w)
    (wn_timer_active w) (wn_online_user_ids w) (wn_cursor_dirty w).
Definition with_ot (w : EditorWindow) (c : OTController) (d : LocalDocument) : EditorWindow :=
  mkEditorWindow (wn_user_id w) (wn_doc_id w) (wn_base_title w) (wn_title w) (wn_role w) (wn_closing w) (wn_closed w)
    (wn_boxes w) d (wn_remote_cursors w) c (wn_editor w) (wn_status w) (wn_panel w)
    (wn_timer_active w) (wn_online_user_ids w) (wn_cursor_dirty w).
Definition with_remote_cursors (w : EditorWindow) (m : Cursors) : EditorWindow :=
  mkEditorWindow (wn_user_id w) (wn_doc_id w) (wn_base_title w) (wn_title w) (wn_role w) (wn_closing w) (wn_closed w)
    (wn_boxes w) (wn_local_doc w) m (wn_ot w) (wn_editor w) (wn_status w) (wn_panel w)
    (wn_timer_active w) (wn_online_user_ids w) (wn_cursor_dirty w).
Definition with_editor (w : EditorWindow) (e : EditorWidget) : EditorWindow :=
  mkEditorWindow (wn_user_id w) (wn_doc_id w) (wn_base_title w) (wn_title w) (wn_role w) (wn_closing w) (wn_closed w)
    (wn_boxes w) (wn_local_doc w) (wn_remote_cursors w) (wn_ot w) e (wn_status w) (wn_panel w)
    (wn_timer_active w) (wn_online_user_ids w) (wn_cursor_dirty w).
Definition with_status (w : EditorWindow) (s : StatusBarWidget) : EditorWindow :=
  mkEditorWindow (wn_user_id w) (wn_doc_id w) (wn_base_title w) (wn_title w) (wn_role w) (wn_closing w) (wn_closed w)
    (wn_boxes w) (wn_local_doc w) (wn_remote_cursors w) (wn_ot w) (wn_editor w) s (wn_panel w)
    (wn_timer_active w) (wn_online_user_ids w) (wn_cursor_dirty w).
Definition with_panel (w : EditorWindow) (p : UserPanelWidget) : EditorWindow :=
  mkEditorWindow (wn_user_id w) (wn_doc_id w) (wn_base_title w) (wn_title w) (wn_role w) (wn_closing w) (wn_closed w)
    (wn_boxes w) (wn_local_doc w) (wn_remote_cursors w) (wn_ot w) (wn_editor w) (wn_status w) p
    (wn_timer_active w) (wn_online_user_ids w) (wn_cursor_dirty w).
Definition with_broadcast (w : EditorWindow) (timer dirty : bool) : EditorWindow :=
  mkEditorWindow (wn_user_id w) (wn_doc_id w) (wn_base_title w) (wn_title w) (wn_role w) (wn_closing w) (wn_closed w)
    (wn_boxes w) (wn_local_doc w) (wn_remote_cursors w) (wn_ot w) (wn_editor w) (wn_status w) (wn_panel w)
    timer (wn_online_user_ids w) dirty.
Definition with_online (w : EditorWindow) (ids : gset Z) : EditorWindow :=
  mkEditorWindow (wn_user_id w) (wn_doc_id w) (wn_base_title w) (wn_title w) (wn_role w) (wn_closing w) (wn_closed w)
    (wn_boxes w) (wn_local_doc w) (wn_remote_cursors w) (wn_ot w) (wn_editor w) (wn_status w) (wn_panel w)
    (wn_timer_active w) ids (wn_cursor_dirty w).

Definition parseColor (hex : string) : QColor :=
  let c := toColor (fromUtf8 hex) in if isValid c then c else toColor (qliteral "#808080").

(** ** Roles and the cursor *)

Definition read_only_role (role : QString) : bool :=
  negb (bool_decide (role = qliteral "owner")) && negb (bool_decide (role = qliteral "editor")).
Definition applyRole (w : EditorWindow) (role : QString) : EditorWindow :=
  let read_only := read_only_role role in
  let w := with_editor w (setReadOnly (wn_editor w) read_only) in
  with_title w (if read_only then Tr "%1 [read-only]" [ArgText (wn_base_title w)] else wn_base_title w).

Definition scheduleCursorBroadcast (w : EditorWindow) : EditorWindow := with_broadcast w true true.

(** [QTextCursor::blockNumber] and [columnNumber]: a block ends with a newline. *)
Definition blockNumber (document : QString) (position : Z) : Z :=
  Z.of_nat (length (filter (fun u => u = 10) (qleft document position))).
Fixpoint column_from (column : Z) (l : QString) : Z :=
  match l with
  | [] => column
  | u :: l => column_from (if u =? 10 then 0 else column + 1) l
  end.
Definition columnNumber (document : QString) (position : Z) : Z := column_from 0 (qleft document position).

Definition onCursorPositionChanged (w : EditorWindow) : EditorWindow :=
  let document := ew_document (wn_editor w) in
  let position := snd (ew_cursor (wn_editor w)) in
  let w := with_status w (setCursorPosition (wn_status w) (blockNumber document position + 1)
                            (columnNumber document position + 1)) in
  scheduleCursorBroadcast w.
Definition onLocalSelectionChanged (w : EditorWindow) : EditorWindow := scheduleCursorBroadcast w.

(** The timer fires. *)
Definition onCursorBroadcastTimeout (w : EditorWindow) : option (EditorWindow * list WindowOutput) :=
  let w := with_broadcast w false (wn_cursor_dirty w) in
  if negb (wn_cursor_dirty w) then Some (w, [])
  else
    let w := with_broadcast w (wn_timer_active w) false in
    let pos := localCursorUtf8Position (wn_editor w) in
    let sel := localSelectionUtf8 (wn_editor w) in
    payload ← encode_cursor_update (wn_doc_id w) pos (fst <$> sel) (snd <$> sel);
    Some (w, [WinSend payload]).

(** ** Construction *)

Definition online_ids (user : Z) (users : list UserInfo) : gset Z :=
  foldl (fun ids u => {[ui_userId u]} ∪ ids) {[user]} users.

Definition setup_panel (user : Z) (username : QString) (users : list UserInfo) : UserPanelWidget :=
  let '(name, color) :=
    match head (filter (fun u => ui_userId u = user) users) with
    | Some u => (fromUtf8 (ui_username u), parseColor (ui_color u))
    | None => (username, toColor (qliteral "#808080"))
    end in
  foldl (fun p u => if ui_userId u =? user then p
                    else upsertUser p (ui_userId u) (fromUtf8 (ui_username u)) (parseColor (ui_color u)))
    (setLocalUser new_UserPanelWidget user name color) users.

Definition new_EditorWindow (user : Z) (username : QString) (initial : DocJoinResponseMsg) : EditorWindow :=
  let role := fromUtf8 (djm_role initial) in
  let base_title := Tr "#%1 — %2" [ArgNumber (djm_docId initial); ArgString (fromUtf8 (djm_title initial))] in
  let online := online_ids user (djm_users initial) in
  let editor := fst (resetContent (setIdentity new_EditorWidget user (djm_revision initial)) (fromUtf8 (djm_content initial))) in   (* nothing is connected yet *)
  let status := sb_setRevision new_StatusBarWidget (djm_revision initial) in
  let status := setOnlineCount status (i32 (Z.of_nat (size online))) in
  let status := setStateLabel status (qliteral "SYN") in
  let w := mkEditorWindow user (djm_docId initial) base_title base_title role false false 0
             (mkLocalDocument (djm_content initial) (djm_revision initial))
             (new_RemoteCursorsModel user)
             (new_OTController user (djm_docId initial) (djm_revision initial))
             editor status (setup_panel user username (djm_users initial))
             false online false in
  scheduleCursorBroadcast (onCursorPositionChanged (applyRole w role)).

(** ** Closing *)

(** [close] on a window: [closeEvent] accepts. *)
Definition closeEvent (w : EditorWindow) : option (EditorWindow * list WindowOutput) :=
  out ← (if negb (wn_closing w) then
           payload ← encode_doc_leave_request (wn_doc_id w); Some [WinSend payload]
         else Some []);
  Some (with_closing w (wn_closing w) true (wn_boxes w), out ++ [WinLeftDocument]).

(** The box of [closeWithNotice] or of [onFatalError] is closed. *)
Definition box_closed (w : EditorWindow) : option (EditorWindow * list WindowOutput) :=
  closeEvent (with_closing w (wn_closing w) (wn_closed w) (pred (wn_boxes w))).

Definition closeWithNotice (w : EditorWindow) (title body : Text) : EditorWindow * list WindowOutput :=
  if wn_closing w then (w, [])
  else (with_closing w true (wn_closed w) (S (wn_boxes w)), [WinBox BoxInformation title body]).

Definition onFatalError (w : EditorWindow) (message : Text) : EditorWindow * list WindowOutput :=
  (with_closing w (wn_closing w) (wn_closed w) (S (wn_boxes w)),
   [WinBox BoxCritical (Tr "Document error" []) message]).

Definition onDisconnected (w : EditorWindow) (reason : QString) : EditorWindow * list WindowOutput :=
  if wn_closing w then (w, [])
  else closeWithNotice w (Tr "Connection lost" []) (Tr "Lost connection to server: %1" [ArgString reason]).

(** ** The controller's and the cursors' signals *)

Definition onRevisionChanged (w : EditorWindow) (revision : Z) : EditorWindow :=
  let w := with_editor w (setRevision (wn_editor w) revision) in
  with_status w (sb_setRevision (wn_status w) revision).

Definition onRemoteCursorsChanged (w : EditorWindow) : EditorWindow :=
  let shown := cursors (wn_remote_cursors w) in
  let w := with_editor w (setRemoteCursors (wn_editor w) shown) in
  with_panel w (foldl (fun p c => upsertUser p (rc_userId c) (rc_username c) (rc_color c)) (wn_panel w) shown).

(** A call of the model of the remote cursors, with its signal. *)
Definition cursors_slot (w : EditorWindow) (r : Cursors * list RcSignal) : EditorWindow :=
  let w := with_remote_cursors w (fst r) in
  match snd r with [] => w | _ => onRemoteCursorsChanged w end.

Definition onRemoteOperationApplied (w : EditorWindow) (op : Operation) : EditorWindow * list WindowOutput :=
  let '(e, ops) := EditorWidget.applyRemoteOperation (wn_editor w) op in
  let w := with_editor w e in
  (cursors_slot w (RemoteCursors.applyRemoteOperation (wn_remote_cursors w) op),
   match ops with [] => [] | _ => [WinEcho ops] end).

Definition on_output (w : EditorWindow) (o : OcOutput) : EditorWindow * list WindowOutput :=
  match o with
  | OutSend payload => (w, [WinSend payload])
  | SigRevisionChanged revision => (onRevisionChanged w revision, [])
  | SigRemoteOperationApplied op => onRemoteOperationApplied w op
  | SigStateChanged label => (with_status w (setStateLabel (wn_status w) (qliteral label)), [])
  | SigFatalError message => onFatalError w (Tr message [])
  end.
Definition on_outputs (w : EditorWindow) (os : list OcOutput) : EditorWindow * list WindowOutput :=
  foldl (fun '(w, out) o => let '(w, out') := on_output w o in (w, out ++ out')) (w, []) os.

(** A slot of the controller, with the window's slots. *)
Definition controller_slot (w : EditorWindow) (r : option (OTController * LocalDocument * list OcOutput))
    : option (EditorWindow * list WindowOutput) :=
  '(c, d, os) ← r;
  Some (on_outputs (with_ot w c d) os).

(** ** Messages *)

Definition handleUserJoined (w : EditorWindow) (payload : string) : EditorWindow :=
  match parse_as from_json_UserJoinedMsg payload with
  | None => w
  | Some msg =>
      if negb (ujm_docId msg =? wn_doc_id w) then w
      else
        let w := with_online w ({[ujm_userId msg]} ∪ wn_online_user_ids w) in
        let w := with_status w (setOnlineCount (wn_status w) (i32 (Z.of_nat (size (wn_online_user_ids w))))) in
        let w := with_panel w (upsertUser (wn_panel w) (ujm_userId msg) (fromUtf8 (ujm_username msg))
                                 (parseColor (ujm_color msg))) in
        with_status w (showMessage (wn_status w) (Tr "%1 joined" [ArgString (fromUtf8 (ujm_username msg))]) 2000)
  end.

Definition handleUserLeft (w : EditorWindow) (payload : string) : EditorWindow :=
  match parse_as from_json_UserLeftMsg payload with
  | None => w
  | Some msg =>
      if negb (ulm_docId msg =? wn_doc_id w) then w
      else
        let w := with_online w (wn_online_user_ids w ∖ {[ulm_userId msg]}) in
        let w := with_status w (setOnlineCount (wn_status w) (i32 (Z.of_nat (size (wn_online_user_ids w))))) in
        let w := with_panel w (up_removeUser (wn_panel w) (ulm_userId msg)) in
        let w := cursors_slot w (removeUser (wn_remote_cursors w) (ulm_userId msg)) in
        with_status w (showMessage (wn_status w) (Tr "%1 left" [ArgString (fromUtf8 (ulm_username msg))]) 2000)
  end.

Definition handleCursorBroadcast (w : EditorWindow) (payload : string) : EditorWindow :=
  match parse_as from_json_CursorBroadcastMsg payload with
  | None => w
  | Some msg =>
      if negb (cbm_docId msg =? wn_doc_id w) then w
      else cursors_slot w (applyBroadcast fromUtf8 toColor isValid (wn_remote_cursors w) msg)
  end.

Definition handleServerShutdown (w : EditorWindow) (payload : string) : EditorWindow * list WindowOutput :=
  let body := match parse_as from_json_ServerShutdownMsg payload with
              | Some msg => TextOf (fromUtf8 (ssm_message msg))
              | None => Tr "Server is shutting down" []
              end in
  closeWithNotice w (Tr "Server shutdown" []) body.

Definition handleDocDeleted (w : EditorWindow) (payload : string) : EditorWindow * list WindowOutput :=
  match parse_as from_json_DocDeletedMsg payload with
  | None => (w, [])
  | Some msg =>
      if negb (dxm_docId msg =? wn_doc_id w) then (w, [])
      else closeWithNotice w (Tr "Document deleted" []) (Tr "This document was deleted by the owner." [])
  end.

Definition handleRoleChanged (w : EditorWindow) (payload : string) : EditorWindow :=
  match parse_as from_json_RoleChangedMsg payload with
  | None => w
  | Some msg =>
      if negb (rcm_docId msg =? wn_doc_id w) then w
      else
        let new_role := fromUtf8 (rcm_newRole msg) in
        let w := applyRole (with_role w new_role) new_role in
        with_status w (showMessage (wn_status w) (Tr "Your role is now: %1" [ArgString new_role]) 3000)
  end.

(** The handlers of [onNetworkMessage], after the controller's. *)
Definition window_handler (w : EditorWindow) (payload : string) : EditorWindow * list WindowOutput :=
  match fst (parse_envelope payload) with
  | MtUserJoined => (handleUserJoined w payload, [])
  | MtUserLeft => (handleUserLeft w payload, [])
  | MtCursorBroadcast => (handleCursorBroadcast w payload, [])
  | MtServerShutdown => handleServerShutdown w payload
  | MtDocDeleted => handleDocDeleted w payload
  | MtRoleChanged => (handleRoleChanged w payload, [])
  | _ => (w, [])
  end.

Definition onNetworkMessage (w : EditorWindow) (payload : string) : option (EditorWindow * list WindowOutput) :=
  '(w, out) ← controller_slot w (OTController.onNetworkMessage (wn_ot w) (wn_local_doc w) payload);
  let '(w, out') := window_handler w payload in
  Some (w, out ++ out').

(** ** What the user does *)

(** The answer of [QInputDialog::getText]. *)
Definition onShareClicked (w : EditorWindow) (text : QString) (ok : bool)
    : option (EditorWindow * list WindowOutput) :=
  let target := trimmed text in
  if negb ok || bool_decide (target = []) then Some (w, [])
  else
    payload ← encode_doc_share_request (wn_doc_id w) (toUtf8 target) "editor";
    Some (with_status w (showMessage (wn_status w) (Tr "Shared with %1" [ArgString target]) 2500),
          [WinSend payload]).

(** The editor's document changes from the keyboard; [localOperationsGenerated] is
    connected to the controller. *)
Definition edited (w : EditorWindow) (document : QString) (cursor : Z * Z)
    (position charsRemoved charsAdded : Z) : option (EditorWindow * list WindowOutput) :=
  let '(e, ops) := user_edit (wn_editor w) document cursor position charsRemoved charsAdded in
  let w := with_editor w e in
  match ops with
  | [] => Some (w, [])
  | _ => controller_slot w (onLocalOperations (wn_ot w) (wn_local_doc w) ops)
  end.

(** The cursor moves. *)
Definition cursor_moved (w : EditorWindow) (cursor : Z * Z) : EditorWindow :=
  onCursorPositionChanged
    (with_editor w (with_document (wn_editor w) (ew_document (wn_editor w)) cursor)).

(** ** Steps: the events of an open window *)

Inductive WindowStep : EditorWindow -> list WindowOutput -> EditorWindow -> Prop :=
| step_message w payload w' out : onNetworkMessage w payload = Some (w', out) -> WindowStep w out w'
| step_disconnected w reason : WindowStep w (snd (onDisconnected w reason)) (fst (onDisconnected w reason))
| step_edited w document cursor p n m w' out :
    ew_read_only (wn_editor w) = false -> wn_boxes w = O ->
    edited w document cursor p n m = Some (w', out) -> WindowStep w out w'
| step_cursor w cursor : WindowStep w [] (cursor_moved w cursor)
| step_cursor_notified w : WindowStep w [] (onCursorPositionChanged w)
| step_selection w : WindowStep w [] (onLocalSelectionChanged w)
| step_timeout w w' out :
    wn_timer_active w = true -> onCursorBroadcastTimeout w = Some (w', out) -> WindowStep w out w'
| step_animation w :
    ca_active (ew_animation (wn_editor w)) = true -> WindowStep w [] (with_editor w (tickCursorAnimation (wn_editor w)))
| step_share w text ok w' out :
    wn_boxes w = O -> onShareClicked w text ok = Some (w', out) -> WindowStep w out w'
| step_box_closed w w' out : wn_boxes w <> O -> box_closed w = Some (w', out) -> WindowStep w out w'
| step_close w w' out : wn_boxes w = O -> closeEvent w = Some (w', out) -> WindowStep w out w'.

(** A run of an open window, with all it emits. *)
Inductive WindowRun : EditorWindow -> list WindowOutput -> EditorWindow -> Prop :=
| run_nil w : WindowRun w [] w
| run_snoc w out w1 out' w2 :
    WindowRun w out w1 -> wn_closed w1 = false -> WindowStep w1 out' w2 -> WindowRun w (out ++ out') w2.
End Window.

(** ** Invariant *)

Section Invariant.
Context {Q : Qt} {L : QtLaws Q} {J : Json}.
Abbreviation Cursors := (@RemoteCursorsModel QString QColor).

(** What the window shows, for a revision and a state of the controller. *)
Record shown_ok (rev : Z) (label : string) (w : EditorWindow) : Prop := mkShownOk {
  so_user : ew_user_id (wn_editor w) = wn_user_id w;
  so_editor_revision : ew_current_revision (wn_editor w) = rev;
  so_applying : ew_applying_remote (wn_editor w) = false;
  so_read_only : ew_read_only (wn_editor w) = read_only_role (wn_role w);
  so_title : wn_title w = if read_only_role (wn_role w) then Tr "%1 [read-only]" [ArgText (wn_base_title w)]
                          else wn_base_title w;
  so_revision : sb_revision (wn_status w) = Tr "rev %1" [ArgNumber rev];
  so_state : sb_state (wn_status w) = mkQLabel (TextOf (qliteral label)) (Some (chip_style (stateColor (qliteral label))));
  so_online : sb_online (wn_status w) = Tr "online: %1" [ArgNumber (i32 (Z.of_nat (size (wn_online_user_ids w))))];
  so_dirty : wn_cursor_dirty w = true -> wn_timer_active w = true;
  so_panel : panel_ok (wn_user_id w) (wn_panel w);
  so_local_cursor : rcm_local_user_id (wn_remote_cursors w) = wn_user_id w
                    /\ rcm_cursors (wn_remote_cursors w) !! wn_user_id w = None;
  so_cursors : ew_remote_cursors (wn_editor w) = cursors (wn_remote_cursors w);
}.

(** The window and its controller. *)
Record window_ok (w : EditorWindow) : Prop := mkWindowOk {
  wk_ot : oc_ok (wn_ot w);
  wk_user : oc_userId (wn_ot w) = wn_user_id w;
  wk_doc : oc_doc_id (wn_ot w) = wn_doc_id w;
  wk_revision : ld_revision (wn_local_doc w) = oc_revision (wn_ot w);
  wk_shown : shown_ok (oc_revision (wn_ot w)) (state_label (oc_state (wn_ot w))) w;
}.

(** What the slots of the window leave alone. *)
Definition same_ot (w w' : EditorWindow) : Prop :=
  wn_ot w' = wn_ot w /\ wn_local_doc w' = wn_local_doc w /\ wn_user_id w' = wn_user_id w
  /\ wn_doc_id w' = wn_doc_id w.

Lemma window_ok_same w w' :
  same_ot w w' -> (forall rev label, shown_ok rev label w -> shown_ok rev label w') -> window_ok w -> window_ok w'.
Proof. intros (H1 & H2 & H3 & H4) Hs [K1 K2 K3 K4 K5]. split; rewrite ?H1, ?H2, ?H3, ?H4; auto. Qed.

(** *** The editor *)

Lemma edit_document_fields e pos len text : ew_applying_remote e = true ->
  exists s c, edit_document e pos len text = (with_last_known (with_document e s c) s, []).
Proof.
  intros H. unfold edit_document, onContentsChange. cbn. rewrite H. cbn. eauto.
Qed.
Lemma applyRemoteOperation_fields e op : ew_applying_remote e = false ->
  exists s c, EditorWidget.applyRemoteOperation e op = (e, [])
              \/ EditorWidget.applyRemoteOperation e op = (with_last_known (with_document e s c) s, []).
Proof.
  intros Ha. unfold EditorWidget.applyRemoteOperation. destruct (is_noop op); [exists [], (0, 0); by left|].
  destruct (ew_cursor e) as [x y]. cbv zeta.
  match goal with |- context [match ?r with pair w1 ops => _ end] => set (W := r) end.
  assert (exists s c, W = (with_last_known (with_document (with_applying e true) s c) s, [])) as (s & c & ->).
  { subst W. destruct (op_type op); apply (edit_document_fields (with_applying e true)); done. }
  destruct e. cbn in Ha. subst. eexists s, _. right. reflexivity.
Qed.

(** *** Cursors and panel *)

Lemma upsert_all_ok user p cs : panel_ok user p ->
  panel_ok user (foldl (fun p c => upsertUser p (rc_userId c) (rc_username c) (rc_color c)) p cs).
Proof. revert p. induction cs as [|c cs IH]; intros p Hp; [done|]. apply IH, upsertUser_ok, Hp. Qed.

Lemma cursors_slot_same w r : same_ot w (cursors_slot w r).
Proof. unfold cursors_slot. by destruct (snd r). Qed.

(** A call of the model of the cursors: without a signal it changed nothing. *)
Definition cursors_call (m : Cursors) (r : Cursors * list RcSignal) : Prop :=
  rcm_local_user_id (fst r) = rcm_local_user_id m
  /\ (rcm_cursors m !! rcm_local_user_id m = None -> rcm_cursors (fst r) !! rcm_local_user_id m = None)
  /\ (snd r = [] -> fst r = m).

Lemma cursors_slot_ok rev label w r :
  cursors_call (wn_remote_cursors w) r -> shown_ok rev label w -> shown_ok rev label (cursors_slot w r).
Proof.
  intros (Hl & Hc & Hn) [H1 H2 H3 H4 H5 H6 H7 H8 H9 H10 [H11 H11'] H12]. unfold cursors_slot.
  rewrite H11 in Hc, Hl. specialize (Hc H11'). destruct (snd r) eqn:E.
  - rewrite (Hn eq_refl). by split.
  - split; cbn; try done. by apply upsert_all_ok.
Qed.

Lemma applyRemoteOperation_call (m : Cursors) op : cursors_call m (RemoteCursors.applyRemoteOperation m op).
Proof.
  unfold cursors_call, RemoteCursors.applyRemoteOperation. destruct (_ || _); cbn; [done|].
  split_and!; [done| |done]. intros H. by rewrite lookup_fmap, H.
Qed.
Lemma applyBroadcast_call (m : Cursors) msg : cursors_call m (applyBroadcast fromUtf8 toColor isValid m msg).
Proof.
  split_and!; [done| |done]. intros _. cbn. rewrite broadcast_lookup, lookup_empty. by rewrite Z.eqb_refl.
Qed.
Lemma removeUser_call (m : Cursors) userId : cursors_call m (removeUser m userId).
Proof.
  unfold cursors_call, removeUser. destruct (rcm_cursors m !! userId); cbn; [|done].
  split_and!; [done| |done]. intros H. destruct (decide (rcm_local_user_id m = userId)) as [<-|];
    [apply lookup_delete_eq|by rewrite lookup_delete_ne].
Qed.

(** *** Signals of the controller *)

Lemma on_output_ok rev label w o :
  shown_ok rev label w ->
  shown_ok (heard_revision rev [o]) (heard_label label [o]) (fst (on_output w o)) /\ same_ot w (fst (on_output w o)).
Proof.
  intros Hw. destruct o as [payload|revision|op|l|message]; cbn; [by split| | | |].
  - split; [|done]. destruct Hw. by split.
  - unfold onRemoteOperationApplied.
    destruct (applyRemoteOperation_fields (wn_editor w) op (so_applying _ _ _ Hw)) as (s & c & [->| ->]); cbn [fst];
      (split; [|apply (cursors_slot_same (with_editor w _))]); (apply cursors_slot_ok; [apply applyRemoteOperation_call|]);
      destruct Hw; by split.
  - split; [|done]. destruct Hw. by split.
  - split; [|done]. destruct Hw. by split.
Qed.

Lemma on_outputs_cons w o os :
  on_outputs w (o :: os) = (fst (on_outputs (fst (on_output w o)) os),
                            snd (on_output w o) ++ snd (on_outputs (fst (on_output w o)) os)).
Proof.
  unfold on_outputs. cbn [foldl]. destruct (on_output w o) as [w1 out1]. cbn.
  enough (forall w acc, foldl (fun '(w, out) o => let '(w, out') := on_output w o in (w, out ++ out')) (w, acc) os
          = (fst (foldl (fun '(w, out) o => let '(w, out') := on_output w o in (w, out ++ out')) (w, []) os),
             acc ++ snd (foldl (fun '(w, out) o => let '(w, out') := on_output w o in (w, out ++ out')) (w, []) os)))
    as E by apply E.
  clear. induction os as [|o os IH]; intros w acc; cbn; [by rewrite app_nil_r|].
  destruct (on_output w o) as [w1 out1]. rewrite (IH w1 (acc ++ out1)), (IH w1 out1). cbn. by rewrite app_assoc.
Qed.

Lemma on_outputs_ok rev label w os :
  shown_ok rev label w ->
  shown_ok (heard_revision rev os) (heard_label label os) (fst (on_outputs w os)) /\ same_ot w (fst (on_outputs w os)).
Proof.
  revert rev label w. induction os as [|o os IH]; intros rev label w Hw; [done|].
  rewrite on_outputs_cons. cbn [fst]. destruct (on_output_ok rev label w o Hw) as [H1 (S1 & S2 & S3 & S4)].
  destruct (IH _ _ _ H1) as [H2 (T1 & T2 & T3 & T4)]. split; [exact H2|].
  unfold same_ot. rewrite T1, T2, T3, T4. by split_and!.
Qed.

(** *** Slots *)

(** A function of the window that keeps the invariant and does not touch the controller. *)
Definition keeps (w w' : EditorWindow) : Prop :=
  same_ot w w' /\ forall rev label, shown_ok rev label w -> shown_ok rev label w'.
Lemma keeps_ok w w' : keeps w w' -> window_ok w -> window_ok w'.
Proof. intros [H1 H2]. by apply window_ok_same. Qed.
Lemma keeps_trans w w1 w2 : keeps w w1 -> keeps w1 w2 -> keeps w w2.
Proof.
  intros [(H1 & H2 & H3 & H4) H] [(K1 & K2 & K3 & K4) K]. split; [|auto].
  unfold same_ot. by rewrite K1, K2, K3, K4.
Qed.

Ltac keep := split; [done|intros rev label []; by split].

Lemma keeps_message w text timeout : keeps w (with_status w (showMessage (wn_status w) text timeout)).
Proof. keep. Qed.
Lemma keeps_schedule w : keeps w (scheduleCursorBroadcast w).
Proof. keep. Qed.
Lemma keeps_cursor w : keeps w (onCursorPositionChanged w).
Proof. keep. Qed.
Lemma keeps_closing w closing closed boxes : keeps w (with_closing w closing closed boxes).
Proof. keep. Qed.
Lemma keeps_online w ids :
  keeps w (with_status (with_online w ids) (setOnlineCount (wn_status w) (i32 (Z.of_nat (size ids))))).
Proof. keep. Qed.
Lemma keeps_panel w p : panel_ok (wn_user_id w) p -> keeps w (with_panel w p).
Proof. intros Hp. split; [done|]. intros rev label []. by split. Qed.
Lemma keeps_cursors_slot w r : cursors_call (wn_remote_cursors w) r -> keeps w (cursors_slot w r).
Proof. intros H. split; [apply cursors_slot_same|]. intros rev label. by apply cursors_slot_ok. Qed.
Lemma keeps_role w role : keeps w (applyRole (with_role w role) role).
Proof. keep. Qed.
Lemma keeps_notice w title body : keeps w (fst (closeWithNotice w title body)).
Proof. unfold closeWithNotice. destruct (wn_closing w); keep. Qed.
Lemma keeps_refl w : keeps w w.
Proof. keep. Qed.
Lemma keeps_panel_then w w1 p :
  (forall rev label, shown_ok rev label w -> panel_ok (wn_user_id w) p) -> keeps (with_panel w p) w1 -> keeps w w1.
Proof.
  intros Hp [(H1 & H2 & H3 & H4) H]. split; [done|]. intros rev label Hw. apply H.
  pose proof (Hp _ _ Hw). destruct Hw. by split.
Qed.

Lemma window_handler_keeps w payload : keeps w (fst (window_handler w payload)).
Proof.
  pose proof (keeps_refl w) as Hr. unfold window_handler. destruct (fst (parse_envelope payload)); try exact Hr; cbn [fst].
  - unfold handleCursorBroadcast. destruct (parse_as _ payload) as [msg|]; [|done]. destruct (negb _); [done|].
    apply keeps_cursors_slot, applyBroadcast_call.
  - unfold handleUserJoined. destruct (parse_as _ payload) as [msg|]; [|done]. destruct (negb _); [done|].
    eapply keeps_trans; [apply keeps_online|]. cbv zeta. eapply keeps_panel_then; [|apply keeps_message].
    intros rev label []. by apply upsertUser_ok.
  - unfold handleUserLeft. destruct (parse_as _ payload) as [msg|]; [|done]. destruct (negb _); [done|].
    eapply keeps_trans; [apply keeps_online|]. cbv zeta. eapply keeps_panel_then.
    { intros rev label []. by apply up_removeUser_ok. }
    eapply keeps_trans; [|apply keeps_message]. apply keeps_cursors_slot, removeUser_call.
  - unfold handleRoleChanged. destruct (parse_as _ payload) as [msg|]; [|done]. destruct (negb _); [done|].
    eapply keeps_trans; [apply keeps_role|apply keeps_message].
  - unfold handleDocDeleted. destruct (parse_as _ payload) as [msg|]; [|done]. destruct (negb _); [done|].
    apply keeps_notice.
  - apply keeps_notice.
Qed.

Lemma on_outputs_window_ok w c d os :
  window_ok w -> oc_ok c -> same_client (wn_ot w) c -> announced (wn_ot w) c os -> ld_revision d = oc_revision c ->
  window_ok (fst (on_outputs (with_ot w c d) os)).
Proof.
  intros [H1 H2 H3 H4 H5] Hc [Hu Hd] [Hr Hl] Hld.
  assert (shown_ok (oc_revision (wn_ot w)) (state_label (oc_state (wn_ot w))) (with_ot w c d)) as Hs by (destruct H5; by split).
  destruct (on_outputs_ok _ _ _ os Hs) as [Hs' (T1 & T2 & T3 & T4)]. rewrite Hr, Hl in Hs'.
  split; rewrite ?T1, ?T2, ?T3, ?T4; cbn; congruence || done.
Qed.

Lemma onNetworkMessage_window_ok w payload w' out :
  window_ok w -> onNetworkMessage w payload = Some (w', out) -> window_ok w'.
Proof.
  intros Hw E. unfold onNetworkMessage, controller_slot in E. apply bind_Some in E as ([w1 out1] & E1 & E).
  apply bind_Some in E1 as ([[c d] os] & E1 & [= E2]).
  pose proof (window_handler_keeps w1 payload) as Hk.
  destruct (window_handler w1 payload) as [w2 out2]. simplify_eq. eapply keeps_ok; [exact Hk|].
  assert (w1 = fst (on_outputs (with_ot w c d) os)) as -> by (by rewrite E2).
  pose proof (onNetworkMessage_ok (wn_ot w) (wn_local_doc w) payload (wk_ot _ Hw)) as Ho. rewrite E1 in Ho.
  destruct (onNetworkMessage_announced _ _ _ _ _ _ (wk_ot _ Hw) (wk_revision _ Hw) E1) as [Ha Hl].
  apply on_outputs_window_ok; tauto.
Qed.

Lemma user_edit_fields e document cursor p n m : ew_applying_remote e = false ->
  fst (user_edit e document cursor p n m) = with_last_known (with_document e document cursor) document.
Proof. intros H. unfold user_edit, onContentsChange. cbn. by rewrite H. Qed.

Lemma edited_window_ok w document cursor p n m w' out :
  window_ok w -> edited w document cursor p n m = Some (w', out) -> window_ok w'.
Proof.
  intros Hw E. unfold edited in E.
  pose proof (user_edit_fields (wn_editor w) document cursor p n m (so_applying _ _ _ (wk_shown _ Hw))) as Ef.
  destruct (user_edit (wn_editor w) document cursor p n m) as [e ops]. cbn in Ef. subst e.
  set (w1 := with_editor w _) in E. assert (window_ok w1) as Hw1.
  { eapply keeps_ok; [|exact Hw]. subst w1. keep. }
  destruct ops as [|op ops]; [by simplify_eq|]. unfold controller_slot in E.
  apply bind_Some in E as ([[c d] os] & E1 & [= E2]).
  pose proof (onLocalOperations_spec (wn_ot w1) (wn_local_doc w1) (op :: ops) (wk_ot _ Hw1)) as S.
  change (wn_ot w1) with (wn_ot w) in *. change (wn_local_doc w1) with (wn_local_doc w) in *.
  rewrite E1 in S. destruct S as (S1 & _ & _ & S2 & S3 & S4 & _).
  assert (w' = fst (on_outputs (with_ot w1 c d) os)) as -> by (by rewrite E2).
  apply on_outputs_window_ok; try done.
  - eapply onLocalOperations_announced; [apply Hw|exact E1].
  - pose proof (wk_revision _ Hw). congruence.
Qed.

Lemma closeEvent_spec w w' out : closeEvent w = Some (w', out) ->
  w' = with_closing w (wn_closing w) true (wn_boxes w)
  /\ ((wn_closing w = true /\ out = [WinLeftDocument])
      \/ exists payload, wn_closing w = false /\ encode_doc_leave_request (wn_doc_id w) = Some payload
          /\ out = [WinSend payload; WinLeftDocument]).
Proof.
  unfold closeEvent. destruct (wn_closing w) eqn:E; cbn.
  - intros [= <- <-]. by split; [|left].
  - intros (out1 & (payload & Hp & [= <-])%bind_Some & [= <- <-])%bind_Some. split; [done|right; eauto].
Qed.

Lemma WindowStep_ok w out w' : WindowStep w out w' -> window_ok w -> window_ok w'.
Proof.
  destruct 1 as [w payload w' out E|w reason|w document cursor p n m w' out _ _ E|w cursor|w|w|w w' out Ht E
                |w _|w text ok w' out _ E|w w' out _ E|w w' out _ E]; intros Hw.
  - by eapply onNetworkMessage_window_ok.
  - eapply keeps_ok; [|exact Hw]. unfold onDisconnected. destruct (wn_closing w); [apply keeps_refl|apply keeps_notice].
  - by eapply edited_window_ok.
  - eapply keeps_ok; [|exact Hw]. eapply keeps_trans; [|apply keeps_cursor]. keep.
  - eapply keeps_ok; [apply keeps_cursor|exact Hw].
  - eapply keeps_ok; [apply keeps_schedule|exact Hw].
  - unfold onCursorBroadcastTimeout in E. cbn in E. destruct (wn_cursor_dirty w) eqn:Ed; cbn in E.
    + apply bind_Some in E as (payload & _ & [= <- <-]). eapply keeps_ok; [|exact Hw]. keep.
    + injection E as <- <-. eapply keeps_ok; [|exact Hw]. keep.
  - eapply keeps_ok; [|exact Hw]. keep.
  - unfold onShareClicked in E. destruct (_ || _); [by simplify_eq|].
    apply bind_Some in E as (payload & _ & [= <- <-]). eapply keeps_ok; [apply keeps_message|exact Hw].
  - apply closeEvent_spec in E as [-> _]. eapply keeps_ok; [apply keeps_closing|].
    eapply keeps_ok; [apply keeps_closing|exact Hw].
  - apply closeEvent_spec in E as [-> _]. eapply keeps_ok; [apply keeps_closing|exact Hw].
Qed.

(** *** The window that opens *)

Lemma parseColor_valid hex : isValid (parseColor hex) = true.
Proof.
  unfold parseColor. destruct (isValid (toColor (fromUtf8 hex))) eqn:E; [done|]. apply qt_color. reflexivity.
Qed.
Lemma setup_panel_ok user username users : panel_ok user (setup_panel user username users).
Proof.
  unfold setup_panel.
  assert (forall us p, panel_ok user p -> panel_ok user (foldl (fun p u => if ui_userId u =? user then p
    else upsertUser p (ui_userId u) (fromUtf8 (ui_username u)) (parseColor (ui_color u))) p us)) as Hf.
  { induction us as [|u us IH]; intros p Hp; [done|]. apply IH. destruct (_ =? _); [done|by apply upsertUser_ok]. }
  destruct (head (filter (fun u => ui_userId u = user) users)); apply Hf, setLocalUser_ok.
Qed.

Lemma new_EditorWindow_ok user username initial : window_ok (new_EditorWindow user username initial).
Proof.
  split; try done. split; try done. apply setup_panel_ok.
Qed.

Lemma WindowRun_ok w out w' : WindowRun w out w' -> window_ok w -> window_ok w'.
Proof. induction 1 as [|w out w1 out' w2 _ IH _ Hst]; [done|]. intros Hw. eapply WindowStep_ok; eauto. Qed.

(** *** Closing *)

Definition is_notice (o : WindowOutput) : Prop := match o with WinBox BoxInformation _ _ => True | _ => False end.
Definition is_left (o : WindowOutput) : Prop := match o with WinLeftDocument => True | _ => False end.
#[export] Instance is_notice_dec o : Decision (is_notice o).
Proof. destruct o as [| | |[]]; cbn; apply _. Defined.
#[export] Instance is_left_dec o : Decision (is_left o).
Proof. destruct o; cbn; apply _. Defined.
Definition notices (out : list WindowOutput) : nat := length (filter is_notice out).
Definition lefts (out : list WindowOutput) : nat := length (filter is_left out).

Lemma notices_app l l' : notices (l ++ l') = (notices l + notices l')%nat.
Proof. unfold notices. by rewrite filter_app, length_app. Qed.
Lemma lefts_app l l' : lefts (l ++ l') = (lefts l + lefts l')%nat.
Proof. unfold lefts. by rewrite filter_app, length_app. Qed.

Definition closing_count (w : EditorWindow) : nat := if wn_closing w then 1 else 0.
(** A slot that may open a box, and does not close the window. *)
Definition stays_open (w : EditorWindow) (r : EditorWindow * list WindowOutput) : Prop :=
  wn_closed (fst r) = wn_closed w /\ (closing_count w + notices (snd r))%nat = closing_count (fst r)
  /\ lefts (snd r) = O.

Lemma stays_open_trans w w1 out1 w2 out2 :
  stays_open w (w1, out1) -> stays_open w1 (w2, out2) -> stays_open w (w2, out1 ++ out2).
Proof.
  unfold stays_open. cbn [fst snd]. intros (H1 & H2 & H3) (K1 & K2 & K3). rewrite notices_app, lefts_app.
  split_and!; [congruence|lia|lia].
Qed.
Lemma stays_open_keep w w' : wn_closed w' = wn_closed w -> wn_closing w' = wn_closing w -> stays_open w (w', []).
Proof. unfold stays_open, closing_count. cbn. intros -> ->. split_and!; [done|lia|done]. Qed.

Lemma on_outputs_open w os : stays_open w (on_outputs w os).
Proof.
  revert w. induction os as [|o os IH]; intros w; [by apply stays_open_keep|].
  rewrite on_outputs_cons. eapply stays_open_trans; [|rewrite <- surjective_pairing; apply IH].
  destruct o as [| |op| |]; cbn; try by apply stays_open_keep.
  unfold onRemoteOperationApplied. destruct (EditorWidget.applyRemoteOperation _ _) as [e ops].
  assert (notices (match ops with [] => [] | _ => [WinEcho ops] end) = O /\ lefts (match ops with [] => [] | _ => [WinEcho ops] end) = O)
    as [H1 H2] by (by destruct ops).
  unfold stays_open, closing_count, cursors_slot. cbn [snd fst]. rewrite H1, H2. destruct (snd _); cbn; split_and!; done || lia.
Qed.
Lemma closeWithNotice_open w title body : stays_open w (closeWithNotice w title body).
Proof.
  unfold closeWithNotice, stays_open, closing_count. destruct (wn_closing w) eqn:E; cbn; rewrite ?E; split_and!; done || lia.
Qed.
Lemma window_handler_open w payload : stays_open w (window_handler w payload).
Proof.
  assert (stays_open w (w, [])) as Hw by (by apply stays_open_keep).
  unfold window_handler. destruct (fst (parse_envelope payload)); try exact Hw.
  - unfold handleCursorBroadcast. destruct (parse_as _ payload); [|done]. destruct (negb _); [done|].
    apply stays_open_keep; unfold cursors_slot; by destruct (snd _).
  - unfold handleUserJoined. destruct (parse_as _ payload); [|done]. by destruct (negb _).
  - unfold handleUserLeft. destruct (parse_as _ payload); [|done]. destruct (negb _); [done|].
    apply stays_open_keep; cbv zeta; unfold cursors_slot; by destruct (snd _).
  - unfold handleRoleChanged. destruct (parse_as _ payload); [|done]. by destruct (negb _).
  - unfold handleDocDeleted. destruct (parse_as _ payload); [|done]. destruct (negb _); [done|]. apply closeWithNotice_open.
  - apply closeWithNotice_open.
Qed.
Lemma controller_slot_open w r w' out : controller_slot w r = Some (w', out) -> stays_open w (w', out).
Proof.
  unfold controller_slot. intros ([[c d] os] & _ & [= E])%bind_Some. rewrite <- E.
  apply (on_outputs_open (with_ot w c d)).
Qed.

(** What a window emits when it closes. *)
Definition leave_outputs (w : EditorWindow) (out : list WindowOutput) : Prop :=
  if wn_closing w then out = [WinLeftDocument]
  else exists payload, encode_doc_leave_request (wn_doc_id w) = Some payload
       /\ out = [WinSend payload; WinLeftDocument].

Lemma closeEvent_leaves w w' out : closeEvent w = Some (w', out) ->
  wn_closed w' = true /\ wn_closing w' = wn_closing w /\ leave_outputs w' out /\ notices out = O /\ lefts out = 1%nat.
Proof.
  intros [-> H]%closeEvent_spec. unfold leave_outputs. cbn.
  destruct H as [[-> ->]|(payload & -> & Hp & ->)]; split_and!; try done. by exists payload.
Qed.

Lemma WindowStep_open w out w' : WindowStep w out w' ->
  stays_open w (w', out)
  \/ wn_closed w' = true /\ wn_closing w' = wn_closing w /\ leave_outputs w' out /\ notices out = O /\ lefts out = 1%nat.
Proof.
  destruct 1 as [w payload w' out E|w reason|w document cursor p n m w' out _ _ E|w cursor|w|w|w w' out _ E
                |w _|w text ok w' out _ E|w w' out _ E|w w' out _ E].
  - left. unfold onNetworkMessage in E. apply bind_Some in E as ([w1 out1] & E1 & E).
    apply controller_slot_open in E1. pose proof (window_handler_open w1 payload) as H.
    destruct (window_handler w1 payload). simplify_eq. by eapply stays_open_trans.
  - left. rewrite <- surjective_pairing. unfold onDisconnected.
    destruct (wn_closing w) eqn:E; [by apply stays_open_keep|apply closeWithNotice_open].
  - left. unfold edited in E. destruct (user_edit _ _ _ _ _ _) as [e ops].
    destruct ops; [simplify_eq; by apply stays_open_keep|]. by apply controller_slot_open in E.
  - left. by apply stays_open_keep.
  - left. by apply stays_open_keep.
  - left. by apply stays_open_keep.
  - left. unfold onCursorBroadcastTimeout in E. cbn in E. destruct (wn_cursor_dirty w); cbn in E.
    + apply bind_Some in E as (payload & _ & [= <- <-]). unfold stays_open, closing_count. cbn. split_and!; done || lia.
    + injection E as <- <-. by apply stays_open_keep.
  - left. by apply stays_open_keep.
  - left. unfold onShareClicked in E. destruct (_ || _); [simplify_eq; by apply stays_open_keep|].
    apply bind_Some in E as (payload & _ & [= <- <-]). unfold stays_open, closing_count. cbn. split_and!; done || lia.
  - right. by apply closeEvent_leaves in E.
  - right. by apply closeEvent_leaves in E.
Qed.

(** *** No echo *)

Definition is_echo (o : WindowOutput) : Prop := match o with WinEcho _ => True | _ => False end.
Definition no_echo (out : list WindowOutput) : Prop := Forall (fun o => ~ is_echo o) out.

Ltac no_echo := solve [repeat (constructor; [by intros []|]); constructor].

Lemma on_outputs_no_echo rev label w os : shown_ok rev label w -> no_echo (snd (on_outputs w os)).
Proof.
  revert rev label w. induction os as [|o os IH]; intros rev label w Hw; [by constructor|].
  rewrite on_outputs_cons. apply Forall_app. destruct (on_output_ok rev label w o Hw) as [H1 _].
  split; [|by eapply IH]. destruct o as [| |op| |]; cbn; try no_echo.
  unfold onRemoteOperationApplied.
  destruct (applyRemoteOperation_fields (wn_editor w) op (so_applying _ _ _ Hw)) as (s & c & [->| ->]); by constructor.
Qed.
Lemma window_handler_no_echo w payload : no_echo (snd (window_handler w payload)).
Proof.
  unfold window_handler, handleServerShutdown, handleDocDeleted, closeWithNotice, no_echo.
  destruct (fst (parse_envelope payload)); try by constructor.
  - destruct (parse_as _ payload); [|by constructor]. destruct (negb _), (wn_closing w); no_echo.
  - destruct (wn_closing w); no_echo.
Qed.
Lemma controller_slot_no_echo w r w' out : window_ok w -> controller_slot w r = Some (w', out) -> no_echo out.
Proof.
  intros Hw. unfold controller_slot. intros ([[c d] os] & _ & [= E])%bind_Some.
  replace out with (snd (on_outputs (with_ot w c d) os)) by (by rewrite E).
  eapply on_outputs_no_echo. destruct (wk_shown _ Hw). by split.
Qed.
Lemma onNetworkMessage_no_echo w payload w' out : window_ok w -> onNetworkMessage w payload = Some (w', out) -> no_echo out.
Proof.
  intros Hw ([w1 out1] & E1 & E)%bind_Some. apply controller_slot_no_echo in E1; [|done].
  pose proof (window_handler_no_echo w1 payload). destruct (window_handler w1 payload). simplify_eq. by apply Forall_app.
Qed.
Lemma edited_no_echo w document cursor p n m w' out :
  window_ok w -> edited w document cursor p n m = Some (w', out) -> no_echo out.
Proof.
  intros Hw E. unfold edited in E.
  pose proof (user_edit_fields (wn_editor w) document cursor p n m (so_applying _ _ _ (wk_shown _ Hw))) as Ef.
  destruct (user_edit (wn_editor w) document cursor p n m) as [e ops]. cbn in Ef. subst e.
  destruct ops; [simplify_eq; by constructor|]. eapply controller_slot_no_echo; [|exact E].
  eapply keeps_ok; [|exact Hw]. keep.
Qed.
Lemma onDisconnected_no_echo w reason : no_echo (snd (onDisconnected w reason)).
Proof. unfold onDisconnected, closeWithNotice, no_echo. destruct (wn_closing w) eqn:E; rewrite ?E; no_echo. Qed.
Lemma timeout_no_echo w w' out : onCursorBroadcastTimeout w = Some (w', out) -> no_echo out.
Proof.
  unfold onCursorBroadcastTimeout. destruct (negb _); [intros [= <- <-]; by constructor|].
  intros (payload & _ & [= <- <-])%bind_Some. no_echo.
Qed.
Lemma share_no_echo w s ok w' out : onShareClicked w s ok = Some (w', out) -> no_echo out.
Proof.
  unfold onShareClicked. destruct (_ || _); [intros [= <- <-]; by constructor|].
  intros (payload & _ & [= <- <-])%bind_Some. no_echo.
Qed.

(** *** The text *)

(** The editor and the local document hold the same text. *)
Definition in_sync (w : EditorWindow) (text : list Z) : Prop :=
  shows (wn_editor w) text /\ ld_content (wn_local_doc w) = utf8 text.

(** Operations on characters, each against the text its predecessors lead to. *)
Inductive EditChain : list Operation -> list Z -> list Z -> Prop :=
| chain_nil text : EditChain [] text text
| chain_cons op ops a r i b text' :
    edits op a r i b -> Forall scalar (a ++ r ++ b) -> Forall plain i ->
    small (a ++ r ++ b) -> small (a ++ i ++ b) ->
    EditChain ops (a ++ i ++ b) text' -> EditChain (op :: ops) (a ++ r ++ b) text'.

Definition applied (os : list OcOutput) : list Operation :=
  omap (fun o => match o with SigRemoteOperationApplied op => Some op | _ => None end) os.

Lemma chain_apply ops text text' : EditChain ops text text' -> apply_all (utf8 text) ops = utf8 text'.
Proof.
  induction 1 as [|op ops a r i b text' He _ _ Hm _ _ IH]; [done|].
  rewrite apply_all_cons. by rewrite (edits_apply _ _ _ _ _ He Hm).
Qed.

Lemma cursors_slot_text w r text : shows (wn_editor (cursors_slot w r)) text <-> shows (wn_editor w) text.
Proof. unfold cursors_slot. by destruct (snd r). Qed.

Lemma on_outputs_text w os text text' :
  shows (wn_editor w) text -> EditChain (applied os) text text' -> shows (wn_editor (fst (on_outputs w os))) text'.
Proof.
  revert w text. induction os as [|o os IH]; intros w text Hw Hc; [by inversion Hc; subst|].
  rewrite on_outputs_cons. cbn [fst]. destruct o as [payload|revision|op|label|message]; cbn in Hc |- *;
    try (by eapply IH).
  inversion Hc as [|? ? a r i b ? He Hs Hi Hm Hm' Hc']; subst. eapply IH; [|exact Hc'].
  cbn [on_output]. unfold onRemoteOperationApplied.
  destruct (applyRemoteOperation_spec (wn_editor w) op a r i b) as (c & -> & _); [done..|]. cbn [fst].
  rewrite cursors_slot_text.
  by apply shows_replace, Hw.
Qed.

Lemma window_handler_text w payload text :
  shows (wn_editor w) text -> shows (wn_editor (fst (window_handler w payload))) text.
Proof.
  intros Hw. unfold window_handler. destruct (fst (parse_envelope payload)); try exact Hw; cbn [fst].
  - unfold handleCursorBroadcast. destruct (parse_as _ payload); [|done]. destruct (negb _); [done|].
    by apply cursors_slot_text.
  - unfold handleUserJoined. destruct (parse_as _ payload); [|done]. by destruct (negb _).
  - unfold handleUserLeft. destruct (parse_as _ payload); [|done]. destruct (negb _); [done|]. cbn.
    by apply (cursors_slot_text (with_panel _ _)).
  - unfold handleRoleChanged. destruct (parse_as _ payload); [|done]. by destruct (negb _).
  - unfold handleDocDeleted, closeWithNotice. destruct (parse_as _ payload); [|done]. destruct (negb _); [done|].
    by destruct (wn_closing w).
  - unfold handleServerShutdown, closeWithNotice. by destruct (wn_closing w).
Qed.

Lemma entry_loop_content entries c d msg c' d' out : oc_ok c ->
  entry_loop entries c d msg = Some (c', d', out) -> ld_content d' = apply_all (ld_content d) (applied out).
Proof.
  revert c d c' d' out. induction entries as [|entry entries IH]; intros c d c' d' out Hok E.
  - cbn in E. by simplify_eq.
  - pose proof (entry_loop_cons c d entry entries msg Hok) as H. cbv zeta in H.
    destruct (transform_ladder _ _) as [queue evolved]. destruct H as (c1 & H1 & _ & _ & _ & _ & Eq).
    rewrite Eq in E. apply bind_Some in E as ([[c2 d2] outs] & E & [= <- <- <-]).
    apply IH in E as ->; [|done]. done.
Qed.
Lemma onNetworkMessage_content c d payload c' d' out : oc_ok c ->
  OTController.onNetworkMessage c d payload = Some (c', d', out) ->
  ld_content d' = apply_all (ld_content d) (applied out).
Proof.
  intros Hok. unfold OTController.onNetworkMessage.
  destruct (fst (parse_envelope payload)); try (intros [= <- <- <-]; done).
  - destruct (parse_as _ payload) as [msg|]; [|intros [= <- <- <-]; done].
    destruct (oam_docId msg =? oc_doc_id c); [|intros [= <- <- <-]; done].
    unfold handleAck. rewrite !emitStateLabel_label. cbn. destruct (oc_state c) eqn:Es.
    1,2: by intros [= <- <- <-].
    destruct (oc_buffer c) as [|op buffer]; [done|]. intros (sent & (p & -> & _)%sendOp_some & E)%bind_Some.
    simplify_eq. by rewrite emitStateLabel_label.
  - destruct (parse_as _ payload) as [msg|]; [|intros [= <- <- <-]; done].
    destruct (obm_docId msg =? oc_doc_id c); [|intros [= <- <- <-]; done]. unfold handleBroadcast.
    destruct (obm_userId msg =? oc_userId c); [intros [= <- <- <-]; done|].
    intros ([[c1 d1] outs] & E & [= <- <- <-])%bind_Some. apply entry_loop_content in E; [|done].
    unfold applied in *. rewrite omap_app. cbn. by rewrite app_nil_r.
  - destruct (parse_as _ payload) as [err|]; intros [= <- <- <-]; [|done]. unfold handleError. by case_bool_decide.
Qed.

Lemma effective_apply c ops d : apply_all d (effective c ops) = apply_all d ops.
Proof.
  revert d. unfold effective. induction ops as [|op ops IH]; intros d; [done|]. rewrite filter_cons.
  case_decide as Hn; cbn [fmap list_fmap]; rewrite !apply_all_cons, ?IH; [done|].
  by rewrite apply_noop by (by destruct (is_noop op)).
Qed.

(** Events that concern the text, with the text before and after: a message whose
    operations, once the controller has transformed them, are edits on characters; an
    edit of the user on characters; and the events that do not touch it. Between them what
    the window emits. *)
Inductive SyncStep : EditorWindow * list Z -> list WindowOutput -> EditorWindow * list Z -> Prop :=
| sync_message w payload w' out text text' :
    onNetworkMessage w payload = Some (w', out) ->
    (forall c d os, OTController.onNetworkMessage (wn_ot w) (wn_local_doc w) payload = Some (c, d, os) ->
                    EditChain (applied os) text text') ->
    SyncStep (w, text) out (w', text')
| sync_edited w a r i b cursor n m w' out :
    Forall plain (a ++ r ++ b) -> Forall plain i -> small (a ++ r ++ b) -> small (a ++ i ++ b) ->
    change_size n r b -> change_size m i b ->
    edited w (utf16 (a ++ i ++ b)) cursor (qsize (utf16 a)) n m = Some (w', out) ->
    SyncStep (w, a ++ r ++ b) out (w', a ++ i ++ b)
| sync_cursor w cursor text : SyncStep (w, text) [] (cursor_moved w cursor, text)
| sync_animation w text : SyncStep (w, text) [] (with_editor w (tickCursorAnimation (wn_editor w)), text)
| sync_timeout w w' out text : onCursorBroadcastTimeout w = Some (w', out) -> SyncStep (w, text) out (w', text)
| sync_share w s ok w' out text : onShareClicked w s ok = Some (w', out) -> SyncStep (w, text) out (w', text)
| sync_disconnected w reason text :
    SyncStep (w, text) (snd (onDisconnected w reason)) (fst (onDisconnected w reason), text).
Inductive SyncRun : EditorWindow * list Z -> list WindowOutput -> EditorWindow * list Z -> Prop :=
| sync_run_nil x : SyncRun x [] x
| sync_run_cons x out1 y out2 z : SyncStep x out1 y -> SyncRun y out2 z -> SyncRun x (out1 ++ out2) z.

Lemma SyncStep_no_echo x out y : SyncStep x out y -> window_ok (fst x) -> no_echo out.
Proof.
  destruct 1; intros Hw; cbn in Hw.
  - by eapply onNetworkMessage_no_echo.
  - by eapply edited_no_echo.
  - by constructor.
  - by constructor.
  - by eapply timeout_no_echo.
  - by eapply share_no_echo.
  - apply onDisconnected_no_echo.
Qed.

Lemma onNetworkMessage_sync w payload w' out text text' :
  window_ok w -> in_sync w text -> onNetworkMessage w payload = Some (w', out) ->
  (forall c d os, OTController.onNetworkMessage (wn_ot w) (wn_local_doc w) payload = Some (c, d, os) ->
                  EditChain (applied os) text text') ->
  in_sync w' text'.
Proof.
  intros Hw [Hs Hl] E Hc. unfold onNetworkMessage, controller_slot in E. apply bind_Some in E as ([w1 out1] & E1 & E).
  apply bind_Some in E1 as ([[c d] os] & E1 & [= E2]). specialize (Hc _ _ _ E1).
  assert (w1 = fst (on_outputs (with_ot w c d) os)) as E3 by (by rewrite E2).
  destruct (window_handler_keeps w1 payload) as [(_ & Hd & _) _].
  pose proof (window_handler_text w1 payload text') as Ht. destruct (window_handler w1 payload) as [w2 out2].
  simplify_eq. cbn in *. split.
  - apply Ht. rewrite E2. by eapply on_outputs_text.
  - assert (shown_ok (oc_revision (wn_ot w)) (state_label (oc_state (wn_ot w))) (with_ot w c d)) as Hk
      by (destruct (wk_shown _ Hw); by split).
    destruct (on_outputs_ok _ _ _ os Hk) as [_ (_ & T & _)]. rewrite Hd, T. cbn.
    rewrite (onNetworkMessage_content _ _ _ _ _ _ (wk_ot _ Hw) E1), Hl. by apply chain_apply.
Qed.

Lemma local_applied_nil ops c d c' d' out :
  onLocalOperations c d ops = Some (c', d', out) -> applied out = [].
Proof.
  unfold onLocalOperations. intros ([[[c1 d1] outs] b] & E & [= <- <- <-])%bind_Some.
  assert (applied outs = []) as H.
  { revert c d b outs E. generalize false. induction ops as [|op ops IH]; intros b0 c d b outs E; [by cbn in E; simplify_eq|].
    rewrite local_loop_cons in E. destruct (is_noop op); [by eapply IH|].
    apply bind_Some in E as ([[c2 out1] b1] & E1 & E2). apply bind_Some in E2 as ([[[c3 d3] outs3] b3] & E2 & E3).
    simplify_eq. apply IH in E2. unfold applied in *. rewrite omap_app, E2, app_nil_r.
    destruct (oc_state c); simplify_eq; [|done|done].
    by apply bind_Some in E1 as (o & (p & -> & _)%sendOp_some & [= <- <- <-]). }
  unfold applied in *. rewrite omap_app, H. destruct b; [|done]. by rewrite emitStateLabel_label.
Qed.

Lemma edited_sync w a r i b cursor n m w' out :
  window_ok w -> in_sync w (a ++ r ++ b) ->
  Forall scalar (a ++ r ++ b) -> Forall scalar i -> small (a ++ r ++ b) -> small (a ++ i ++ b) ->
  change_size n r b -> change_size m i b ->
  edited w (utf16 (a ++ i ++ b)) cursor (qsize (utf16 a)) n m = Some (w', out) ->
  in_sync w' (a ++ i ++ b).
Proof.
  intros Hw [Hs Hl] Hr Hi Hm Hm' Hn Hk E. unfold edited in E. rewrite (user_edit_spec _ a r i b) in E by done.
  pose proof (change_ops_spec (wn_editor w) a r i b n m Hm Hm' Hn Hk) as [_ Ha].
  destruct (change_ops (wn_editor w) a r i n m) as [|op ops].
  - simplify_eq. split; [apply shows_replace, Hs|]. cbn in *. by rewrite Hl.
  - unfold controller_slot in E. apply bind_Some in E as ([[c d] os] & E1 & [= E2]).
    pose proof (local_applied_nil _ _ _ _ _ _ E1) as Hno.
    pose proof (onLocalOperations_spec _ (wn_local_doc w) (op :: ops) (wk_ot _ Hw)) as S.
    change (onLocalOperations (wn_ot w) (wn_local_doc w) (op :: ops) = Some (c, d, os)) in E1.
    rewrite E1 in S. destruct S as (_ & _ & Hd & _).
    set (w1 := with_ot _ c d) in E2. assert (w' = fst (on_outputs w1 os)) as -> by (by rewrite E2).
    assert (shown_ok (oc_revision (wn_ot w)) (state_label (oc_state (wn_ot w))) w1) as Hk1
      by (destruct (wk_shown _ Hw); by split).
    destruct (on_outputs_ok _ _ _ os Hk1) as [_ (_ & T & _)]. split.
    + eapply on_outputs_text; [apply shows_replace, Hs|]. rewrite Hno. constructor.
    + rewrite T. cbn. by rewrite Hd, Hl, effective_apply.
Qed.

Lemma SyncStep_sync x out y : SyncStep x out y -> window_ok (fst x) -> in_sync (fst x) (snd x) ->
  window_ok (fst y) /\ in_sync (fst y) (snd y).
Proof.
  destruct 1 as [w payload w' out text text' E Hc|w a r i b cursor n m w' out Hp Hi Hm Hm' Hn Hk E|w cursor text
                |w text|w w' out text E|w s ok w' out text E|w reason text]; cbn [fst snd]; intros Hw Hs.
  - split; [by eapply onNetworkMessage_window_ok|by eapply onNetworkMessage_sync].
  - split; [by eapply edited_window_ok|]. by eapply edited_sync; eauto using plain_scalar.
  - split; [|done]. eapply WindowStep_ok; [apply step_cursor|done].
  - split; [|done]. eapply keeps_ok; [|exact Hw]. keep.
  - unfold onCursorBroadcastTimeout in E. cbn in E. destruct (wn_cursor_dirty w) eqn:Ed; cbn in E.
    + apply bind_Some in E as (payload & _ & [= <- <-]). split; [|done]. eapply keeps_ok; [|exact Hw]. keep.
    + injection E as <- <-. split; [|done]. eapply keeps_ok; [|exact Hw]. keep.
  - unfold onShareClicked in E. destruct (_ || _); [by simplify_eq|].
    apply bind_Some in E as (payload & _ & [= <- <-]). split; [|done]. by eapply keeps_ok; [apply keeps_message|].
  - unfold onDisconnected, closeWithNotice. destruct (wn_closing w); [done|]. split; [|done].
    eapply keeps_ok; [apply keeps_closing|exact Hw].
Qed.

Lemma SyncRun_sync x out y : SyncRun x out y -> window_ok (fst x) -> in_sync (fst x) (snd x) ->
  window_ok (fst y) /\ in_sync (fst y) (snd y) /\ no_echo out.
Proof.
  induction 1 as [|x out1 y out2 z Hst _ IH]; intros Hw Hs; [by split_and!; [..|constructor]|].
  destruct (SyncStep_sync _ _ _ Hst Hw Hs) as [Hw1 Hs1]. destruct (IH Hw1 Hs1) as (H1 & H2 & H3).
  split_and!; [done..|]. apply Forall_app. split; [by eapply SyncStep_no_echo|done].
Qed.

Lemma new_EditorWindow_sync user username initial text :
  djm_content initial = utf8 text -> Forall plain text -> in_sync (new_EditorWindow user username initial) text.
Proof.
  intros Hc Hp. split; [|done]. unfold shows. cbn. rewrite Hc, qt_fromUtf8 by (by apply plain_scalar).
  by rewrite qt_plainText.
Qed.
End Invariant.

(** ** Properties *)

(** C8: the editor, the local document and the controller never drift apart, and no remote
    operation is echoed. A window opens on a document whose text is characters a Qt text
    document keeps (no no-break space, carriage return or paragraph separator). Then, in
    any order: the user replaces characters of the text by such characters, the text below
    2 GiB; messages arrive, those with operations of others only if each, once the
    controller has transformed it, is such an edit on characters; the cursor moves, timers
    fire, the document is shared, the connection is lost. After them what the editor shows
    is, in UTF-8, byte for byte the local document the controller works on, what the editor
    believes to be shown is what is shown, and in all of it no operation reached the
    controller from the editor's slot while a remote operation was being shown. *)
Theorem editor_stays_in_sync {Q : Qt} {L : QtLaws Q} {J : Json} user username initial text0 out w text :
  djm_content initial = utf8 text0 -> Forall plain text0 ->
  SyncRun (new_EditorWindow user username initial, text0) out (w, text) ->
  ew_document (wn_editor w) = utf16 text
  /\ ew_last_known_text (wn_editor w) = ew_document (wn_editor w)
  /\ ld_content (wn_local_doc w) = utf8 text
  /\ ew_applying_remote (wn_editor w) = false
  /\ no_echo out.
Proof.
  intros Hc Hp Hs.
  destruct (SyncRun_sync _ _ _ Hs) as (_ & [(H1 & H2 & H3) H4] & H5);
    [apply new_EditorWindow_ok|by apply new_EditorWindow_sync|]; cbn in *.
  split_and!; [done|congruence|done..].
Qed.

Lemma editor_stays_in_sync_witness :
  let initial := mkDocJoinResponseMsg true 7 "t" "ab" 0 "owner" [] "" in
  let w := new_EditorWindow (Q := qt_basic) 1 [97] initial in
  exists w' out, edited (J := json_tree) w (utf16 [97; 233; 98]) (2, 2) 1 0 1 = Some (w', out)
    /\ ld_content (wn_local_doc w') = utf8 [97; 233; 98] /\ ew_document (wn_editor w') = [97; 233; 98].
Proof.
  intros initial w.
  destruct (edited (J := json_tree) w (utf16 [97; 233; 98]) (2, 2) 1 0 1) as [[w' out]|] eqn:E; [|discriminate E].
  exists w', out. split; [reflexivity|].
  destruct (editor_stays_in_sync (Q := qt_basic) (J := json_tree) 1 [97] initial [97; 98] (out ++ []) w' [97; 233; 98])
    as (H1 & _ & H3 & _); [reflexivity|decide_now| |by split].
  eapply sync_run_cons; [|apply sync_run_nil].
  apply (sync_edited (J := json_tree) w [97] [] [233] [98] (2, 2) 0 1 w' out);
    try decide_now; try exact E; try (by vm_compute); unfold change_size; cbn; lia.
Defined.

(** C29: what the window shows agrees with what it is. After any events, the editor can be
    written in only as an owner or editor, and the title says so; the editor, the local
    document, the controller and the status bar have one revision and the status bar the
    controller's state; a cursor that has moved since it was last sent has a timer running
    to send it; the user is in the panel but has no remote cursor; and a message fails to
    be handled only when [dump] throws on an operation. *)
Theorem editor_window_invariant {Q : Qt} {L : QtLaws Q} {J : Json} user username initial out w :
  WindowRun (new_EditorWindow user username initial) out w ->
  (ew_read_only (wn_editor w) = false <-> wn_role w = qliteral "owner" \/ wn_role w = qliteral "editor")
  /\ (wn_title w = wn_base_title w <-> ew_read_only (wn_editor w) = false)
  /\ ew_current_revision (wn_editor w) = oc_revision (wn_ot w)
  /\ ld_revision (wn_local_doc w) = oc_revision (wn_ot w)
  /\ sb_revision (wn_status w) = Tr "rev %1" [ArgNumber (oc_revision (wn_ot w))]
  /\ label_text (sb_state (wn_status w)) = TextOf (qliteral (state_label (oc_state (wn_ot w))))
  /\ (wn_cursor_dirty w = true -> wn_timer_active w = true)
  /\ is_Some (up_users (wn_panel w) !! wn_user_id w)
  /\ rcm_cursors (wn_remote_cursors w) !! wn_user_id w = None
  /\ (forall payload, onNetworkMessage w payload = None -> dump_throws).
Proof.
  intros Hr. pose proof (WindowRun_ok _ _ _ Hr (new_EditorWindow_ok user username initial)) as Hw.
  pose proof Hw as [_ _ _ Hrev []].
  assert (ew_read_only (wn_editor w) = false <-> wn_role w = qliteral "owner" \/ wn_role w = qliteral "editor") as Hro.
  { rewrite so_read_only0. unfold read_only_role. repeat case_bool_decide; cbn; naive_solver. }
  split_and!; try done.
  - rewrite so_title0, so_read_only0. destruct (read_only_role (wn_role w)); [|done]. split; [|done].
    intros H. exfalso. revert H. clear. generalize (wn_base_title w).
    fix IH 1. intros [t args|s] E; [|discriminate E]. injection E as E1 E2.
    destruct args as [|a args]; [discriminate E2|]. injection E2 as E2 E3.
    destruct a as [s|n|t']; [discriminate E2..|]. injection E2 as E2. subst t args. exact (IH t' E2).
  - by rewrite so_state0.
  - by apply panel_there.
  - by destruct so_local_cursor0.
  - intros payload E. unfold onNetworkMessage, controller_slot in E.
    pose proof (onNetworkMessage_ok (wn_ot w) (wn_local_doc w) payload (wk_ot _ Hw)) as Ho.
    destruct (OTController.onNetworkMessage (wn_ot w) (wn_local_doc w) payload) as [[[c d] os]|]; [|done].
    cbn in E. destruct (on_outputs _ _). by destruct (window_handler _ _).
Qed.

Lemma editor_window_invariant_witness :
  let initial := mkDocJoinResponseMsg true 7 "t" "ab" 3 "viewer" [] "" in
  let w := cursor_moved (new_EditorWindow (Q := qt_basic) 1 [97] initial) (1, 2) in
  ew_read_only (wn_editor w) = true
  /\ (ew_read_only (wn_editor w) = false
      <-> wn_role w = qliteral (Q := qt_basic) "owner" \/ wn_role w = qliteral (Q := qt_basic) "editor").
Proof.
  intros initial w. split; [reflexivity|].
  refine (proj1 (editor_window_invariant (Q := qt_basic) (L := qt_basic_laws) (J := json_tree) 1 [97] initial ([] ++ []) w _)).
  eapply run_snoc; [apply run_nil|done|apply step_cursor].
Defined.

(** Up to the first close of a window. Whatever events arrive before, in any order,
    at most one notice (connection lost, document deleted, server shutdown) is ever
    shown; the window is left exactly when it closes; and it asks the server to leave the
    document only when no notice closed it. A run ends there: the boxes that may still be
    open behind it (onFatalError has no guard) run close() again, which is not modelled. *)
Theorem window_leaves_at_close {Q : Qt} {L : QtLaws Q} {J : Json} user username initial out w :
  WindowRun (new_EditorWindow user username initial) out w ->
  notices out = closing_count w
  /\ lefts out = (if wn_closed w then 1 else 0)%nat
  /\ (wn_closed w = true -> exists before last, out = before ++ last /\ leave_outputs w last).
Proof.
  intros Hr. remember (new_EditorWindow user username initial) as w0 eqn:E0.
  induction Hr as [w|w out w1 out' w2 Hr IH Hop Hst]; [by subst|].
  specialize (IH E0) as (H1 & H2 & _). rewrite Hop in H2. rewrite notices_app, lefts_app.
  destruct (WindowStep_open _ _ _ Hst) as [(K1 & K2 & K3)|(K1 & K2 & K3 & K4 & K5)]; cbn [fst snd] in *.
  - rewrite K1, Hop. split_and!; [lia|lia|done].
  - unfold closing_count in *. rewrite K1, K2. split_and!; [lia|lia|]. intros _. by exists out, out'.
Qed.

Lemma window_leaves_at_close_witness :
  let initial := mkDocJoinResponseMsg true 7 "t" "ab" 3 "viewer" [] "" in
  let w := new_EditorWindow (Q := qt_basic) 1 [97] initial in
  let w1 := fst (onDisconnected w [120]) in
  notices ([] ++ snd (onDisconnected w [120])) = 1%nat.
Proof.
  intros initial w w1.
  refine (proj1 (window_leaves_at_close (Q := qt_basic) (J := json_tree) 1 [97] initial
                   ([] ++ snd (onDisconnected w [120])) w1 _)).
  eapply run_snoc; [apply run_nil|done|apply step_disconnected].
Defined.
