(* ===== verification/ManyEditors.v ===== *)
(** * Many editors of one document

    The clients of [ManyClients] with their windows ([EditorWindow]): the users type into
    editors and read from them. Each step of the windows is one of the controllers or
    leaves the controllers alone, so that what holds for [ManyClients] holds for what the
    users see: when nothing is under way, all editors show the same text. Messages that
    carry no operation (cursors, shares) touch no document and are not on the channels. *)
From S2P Require Import Prelude ByteString Operation OT Ladder Document Json Protocol Codec DocumentSession OTController.
From S2P Require Import Convergence ManyClients Qt Widgets CursorAnimation EditorWidget EditorWindow.
Local Open Scope Z_scope.

Section Desks.
Context {Q : Qt} {LQ : QtLaws Q} {J : Json} {L : JsonLaws J}.

(** A user's window, with its channels. Ghost: the characters it shows, and the server's
    text at its revision. *)
Record Desk := mkDesk {
  dk_window : EditorWindow;
  dk_text : list Z;
  dk_session : Z;
  dk_up : list string;
  dk_down : list string;
  dk_base : string;
}.
Record Desks := mkDesks {
  dn_doc : Document;
  dn_ds : DocumentSession;
  dn_desks : gmap Z Desk;
}.

(** The client behind a window. *)
Definition client_of (dk : Desk) : Client :=
  mkClient (dk_session dk) (dk_up dk) (dk_down dk) (wn_ot (dk_window dk)) (wn_local_doc (dk_window dk)) (dk_base dk).
Definition net_of (D : Desks) : Net := mkNet (dn_doc D) (dn_ds D) (client_of <$> dn_desks D).

Definition sent_by (out : list WindowOutput) : list string :=
  omap (fun o => match o with WinSend payload => Some payload | _ => None end) out.

(** Events of a window that carry no operation. *)
Inductive quiet_event : EditorWindow -> EditorWindow -> Prop :=
| quiet_cursor w cursor : quiet_event w (cursor_moved w cursor)
| quiet_animation w : quiet_event w (with_editor w (tickCursorAnimation (wn_editor w)))
| quiet_timeout w w' out : onCursorBroadcastTimeout w = Some (w', out) -> quiet_event w w'
| quiet_share w s ok w' out : onShareClicked w s ok = Some (w', out) -> quiet_event w w'.

(** The answer to a join that the server makes of a document. *)
Definition answers (initial : DocJoinResponseMsg) (d : Document) : Prop :=
  djm_docId initial = doc_id d /\ djm_revision initial = doc_revision d /\ djm_content initial = doc_content d.

Definition with_desk (D : Desks) (u : Z) (dk : Desk) : Desks :=
  mkDesks (dn_doc D) (dn_ds D) (<[u := dk]> (dn_desks D)).

Definition deliver_desk (out : Sends) (dk : Desk) : Desk :=
  mkDesk (dk_window dk) (dk_text dk) (dk_session dk) (dk_up dk) (dk_down dk ++ received (dk_session dk) out) (dk_base dk).

(** The premises that the code does not check are those of [NetStep]; and that the texts are
    [plain], which Qt shows as they are, and below 2 GiB, and that a received operation
    becomes edits on whole characters ([EditChain]). *)
Inductive DeskStep : Desks -> Desks -> Prop :=
(** A window opens; the document is text that an editor can show. *)
| desk_open D u p username name color initial text :
    dn_desks D !! u = None -> is_u32 u ->
    Forall (fun cmd => ~ is_operation cmd) (ds_command_queue (dn_ds D)) ->
    map_Forall (fun v w => cu_session w = p -> v = u)
      (users_after (ds_connected_users (dn_ds D)) (ds_command_queue (dn_ds D))) ->
    answers initial (dn_doc D) -> doc_content (dn_doc D) = utf8 text -> Forall plain text ->
    DeskStep D (mkDesks (dn_doc D) (enqueue_command (dn_ds D) (mkDocCommand CmdJoin no_operation u name color p))
                  (<[u := mkDesk (new_EditorWindow u username initial) text p [] [] (doc_content (dn_doc D))]> (dn_desks D)))
| desk_close D u dk name :
    dn_desks D !! u = Some dk ->
    DeskStep D (mkDesks (dn_doc D) (enqueue_command (dn_ds D) (mkDocCommand CmdLeave no_operation u name "" 0))
                        (delete u (dn_desks D)))
(** The user of a window that can be written in replaces the characters [r] by [i]. *)
| desk_edit D u dk a r i b cursor n m w out :
    dn_desks D !! u = Some dk -> ew_read_only (wn_editor (dk_window dk)) = false -> dk_text dk = a ++ r ++ b ->
    Forall plain i -> small (a ++ r ++ b) -> small (a ++ i ++ b) -> change_size n r b -> change_size m i b ->
    edited (dk_window dk) (utf16 (a ++ i ++ b)) cursor (qsize (utf16 a)) n m = Some (w, out) ->
    DeskStep D (with_desk D u (mkDesk w (a ++ i ++ b) (dk_session dk) (dk_up dk ++ sent_by out) (dk_down dk) (dk_base dk)))
| desk_quiet D u dk w :
    dn_desks D !! u = Some dk -> quiet_event (dk_window dk) w ->
    DeskStep D (with_desk D u (mkDesk w (dk_text dk) (dk_session dk) (dk_up dk) (dk_down dk) (dk_base dk)))
| desk_submit D u dk payload up msg name :
    dn_desks D !! u = Some dk -> dk_up dk = payload :: up ->
    parse_as from_json_OperationMsg payload = Some msg ->
    DeskStep D (mkDesks (dn_doc D)
                  (foldl enqueue_command (dn_ds D) (command_of_entry u name (opm_revision msg) <$> opm_ops msg))
                  (<[u := mkDesk (dk_window dk) (dk_text dk) (dk_session dk) up (dk_down dk) (dk_base dk)]> (dn_desks D)))
| desk_take D cmd q doc ds out :
    ds_command_queue (dn_ds D) = cmd :: q -> doc_revision (dn_doc D) + 1 < u32_mod ->
    process_command (dn_doc D) (mkDocumentSession q (ds_connected_users (dn_ds D))) cmd = Some (doc, ds, out) ->
    DeskStep D (mkDesks doc ds (deliver_desk out <$> dn_desks D))
(** The window receives a message; the operations the controller makes of it are edits on
    characters. *)
| desk_receive D u dk payload down c d os w out text :
    dn_desks D !! u = Some dk -> dk_down dk = payload :: down ->
    receivable (client_sys (net_of D) (client_of dk)) payload ->
    OTController.onNetworkMessage (wn_ot (dk_window dk)) (wn_local_doc (dk_window dk)) payload = Some (c, d, os) ->
    fatal os = false -> EditChain (applied os) (dk_text dk) text ->
    onNetworkMessage (dk_window dk) payload = Some (w, out) ->
    DeskStep D (with_desk D u (mkDesk w text (dk_session dk) (dk_up dk ++ sent_by out) down
                                 (next_base (client_sys (net_of D) (client_of dk)) payload)))
(** The window is told that an operation was too old, and closes. *)
| desk_fatal D u dk payload down c d os name :
    dn_desks D !! u = Some dk -> dk_down dk = payload :: down ->
    OTController.onNetworkMessage (wn_ot (dk_window dk)) (wn_local_doc (dk_window dk)) payload = Some (c, d, os) ->
    fatal os = true ->
    DeskStep D (mkDesks (dn_doc D) (enqueue_command (dn_ds D) (mkDocCommand CmdLeave no_operation u name "" 0))
                        (delete u (dn_desks D)))
| desk_saved D : DeskStep D (mkDesks (mark_saved (dn_doc D)) (dn_ds D) (dn_desks D)).

Definition desks_init (d : Document) : Desks := mkDesks d new_DocumentSession ∅.

(** ** Windows and controllers *)

Definition desk_ok (dk : Desk) : Prop :=
  window_ok (dk_window dk) /\ in_sync (dk_window dk) (dk_text dk) /\ Forall plain (dk_text dk).
Definition desks_ok (D : Desks) : Prop := map_Forall (fun _ dk => desk_ok dk) (dn_desks D).

Lemma quiet_sync w w' text : quiet_event w w' -> exists out, SyncStep (w, text) out (w', text).
Proof. destruct 1; eexists; by econstructor. Qed.

Lemma quiet_same w w' : quiet_event w w' -> wn_ot w' = wn_ot w /\ wn_local_doc w' = wn_local_doc w.
Proof.
  destruct 1 as [w cursor|w|w w' out E|w s ok w' out E]; [done..| |].
  - unfold onCursorBroadcastTimeout in E. cbn in E. destruct (wn_cursor_dirty w); cbn in E; [|by injection E as <- <-].
    by apply bind_Some in E as (payload & _ & [= <- <-]).
  - unfold onShareClicked in E. destruct (_ || _); [by injection E as <- <-|].
    by apply bind_Some in E as (payload & _ & [= <- <-]).
Qed.

Lemma sent_by_app out out' : sent_by (out ++ out') = sent_by out ++ sent_by out'.
Proof. apply omap_app. Qed.

Lemma on_outputs_sent w os : sent_by (snd (on_outputs w os)) = sends os.
Proof.
  revert w. induction os as [|o os IH]; intros w; [done|].
  rewrite on_outputs_cons. cbn [snd]. rewrite sent_by_app, IH. destruct o as [| |op| |]; try done.
  cbn. unfold onRemoteOperationApplied. by destruct (EditorWidget.applyRemoteOperation _ _) as [e [|? ?]].
Qed.

Lemma window_handler_sent w payload : sent_by (snd (window_handler w payload)) = [].
Proof.
  unfold window_handler, handleServerShutdown, handleDocDeleted, closeWithNotice.
  destruct (fst (parse_envelope payload)); try done; repeat case_match; done.
Qed.

(** A slot of the controller, called by the window. *)
Lemma controller_slot_outcome w c d os w' out :
  controller_slot w (Some (c, d, os)) = Some (w', out) ->
  wn_ot w' = c /\ wn_local_doc w' = d /\ sent_by out = sends os.
Proof.
  unfold controller_slot. cbn. intros [= E].
  assert (w' = fst (on_outputs (with_ot w c d) os)) as -> by (by rewrite E).
  assert (out = snd (on_outputs (with_ot w c d) os)) as -> by (by rewrite E).
  rewrite on_outputs_sent. clear E.
  assert (forall os w, wn_ot (fst (on_outputs w os)) = wn_ot w /\ wn_local_doc (fst (on_outputs w os)) = wn_local_doc w) as H.
  { clear. induction os as [|o os IH]; intros w; [done|]. rewrite on_outputs_cons. cbn [fst].
    destruct (IH (fst (on_output w o))) as [-> ->]. destruct o; try done.
    cbn. unfold onRemoteOperationApplied, cursors_slot. destruct (EditorWidget.applyRemoteOperation _ _). cbn. by destruct (snd _). }
  destruct (H os (with_ot w c d)) as [-> ->]. done.
Qed.

Lemma onNetworkMessage_outcome w payload c d os w' out :
  OTController.onNetworkMessage (wn_ot w) (wn_local_doc w) payload = Some (c, d, os) ->
  onNetworkMessage w payload = Some (w', out) ->
  wn_ot w' = c /\ wn_local_doc w' = d /\ sent_by out = sends os.
Proof.
  intros E. unfold onNetworkMessage. rewrite E. intros ([w1 out1] & E1 & E2)%bind_Some.
  apply controller_slot_outcome in E1 as (H1 & H2 & H3).
  destruct (window_handler_keeps w1 payload) as [(T1 & T2 & _) _]. pose proof (window_handler_sent w1 payload) as Hs.
  destruct (window_handler w1 payload) as [w2 out2]. simplify_eq. cbn [fst snd] in *.
  by rewrite T1, T2, sent_by_app, Hs, app_nil_r.
Qed.

(** Typing is a local operation of the controller, or none at all. *)
Lemma edited_outcome w a r i b cursor n m w' out :
  shows (wn_editor w) (a ++ r ++ b) -> Forall plain (a ++ r ++ b) -> Forall plain i ->
  small (a ++ r ++ b) -> small (a ++ i ++ b) -> change_size n r b -> change_size m i b ->
  edited w (utf16 (a ++ i ++ b)) cursor (qsize (utf16 a)) n m = Some (w', out) ->
  (wn_ot w' = wn_ot w /\ wn_local_doc w' = wn_local_doc w /\ sent_by out = [])
  \/ exists ops os, Forall op_wf ops
       /\ onLocalOperations (wn_ot w) (wn_local_doc w) ops = Some (wn_ot w', wn_local_doc w', os) /\ sent_by out = sends os.
Proof.
  intros Hs Hp Hi Hm Hm' Hn Hk. unfold edited.
  rewrite (user_edit_spec _ a r i b) by (done || by apply plain_scalar).
  assert (Forall op_wf (change_ops (wn_editor w) a r i n m)) as Hwf.
  { pose proof Hm as [Ha [Hr _]%small_app]%small_app. pose proof Hm' as [_ [Hii _]%small_app]%small_app.
    destruct Ha as [Ha _], Hr as [Hr _], Hii as [Hii _].
    pose proof (slen_nonneg (utf8 a)). unfold change_ops. apply Forall_app. split; destruct (0 <? _); repeat constructor;
      unfold op_wf, is_u32; cbn; try apply is_u32_u32; try lia; try done. }
  destruct (change_ops (wn_editor w) a r i n m) as [|op ops]; [intros [= <- <-]; by left|].
  cbn [wn_ot wn_local_doc with_editor]. intros E. right.
  destruct (onLocalOperations (wn_ot w) (wn_local_doc w) (op :: ops)) as [[[c d] os]|] eqn:E1.
  - apply controller_slot_outcome in E as (<- & <- & E). by exists (op :: ops), os.
  - discriminate E.
Qed.

Lemma chain_plain ops text text' : EditChain ops text text' -> Forall plain text -> Forall plain text'.
Proof.
  induction 1 as [|op ops a r i b text' _ _ Hi _ _ _ IH]; intros Hp; [done|]. apply IH.
  rewrite !Forall_app in *. tauto.
Qed.

(** ** Every step is a step of the clients, or none *)

Lemma desks_ok_insert D u dk : desk_ok dk -> desks_ok D -> map_Forall (fun _ dk => desk_ok dk) (<[u := dk]> (dn_desks D)).
Proof. intros Hk H. by apply map_Forall_insert_2. Qed.
Lemma desks_ok_delete D u : desks_ok D -> map_Forall (fun _ dk => desk_ok dk) (delete u (dn_desks D)).
Proof. by apply map_Forall_delete. Qed.

Lemma net_client D u dk : dn_desks D !! u = Some dk -> net_clients (net_of D) !! u = Some (client_of dk).
Proof. intros H. cbn. by rewrite lookup_fmap, H. Qed.

Lemma net_of_with_desk D u dk : net_of (with_desk D u dk) = with_client (net_of D) u (client_of dk).
Proof. unfold net_of, with_client. cbn. by rewrite fmap_insert. Qed.
Lemma net_of_same D u dk dk' : dn_desks D !! u = Some dk -> client_of dk' = client_of dk -> net_of (with_desk D u dk') = net_of D.
Proof.
  intros H E. rewrite net_of_with_desk. unfold with_client, net_of. cbn. rewrite insert_id; [done|].
  by rewrite lookup_fmap, H, E.
Qed.

Lemma desk_open_net D u p username name color initial text :
  dn_desks D !! u = None -> is_u32 u ->
  Forall (fun cmd => ~ is_operation cmd) (ds_command_queue (dn_ds D)) ->
  map_Forall (fun v w => cu_session w = p -> v = u) (users_after (ds_connected_users (dn_ds D)) (ds_command_queue (dn_ds D))) ->
  answers initial (dn_doc D) ->
  NetStep (net_of D) (net_of (mkDesks (dn_doc D) (enqueue_command (dn_ds D) (mkDocCommand CmdJoin no_operation u name color p))
    (<[u := mkDesk (new_EditorWindow u username initial) text p [] [] (doc_content (dn_doc D))]> (dn_desks D)))).
Proof.
  intros Hn Hu Hq Hp (A1 & A2 & A3). unfold net_of at 2. cbn [dn_doc dn_ds dn_desks]. rewrite fmap_insert.
  assert (client_of (mkDesk (new_EditorWindow u username initial) text p [] [] (doc_content (dn_doc D))) = open_client u p (dn_doc D)) as ->.
  { unfold client_of, open_client. cbn. by rewrite A1, A2, A3. }
  apply (net_open (net_of D)); try done. cbn. by rewrite lookup_fmap, Hn.
Qed.

Lemma desk_edit_net D u dk a r i b cursor n m w out :
  dn_desks D !! u = Some dk -> desk_ok dk -> dk_text dk = a ++ r ++ b ->
  Forall plain i -> small (a ++ r ++ b) -> small (a ++ i ++ b) -> change_size n r b -> change_size m i b ->
  edited (dk_window dk) (utf16 (a ++ i ++ b)) cursor (qsize (utf16 a)) n m = Some (w, out) ->
  let dk' := mkDesk w (a ++ i ++ b) (dk_session dk) (dk_up dk ++ sent_by out) (dk_down dk) (dk_base dk) in
  desk_ok dk' /\ rtc NetStep (net_of D) (net_of (with_desk D u dk')).
Proof.
  intros Hu (Hw & Hs & Hp) Et Hi Hm Hm' Hn Hk E dk'. rewrite Et in Hs, Hp. split.
  - destruct (SyncStep_sync (dk_window dk, a ++ r ++ b) out (w, a ++ i ++ b)) as [H1 H2]; [|done|done|].
    { by eapply sync_edited. }
    split_and!; [done|done|]. cbn. rewrite !Forall_app in *. tauto.
  - destruct (edited_outcome _ _ _ _ _ _ _ _ _ _ (proj1 Hs) Hp Hi Hm Hm' Hn Hk E) as [(T1 & T2 & T3)|(ops & os & Hwf & Ho & T)].
    + rewrite (net_of_same _ _ dk); [done|done|]. unfold client_of, dk'. cbn. by rewrite T1, T2, T3, app_nil_r.
    + apply rtc_once. rewrite net_of_with_desk. unfold dk', client_of. cbn. rewrite T.
      by apply (net_edit (net_of D) u (client_of dk) ops); [apply net_client| |].
Qed.

Lemma desk_receive_net D u dk payload down c d os w out text :
  dn_desks D !! u = Some dk -> desk_ok dk -> dk_down dk = payload :: down ->
  receivable (client_sys (net_of D) (client_of dk)) payload ->
  OTController.onNetworkMessage (wn_ot (dk_window dk)) (wn_local_doc (dk_window dk)) payload = Some (c, d, os) ->
  fatal os = false -> EditChain (applied os) (dk_text dk) text ->
  onNetworkMessage (dk_window dk) payload = Some (w, out) ->
  let dk' := mkDesk w text (dk_session dk) (dk_up dk ++ sent_by out) down
               (next_base (client_sys (net_of D) (client_of dk)) payload) in
  desk_ok dk' /\ NetStep (net_of D) (net_of (with_desk D u dk')).
Proof.
  intros Hu (Hw & Hs & Hp) Hdown Hrec E Hf Hc Ew dk'. split.
  - destruct (SyncStep_sync (dk_window dk, dk_text dk) out (w, text)) as [H1 H2]; [|done|done|].
    { eapply sync_message; [exact Ew|]. intros c' d' os' E'. rewrite E in E'. by injection E' as <- <- <-. }
    split_and!; [done|done|]. cbn. by eapply chain_plain.
  - destruct (onNetworkMessage_outcome _ _ _ _ _ _ _ E Ew) as (T1 & T2 & T3).
    rewrite net_of_with_desk. unfold dk', client_of. cbn. rewrite T1, T2, T3.
    by apply (net_receive (net_of D) u (client_of dk) payload down c d os); [apply net_client|..].
Qed.

Lemma desk_step_net D D' : desks_ok D -> DeskStep D D' -> desks_ok D' /\ rtc NetStep (net_of D) (net_of D').
Proof.
  intros Hok St. destruct St as [D u p username name color initial text Hn Hu Hq Hp Ha Ht Hpl|D u dk name Hu
    |D u dk a r i b cursor n m w out Hu Hro Et Hi Hm Hm' Hn Hk E|D u dk w Hu Hqe
    |D u dk payload up msg name Hu Hup Hm|D cmd q doc ds out Hq Hw Hp
    |D u dk payload down c d os w out text Hu Hdown Hrec E Hf Hc Ew|D u dk payload down c d os name Hu Hdown E Hf|D].
  - split; [|apply rtc_once; by apply desk_open_net].
    apply desks_ok_insert; [|done]. destruct Ha as (_ & _ & A3). split_and!; cbn; [apply new_EditorWindow_ok| |done].
    apply new_EditorWindow_sync; [congruence|done].
  - split; [by apply desks_ok_delete|]. apply rtc_once. unfold net_of. cbn. rewrite fmap_delete.
    by eapply (net_close (net_of D)), net_client.
  - destruct (desk_edit_net D u dk a r i b cursor n m w out Hu (Hok u dk Hu) Et Hi Hm Hm' Hn Hk E) as [H1 H2].
    split; [by apply desks_ok_insert|done].
  - destruct (Hok u dk Hu) as (Hw & Hs & Hp). split.
    + apply desks_ok_insert; [|done].
      destruct (quiet_sync _ _ (dk_text dk) Hqe) as [out Hsy].
      destruct (SyncStep_sync _ _ _ Hsy) as [H1 H2]; [done..|]. by split_and!.
    + destruct (quiet_same _ _ Hqe) as [E1 E2]. rewrite (net_of_same _ _ dk); [done|done|].
      unfold client_of. cbn. by rewrite E1, E2.
  - split; [apply desks_ok_insert; [by destruct (Hok u dk Hu)|done]|]. apply rtc_once. unfold net_of. cbn. rewrite fmap_insert.
    by apply (net_submit (net_of D) u (client_of dk) payload up msg name); [apply net_client|..].
  - split.
    + intros u dk (dk0 & <- & Hu)%lookup_fmap_Some. apply (Hok u dk0 Hu).
    + apply rtc_once. unfold net_of at 2. cbn [dn_doc dn_ds dn_desks].
      assert (client_of <$> (deliver_desk out <$> dn_desks D) = deliver_to out <$> net_clients (net_of D)) as ->.
      { cbn. by rewrite <- !map_fmap_compose. }
      by apply (net_take (net_of D) cmd q).
  - destruct (desk_receive_net D u dk payload down c d os w out text Hu (Hok u dk Hu) Hdown Hrec E Hf Hc Ew) as [H1 H2].
    split; [by apply desks_ok_insert|by apply rtc_once].
  - split; [by apply desks_ok_delete|]. apply rtc_once. unfold net_of. cbn. rewrite fmap_delete.
    by apply (net_fatal (net_of D) u (client_of dk) payload down c d os); [apply net_client|..].
  - split; [done|]. apply rtc_once, (net_saved (net_of D)).
Qed.

Lemma desk_steps_net d D : rtc DeskStep (desks_init d) D -> desks_ok D /\ rtc NetStep (net_init d) (net_of D).
Proof.
  intros Hs. refine (rtc_preserved _ (fun D => desks_ok D /\ rtc NetStep (net_init d) (net_of D)) _ _ _ Hs _).
  - intros D1 D2 [Hok Hn] St. destruct (desk_step_net _ _ Hok St) as [Hok' Hn']. split; [done|]. by etrans.
  - split; [apply map_Forall_empty|]. unfold net_of, desks_init, net_init. cbn. by rewrite fmap_empty.
Qed.
End Desks.

(** ** Properties *)

(** C3: all users see the same text, in runs without the conflicts named here. From a
    sound document nobody has open, users open and close windows and replace characters in
    editors they may write in, windows receive messages, workers queue messages and the
    document's thread takes commands, in any order, where: a window opens only when no
    operation is queued and the text is one a Qt text document keeps (no no-break space,
    carriage return or paragraph separator), and so is what is typed; a received operation
    meets its client's queue without a tie of one user, a hollow delete or an overflow
    ([receivable]) and becomes edits on whole characters ([EditChain]); texts stay below 2
    GiB, revisions are not used up and nothing throws. Then in every state each editor
    shows, in UTF-8, the local document its controller works on. And when no operation
    waits and all channels are empty, every editor shows the server's document and every
    status bar says it is synchronized. *)
Theorem all_editors_show_one_text {Q : Qt} {LQ : QtLaws Q} {J : Json} {L : JsonLaws J} d D :
  sound d -> rtc DeskStep (desks_init d) D ->
  map_Forall (fun _ dk =>
    toUtf8 (ew_document (wn_editor (dk_window dk))) = ld_content (wn_local_doc (dk_window dk))) (dn_desks D)
  /\ (calm (net_of D) -> map_Forall (fun _ dk =>
       ew_document (wn_editor (dk_window dk)) = fromUtf8 (doc_content (dn_doc D))
       /\ label_text (sb_state (wn_status (dk_window dk))) = TextOf (qliteral "SYN")) (dn_desks D)).
Proof.
  intros Hd Hs. destruct (desk_steps_net d D Hs) as [Hok Hn]. split.
  - intros u dk Hu. destruct (Hok u dk Hu) as (_ & [(_ & _ & Hdoc) Hl] & Hp).
    rewrite Hdoc, Hl. by apply qt_toUtf8, plain_scalar.
  - intros Hc u dk Hu. destruct (Hok u dk Hu) as (Hw & [(_ & _ & Hdoc) Hl] & Hp).
    assert (net_ok (net_of D)) as Hnet.
    { by apply (rtc_preserved _ net_ok _ _ net_step_ok Hn), net_init_ok. }
    destruct (net_ok_calm _ Hnet Hc u (client_of dk) (net_client _ _ _ Hu)) as (T1 & _ & T3). cbn in T1, T3. split.
    + rewrite <- T1, Hl, Hdoc, qt_fromUtf8; [done|by apply plain_scalar].
    + rewrite (so_state _ _ _ (wk_shown _ Hw)). cbn. by rewrite T3.
Qed.

(** ** Running the system

    The steps as a function, for concrete runs. The characters a text is split into at an
    edit are given. *)
Abbreviation Split := (list Z * list Z * list Z * list Z)%type.
Inductive DeskMove :=
| DOpen (u p : Z) (name : string) (text : list Z)
| DEdit (u : Z) (s : Split)
| DSubmit (u : Z) (name : string)
| DTake
| DReceive (u : Z) (splits : list Split).

Section Play.
Context {Q : Qt} {LQ : QtLaws Q} {J : Json} {L : JsonLaws J}.

#[local] Instance small_dec text : Decision (small text).
Proof. unfold small. apply _. Defined.
#[local] Instance edits_dec op a r i b : Decision (edits op a r i b).
Proof. unfold edits. destruct (op_type op); apply _. Defined.
#[local] Instance change_size_dec n r b : Decision (change_size n r b).
Proof. unfold change_size. apply _. Defined.

Fixpoint check_chain (ops : list Operation) (splits : list Split) (text : list Z) : option (list Z) :=
  match ops, splits with
  | [], [] => Some text
  | op :: ops, (a, r, i, b) :: splits =>
      guard (text = a ++ r ++ b /\ edits op a r i b /\ Forall scalar (a ++ r ++ b) /\ Forall plain i
             /\ small (a ++ r ++ b) /\ small (a ++ i ++ b));;
      check_chain ops splits (a ++ i ++ b)
  | _, _ => None
  end.
Lemma check_chain_ok ops splits text text' : check_chain ops splits text = Some text' -> EditChain ops text text'.
Proof.
  revert splits text. induction ops as [|op ops IH]; intros [|[[[a r] i] b] splits] text; cbn; try done.
  - intros [= <-]. constructor.
  - intros ((-> & H1 & H2 & H3 & H4 & H5) & _ & H)%bind_Some. econstructor; eauto.
Qed.

Definition answer_to (d : Document) : DocJoinResponseMsg :=
  mkDocJoinResponseMsg true (doc_id d) (doc_title d) (doc_content d) (doc_revision d) "editor" [] "".

Definition play_desk (D : Desks) (mv : DeskMove) : option Desks :=
  match mv with
  | DOpen u p name text =>
      guard (dn_desks D !! u = None /\ is_u32 u
        /\ Forall (fun cmd => ~ is_operation cmd) (ds_command_queue (dn_ds D))
        /\ map_Forall (fun v w => cu_session w = p -> v = u)
             (users_after (ds_connected_users (dn_ds D)) (ds_command_queue (dn_ds D)))
        /\ doc_content (dn_doc D) = utf8 text /\ Forall plain text);;
      Some (mkDesks (dn_doc D) (enqueue_command (dn_ds D) (mkDocCommand CmdJoin no_operation u name "" p))
              (<[u := mkDesk (new_EditorWindow u (fromUtf8 name) (answer_to (dn_doc D))) text p [] []
                        (doc_content (dn_doc D))]> (dn_desks D)))
  | DEdit u (a, r, i, b) =>
      dk ← dn_desks D !! u;
      let n := qsize (utf16 r) in
      let m := qsize (utf16 i) in
      guard (ew_read_only (wn_editor (dk_window dk)) = false /\ dk_text dk = a ++ r ++ b /\ Forall plain i
        /\ small (a ++ r ++ b) /\ small (a ++ i ++ b) /\ change_size n r b /\ change_size m i b);;
      '(w, out) ← edited (dk_window dk) (utf16 (a ++ i ++ b)) (0, 0) (qsize (utf16 a)) n m;
      Some (with_desk D u (mkDesk w (a ++ i ++ b) (dk_session dk) (dk_up dk ++ sent_by out) (dk_down dk) (dk_base dk)))
  | DSubmit u name =>
      dk ← dn_desks D !! u;
      match dk_up dk with
      | [] => None
      | payload :: up =>
          msg ← parse_as from_json_OperationMsg payload;
          Some (mkDesks (dn_doc D)
                  (foldl enqueue_command (dn_ds D) (command_of_entry u name (opm_revision msg) <$> opm_ops msg))
                  (<[u := mkDesk (dk_window dk) (dk_text dk) (dk_session dk) up (dk_down dk) (dk_base dk)]> (dn_desks D)))
      end
  | DTake =>
      match ds_command_queue (dn_ds D) with
      | [] => None
      | cmd :: q =>
          guard (doc_revision (dn_doc D) + 1 < u32_mod);;
          '(doc, ds, out) ← process_command (dn_doc D) (mkDocumentSession q (ds_connected_users (dn_ds D))) cmd;
          Some (mkDesks doc ds (deliver_desk out <$> dn_desks D))
      end
  | DReceive u splits =>
      dk ← dn_desks D !! u;
      match dk_down dk with
      | [] => None
      | payload :: down =>
          guard (receivable (client_sys (net_of D) (client_of dk)) payload);;
          '(c, d, os) ← OTController.onNetworkMessage (wn_ot (dk_window dk)) (wn_local_doc (dk_window dk)) payload;
          guard (fatal os = false);;
          text ← check_chain (applied os) splits (dk_text dk);
          '(w, out) ← onNetworkMessage (dk_window dk) payload;
          Some (with_desk D u (mkDesk w text (dk_session dk) (dk_up dk ++ sent_by out) down
                                 (next_base (client_sys (net_of D) (client_of dk)) payload)))
      end
  end.

Lemma play_desk_step D mv D' : play_desk D mv = Some D' -> DeskStep D D'.
Proof.
  destruct mv as [u p name text|u [[[a r] i] b]|u name| |u splits]; cbn [play_desk].
  - intros ((H1 & H2 & H3 & H4 & H5 & H6) & _ & [= <-])%bind_Some. by apply desk_open.
  - intros (dk & Hu & ((H1 & H2 & H3 & H4 & H5 & H6 & H7) & _ & ([w out] & E & [= <-])%bind_Some)%bind_Some)%bind_Some.
    by eapply desk_edit.
  - intros (dk & Hu & H)%bind_Some. destruct (dk_up dk) as [|payload up] eqn:Eup; [done|].
    apply bind_Some in H as (msg & Hm & [= <-]). by eapply desk_submit.
  - destruct (ds_command_queue (dn_ds D)) as [|cmd q] eqn:Eq; [done|].
    intros (Hg & _ & ([[doc ds] out] & Hp & [= <-])%bind_Some)%bind_Some. by eapply desk_take.
  - intros (dk & Hu & H)%bind_Some. destruct (dk_down dk) as [|payload down] eqn:Edown; [done|].
    apply bind_Some in H as (Hg & _ & ([[c d] os] & E & (Hf & _ & (text & Hc & ([w out] & Ew & [= <-])%bind_Some)%bind_Some)%bind_Some)%bind_Some).
    eapply desk_receive; eauto using check_chain_ok.
Qed.

Fixpoint play_desks (mvs : list DeskMove) (D : Desks) : option Desks :=
  match mvs with [] => Some D | mv :: mvs => D ← play_desk D mv; play_desks mvs D end.
Lemma play_desks_reachable mvs D D' : play_desks mvs D = Some D' -> rtc DeskStep D D'.
Proof.
  revert D. induction mvs as [|mv mvs IH]; intros D; cbn [play_desks]; [by intros [= ->]|].
  intros (D1 & H & Hs)%bind_Some. eapply rtc_l; [by eapply play_desk_step|by apply IH].
Qed.
End Play.

(** Users 1 and 2 open the text AB; user 1 types é at its start while user 2 replaces B by
    two characters. *)
Definition two_editors_type : list DeskMove :=
  [DOpen 1 10 "ann" [65; 66]; DOpen 2 20 "bob" [65; 66]; DTake; DTake;
   DEdit 1 ([], [], [233], [65; 66]); DEdit 2 ([65], [66], [121; 122], []);
   DSubmit 2 "bob"; DSubmit 1 "ann"; DTake; DTake;
   DReceive 1 []; DReceive 1 [([233; 65], [66], [], [])]; DReceive 1 [];
   DReceive 2 []; DSubmit 2 "bob"; DTake; DReceive 2 [([], [], [233], [65; 121; 122])]; DReceive 2 [];
   DReceive 1 [([233; 65], [], [121; 122], [])]].

Lemma two_editors_type_runs :
  match play_desks (Q := qt_basic) (J := json_tree) two_editors_type (desks_init (doc_init 7 "t" "AB")) with
  | Some D => bool_decide (calm (net_of D)) && bool_decide (dom (dn_desks D) = {[ 1; 2 ]})
              && bool_decide (fromUtf8 (Qt := qt_basic) (doc_content (dn_doc D)) = [233; 65; 121; 122])
  | None => false
  end = true.
Proof. vm_compute. reflexivity. Qed.

Lemma all_editors_show_one_text_witness :
  exists D, rtc (DeskStep (Q := qt_basic) (J := json_tree)) (desks_init (doc_init 7 "t" "AB")) D
  /\ dom (dn_desks D) = {[ 1; 2 ]}
  /\ map_Forall (fun _ dk => ew_document (wn_editor (dk_window dk)) = [233; 65; 121; 122]) (dn_desks D).
Proof.
  pose proof two_editors_type_runs as H.
  destruct (play_desks (Q := qt_basic) two_editors_type _) as [D|] eqn:Hs; [|discriminate H].
  apply play_desks_reachable in Hs. apply andb_prop in H as [[Hc Hd]%andb_prop Ht].
  apply bool_decide_eq_true in Hc, Hd, Ht. exists D. split; [exact Hs|]. split; [exact Hd|].
  assert (sound (doc_init 7 "t" "AB")) as H0.
  { split; [decide_now|]. exists (mkDocLog "AB" []). split; [apply refines_init|constructor]. }
  intros u dk Hu.
  destruct (all_editors_show_one_text (Q := qt_basic) (L := json_tree_laws) _ D H0 Hs) as [_ H].
  rewrite <- Ht. exact (proj1 (H Hc u dk Hu)).
Defined.
