(* ===== verification/DocumentListWindow.v ===== *)
(** * The window of the documents (client/src/document_list_window.cpp)

    The window shows the documents of the user and asks the server to open one. A slot
    returns the window with what it emits, in order; [None] is an exception out of
    [dump]. Other slots run while a message box is open: opening one is an output, and
    the code that follows it in the slot is pushed on [dl_waiting] and run by
    [box_closed]. What the user enters in an input dialog is an argument. *)
From S2P Require Import Prelude ByteString Json Protocol Codec MessageHandler Frames Qt Widgets.
Local Open Scope Z_scope.

Section Documents.
Context {Q : Qt} {J : Json}.

(** The card of a document. *)
Record DocCard := mkDocCard {
  card_title : QString;
  card_id : Text;
  card_role : QLabel;
  card_online : QLabel;
}.
Definition makeDocCard (e : DocListEntry) : DocCard :=
  let role := fromUtf8 (dle_role e) in
  mkDocCard (fromUtf8 (dle_title e)) (Tr "#%1" [ArgNumber (dle_docId e)])
    (makeBadge (TextOf role) (roleColor role))
    (makeBadge (Tr "online %1" [ArgNumber (dle_onlineCount e)]) (toColor (qliteral "#2e7d32"))).

(** What a slot does when the box it opened is closed. *)
Inductive AfterBox := ThenNothing | ThenRefresh | ThenClose | ThenDelete (id : Z).

Inductive ListOutput :=
| ListSend (payload : string)
| ListBox (kind : BoxKind) (title body : Text)
| SigDocumentJoined (response : DocJoinResponseMsg).

Record DocumentListWindow := mkDocumentListWindow {
  dl_items : list (Z * DocCard);          (* the items: Qt::UserRole and the card *)
  dl_current : option nat;                (* list_->currentItem() *)
  dl_status : Text;
  dl_pending_join_doc_id : Z;
  dl_waiting : list AfterBox;             (* innermost box first *)
  dl_closed : bool;
}.
Abbreviation Result := (option (DocumentListWindow * list ListOutput)).

Definition with_status (w : DocumentListWindow) (t : Text) : DocumentListWindow :=
  mkDocumentListWindow (dl_items w) (dl_current w) t (dl_pending_join_doc_id w) (dl_waiting w) (dl_closed w).
Definition with_pending (w : DocumentListWindow) (id : Z) : DocumentListWindow :=
  mkDocumentListWindow (dl_items w) (dl_current w) (dl_status w) id (dl_waiting w) (dl_closed w).
Definition with_waiting (w : DocumentListWindow) (l : list AfterBox) : DocumentListWindow :=
  mkDocumentListWindow (dl_items w) (dl_current w) (dl_status w) (dl_pending_join_doc_id w) l (dl_closed w).

(** A message box is opened; [k] is what follows it. *)
Definition open_box (w : DocumentListWindow) (kind : BoxKind) (title body : Text) (k : AfterBox)
    : DocumentListWindow * list ListOutput :=
  (with_waiting w (k :: dl_waiting w), [ListBox kind title body]).

Definition selectedDocId (w : DocumentListWindow) : option Z :=
  row ← dl_current w; fst <$> dl_items w !! row.

Definition refresh (w : DocumentListWindow) : Result :=
  payload ← encode_doc_list_request;
  Some (with_status w (Tr "Refreshing…" []), [ListSend payload]).

Definition new_DocumentListWindow : Result :=
  refresh (mkDocumentListWindow [] None (Tr "Loading…" []) 0 [] false).

(** [promptForText]: what the dialog gives, empty when it was cancelled. *)
Definition promptForText (text : QString) (ok : bool) : QString :=
  let text := trimmed text in if ok then text else [].

Definition onNewClicked (w : DocumentListWindow) (text : QString) (ok : bool) : Result :=
  let title := promptForText text ok in
  if bool_decide (title = []) then Some (w, [])
  else
    payload ← encode_doc_create_request (toUtf8 title);
    Some (with_status w (Tr ("Creating " +:+ String "034" "%1" +:+ String "034" "…") [ArgString title]), [ListSend payload]).

Definition requestJoin (w : DocumentListWindow) (docId : Z) : Result :=
  if negb (dl_pending_join_doc_id w =? 0) then Some (w, [])
  else
    let w := with_pending w docId in
    let w := with_status w (Tr "Opening document #%1…" [ArgNumber docId]) in
    payload ← encode_doc_join_request docId;
    Some (w, [ListSend payload]).

Definition onOpenClicked (w : DocumentListWindow) : Result :=
  match selectedDocId w with Some id => requestJoin w id | None => Some (w, []) end.

Definition onDeleteClicked (w : DocumentListWindow) : DocumentListWindow * list ListOutput :=
  match selectedDocId w with
  | None => (w, [])
  | Some id =>
      open_box w BoxQuestion (Tr "Delete document" [])
        (Tr "Delete document #%1? This cannot be undone." [ArgNumber id]) (ThenDelete id)
  end.

Definition onShareClicked (w : DocumentListWindow) (text : QString) (ok : bool) : Result :=
  match selectedDocId w with
  | None => Some (open_box w BoxInformation (Tr "Share" []) (Tr "Select a document first." []) ThenNothing)
  | Some id =>
      let target := promptForText text ok in
      if bool_decide (target = []) then Some (w, [])
      else
        payload ← encode_doc_share_request id (toUtf8 target) "editor";
        Some (with_status w (Tr "Shared document #%1 with %2" [ArgNumber id; ArgString target]), [ListSend payload])
  end.

Definition onDisconnected (w : DocumentListWindow) (reason : QString) : DocumentListWindow * list ListOutput :=
  open_box w BoxInformation (Tr "Connection lost" [])
    (Tr "Lost connection to server: %1" [ArgString reason]) ThenClose.

(** The innermost box is closed, with [yes] as its answer. *)
Definition box_closed (w : DocumentListWindow) (yes : bool) : Result :=
  match dl_waiting w with
  | [] => Some (w, [])
  | k :: l =>
      let w := with_waiting w l in
      match k with
      | ThenNothing => Some (w, [])
      | ThenRefresh => refresh w
      | ThenClose => Some (mkDocumentListWindow (dl_items w) (dl_current w) (dl_status w)
                             (dl_pending_join_doc_id w) (dl_waiting w) true, [])
      | ThenDelete id =>
          if yes then payload ← encode_doc_delete_request id; Some (w, [ListSend payload]) else Some (w, [])
      end
  end.

(** ** Messages *)

Definition applyDocList (w : DocumentListWindow) (msg : DocListResponseMsg) : DocumentListWindow :=
  mkDocumentListWindow ((fun e => (dle_docId e, makeDocCard e)) <$> dlm_documents msg) None
    (match dlm_documents msg with
     | [] => Tr "No documents yet. Create your first one." []
     | docs => Tr "%1 document(s)." [ArgNumber (Z.of_nat (length docs))]
     end) (dl_pending_join_doc_id w) (dl_waiting w) (dl_closed w).

Definition handleDocListResponse (w : DocumentListWindow) (payload : string) : DocumentListWindow :=
  match parse_as from_json_DocListResponseMsg payload with
  | Some msg => applyDocList w msg
  | None => w
  end.

Definition handleDocCreateResponse (w : DocumentListWindow) (payload : string) : Result :=
  match parse_as from_json_DocCreateResponseMsg payload with
  | None => Some (w, [])
  | Some msg =>
      if negb (dcm_success msg) then
        Some (open_box w BoxWarning (Tr "Create failed" []) (Tr "Could not create the document." []) ThenRefresh)
      else
        '(w, out) ← refresh w;
        '(w, out') ← requestJoin w (dcm_docId msg);
        Some (w, out ++ out')
  end.

Definition handleDocJoinResponse (w : DocumentListWindow) (payload : string)
    : DocumentListWindow * list ListOutput :=
  match parse_as from_json_DocJoinResponseMsg payload with
  | None => (w, [])
  | Some msg =>
      if negb (dl_pending_join_doc_id w =? 0) && negb (djm_docId msg =? dl_pending_join_doc_id w) then (w, [])
      else
        let w := with_pending w 0 in
        if negb (djm_success msg) then
          open_box w BoxWarning (Tr "Join failed" [])
            (Tr "Could not open document (%1)." [ArgString (fromUtf8 (djm_error msg))]) ThenNothing
        else (w, [SigDocumentJoined msg])
  end.

Definition handleErrorMessage (w : DocumentListWindow) (payload : string) : DocumentListWindow :=
  let w := match parse_as from_json_ErrorMsg payload with
           | Some err => with_status w (TextOf (fromUtf8 (em_message err)))
           | None => w
           end in
  with_pending w 0.

Definition onMessageReceived (w : DocumentListWindow) (payload : string) : Result :=
  match fst (parse_envelope payload) with
  | MtDocListResponse => Some (handleDocListResponse w payload, [])
  | MtDocCreateResponse => handleDocCreateResponse w payload
  | MtDocJoinResponse => Some (handleDocJoinResponse w payload)
  | MtError => Some (handleErrorMessage w payload, [])
  | MtDocDeleteResponse | MtDocShareResponse | MtRoleChanged | MtDocDeleted | MtUserJoined | MtUserLeft => refresh w
  | _ => Some (w, [])
  end.

(** ** Steps *)

Inductive ListEvent :=
| EvMessage (payload : string)
| EvNew (text : QString) (ok : bool) | EvOpen | EvDelete | EvShare (text : QString) (ok : bool)
| EvRefresh | EvSelect (row : option nat) | EvBoxClosed (yes : bool) | EvDisconnected (reason : QString).

Definition list_event (w : DocumentListWindow) (e : ListEvent) : Result :=
  match e with
  | EvMessage payload => onMessageReceived w payload
  | EvNew text ok => onNewClicked w text ok
  | EvOpen => onOpenClicked w
  | EvDelete => Some (onDeleteClicked w)
  | EvShare text ok => onShareClicked w text ok
  | EvRefresh => refresh w
  | EvSelect row => Some (mkDocumentListWindow (dl_items w) row (dl_status w) (dl_pending_join_doc_id w)
                            (dl_waiting w) (dl_closed w), [])
  | EvBoxClosed yes => box_closed w yes
  | EvDisconnected reason => Some (onDisconnected w reason)
  end.

(** A sequence of events, with everything emitted. *)
Fixpoint list_events (w : DocumentListWindow) (es : list ListEvent) : Result :=
  match es with
  | [] => Some (w, [])
  | e :: es =>
      '(w, out) ← list_event w e;
      '(w, out') ← list_events w es;
      Some (w, out ++ out')
  end.
End Documents.

(** ** Lemmas *)

(** [no_sig] finishes a case in which nothing is opened. *)
Ltac no_sig :=
  exfalso; unfold open_box in *;
  repeat match goal with
  | H : Some _ = Some _ |- _ => injection H; clear H; intros; subst
  | H : (_, _) = (_, _) |- _ => injection H as <- <-
  | H : _ ∈ _ ++ _ |- _ => apply elem_of_app in H as [H|H]
  | H : _ ∈ _ :: _ |- _ => apply elem_of_cons in H as [H|H]; [discriminate H|]
  | H : _ ∈ [] |- _ => by apply elem_of_nil in H
  end.

Section DocumentFacts.
Context {Q : Qt} {J : Json} {L : JsonLaws J}.

Lemma client_payload_type m payload :
  serialize (client_json m) = Some payload -> fst (parse_envelope payload) = client_type m.
Proof.
  unfold serialize. intros Hd%json_parse_dump.
  rewrite (parse_envelope_typed payload (client_json m) (client_type m)); [done|done| |apply client_json_type].
  by destruct m.
Qed.

(** An output that does not take up a join. *)
Definition no_join (o : ListOutput) : Prop :=
  match o with
  | ListSend payload => fst (parse_envelope payload) <> MtDocJoinRequest
  | ListBox _ title _ => title <> Tr "Join failed" []
  | SigDocumentJoined _ => False
  end.

Lemma refresh_spec w w' out : refresh w = Some (w', out) ->
  dl_pending_join_doc_id w' = dl_pending_join_doc_id w /\ Forall no_join out.
Proof.
  intros (payload & E & [= <- <-])%bind_Some. split; [done|]. repeat constructor. cbn.
  by rewrite (client_payload_type CDocList payload E).
Qed.

(** An event that is no answer to the join of [p]: not an error message, and not a join
    response that names [p]. *)
Definition no_answer (p : Z) (e : ListEvent) : Prop :=
  match e with
  | EvMessage payload =>
      fst (parse_envelope payload) <> MtError
      /\ forall m, fst (parse_envelope payload) = MtDocJoinResponse ->
                   parse_as from_json_DocJoinResponseMsg payload = Some m -> djm_docId m <> p
  | _ => True
  end.

Lemma blocked_join w id : dl_pending_join_doc_id w <> 0 -> requestJoin w id = Some (w, []).
Proof. intros H%Z.eqb_neq. unfold requestJoin. by rewrite H. Qed.

Ltac quiet := split; [done|repeat constructor; cbn; try discriminate].

Lemma event_blocked p w e w' out :
  dl_pending_join_doc_id w = p -> p <> 0 -> no_answer p e -> list_event w e = Some (w', out) ->
  dl_pending_join_doc_id w' = p /\ Forall no_join out.
Proof.
  intros Hw Hp He E. assert (Hp' : dl_pending_join_doc_id w <> 0) by congruence.
  destruct e as [payload|text ok| | |text ok| |row|yes|reason]; cbn in He, E.
  - destruct He as [He1 He2]. unfold onMessageReceived in E.
    destruct (fst (parse_envelope payload)) eqn:Et; try done;
      try (by injection E as <- <-); try (by apply refresh_spec in E as [E1 E2]; rewrite E1).
    + injection E as <- <-. unfold handleDocListResponse. by destruct (parse_as from_json_DocListResponseMsg payload).
    + unfold handleDocCreateResponse in E. destruct (parse_as from_json_DocCreateResponseMsg payload) as [msg|]; [|by injection E as <- <-].
      destruct (dcm_success msg); cbn in E; [|by injection E as <- <-; quiet].
      apply bind_Some in E as ([w1 out1] & [E1 E2]%refresh_spec & E).
      rewrite blocked_join in E by congruence. cbn in E. injection E as <- <-. rewrite app_nil_r. by rewrite E1.
    + injection E as E. unfold handleDocJoinResponse in E.
      destruct (parse_as from_json_DocJoinResponseMsg payload) as [msg|] eqn:Em; [|by injection E as <- <-].
      rewrite (proj2 (Z.eqb_neq _ _) Hp'), (proj2 (Z.eqb_neq _ _)) in E by (rewrite Hw; by apply He2).
      by injection E as <- <-.
  - unfold onNewClicked in E. case_bool_decide; [by injection E as <- <-|].
    apply bind_Some in E as (payload & E & [= <- <-]). split; [done|]. repeat constructor. cbn.
    by rewrite (client_payload_type (CDocCreate (mkDocCreateRequestMsg _)) payload E).
  - unfold onOpenClicked in E. destruct (selectedDocId w); [rewrite blocked_join in E by done|]; by injection E as <- <-.
  - injection E as E. unfold onDeleteClicked in E. destruct (selectedDocId w); injection E as <- <-; [|done].
    quiet.
  - unfold onShareClicked in E. destruct (selectedDocId w) as [id|]; [|by injection E as <- <-; quiet].
    case_bool_decide; [by injection E as <- <-|].
    apply bind_Some in E as (payload & E & [= <- <-]). split; [done|]. repeat constructor. cbn.
    by rewrite (client_payload_type (CDocShare (mkDocShareRequestMsg _ _ _)) payload E).
  - apply refresh_spec in E as [E1 E2]. by rewrite E1.
  - by injection E as <- <-.
  - unfold box_closed in E. destruct (dl_waiting w) as [|[] l]; try (by injection E as <- <-).
    + apply refresh_spec in E as [E1 E2]. by rewrite E1.
    + destruct yes; [|by injection E as <- <-]. apply bind_Some in E as (payload & E & [= <- <-]).
      split; [done|]. repeat constructor. cbn.
      by rewrite (client_payload_type (CDocDelete (mkDocDeleteRequestMsg _)) payload E).
  - injection E as <- <-. quiet.
Qed.

(** Only a join response opens a document. *)
Lemma refresh_no_sig w w' out resp : refresh w = Some (w', out) -> SigDocumentJoined resp ∉ out.
Proof. intros (payload & E & [= <- <-])%bind_Some Hin. no_sig. Qed.
Lemma requestJoin_no_sig w id w' out resp : requestJoin w id = Some (w', out) -> SigDocumentJoined resp ∉ out.
Proof.
  unfold requestJoin. destruct (negb _); [intros [= <- <-] Hin; no_sig|].
  intros (payload & E & [= <- <-])%bind_Some Hin. no_sig.
Qed.

Lemma event_joined resp w e w' out :
  list_event w e = Some (w', out) -> SigDocumentJoined resp ∈ out ->
  exists payload, e = EvMessage payload /\ handleDocJoinResponse w payload = (w', out).
Proof.
  intros E Hin. destruct e as [payload|text ok| | |text ok| |row|yes|reason]; cbn in E.
  - unfold onMessageReceived in E. destruct (fst (parse_envelope payload)); try (no_sig; fail);
      try (exfalso; by eapply refresh_no_sig).
    + unfold handleDocCreateResponse in E. destruct (parse_as from_json_DocCreateResponseMsg payload) as [msg|]; [|no_sig].
      destruct (dcm_success msg); cbn in E; [|no_sig].
      apply bind_Some in E as ([w1 out1] & E1 & E). apply bind_Some in E as ([w2 out2] & E2 & [= <- <-]).
      apply elem_of_app in Hin as [Hin|Hin]; exfalso; [by eapply refresh_no_sig|by eapply requestJoin_no_sig].
    + exists payload. split; [done|]. by injection E.
  - unfold onNewClicked in E. case_bool_decide; [no_sig|]. apply bind_Some in E as (payload & _ & E). no_sig.
  - unfold onOpenClicked in E. destruct (selectedDocId w); [|no_sig]. exfalso. by eapply requestJoin_no_sig.
  - unfold onDeleteClicked, open_box in E. destruct (selectedDocId w); no_sig.
  - unfold onShareClicked, open_box in E. destruct (selectedDocId w); [|no_sig].
    case_bool_decide; [no_sig|]. apply bind_Some in E as (payload & _ & E). no_sig.
  - exfalso. by eapply refresh_no_sig.
  - no_sig.
  - unfold box_closed in E. destruct (dl_waiting w) as [|[] l]; try (no_sig; fail); [exfalso; by eapply refresh_no_sig|].
    destruct yes; [|no_sig]. apply bind_Some in E as (payload & _ & E). no_sig.
  - unfold onDisconnected, open_box in E. no_sig.
Qed.

Lemma events_blocked p w es w' out :
  dl_pending_join_doc_id w = p -> p <> 0 -> Forall (no_answer p) es -> list_events w es = Some (w', out) ->
  dl_pending_join_doc_id w' = p /\ Forall no_join out.
Proof.
  intros Hw Hp Hes. revert w w' out Hw. induction Hes as [|e es He _ IH]; intros w w' out Hw E.
  - by injection E as <- <-.
  - cbn in E. apply bind_Some in E as ([w1 out1] & E1 & E). apply bind_Some in E as ([w2 out2] & E2 & [= <- <-]).
    apply (event_blocked p) in E1 as [H1 H1']; [|done..]. apply IH in E2 as [H2 H2']; [|done].
    split; [done|]. by apply Forall_app.
Qed.
End DocumentFacts.

(** ** Properties *)

(** A refused join is never noticed. The answer the server writes when it refuses a
    join carries no document id, and the window takes it for the answer to another join.
    While a join of [p] is pending, such an answer and everything else but an error
    message or a join response that names [p] leaves the join pending: whatever the user
    does, no message about the failure is shown, no document is opened and no join request
    is sent again. *)
Theorem refused_join_blocks_window {Q : Qt} {J : Json} {L : JsonLaws J} p w es w' out :
  dl_pending_join_doc_id w = p -> p <> 0 ->
  Forall (fun e => no_answer p e
          \/ exists error payload, serialize (to_json_DocJoinResponseMsg (join_failure error)) = Some payload
                                   /\ e = EvMessage payload) es ->
  list_events w es = Some (w', out) ->
  dl_pending_join_doc_id w' = p /\ Forall no_join out.
Proof.
  intros Hw Hp Hes. apply (events_blocked p w es); [done..|]. eapply Forall_impl; [exact Hes|].
  intros e [He|(error & payload & Hs & ->)]; [done|]. cbn.
  assert (server_wf (SDocJoin (join_failure error))) as Hwf by (cbn; split_and!; done || constructor).
  destruct (server_read_back (SDocJoin (join_failure error)) payload Hwf Hs) as [Ht Hr].
  rewrite Ht. split; [done|]. intros m _ Hm.
  apply (parse_as_fmap SDocJoin) in Hr; [|by intros ? ? [= ->]]. rewrite Hr in Hm. injection Hm as <-.
  cbn. congruence.
Qed.

Lemma refused_join_blocks_window_witness :
  let w := mkDocumentListWindow [] None (Tr "" []) 5 [] false in
  let refusal := pos_text (encode (to_json_DocJoinResponseMsg (J := json_tree) (join_failure "access_denied") : JsonTree)) in
  exists w' out, list_events (Q := qt_basic) (J := json_tree) w [EvMessage refusal; EvOpen] = Some (w', out)
    /\ dl_pending_join_doc_id w' = 5 /\ Forall (no_join (J := json_tree)) out.
Proof.
  intros w refusal.
  destruct (list_events (Q := qt_basic) (J := json_tree) w [EvMessage refusal; EvOpen]) as [[w' out]|] eqn:E;
    [|vm_compute in E; discriminate E].
  exists w', out. split; [reflexivity|].
  refine (refused_join_blocks_window (Q := qt_basic) (J := json_tree) (L := json_tree_laws) 5 w
            [EvMessage refusal; EvOpen] w' out _ _ _ E); [reflexivity|done|].
  constructor; [right; by exists "access_denied"%string, refusal|]. constructor; [by left|constructor].
Defined.

(** The document that is selected is the one that is opened. After the server's list,
    the row the user selects and opens asks for that entry's document, and the server's
    answer opens a window on what it holds; the next document can then be opened. *)
Theorem opens_selected_document {Q : Qt} {J : Json} {L : JsonLaws J} w docs payload i e req resp payload' :
  dl_pending_join_doc_id w = 0 ->
  server_wf (SDocList docs) -> serialize (to_json_DocListResponseMsg docs) = Some payload ->
  dlm_documents docs !! i = Some e -> encode_doc_join_request (dle_docId e) = Some req ->
  server_wf (SDocJoin resp) -> serialize (to_json_DocJoinResponseMsg resp) = Some payload' ->
  djm_success resp = true -> djm_docId resp = dle_docId e ->
  exists w', list_events w [EvMessage payload; EvSelect (Some i); EvOpen; EvMessage payload']
             = Some (w', [ListSend req; SigDocumentJoined resp])
  /\ dl_pending_join_doc_id w' = 0 /\ (fst <$> dl_items w') = dle_docId <$> dlm_documents docs.
Proof.
  intros Hp Hd Hs Hi Hreq Hr Hs' Hok Hid.
  destruct (server_read_back (SDocList docs) payload Hd Hs) as [Ht Hm].
  destruct (server_read_back (SDocJoin resp) payload' Hr Hs') as [Ht' Hm'].
  apply (parse_as_fmap SDocList) in Hm; [|by intros ? ? [= ->]].
  apply (parse_as_fmap SDocJoin) in Hm'; [|by intros ? ? [= ->]].
  assert (list_event w (EvMessage payload) = Some (applyDocList w docs, [])) as E1.
  { cbn. unfold onMessageReceived. rewrite Ht. cbn. unfold handleDocListResponse. by rewrite Hm. }
  set (w2 := mkDocumentListWindow (dl_items (applyDocList w docs)) (Some i) (dl_status (applyDocList w docs)) 0
               (dl_waiting w) (dl_closed w)).
  set (w3 := with_status (with_pending w2 (dle_docId e)) (Tr "Opening document #%1…" [ArgNumber (dle_docId e)])).
  assert (list_event (applyDocList w docs) (EvSelect (Some i)) = Some (w2, [])) as E2 by (cbn; by rewrite Hp).
  assert (list_event w2 EvOpen = Some (w3, [ListSend req])) as E3.
  { cbn. unfold onOpenClicked, selectedDocId. cbn. rewrite list_lookup_fmap, Hi. cbn.
    unfold requestJoin. cbn. by rewrite Hreq. }
  assert (list_event w3 (EvMessage payload') = Some (with_pending w3 0, [SigDocumentJoined resp])) as E4.
  { cbn. unfold onMessageReceived. rewrite Ht'. cbn. unfold handleDocJoinResponse. rewrite Hm', Hok, Hid. cbn.
    by rewrite Z.eqb_refl, andb_false_r. }
  exists (with_pending w3 0). split; [|split; [done|by cbn; rewrite <- list_fmap_compose]].
  cbn [list_events]. rewrite E1. cbn [mbind option_bind]. rewrite E2. cbn [mbind option_bind].
  rewrite E3. cbn [mbind option_bind]. by rewrite E4.
Qed.

Lemma opens_selected_document_witness :
  let docs := mkDocListResponseMsg [mkDocListEntry 4 "a" "owner" 0; mkDocListEntry 9 "b" "viewer" 1] in
  let resp := mkDocJoinResponseMsg true 9 "b" "text" 3 "viewer" [mkUserInfo 1 "ann" "#808080"] "" in
  let text j := pos_text (encode (j : JsonTree)) in
  exists w', list_events (Q := qt_basic) (J := json_tree)
      (mkDocumentListWindow [] None (Tr "" []) 0 [] false)
      [EvMessage (text (to_json_DocListResponseMsg (J := json_tree) docs)); EvSelect (Some 1%nat); EvOpen;
       EvMessage (text (to_json_DocJoinResponseMsg (J := json_tree) resp))]
    = Some (w', [ListSend (text (to_json_DocJoinRequestMsg (J := json_tree) (mkDocJoinRequestMsg 9)));
                 SigDocumentJoined resp])
    /\ dl_pending_join_doc_id w' = 0 /\ (fst <$> dl_items w') = [4; 9].
Proof.
  intros docs resp text.
  apply (opens_selected_document (Q := qt_basic) (J := json_tree) (L := json_tree_laws) _ docs _ 1%nat
           (mkDocListEntry 9 "b" "viewer" 1) _ resp); try done.
  - cbn. repeat constructor; cbn; unfold is_u32; lia.
  - cbn. split_and!; try done. repeat constructor; cbn; unfold is_u32; lia.
Defined.

(** A document is opened only by a successful answer, and by the answer to the join
    that is pending when one is; then no join is pending any more. *)
Theorem joined_only_on_success {Q : Qt} {J : Json} w e w' out resp :
  list_event w e = Some (w', out) -> SigDocumentJoined resp ∈ out ->
  djm_success resp = true /\ dl_pending_join_doc_id w' = 0
  /\ (dl_pending_join_doc_id w <> 0 -> djm_docId resp = dl_pending_join_doc_id w).
Proof.
  intros E Hin. apply (event_joined resp) in E as (payload & -> & E); [|done].
  unfold handleDocJoinResponse in E. destruct (parse_as from_json_DocJoinResponseMsg payload) as [msg|]; [|no_sig].
  destruct (negb (dl_pending_join_doc_id w =? 0) && negb (djm_docId msg =? dl_pending_join_doc_id w)) eqn:Eb; [no_sig|].
  destruct (djm_success msg) eqn:Es; cbn in E; [|no_sig]. injection E as <- <-.
  apply list_elem_of_singleton in Hin as [= ->]. split_and!; [done|done|]. intros Hp%Z.eqb_neq.
  rewrite Hp in Eb. cbn in Eb. destruct (Z.eqb_spec (djm_docId msg) (dl_pending_join_doc_id w)); done.
Qed.

Lemma joined_only_on_success_witness :
  let resp := mkDocJoinResponseMsg true 9 "b" "text" 3 "viewer" [] "" in
  let payload := pos_text (encode (to_json_DocJoinResponseMsg (J := json_tree) resp : JsonTree)) in
  let w := mkDocumentListWindow [] None (Tr "" []) 9 [] false in
  list_event (Q := qt_basic) (J := json_tree) w (EvMessage payload)
    = Some (mkDocumentListWindow [] None (Tr "" []) 0 [] false, [SigDocumentJoined resp])
  /\ djm_success resp = true.
Proof.
  intros resp payload w.
  assert (list_event (Q := qt_basic) (J := json_tree) w (EvMessage payload)
    = Some (mkDocumentListWindow [] None (Tr "" []) 0 [] false, [SigDocumentJoined resp])) as E by reflexivity.
  split; [exact E|].
  refine (proj1 (joined_only_on_success (Q := qt_basic) (J := json_tree) w (EvMessage payload) _ _ resp E _)).
  apply list_elem_of_singleton. reflexivity.
Defined.
