(* ===== verification/ConnectionDialog.v ===== *)
(** * The connection dialog (client/src/connection_dialog.cpp)

    The dialog connects, signs in and hands the identity to the network manager. A slot
    returns the dialog with what it emits, in order; [None] is an exception out of
    [dump]. The failure box is modal to the dialog: [reportFailure] opens it, and the call
    behind it, [requestDisconnect], is made by [box_closed]. *)
From stdpp Require Import pretty.
From S2P Require Import Prelude ByteString Json Protocol Codec Frames Qt Widgets.
Local Open Scope Z_scope.

(** [static_cast<quint16>]. *)
Definition u16 (x : Z) : Z := x mod 65536.

Section Dialog.
Context {Q : Qt} {J : Json}.

Record Settings := mkSettings {
  st_lastHost : option QString;
  st_lastPort : option Z;
  st_lastUser : option QString;
}.

Inductive DialogOutput :=
| DlgConnect (host : QString) (port : Z)              (* nm_->requestConnect *)
| DlgDisconnect                                       (* nm_->requestDisconnect *)
| DlgSend (payload : string)                          (* nm_->send *)
| DlgSetIdentity (userId : Z) (username : QString)    (* nm_->setIdentity *)
| DlgPersist (settings : Settings)
| DlgBox (kind : BoxKind) (title body : Text)
| DlgAccept.

Record ConnectionDialog := mkConnectionDialog {
  cd_host_edit : QString;
  cd_port_edit : QString;
  cd_username_edit : QString;
  cd_password_edit : QString;
  cd_inputs_enabled : bool;
  cd_status : Text;
  cd_pending_action : QString;
  cd_boxes : nat;
  cd_accepted : bool;
}.
Abbreviation Result := (option (ConnectionDialog * list DialogOutput)).

Definition host (d : ConnectionDialog) : QString := trimmed (cd_host_edit d).
Definition port (d : ConnectionDialog) : Z := u16 (toUInt (cd_port_edit d)).
Definition username (d : ConnectionDialog) : QString := trimmed (cd_username_edit d).

(** The constructor, [loadSettings] included. *)
Definition new_ConnectionDialog (settings : Settings) : ConnectionDialog :=
  mkConnectionDialog
    (default (qliteral "127.0.0.1") (st_lastHost settings))
    (qliteral (pretty (default 9000 (st_lastPort settings))))
    (default (qliteral "") (st_lastUser settings))
    [] true (Tr "" []) [] 0 false.

Definition persistSettings (d : ConnectionDialog) : Settings :=
  mkSettings (Some (host d)) (Some (port d)) (Some (username d)).

Definition with_edits (d : ConnectionDialog) (h p u pw : QString) : ConnectionDialog :=
  mkConnectionDialog h p u pw (cd_inputs_enabled d) (cd_status d) (cd_pending_action d) (cd_boxes d) (cd_accepted d).
Definition with_status (d : ConnectionDialog) (t : Text) : ConnectionDialog :=
  mkConnectionDialog (cd_host_edit d) (cd_port_edit d) (cd_username_edit d) (cd_password_edit d)
    (cd_inputs_enabled d) t (cd_pending_action d) (cd_boxes d) (cd_accepted d).
Definition with_pending (d : ConnectionDialog) (a : QString) : ConnectionDialog :=
  mkConnectionDialog (cd_host_edit d) (cd_port_edit d) (cd_username_edit d) (cd_password_edit d)
    (cd_inputs_enabled d) (cd_status d) a (cd_boxes d) (cd_accepted d).
Definition with_boxes (d : ConnectionDialog) (n : nat) (accepted : bool) : ConnectionDialog :=
  mkConnectionDialog (cd_host_edit d) (cd_port_edit d) (cd_username_edit d) (cd_password_edit d)
    (cd_inputs_enabled d) (cd_status d) (cd_pending_action d) n accepted.

Definition setInputsEnabled (d : ConnectionDialog) (b : bool) : ConnectionDialog :=
  mkConnectionDialog (cd_host_edit d) (cd_port_edit d) (cd_username_edit d) (cd_password_edit d)
    b (cd_status d) (cd_pending_action d) (cd_boxes d) (cd_accepted d).

Definition reportFailure (d : ConnectionDialog) (message : Text) : ConnectionDialog * list DialogOutput :=
  let d := with_pending d [] in
  let d := setInputsEnabled d true in
  let d := with_status d message in
  (with_boxes d (S (cd_boxes d)) (cd_accepted d), [DlgBox BoxWarning (Tr "Connection failed" []) message]).

Definition box_closed (d : ConnectionDialog) : ConnectionDialog * list DialogOutput :=
  (with_boxes d (pred (cd_boxes d)) (cd_accepted d), [DlgDisconnect]).

Definition startAuth (d : ConnectionDialog) (action : QString) : ConnectionDialog * list DialogOutput :=
  if bool_decide (host d = []) || (port d =? 0) || bool_decide (username d = []) then
    reportFailure d (Tr "Host, port, and username are required." [])
  else
    let d := with_pending d action in
    let d := setInputsEnabled d false in
    let d := with_status d (Tr "Connecting to %1:%2…" [ArgString (host d); ArgNumber (port d)]) in
    (d, [DlgConnect (host d) (port d)]).
Definition onLoginClicked (d : ConnectionDialog) := startAuth d (qliteral "login").
Definition onRegisterClicked (d : ConnectionDialog) := startAuth d (qliteral "register").

Definition onConnected (d : ConnectionDialog) : Result :=
  if bool_decide (cd_pending_action d = []) then Some (d, [])
  else
    let d := with_status d (Tr "Authenticating…" []) in
    payload ← encode_auth_request (toUtf8 (cd_pending_action d)) (toUtf8 (username d)) (toUtf8 (cd_password_edit d));
    Some (d, [DlgSend payload]).

Definition onDisconnected (d : ConnectionDialog) (reason : QString) : ConnectionDialog * list DialogOutput :=
  if bool_decide (cd_pending_action d = []) then (d, [])
  else reportFailure d (Tr "Disconnected: %1" [ArgString reason]).

Definition onErrorOccurred (d : ConnectionDialog) (message : QString) : ConnectionDialog * list DialogOutput :=
  if bool_decide (cd_pending_action d = []) then (d, []) else reportFailure d (TextOf message).

Definition humanAuthError (code : QString) : Text :=
  if bool_decide (code = qliteral "invalid_credentials") then Tr "Invalid username or password." []
  else if bool_decide (code = qliteral "username_taken") then Tr "Username is already taken." []
  else Tr "Auth error: %1" [ArgString code].

Definition onMessageReceived (d : ConnectionDialog) (payload : string) : ConnectionDialog * list DialogOutput :=
  if bool_decide (cd_pending_action d = []) then (d, [])
  else if negb (bool_decide (fst (parse_envelope payload) = MtAuthResponse)) then (d, [])
  else match parse_as from_json_AuthResponseMsg payload with
  | None => reportFailure d (Tr "Malformed auth_response" [])
  | Some auth =>
      if negb (arm_success auth) then reportFailure d (humanAuthError (fromUtf8 (arm_error auth)))
      else
        let out := [DlgSetIdentity (arm_userId auth) (username d); DlgPersist (persistSettings d)] in
        let d := with_pending d [] in
        (with_boxes d (cd_boxes d) true, out ++ [DlgAccept])
  end.

(** ** Steps: the events of an open dialog

    A disabled input or button has no events, and none has while the box is open. *)
Inductive DialogStep : ConnectionDialog -> list DialogOutput -> ConnectionDialog -> Prop :=
| step_edit d h p u pw : cd_inputs_enabled d = true -> cd_boxes d = O -> DialogStep d [] (with_edits d h p u pw)
| step_login d : cd_inputs_enabled d = true -> cd_boxes d = O ->
    DialogStep d (snd (onLoginClicked d)) (fst (onLoginClicked d))
| step_register d : cd_inputs_enabled d = true -> cd_boxes d = O ->
    DialogStep d (snd (onRegisterClicked d)) (fst (onRegisterClicked d))
| step_connected d d' out : onConnected d = Some (d', out) -> DialogStep d out d'
| step_disconnected d reason : DialogStep d (snd (onDisconnected d reason)) (fst (onDisconnected d reason))
| step_error d message : DialogStep d (snd (onErrorOccurred d message)) (fst (onErrorOccurred d message))
| step_message d payload : DialogStep d (snd (onMessageReceived d payload)) (fst (onMessageReceived d payload))
| step_box d : cd_boxes d <> O -> DialogStep d (snd (box_closed d)) (fst (box_closed d)).

Inductive DialogRun : ConnectionDialog -> list DialogOutput -> ConnectionDialog -> Prop :=
| run_nil d : DialogRun d [] d
| run_snoc d out d1 out' d2 :
    DialogRun d out d1 -> cd_accepted d1 = false -> DialogStep d1 out' d2 -> DialogRun d (out ++ out') d2.

(** ** Invariant *)

(** The user can act exactly when no attempt is under way; one box at most is open, and
    only then; accepting ends the attempt. *)
Record dialog_ok (d : ConnectionDialog) : Prop := mkDialogOk {
  dk_enabled : cd_accepted d = false -> (cd_inputs_enabled d = true <-> cd_pending_action d = []);
  dk_boxes : (cd_boxes d <= 1)%nat /\ (cd_boxes d = 1%nat -> cd_pending_action d = []);
  dk_accepted : cd_accepted d = true -> cd_pending_action d = [] /\ cd_boxes d = O;
}.

Definition is_action (a : QString) : Prop := a = qliteral "login" \/ a = qliteral "register".

(** The requests of an attempt: all for one account. *)
Definition request_for (action name password : QString) (o : DialogOutput) : Prop :=
  exists payload, o = DlgSend payload
  /\ encode_auth_request (toUtf8 action) (toUtf8 name) (toUtf8 password) = Some payload.
Definition is_identity (o : DialogOutput) : Prop := match o with DlgSetIdentity _ _ => True | _ => False end.

(** What has been emitted: while an attempt is under way, its connection and then only
    its requests; an identity only in the end, for the account the requests were for. *)
Definition attempt (d : ConnectionDialog) (out : list DialogOutput) : Prop :=
  exists before requests, out = before ++ DlgConnect (host d) (port d) :: requests
  /\ is_action (cd_pending_action d)
  /\ Forall (request_for (cd_pending_action d) (username d) (cd_password_edit d)) requests.
Definition completed (d : ConnectionDialog) (out : list DialogOutput) : Prop :=
  exists before requests action id, out = before ++ DlgConnect (host d) (port d) :: requests
      ++ [DlgSetIdentity id (username d); DlgPersist (persistSettings d); DlgAccept]
  /\ is_action action /\ Forall (request_for action (username d) (cd_password_edit d)) requests
  /\ Forall (fun o => ~ is_identity o) before.
Record log_ok (d : ConnectionDialog) (out : list DialogOutput) : Prop := mkLogOk {
  lk_identity : cd_accepted d = false -> Forall (fun o => ~ is_identity o) out;
  lk_attempt : cd_accepted d = false -> cd_pending_action d <> [] -> attempt d out;
  lk_completed : cd_accepted d = true -> completed d out;
}.

Context {QL : QtLaws Q}.

Lemma action_nonempty a : is_action a -> a <> [].
Proof.
  intros [->| ->]; unfold qliteral.
  - change "login"%string with (utf8 [108; 111; 103; 105; 110]). by rewrite qt_fromUtf8 by decide_now.
  - change "register"%string with (utf8 [114; 101; 103; 105; 115; 116; 101; 114]). by rewrite qt_fromUtf8 by decide_now.
Qed.

(** The invariant of a run. *)
Definition run_ok (d : ConnectionDialog) (out : list DialogOutput) : Prop := dialog_ok d /\ log_ok d out.

Lemma run_ok_failure d out message :
  cd_accepted d = false -> cd_boxes d = O -> run_ok d out ->
  run_ok (fst (reportFailure d message)) (out ++ snd (reportFailure d message)).
Proof.
  intros Ha Hb [_ [Hi _ _]]. split; split; cbn; rewrite ?Ha, ?Hb; try done.
  intros _. apply Forall_app. split; [by apply Hi|]. repeat constructor. by intros [].
Qed.

Lemma run_ok_start d out action :
  cd_accepted d = false -> cd_inputs_enabled d = true -> cd_boxes d = O -> is_action action -> run_ok d out ->
  run_ok (fst (startAuth d action)) (out ++ snd (startAuth d action)).
Proof.
  intros Ha He Hb Hact Hr. unfold startAuth. destruct (_ || _); [by apply run_ok_failure|].
  pose proof (action_nonempty _ Hact) as Hne. destruct Hr as [_ [Hi _ _]].
  split; split; cbn; rewrite ?Ha, ?Hb; try done.
  - by split; [lia|].
  - intros _. apply Forall_app. split; [by apply Hi|]. repeat constructor. by intros [].
  - intros _ _. exists out, []. by split_and!.
Qed.

Lemma run_ok_pending d out : run_ok d out -> cd_pending_action d <> [] -> cd_boxes d = O.
Proof. intros [[_ [Hb Hb'] _] _] Hp. destruct (cd_boxes d) as [|[|n]]; [done|by destruct Hp; auto|lia]. Qed.

Lemma DialogStep_ok d out out' d' :
  DialogStep d out' d' -> cd_accepted d = false -> run_ok d out -> run_ok d' (out ++ out').
Proof.
  intros Hst Ha Hr. destruct Hst as [d h p u pw He Hb|d He Hb|d He Hb|d d' out' E|d reason|d message|d payload|d Hb].
  - rewrite app_nil_r. destruct Hr as [[H1 H2 H3] [H4 H5 H6]]. split; split; try done.
    + cbn. intros _ Hp. destruct Hp. by apply H1.
    + cbn. congruence.
  - apply run_ok_start; try done. by left.
  - apply run_ok_start; try done. by right.
  - unfold onConnected in E. case_bool_decide as Hp; [injection E as <- <-; by rewrite app_nil_r|].
    apply bind_Some in E as (payload & E & [= <- <-]). destruct Hr as [[H1 H2 H3] [H4 H5 H6]].
    split; split; try done.
    + intros _. apply Forall_app. split; [by apply H4|]. repeat constructor. by intros [].
    + intros _ _. destruct (H5 Ha Hp) as (before & requests & -> & Hact & Hreq).
      exists before, (requests ++ [DlgSend payload]). split_and!; [by rewrite <- app_assoc|done|].
      apply Forall_app. split; [done|]. repeat constructor. by exists payload.
    + cbn. congruence.
  - unfold onDisconnected. case_bool_decide as Hp; cbn; [by rewrite app_nil_r|].
    apply run_ok_failure; [done| |done]. by eapply run_ok_pending.
  - unfold onErrorOccurred. case_bool_decide as Hp; cbn; [by rewrite app_nil_r|].
    apply run_ok_failure; [done| |done]. by eapply run_ok_pending.
  - unfold onMessageReceived. case_bool_decide as Hp; cbn; [by rewrite app_nil_r|].
    pose proof (run_ok_pending _ _ Hr Hp) as Hb. destruct (negb _); cbn; [by rewrite app_nil_r|].
    destruct (parse_as from_json_AuthResponseMsg payload) as [auth|]; [|by apply run_ok_failure].
    destruct (arm_success auth); cbn; [|by apply run_ok_failure].
    destruct Hr as [_ [H4 H5 _]]. destruct (H5 Ha Hp) as (before & requests & -> & Hact & Hreq).
    apply Forall_app in H4 as [H4 _]; [|done].
    split; split; cbn; rewrite ?Hb; try done; [by split; [lia|]|]. intros _.
    exists before, requests, (cd_pending_action d), (arm_userId auth). split_and!; try done. by rewrite <- app_assoc.
  - destruct Hr as [[H1 [H2 H2'] H3] [H4 H5 H6]]. destruct (cd_boxes d) as [|[|n]] eqn:En; [done| |lia].
    split; split; cbn; rewrite ?En; try done.
    + by split; [lia|].
    + congruence.
    + intros _. apply Forall_app. split; [by apply H4|]. repeat constructor. by intros [].
    + intros _ Hp. by destruct Hp; auto.
    + congruence.
Qed.

Lemma startAuth_connects d action h p :
  DlgConnect h p ∈ snd (startAuth d action) -> h <> [] /\ 1 <= p <= 65535.
Proof.
  unfold startAuth. destruct (_ || _) eqn:E; cbn; intros H%list_elem_of_singleton; [done|].
  injection H as -> ->. apply orb_false_iff in E as [[E1 E2]%orb_false_iff _].
  apply bool_decide_eq_false in E1. apply Z.eqb_neq in E2. split; [done|]. revert E2.
  change (port (with_status _ _)) with (port d). unfold port, u16.
  pose proof (Z.mod_pos_bound (toUInt (cd_port_edit d)) 65536). lia.
Qed.
Lemma DialogStep_connects d out d' h p :
  DialogStep d out d' -> DlgConnect h p ∈ out -> h <> [] /\ 1 <= p <= 65535.
Proof.
  assert (forall d message, DlgConnect h p ∉ snd (reportFailure d message)) as Hf
    by (intros; cbn; by intros ?%list_elem_of_singleton).
  destruct 1 as [d h' p' u pw He Hb|d He Hb|d He Hb|d d' out E|d reason|d message|d payload|d Hb]; intros Hin.
  - by apply elem_of_nil in Hin.
  - by apply startAuth_connects in Hin.
  - by apply startAuth_connects in Hin.
  - unfold onConnected in E. case_bool_decide; [injection E as <- <-; by apply elem_of_nil in Hin|].
    apply bind_Some in E as (payload & _ & [= <- <-]). by apply list_elem_of_singleton in Hin.
  - unfold onDisconnected in Hin. case_bool_decide; [by apply elem_of_nil in Hin|by apply Hf in Hin].
  - unfold onErrorOccurred in Hin. case_bool_decide; [by apply elem_of_nil in Hin|by apply Hf in Hin].
  - unfold onMessageReceived in Hin. case_bool_decide; [by apply elem_of_nil in Hin|].
    destruct (negb _); [by apply elem_of_nil in Hin|].
    destruct (parse_as from_json_AuthResponseMsg payload) as [auth|]; [|by apply Hf in Hin].
    destruct (arm_success auth); [|by apply Hf in Hin]. cbn in Hin.
    by repeat (apply elem_of_cons in Hin as [Hin|Hin]; [done|]); apply elem_of_nil in Hin.
  - by apply list_elem_of_singleton in Hin.
Qed.

Lemma DialogRun_ok settings out d : DialogRun (new_ConnectionDialog settings) out d -> run_ok d out.
Proof.
  intros Hr. remember (new_ConnectionDialog settings) as d0 eqn:E0.
  induction Hr as [d|d out d1 out' d2 _ IH Ha Hst]; [subst; split; split; cbn; try done; split; [lia|done]|].
  eapply DialogStep_ok; eauto.
Qed.
End Dialog.

(** ** Properties *)

(** A connection is only ever attempted with a host, a user name and a port that is a
    port: after any events, every request to connect names a host that is not empty and a
    port between 1 and 65535, and while one is under way the user cannot act, start a
    second one or change what was entered. *)
Theorem connects_to_a_port {Q : Qt} {L : QtLaws Q} {J : Json} settings out d :
  DialogRun (new_ConnectionDialog settings) out d ->
  (forall h p, DlgConnect h p ∈ out -> h <> [] /\ 1 <= p <= 65535)
  /\ (cd_accepted d = false -> (cd_inputs_enabled d = true <-> cd_pending_action d = []))
  /\ (cd_boxes d <= 1)%nat.
Proof.
  intros Hr. pose proof (DialogRun_ok _ _ _ Hr) as [[H1 [H2 _] _] _]. split_and!; [|done|done].
  clear H1 H2. induction Hr as [d|d out d1 out' d2 _ IH _ Hst]; intros h p Hin; [by apply elem_of_nil in Hin|].
  apply elem_of_app in Hin as [Hin|Hin]; [by apply IH|]. clear IH. by eapply DialogStep_connects.
Qed.

Lemma connects_to_a_port_witness :
  let d0 := new_ConnectionDialog (Q := qt_basic) (mkSettings None None (Some [97])) in
  let d1 := with_edits d0 [108] [57; 48] [97] [112] in
  1 <= port (Q := qt_basic) d1 <= 65535.
Proof.
  intros d0 d1.
  refine (proj2 (proj1 (connects_to_a_port (Q := qt_basic) (J := json_tree) (mkSettings None None (Some [97]))
            (([] ++ []) ++ [DlgConnect [108] 90]) (fst (onLoginClicked (Q := qt_basic) d1)) _) [108] 90 _)).
  - apply (run_snoc d0 ([] ++ []) d1 (snd (onLoginClicked (Q := qt_basic) d1))); [|done|by apply step_login].
    eapply run_snoc; [apply run_nil|done|by apply step_edit].
  - by apply list_elem_of_singleton.
Defined.

(** The identity the client goes on with is the account the server accepted. The
    dialog is accepted only by a successful answer; then the last thing it did before was
    one connection on which all it sent were requests to log in or register under the one
    name it hands over with the id from the answer; until then no identity is set. *)
Theorem identity_after_success {Q : Qt} {L : QtLaws Q} {J : Json} settings out d :
  DialogRun (new_ConnectionDialog settings) out d ->
  if cd_accepted d then
    exists before requests action id,
      out = before ++ DlgConnect (host d) (port d) :: requests
              ++ [DlgSetIdentity id (username d); DlgPersist (persistSettings d); DlgAccept]
      /\ (action = qliteral "login" \/ action = qliteral "register")
      /\ Forall (request_for action (username d) (cd_password_edit d)) requests
      /\ Forall (fun o => ~ is_identity o) before
  else Forall (fun o => ~ is_identity o) out.
Proof.
  intros Hr. destruct (DialogRun_ok _ _ _ Hr) as [_ [H1 _ H2]]. destruct (cd_accepted d); [exact (H2 eq_refl)|exact (H1 eq_refl)].
Qed.

Lemma identity_after_success_witness :
  let d0 := new_ConnectionDialog (Q := qt_basic) (mkSettings None None (Some [97])) in
  let d1 := fst (onLoginClicked (Q := qt_basic) d0) in
  let answer := pos_text (encode (to_json_AuthResponseMsg (J := json_tree) (mkAuthResponseMsg true 4 "") : JsonTree)) in
  let d2 := fst (onMessageReceived (Q := qt_basic) (J := json_tree) d1 answer) in
  cd_accepted d2 = true
  /\ exists before requests action id,
       [DlgConnect (fromUtf8 (Qt := qt_basic) "127.0.0.1") 9000; DlgSetIdentity 4 [97];
        DlgPersist (persistSettings (Q := qt_basic) d2); DlgAccept]
       = before ++ DlgConnect (host (Q := qt_basic) d2) (port (Q := qt_basic) d2) :: requests
           ++ [DlgSetIdentity id (username (Q := qt_basic) d2); DlgPersist (persistSettings (Q := qt_basic) d2); DlgAccept]
       /\ (action = qliteral (Q := qt_basic) "login" \/ action = qliteral (Q := qt_basic) "register")
       /\ Forall (request_for (Q := qt_basic) (J := json_tree) action (username (Q := qt_basic) d2) (cd_password_edit d2)) requests
       /\ Forall (fun o => ~ is_identity o) before.
Proof.
  intros d0 d1 answer d2. split; [reflexivity|].
  refine (identity_after_success (Q := qt_basic) (J := json_tree) (mkSettings None None (Some [97])) _ d2 _).
  apply (run_snoc d0 ([] ++ snd (onLoginClicked (Q := qt_basic) d0)) d1
           (snd (onMessageReceived (Q := qt_basic) (J := json_tree) d1 answer)) d2); [|done|apply step_message].
  eapply run_snoc; [apply run_nil|done|by apply step_login].
Defined.
