(* ===== verification/ClientApp.v ===== *)
(** * The client application (client/src/main.cpp)

    The windows of the client in one process. The network manager emits its signals on a
    thread of its own: an emission posts one event for each receiver that is connected at
    that moment, and the main thread takes the events in order. [ap_queue] is that queue.
    The windows' own events are those of the user and of their timers; a window that has
    closed takes no more events. [None] is an exception out of a slot, which ends the
    process. What the windows look like is in [Layout]. *)
From S2P Require Import Prelude ByteString Json Protocol Codec Frames NetworkManager OTController Qt Widgets EditorWidget CursorAnimation.
From S2P Require Import EditorWindow DocumentListWindow ConnectionDialog.
Local Open Scope Z_scope.

Section App.
Context {Q : Qt} {J : Json}.

(** ** Events of a window *)

Inductive WindowEvent :=
| WeEdited (document : QString) (cursor : Z * Z) (position charsRemoved charsAdded : Z)
| WeCursor (cursor : Z * Z) | WeCursorNotified | WeSelection | WeTimeout | WeAnimation
| WeShare (text : QString) (ok : bool) | WeBoxClosed | WeClose.

(** An event that cannot occur in the state of the window does nothing. *)
Definition window_event (w : EditorWindow) (e : WindowEvent) : option (EditorWindow * list WindowOutput) :=
  let no_box := bool_decide (wn_boxes w = O) in
  match e with
  | WeEdited document cursor p n m =>
      if no_box && negb (ew_read_only (wn_editor w)) then edited w document cursor p n m else Some (w, [])
  | WeCursor cursor => Some (cursor_moved w cursor, [])
  | WeCursorNotified => Some (onCursorPositionChanged w, [])
  | WeSelection => Some (onLocalSelectionChanged w, [])
  | WeTimeout => if wn_timer_active w then onCursorBroadcastTimeout w else Some (w, [])
  | WeAnimation =>
      if ca_active (ew_animation (wn_editor w)) then Some (with_editor w (tickCursorAnimation (wn_editor w)), [])
      else Some (w, [])
  | WeShare text ok => if no_box then EditorWindow.onShareClicked w text ok else Some (w, [])
  | WeBoxClosed => if no_box then Some (w, []) else EditorWindow.box_closed w
  | WeClose => if no_box then closeEvent w else Some (w, [])
  end.

Inductive DialogEvent := DeEdit (h p u pw : QString) | DeLogin | DeRegister | DeBoxClosed.
Definition dialog_event (d : ConnectionDialog) (e : DialogEvent) : ConnectionDialog * list DialogOutput :=
  let enabled := cd_inputs_enabled d && bool_decide (cd_boxes d = O) in
  match e with
  | DeEdit h p u pw => if enabled then (with_edits d h p u pw, []) else (d, [])
  | DeLogin => if enabled then onLoginClicked d else (d, [])
  | DeRegister => if enabled then onRegisterClicked d else (d, [])
  | DeBoxClosed => if bool_decide (cd_boxes d = O) then (d, []) else ConnectionDialog.box_closed d
  end.

(** ** State *)

(** The signals of the network manager. *)
Inductive NetSignal :=
| NsConnected | NsDisconnected (reason : QString) | NsError (message : QString) | NsMessage (payload : string).
Definition net_signal (o : NetOutput) : option NetSignal :=
  match o with
  | SigConnected => Some NsConnected
  | SigDisconnected reason => Some (NsDisconnected (fromUtf8 reason))
  | SigErrorOccurred message => Some (NsError (fromUtf8 message))
  | SigMessageReceived payload => Some (NsMessage payload)
  | _ => None
  end.

Inductive Receiver := ToDialog | ToDocs | ToEditor (i : nat).
#[export] Instance Receiver_eq_dec : EqDecision Receiver.
Proof. solve_decision. Defined.

Inductive AppOutput :=
| AppSend (payload : string) | AppConnect (host : QString) (port : Z) | AppDisconnect
| AppPersist (settings : Settings) | AppBox (kind : BoxKind) (title body : Text).

Record ClientApp := mkClientApp {
  ap_user_id : Z;                               (* nm->userId() *)
  ap_username : QString;                        (* nm->username() *)
  ap_dialog : ConnectionDialog;
  ap_docs : option DocumentListWindow;
  ap_docs_shown : bool;
  ap_editors : list EditorWindow;               (* every window opened *)
  ap_queue : list (Receiver * NetSignal);
  ap_quit : bool;
}.
Abbreviation AppResult := (option (ClientApp * list AppOutput)).

Definition new_ClientApp (settings : Settings) : ClientApp :=
  mkClientApp 0 [] (new_ConnectionDialog settings) None false [] [] false.

Definition with_identity (a : ClientApp) (u : Z) (n : QString) : ClientApp :=
  mkClientApp u n (ap_dialog a) (ap_docs a) (ap_docs_shown a) (ap_editors a) (ap_queue a) (ap_quit a).
Definition with_dialog (a : ClientApp) (d : ConnectionDialog) : ClientApp :=
  mkClientApp (ap_user_id a) (ap_username a) d (ap_docs a) (ap_docs_shown a) (ap_editors a) (ap_queue a) (ap_quit a).
Definition with_app_docs (a : ClientApp) (d : option DocumentListWindow) (shown : bool) : ClientApp :=
  mkClientApp (ap_user_id a) (ap_username a) (ap_dialog a) d shown (ap_editors a) (ap_queue a) (ap_quit a).
Definition with_editors (a : ClientApp) (l : list EditorWindow) : ClientApp :=
  mkClientApp (ap_user_id a) (ap_username a) (ap_dialog a) (ap_docs a) (ap_docs_shown a) l (ap_queue a) (ap_quit a).
Definition with_app_queue (a : ClientApp) (l : list (Receiver * NetSignal)) : ClientApp :=
  mkClientApp (ap_user_id a) (ap_username a) (ap_dialog a) (ap_docs a) (ap_docs_shown a) (ap_editors a) l (ap_quit a).
Definition with_quit (a : ClientApp) : ClientApp :=
  mkClientApp (ap_user_id a) (ap_username a) (ap_dialog a) (ap_docs a) (ap_docs_shown a) (ap_editors a) (ap_queue a) true.

(** ** Emissions *)

Definition listens (r : Receiver) (s : NetSignal) : bool :=
  match r, s with
  | ToDialog, _ => true
  | _, NsMessage _ | _, NsDisconnected _ => true
  | _, _ => false
  end.
Fixpoint open_editors (i : nat) (l : list EditorWindow) : list Receiver :=
  match l with
  | [] => []
  | w :: l => (if wn_closed w then [] else [ToEditor i]) ++ open_editors (S i) l
  end.
Definition receivers (a : ClientApp) : list Receiver :=
  ToDialog :: match ap_docs a with Some _ => [ToDocs] | None => [] end ++ open_editors 0 (ap_editors a).
Definition emit (a : ClientApp) (s : NetSignal) : ClientApp :=
  with_app_queue a (ap_queue a ++ ((fun r => (r, s)) <$> filter (fun r => listens r s = true) (receivers a))).

(** ** Slots of main *)

(** [openEditor] *)
Definition openEditor (a : ClientApp) (resp : DocJoinResponseMsg) : ClientApp :=
  let editor := new_EditorWindow (ap_user_id a) (ap_username a) resp in
  with_app_docs (with_editors a (ap_editors a ++ [editor])) (ap_docs a) false.

(** The outputs of a window, in order. *)
Fixpoint app_outputs {O} (f : ClientApp -> O -> AppResult) (a : ClientApp) (os : list O) : AppResult :=
  match os with
  | [] => Some (a, [])
  | o :: os =>
      '(a, out) ← f a o;
      '(a, out') ← app_outputs f a os;
      Some (a, out ++ out')
  end.

Definition docs_output (a : ClientApp) (o : ListOutput) : AppResult :=
  match o with
  | ListSend p => Some (a, [AppSend p])
  | ListBox kind title body => Some (a, [AppBox kind title body])
  | SigDocumentJoined resp => Some (openEditor a resp, [])
  end.
(** The documents window has run a slot; when it has closed, the application quits. *)
Definition docs_ran (a : ClientApp) (r : option (DocumentListWindow * list ListOutput)) : AppResult :=
  '(d, os) ← r;
  let a := with_app_docs a (Some d) (ap_docs_shown a) in
  '(a, out) ← app_outputs docs_output a os;
  Some (if dl_closed d then with_quit a else a, out).

(** The slot connected to [leftDocument]. *)
Definition left_document (a : ClientApp) : AppResult :=
  match ap_docs a with
  | None => Some (a, [])
  | Some d => docs_ran (with_app_docs a (Some d) true) (refresh d)
  end.

Definition dialog_output (a : ClientApp) (o : DialogOutput) : AppResult :=
  match o with
  | DlgConnect h p => Some (a, [AppConnect h p])
  | DlgDisconnect => Some (a, [AppDisconnect])
  | DlgSend p => Some (a, [AppSend p])
  | DlgSetIdentity u n => Some (with_identity a u n, [])
  | DlgPersist s => Some (a, [AppPersist s])
  | DlgBox kind title body => Some (a, [AppBox kind title body])
  | DlgAccept =>                                (* the rest of main *)
      '(d, os) ← new_DocumentListWindow;
      docs_ran (with_app_docs a None true) (Some (d, os))
  end.
Definition dialog_ran (a : ClientApp) (r : option (ConnectionDialog * list DialogOutput)) : AppResult :=
  '(d, os) ← r;
  app_outputs dialog_output (with_dialog a d) os.

Definition editor_output (a : ClientApp) (o : WindowOutput) : AppResult :=
  match o with
  | WinSend p => Some (a, [AppSend p])
  | WinBox kind title body => Some (a, [AppBox kind title body])
  | WinLeftDocument => left_document a
  | WinEcho _ => Some (a, [])                   (* there are none: [no_echo] *)
  end.
Definition editor_ran (a : ClientApp) (i : nat) (r : option (EditorWindow * list WindowOutput)) : AppResult :=
  '(w, os) ← r;
  app_outputs editor_output (with_editors a (<[i := w]> (ap_editors a))) os.
(** A slot of an editor that is open. *)
Definition on_editor (a : ClientApp) (i : nat) (slot : EditorWindow -> option (EditorWindow * list WindowOutput)) : AppResult :=
  match ap_editors a !! i with
  | Some w => if wn_closed w then Some (a, []) else editor_ran a i (slot w)
  | None => Some (a, [])
  end.

(** The slots an editor has connected to the network manager. *)
Definition network_slot (s : NetSignal) (w : EditorWindow) : option (EditorWindow * list WindowOutput) :=
  match s with
  | NsMessage payload => EditorWindow.onNetworkMessage w payload
  | NsDisconnected reason => Some (EditorWindow.onDisconnected w reason)
  | _ => Some (w, [])
  end.

(** A queued event reaches its receiver. *)
Definition deliver (a : ClientApp) (r : Receiver) (s : NetSignal) : AppResult :=
  match r with
  | ToDialog =>
      dialog_ran a
        match s with
        | NsConnected => ConnectionDialog.onConnected (ap_dialog a)
        | NsDisconnected reason => Some (ConnectionDialog.onDisconnected (ap_dialog a) reason)
        | NsError message => Some (onErrorOccurred (ap_dialog a) message)
        | NsMessage payload => Some (ConnectionDialog.onMessageReceived (ap_dialog a) payload)
        end
  | ToDocs =>
      match ap_docs a with
      | None => Some (a, [])
      | Some d =>
          docs_ran a
            match s with
            | NsMessage payload => DocumentListWindow.onMessageReceived d payload
            | NsDisconnected reason => Some (DocumentListWindow.onDisconnected d reason)
            | _ => Some (d, [])
            end
      end
  | ToEditor i => on_editor a i (network_slot s)
  end.

(** ** Events *)

Inductive AppEvent :=
| AeEmit (s : NetSignal)                        (* on the network thread *)
| AeTake                                        (* the main thread takes an event *)
| AeDialog (e : DialogEvent)
| AeCancel                                      (* the dialog is dismissed *)
| AeDocs (e : ListEvent)
| AeEditor (i : nat) (e : WindowEvent).

(** Events of the network reach the documents window through the queue only. *)
Definition user_list_event (e : ListEvent) : bool :=
  match e with EvMessage _ | EvDisconnected _ => false | _ => true end.

Definition app_event (a : ClientApp) (e : AppEvent) : AppResult :=
  if ap_quit a then Some (a, [])
  else match e with
  | AeEmit s => Some (emit a s, [])
  | AeTake =>
      match ap_queue a with
      | [] => Some (a, [])
      | (r, s) :: q => deliver (with_app_queue a q) r s
      end
  | AeDialog e => match ap_docs a with None => dialog_ran a (Some (dialog_event (ap_dialog a) e)) | Some _ => Some (a, []) end
  | AeCancel => match ap_docs a with None => Some (with_quit a, []) | Some _ => Some (a, []) end
  | AeDocs e =>
      match ap_docs a with
      | Some d => if user_list_event e then docs_ran a (list_event d e) else Some (a, [])
      | None => Some (a, [])
      end
  | AeEditor i e => on_editor a i (fun w => window_event w e)
  end.

Fixpoint app_run (a : ClientApp) (es : list AppEvent) : AppResult :=
  match es with
  | [] => Some (a, [])
  | e :: es =>
      '(a, out) ← app_event a e;
      '(a, out') ← app_run a es;
      Some (a, out ++ out')
  end.
End App.

(** ** Lemmas *)

Section AppFacts.
Context {Q : Qt} {J : Json}.
Implicit Types (a : ClientApp).

Lemma window_event_step w e w' out :
  window_event w e = Some (w', out) -> (w' = w /\ out = []) \/ WindowStep w out w'.
Proof.
  intros E. unfold window_event in E. cbv zeta in E.
  assert (wn_boxes w = O \/ wn_boxes w <> O) as [Hb|Hb] by lia;
    [rewrite (bool_decide_true _ Hb) in E|rewrite (bool_decide_false _ Hb) in E]; cbn [andb] in E;
    destruct e as [document cursor p n m|cursor| | | | |text ok| |]; try (left; by simplify_eq).
  all: try (destruct (ew_read_only (wn_editor w)) eqn:Er; cbn [negb] in E; [left; by simplify_eq|]).
  all: try (destruct (wn_timer_active w) eqn:Et; [|left; by simplify_eq]).
  all: try (destruct (ca_active _) eqn:Ec; [|left; by simplify_eq]).
  all: right; simplify_eq; try by (econstructor; eauto).
Qed.

(** A slot of another window leaves an editor as it is; no slot touches the queue. *)
Record kept a a' : Prop := mkKept {
  kp_queue : ap_queue a' = ap_queue a;
  kp_quit : ap_quit a = true -> ap_quit a' = true;
  kp_editors : forall i w, ap_editors a !! i = Some w -> ap_editors a' !! i = Some w;
}.
Lemma kept_same a a' : ap_queue a' = ap_queue a -> ap_quit a' = ap_quit a -> ap_editors a' = ap_editors a -> kept a a'.
Proof. intros H1 H2 H3. split; [done|by rewrite H2|by rewrite H3]. Qed.
Lemma kept_trans a a1 a2 : kept a a1 -> kept a1 a2 -> kept a a2.
Proof. intros [H1 H2 H3] [K1 K2 K3]. split; [congruence|auto|auto]. Qed.

(** What every output keeps, a sequence of outputs keeps. *)
Lemma app_outputs_ind {O} (R : ClientApp -> ClientApp -> Prop) (f : ClientApp -> O -> option (ClientApp * list AppOutput)) a os a' out :
  (forall a, R a a) -> (forall a a1 a2, R a a1 -> R a1 a2 -> R a a2) ->
  (forall a o a' out, f a o = Some (a', out) -> R a a') ->
  app_outputs f a os = Some (a', out) -> R a a'.
Proof.
  intros Hr Ht Hf. revert a out. induction os as [|o os IH]; intros a out E; cbn in E; [by simplify_eq|].
  apply bind_Some in E as ([a1 out1] & E1 & E). apply bind_Some in E as ([a2 out2] & E2 & [= <- <-]). eauto.
Qed.
Lemma app_outputs_kept {O} (f : ClientApp -> O -> option (ClientApp * list AppOutput)) a os a' out :
  (forall a o a' out, f a o = Some (a', out) -> kept a a') -> app_outputs f a os = Some (a', out) -> kept a a'.
Proof. apply app_outputs_ind; [intros; by apply kept_same|apply kept_trans]. Qed.

Lemma docs_output_kept a o a' out : docs_output a o = Some (a', out) -> kept a a'.
Proof.
  destruct o as [p|k t b|resp]; intros E; cbn in E; simplify_eq; [by apply kept_same..|].
  split; [done|done|]. intros i w Hw. by apply lookup_app_l_Some.
Qed.
Lemma docs_ran_kept a r a' out : docs_ran a r = Some (a', out) -> kept a a'.
Proof.
  intros ([d os] & -> & E)%bind_Some. cbn in E. apply bind_Some in E as ([a1 out1] & E1 & [= <- <-]).
  apply app_outputs_kept in E1; [|apply docs_output_kept].
  eapply kept_trans; [by apply (kept_same a (with_app_docs a (Some d) (ap_docs_shown a)))|].
  eapply kept_trans; [exact E1|]. destruct (dl_closed d); [|by apply kept_same]. by split.
Qed.
Lemma left_document_kept a a' out : left_document a = Some (a', out) -> kept a a'.
Proof.
  unfold left_document. destruct (ap_docs a) as [d|]; [|intros [= <- <-]; by apply kept_same].
  intros H%docs_ran_kept. eapply kept_trans; [|exact H]. by apply kept_same.
Qed.
Lemma dialog_output_kept a o a' out : dialog_output a o = Some (a', out) -> kept a a'.
Proof.
  destruct o; intros E; cbn in E; simplify_eq; try by apply kept_same.
  apply bind_Some in E as ([d os] & _ & E). apply (docs_ran_kept (with_app_docs a None true) (Some (d, os))) in E.
  eapply kept_trans; [|exact E]. by apply kept_same.
Qed.
Lemma dialog_ran_kept a r a' out : dialog_ran a r = Some (a', out) -> kept a a'.
Proof.
  intros ([d os] & _ & E)%bind_Some. apply app_outputs_kept in E; [|apply dialog_output_kept].
  eapply kept_trans; [|exact E]. by apply kept_same.
Qed.
Lemma editor_output_kept a o a' out : editor_output a o = Some (a', out) -> kept a a'.
Proof.
  destruct o; intros E; cbn in E; [simplify_eq; by apply kept_same|by eapply left_document_kept|simplify_eq; by apply kept_same|simplify_eq; by apply kept_same].
Qed.
(** The editor a slot is called on: closed, it is left alone; open, it is what the slot
    makes of it. *)
Definition window_slot (w : EditorWindow) (slot : EditorWindow -> option (EditorWindow * list WindowOutput))
    : option EditorWindow :=
  if wn_closed w then Some w else fst <$> slot w.

Lemma on_editor_spec a i slot a' out : on_editor a i slot = Some (a', out) ->
  ap_queue a' = ap_queue a /\ (ap_quit a = true -> ap_quit a' = true)
  /\ forall j w, ap_editors a !! j = Some w -> exists w', ap_editors a' !! j = Some w'
       /\ (if decide (j = i) then window_slot w slot else Some w) = Some w'.
Proof.
  unfold on_editor, window_slot. intros E.
  assert (forall r, kept a r -> (forall w, ap_editors a !! i = Some w -> wn_closed w = true) ->
    ap_queue r = ap_queue a /\ (ap_quit a = true -> ap_quit r = true)
    /\ forall j w, ap_editors a !! j = Some w -> exists w', ap_editors r !! j = Some w'
         /\ (if decide (j = i) then if wn_closed w then Some w else fst <$> slot w else Some w) = Some w') as Hk.
  { intros r [H1 H2 H3] Hc. split_and!; [done|done|]. intros j w Hj. exists w. split; [by apply H3|].
    case_decide; [subst; by rewrite (Hc w Hj)|done]. }
  destruct (ap_editors a !! i) as [wi|] eqn:Ew; [|injection E as <- <-; apply Hk; [by apply kept_same|done]].
  destruct (wn_closed wi) eqn:Ec; [injection E as <- <-; apply Hk; [by apply kept_same|by intros w [= <-]]|].
  apply bind_Some in E as ([w' os] & Es & E). apply app_outputs_kept in E as [H1 H2 H3]; [|apply editor_output_kept].
  split_and!; [done|done|]. intros j w Hj. case_decide as Hji.
  - subst j. rewrite Ew in Hj. injection Hj as <-. rewrite Ec, Es. exists w'. split; [|done]. apply H3. cbn.
    apply list_lookup_insert_eq. by eapply lookup_lt_Some.
  - exists w. split; [|done]. apply H3. cbn. by rewrite list_lookup_insert_ne.
Qed.

(** ** The mail of a receiver *)

Definition mail (r : Receiver) (q : list (Receiver * NetSignal)) : list NetSignal := snd <$> filter (fun e => fst e = r) q.
Definition emitted (es : list AppEvent) : list NetSignal :=
  omap (fun e => match e with AeEmit s => Some s | _ => None end) es.
(** What an editor is given: events of its own, and signals the main thread takes for it. *)
Definition editor_input a (e : AppEvent) (i : nat) : list (WindowEvent + NetSignal) :=
  match e with
  | AeTake =>
      match ap_queue a with
      | (r, s) :: _ => if decide (r = ToEditor i) then [inr s] else []
      | [] => []
      end
  | AeEditor j x => if decide (j = i) then [inl x] else []
  | _ => []
  end.
Fixpoint editor_inputs a (es : list AppEvent) (i : nat) : list (WindowEvent + NetSignal) :=
  match es with
  | [] => []
  | e :: es => editor_input a e i ++ match app_event a e with Some (a, _) => editor_inputs a es i | None => [] end
  end.
Definition signals (xs : list (WindowEvent + NetSignal)) : list NetSignal :=
  omap (fun x => match x with inr s => Some s | inl _ => None end) xs.
Definition window_input (w : EditorWindow) (x : WindowEvent + NetSignal) : option EditorWindow :=
  window_slot w (fun w => match x with inl e => window_event w e | inr s => network_slot s w end).
Fixpoint window_inputs (w : EditorWindow) (xs : list (WindowEvent + NetSignal)) : option EditorWindow :=
  match xs with
  | [] => Some w
  | x :: xs => w ← window_input w x; window_inputs w xs
  end.

Lemma window_inputs_app w xs ys : window_inputs w (xs ++ ys) = window_inputs w xs ≫= fun w => window_inputs w ys.
Proof.
  revert w. induction xs as [|x xs IH]; intros w; [done|]. cbn. destruct (window_input w x); [apply IH|done].
Qed.
Lemma window_inputs_closed w xs : wn_closed w = true -> window_inputs w xs = Some w.
Proof. intros Hc. induction xs as [|x xs IH]; [done|]. cbn. unfold window_input, window_slot. by rewrite Hc. Qed.
Lemma signals_app xs ys : signals (xs ++ ys) = signals xs ++ signals ys.
Proof. apply omap_app. Qed.

Lemma mail_app r q q' : mail r (q ++ q') = mail r q ++ mail r q'.
Proof. unfold mail. by rewrite filter_app, fmap_app. Qed.

Lemma mail_post r s rs : NoDup rs ->
  mail r ((fun r => (r, s)) <$> rs) = if bool_decide (r ∈ rs) then [s] else [].
Proof.
  induction rs as [|x rs IH]; intros Hn; [done|]. apply NoDup_cons in Hn as [Hx Hn]. specialize (IH Hn).
  unfold mail in *. cbn [fmap list_fmap]. rewrite filter_cons. cbn [fst]. destruct (decide (x = r)) as [->|Hne].
  - rewrite (bool_decide_false _ Hx) in IH. rewrite bool_decide_true by apply list_elem_of_here. cbn. by rewrite IH.
  - rewrite IH. case_bool_decide as H1; [rewrite bool_decide_true by (by apply list_elem_of_further); done|].
    rewrite bool_decide_false; [done|]. intros [->|H]%elem_of_cons; done.
Qed.
Lemma open_editors_elem k l r : r ∈ open_editors k l <-> exists i w, r = ToEditor (k + i) /\ l !! i = Some w /\ wn_closed w = false.
Proof.
  revert k. induction l as [|x l IH]; intros k; cbn [open_editors].
  - split; [by intros ?%elem_of_nil|by intros (i & w & _ & H & _)].
  - rewrite elem_of_app, IH. split.
    + intros [H|(i & w & -> & H)].
      * destruct (wn_closed x) eqn:E; [by apply elem_of_nil in H|]. apply list_elem_of_singleton in H as ->.
        exists O, x. split; [f_equal; lia|done].
      * exists (S i), w. split; [f_equal; lia|done].
    + intros ([|i] & w & -> & Hw & Ho).
      * left. injection Hw as ->. rewrite Ho. apply list_elem_of_singleton. f_equal. lia.
      * right. exists i, w. split; [f_equal; lia|done].
Qed.
Lemma open_editors_NoDup k l : NoDup (open_editors k l).
Proof.
  revert k. induction l as [|x l IH]; intros k; cbn [open_editors]; [constructor|].
  destruct (wn_closed x); [apply IH|]. apply NoDup_cons. split; [|apply IH].
  intros (i & w & [= H] & _)%open_editors_elem. lia.
Qed.
Lemma receivers_NoDup a : NoDup (receivers a).
Proof.
  unfold receivers. pose proof (open_editors_NoDup 0 (ap_editors a)) as H.
  assert (forall r, r ∈ open_editors 0 (ap_editors a) -> exists i, r = ToEditor i) as He
    by (intros r (i & w & -> & _)%open_editors_elem; by eexists).
  destruct (ap_docs a); cbn; repeat (apply NoDup_cons; split); try done.
  - intros [Hd|[i Hi]%He]%elem_of_cons; done.
  - intros [i Hi]%He. done.
  - intros [i Hi]%He. done.
Qed.

Lemma open_editors_mail a i w s : ap_editors a !! i = Some w -> wn_closed w = false ->
  mail (ToEditor i) ((fun r => (r, s)) <$> filter (fun r => listens r s = true) (receivers a))
  = if listens (ToEditor i) s then [s] else [].
Proof.
  intros Hw Ho. rewrite mail_post by apply NoDup_filter, receivers_NoDup.
  assert (ToEditor i ∈ receivers a) as Hr.
  { unfold receivers. apply list_elem_of_further, elem_of_app. right. apply open_editors_elem. by exists i, w. }
  destruct (listens (ToEditor i) s) eqn:El.
  - rewrite bool_decide_true; [done|]. by apply list_elem_of_filter.
  - rewrite bool_decide_false; [done|]. intros [H _]%list_elem_of_filter. congruence.
Qed.

(** What an open editor must be told of, whatever it is connected to: messages and the loss
    of the connection. *)
Definition for_editors (s : NetSignal) : Prop :=
  match s with NsMessage _ | NsDisconnected _ => True | NsConnected | NsError _ => False end.
#[export] Instance for_editors_dec s : Decision (for_editors s).
Proof. destruct s; cbn; apply _. Defined.
Definition heard (es : list AppEvent) : list NetSignal := filter for_editors (emitted es).

(** What one event does to an editor. *)
Definition editor_event_ok a e a' : Prop :=
  (ap_quit a = true -> ap_quit a' = true)
  /\ forall i w, ap_quit a = false -> ap_editors a !! i = Some w ->
     exists w', ap_editors a' !! i = Some w' /\ window_inputs w (editor_input a e i) = Some w'
     /\ (wn_closed w = false ->
         signals (editor_input a e i) ++ mail (ToEditor i) (ap_queue a') = mail (ToEditor i) (ap_queue a) ++ heard [e]).

Lemma kept_event_ok a e a' : kept a a' -> (forall i, editor_input a e i = []) -> heard [e] = [] -> editor_event_ok a e a'.
Proof.
  intros [K1 K2 K3] Hi Hh. split; [done|]. intros i w _ Hw. exists w. rewrite Hi, Hh, K1, app_nil_r.
  split_and!; [by apply K3|done|done].
Qed.

Lemma mail_cons_ne r x s q : x <> r -> mail r ((x, s) :: q) = mail r q.
Proof. intros H. unfold mail. by rewrite filter_cons_False. Qed.
Lemma mail_cons_eq r s q : mail r ((r, s) :: q) = s :: mail r q.
Proof. unfold mail. by rewrite filter_cons_True. Qed.

Lemma deliver_event_ok a r s q a' out : ap_queue a = (r, s) :: q ->
  deliver (with_app_queue a q) r s = Some (a', out) -> editor_event_ok a AeTake a'.
Proof.
  intros Eq E. assert ((exists i, r = ToEditor i) \/ forall j, r <> ToEditor j) as [[i ->]|Hne]
    by (destruct r as [| |i]; [by right|by right|left; by exists i]).
  - cbn [deliver] in E. apply on_editor_spec in E as (H1 & H2 & H3). split; [done|]. intros j w _ Hj.
    destruct (H3 j w Hj) as (w' & Hw' & Es). exists w'. cbn [editor_input]. rewrite Eq, H1. cbn [ap_queue with_app_queue].
    destruct (decide (j = i)) as [->|Hji].
    + rewrite decide_True by done. split_and!; [done| |].
      * cbn [window_inputs]. unfold window_input. change (fun w0 => network_slot s w0) with (network_slot s). by rewrite Es.
      * intros _. by rewrite mail_cons_eq, app_nil_r.
    + rewrite decide_False by congruence. injection Es as <-. split_and!; [done|done|].
      intros _. by rewrite mail_cons_ne, app_nil_r by congruence.
  - assert (kept (with_app_queue a q) a') as [K1 K2 K3].
    { destruct r as [| |i]; [by eapply dialog_ran_kept| |by destruct (Hne i)]. cbn in E.
      destruct (ap_docs a); [by eapply docs_ran_kept|]. injection E as <- <-. by apply kept_same. }
    split; [done|]. intros j w _ Hj. exists w. cbn [editor_input]. rewrite Eq, K1. cbn [ap_queue with_app_queue].
    rewrite decide_False by apply Hne.
    split_and!; [by apply K3|done|]. intros _. by rewrite mail_cons_ne, app_nil_r by apply Hne.
Qed.

Lemma app_event_ok a e a' out : app_event a e = Some (a', out) -> editor_event_ok a e a'.
Proof.
  unfold app_event. destruct (ap_quit a) eqn:Eq.
  { intros [= <- <-]. split; [done|]. intros i w H. congruence. }
  intros E. destruct e as [s| |e| |e|i e].
  - injection E as <- <-. split; [done|]. intros i w _ Hw. exists w. split_and!; [done|done|]. intros Ho.
    cbn [emit ap_queue with_app_queue editor_input]. rewrite mail_app, (open_editors_mail a i w) by done. by destruct s.
  - destruct (ap_queue a) as [|[r s] q] eqn:Eqq.
    + injection E as <- <-. apply kept_event_ok; [by apply kept_same| |done]. intros i. cbn. by rewrite Eqq.
    + by eapply deliver_event_ok.
  - apply kept_event_ok; [|done|done]. destruct (ap_docs a); [injection E as <- <-; by apply kept_same|by eapply dialog_ran_kept].
  - apply kept_event_ok; [|done|done]. destruct (ap_docs a); injection E as <- <-; [by apply kept_same|by split].
  - apply kept_event_ok; [|done|done]. destruct (ap_docs a); [|injection E as <- <-; by apply kept_same].
    destruct (user_list_event e); [by eapply docs_ran_kept|injection E as <- <-; by apply kept_same].
  - apply on_editor_spec in E as (H1 & H2 & H3). split; [done|]. intros j w _ Hj.
    destruct (H3 j w Hj) as (w' & Hw' & Es). exists w'. cbn [editor_input]. rewrite H1.
    destruct (decide (j = i)) as [->|Hji].
    + rewrite decide_True by done. split_and!; [done| |].
      * cbn [window_inputs]. unfold window_input. by rewrite Es.
      * intros _. cbn. by rewrite app_nil_r.
    + rewrite decide_False by congruence. injection Es as <-. split_and!; [done|done|]. intros _. cbn. by rewrite app_nil_r.
Qed.

Lemma app_run_quit es a a' out : app_run a es = Some (a', out) -> ap_quit a = true -> ap_quit a' = true.
Proof.
  revert a out. induction es as [|e es IH]; intros a out E Hq; cbn in E; [by simplify_eq|].
  apply bind_Some in E as ([a1 out1] & E1 & E). apply bind_Some in E as ([a2 out2] & E2 & [= <- <-]).
  eapply IH; [exact E2|]. by apply (proj1 (app_event_ok _ _ _ _ E1)).
Qed.

Lemma app_run_quiet a a1 e es : app_event a e = Some (a1, []) -> app_run a (e :: es) = app_run a1 es.
Proof. intros E. cbn. rewrite E. cbn. by destruct (app_run a1 es) as [[]|]. Qed.

(** ** A window is on the screen *)

Definition open_editor a : Prop := exists i w, ap_editors a !! i = Some w /\ wn_closed w = false.
(** Once the documents window exists, it is shown or an editor is open. *)
Definition on_screen a : Prop := is_Some (ap_docs a) /\ (ap_docs_shown a = true \/ open_editor a).
Definition app_ok a : Prop := ap_quit a = true \/ (ap_docs a = None /\ ap_editors a = []) \/ on_screen a.

Lemma docs_output_screen a o a' out : docs_output a o = Some (a', out) -> on_screen a -> on_screen a'.
Proof.
  destruct o as [p|k t b|resp]; intros E [Hd Hs]; cbn in E; simplify_eq; [done..|]. split; [done|]. right.
  exists (length (ap_editors a)), (new_EditorWindow (ap_user_id a) (ap_username a) resp). split; [|done].
  cbn. by rewrite lookup_app_r, Nat.sub_diag by lia.
Qed.
Lemma app_outputs_screen {O} (f : ClientApp -> O -> option (ClientApp * list AppOutput)) a os a' out :
  (forall a o a' out, f a o = Some (a', out) -> on_screen a -> on_screen a') ->
  app_outputs f a os = Some (a', out) -> on_screen a -> on_screen a'.
Proof. apply (app_outputs_ind (fun a a' => on_screen a -> on_screen a')); auto. Qed.
Lemma docs_ran_screen a r a' out : docs_ran a r = Some (a', out) ->
  ap_docs_shown a = true \/ open_editor a -> on_screen a'.
Proof.
  intros ([d os] & -> & E)%bind_Some Hs. cbn in E. apply bind_Some in E as ([a1 out1] & E1 & [= <- <-]).
  apply app_outputs_screen in E1; [|apply docs_output_screen|by split]. by destruct (dl_closed d).
Qed.
Lemma left_document_screen a a' out : left_document a = Some (a', out) -> is_Some (ap_docs a) -> on_screen a'.
Proof. unfold left_document. intros E [d Hd]. rewrite Hd in E. apply docs_ran_screen in E; [done|by left]. Qed.
Lemma editor_output_screen a o a' out : editor_output a o = Some (a', out) -> on_screen a -> on_screen a'.
Proof.
  destruct o; intros E Hs; cbn in E; [by simplify_eq|by eapply left_document_screen; [|apply Hs]|by simplify_eq|by simplify_eq].
Qed.

Lemma editor_outputs_docs a os a' out :
  app_outputs editor_output a os = Some (a', out) -> is_Some (ap_docs a) -> is_Some (ap_docs a').
Proof.
  apply (app_outputs_ind (fun a a' => is_Some (ap_docs a) -> is_Some (ap_docs a'))); [auto|auto|].
  intros c o c' out' Eo Hc. destruct o; cbn in Eo; [by simplify_eq| |by simplify_eq|by simplify_eq].
  by apply left_document_screen in Eo as [? _].
Qed.
Lemma app_outputs_snoc {O} (f : ClientApp -> O -> option (ClientApp * list AppOutput)) a os o a' out :
  app_outputs f a (os ++ [o]) = Some (a', out) ->
  exists a1 out1 out2, app_outputs f a os = Some (a1, out1) /\ f a1 o = Some (a', out2).
Proof.
  revert a out. induction os as [|x os IH]; intros a out E; cbn in E.
  - apply bind_Some in E as ([b1 o1] & E1 & [= <- <-]). by exists a, [], o1.
  - apply bind_Some in E as ([b1 o1] & E1 & E). apply bind_Some in E as ([b2 o2] & E2 & [= <- <-]).
    apply IH in E2 as (b' & p1 & p2 & H1 & H2). exists b', (o1 ++ p1), p2. cbn. rewrite E1. cbn. by rewrite H1.
Qed.

(** A slot of an open editor keeps it open, or leaves the document last. *)
Definition slot_ok (r : option (EditorWindow * list WindowOutput)) : Prop :=
  match r with
  | Some (w, out) => wn_closed w = false \/ exists before, out = before ++ [WinLeftDocument]
  | None => True
  end.
Lemma step_slot_ok w out w' : wn_closed w = false -> WindowStep w out w' -> slot_ok (Some (w', out)).
Proof.
  intros Ho [(H & _)|(_ & _ & H & _)]%WindowStep_open; [left; cbn in H; congruence|right].
  unfold leave_outputs in H. destruct (wn_closing w'); [exists []; done|]. destruct H as (p & _ & ->). by exists [WinSend p].
Qed.
Lemma on_editor_screen a i slot a' out :
  (forall w, wn_closed w = false -> slot_ok (slot w)) ->
  on_editor a i slot = Some (a', out) -> on_screen a -> on_screen a'.
Proof.
  unfold on_editor. intros Hslot. destruct (ap_editors a !! i) as [w|] eqn:Ew; [|by intros [= <- <-]].
  destruct (wn_closed w) eqn:Ec; [by intros [= <- <-]|]. specialize (Hslot w Ec).
  intros ([w' os] & Es & E)%bind_Some [Hd Hs]. rewrite Es in Hslot. destruct Hslot as [Ho|[before ->]].
  - apply app_outputs_screen in E; [done|apply editor_output_screen|]. split; [done|]. right. exists i, w'. split; [|done].
    cbn. apply list_lookup_insert_eq. by eapply lookup_lt_Some.
  - apply app_outputs_snoc in E as (b & o1 & o2 & E1 & E2). eapply left_document_screen; [exact E2|].
    by eapply editor_outputs_docs.
Qed.

(** Signing in, or signed in. *)
Definition started a : Prop := (ap_docs a = None /\ ap_editors a = []) \/ on_screen a.

Lemma dialog_output_started a o a' out : dialog_output a o = Some (a', out) -> started a -> started a'.
Proof.
  destruct o; intros E Ha; cbn in E; simplify_eq; try done.
  apply bind_Some in E as ([d os] & _ & E). right.
  apply (docs_ran_screen (with_app_docs a None true) (Some (d, os))) in E; [done|by left].
Qed.
Lemma dialog_outputs_started a os a' out : app_outputs dialog_output a os = Some (a', out) -> started a -> started a'.
Proof. apply (app_outputs_ind (fun a a' => started a -> started a')); [auto|auto|apply dialog_output_started]. Qed.
Lemma dialog_ran_started a r a' out : dialog_ran a r = Some (a', out) -> started a -> started a'.
Proof. intros ([d os] & _ & E)%bind_Some Ha. by eapply dialog_outputs_started. Qed.

Lemma deliver_started a r s a' out : deliver a r s = Some (a', out) -> started a -> started a'.
Proof.
  destruct r as [| |i]; cbn; intros E Ha.
  - by eapply dialog_ran_started.
  - destruct (ap_docs a) as [d|] eqn:Ed; [|by injection E as <- <-]. right. apply docs_ran_screen in E; [done|].
    destruct Ha as [[Hd _]|[_ Hs]]; [congruence|done].
  - destruct Ha as [[Hd He]|Hs]; [|right].
    + unfold on_editor in E. rewrite He in E. cbn in E. injection E as <- <-. by left.
    + eapply on_editor_screen; [|exact E|exact Hs]. intros w Ho. unfold network_slot.
      destruct s as [|reason| |payload]; [by left| |by left|].
      * cbn [slot_ok]. pose proof (step_slot_ok w _ _ Ho (EditorWindow.step_disconnected w reason)) as H.
        by destruct (EditorWindow.onDisconnected w reason).
      * destruct (EditorWindow.onNetworkMessage w payload) as [[w' out']|] eqn:Em; [|done].
        eapply step_slot_ok; [done|by apply (EditorWindow.step_message _ payload)].
Qed.

Lemma app_event_started a e a' out : app_event a e = Some (a', out) ->
  ap_quit a = true \/ started a -> ap_quit a' = true \/ started a'.
Proof.
  unfold app_event. destruct (ap_quit a) eqn:Eq; [intros [= <- <-]; auto|]. intros E [|Ha]; [done|].
  destruct e as [s| |e| |e|i e].
  - injection E as <- <-. right. exact Ha.
  - right. destruct (ap_queue a) as [|[r s] q]; [by injection E as <- <-|]. by eapply deliver_started.
  - right. destruct (ap_docs a); [by injection E as <- <-|by eapply dialog_ran_started].
  - destruct (ap_docs a); injection E as <- <-; [by right|by left].
  - right. destruct (ap_docs a) as [d|] eqn:Ed; [|by injection E as <- <-].
    destruct (user_list_event e); [|by injection E as <- <-]. right. apply docs_ran_screen in E; [done|].
    destruct Ha as [[Hd _]|[_ Hs]]; [congruence|done].
  - right. destruct Ha as [[Hd He]|Hs].
    + unfold on_editor in E. rewrite He in E. cbn in E. injection E as <- <-. by left.
    + right. eapply on_editor_screen; [|exact E|exact Hs]. intros w Ho. cbn beta.
      destruct (window_event w e) as [[w' out']|] eqn:Ew; [|done].
      destruct (window_event_step _ _ _ _ Ew) as [[-> ->]|Hst]; [by left|by eapply step_slot_ok].
Qed.
End AppFacts.

(** ** Properties *)

(** A client that has signed in always has a window on the screen. Whatever the user
    does and whatever arrives, in any order: until the application quits, the documents
    window is shown or an editor is open; closing an editor, by the user or by a notice,
    brings the documents back. *)
Theorem app_has_window {Q : Qt} {J : Json} settings es a out :
  app_run (new_ClientApp settings) es = Some (a, out) ->
  ap_quit a = true \/ ap_docs a = None \/ ap_docs_shown a = true
  \/ exists i w, ap_editors a !! i = Some w /\ wn_closed w = false.
Proof.
  assert (forall es a0 a out, ap_quit a0 = true \/ started a0 -> app_run a0 es = Some (a, out) -> ap_quit a = true \/ started a) as H.
  { clear. induction es as [|e es IH]; intros a0 a out Ha E; cbn in E; [by simplify_eq|].
    apply bind_Some in E as ([a1 out1] & E1 & E). apply bind_Some in E as ([a2 out2] & E2 & [= <- <-]).
    eapply IH; [|exact E2]. by eapply app_event_started. }
  intros E. destruct (H es (new_ClientApp settings) a out) as [Hq|[[Hd _]|[_ Hs]]]; [by right; left|done|by left|by right; left|].
  right. right. exact Hs.
Qed.

(** An open editor is handed every message, once and in order. Until the application
    quits, an editor is what its slots make of its own events and of the signals taken for
    it; and as long as it is open, those signals, followed by the ones still queued for it,
    are the ones that were queued before and those the network thread has emitted since, in
    the order of their emission. *)
Theorem editor_gets_every_message {Q : Qt} {J : Json} es a a' out i w :
  app_run a es = Some (a', out) -> ap_quit a' = false -> ap_editors a !! i = Some w ->
  exists w', ap_editors a' !! i = Some w' /\ window_inputs w (editor_inputs a es i) = Some w'
  /\ (wn_closed w' = false ->
      signals (editor_inputs a es i) ++ mail (ToEditor i) (ap_queue a') = mail (ToEditor i) (ap_queue a) ++ heard es).
Proof.
  revert a out w. induction es as [|e es IH]; intros a out w E Hq Hw; cbn in E.
  { simplify_eq. exists w. split_and!; [done|done|]. intros _. cbn. by rewrite app_nil_r. }
  apply bind_Some in E as ([a1 out1] & E1 & E). apply bind_Some in E as ([a2 out2] & E2 & [= <- <-]).
  destruct (app_event_ok _ _ _ _ E1) as [Q1 K1].
  assert (ap_quit a = false) as Hqa.
  { destruct (ap_quit a); [|done]. rewrite (app_run_quit _ _ _ _ E2) in Hq by auto. done. }
  destruct (K1 i w Hqa Hw) as (w1 & Hw1 & Ew1 & M1). destruct (IH a1 out2 w1 E2 Hq Hw1) as (w2 & Hw2 & Ew2 & M2).
  exists w2. cbn [editor_inputs]. rewrite E1, window_inputs_app, Ew1. split_and!; [done|exact Ew2|]. intros Ho.
  assert (wn_closed w1 = false) as Ho1.
  { destruct (wn_closed w1) eqn:Ec; [|done]. rewrite window_inputs_closed in Ew2 by done. congruence. }
  assert (wn_closed w = false) as Ho0.
  { destruct (wn_closed w) eqn:Ec; [|done]. rewrite window_inputs_closed in Ew1 by done. congruence. }
  rewrite signals_app, <- (app_assoc (signals _)), (M2 Ho), app_assoc, (M1 Ho0), <- app_assoc. f_equal.
  unfold heard. change (emitted (e :: es)) with (emitted ([e] ++ es)). unfold emitted. by rewrite omap_app, filter_app.
Qed.

(** C40: Messages can be lost before the editor exists. When an operation's broadcast is
    received right behind the answer to a join, before the main thread has handled the
    answer, the broadcast is posted to the dialog and to the documents window only: the
    editor opens with the text and the revision of the answer, nothing is queued for it,
    and the operation never reaches it. *)
Theorem operation_lost_before_editor {Q : Qt} {J : Json} {L : JsonLaws J} a d resp payload payload' :
  ap_quit a = false -> ap_editors a = [] -> ap_queue a = [] -> cd_pending_action (ap_dialog a) = [] ->
  ap_docs a = Some d -> dl_pending_join_doc_id d = djm_docId resp -> dl_closed d = false ->
  server_wf (SDocJoin resp) -> djm_success resp = true -> serialize (to_json_DocJoinResponseMsg resp) = Some payload ->
  fst (parse_envelope payload') = MtOperationBroadcast ->
  exists a', app_run a [AeEmit (NsMessage payload); AeEmit (NsMessage payload'); AeTake; AeTake; AeTake; AeTake] = Some (a', [])
  /\ ap_queue a' = [] /\ ap_editors a' = [new_EditorWindow (ap_user_id a) (ap_username a) resp].
Proof.
  intros Hq He Hqu Hp Hd Hj Hc Hwf Hok Hs Ht.
  destruct (server_read_back (SDocJoin resp) payload Hwf Hs) as [Hty Hm].
  apply (parse_as_fmap SDocJoin) in Hm; [|by intros ? ? [= ->]].
  assert (forall p, ConnectionDialog.onMessageReceived (ap_dialog a) p = (ap_dialog a, [])) as Hdlg
    by (intros p; unfold ConnectionDialog.onMessageReceived; by rewrite bool_decide_true).
  assert (DocumentListWindow.onMessageReceived d payload = Some (DocumentListWindow.with_pending d 0, [SigDocumentJoined resp])) as H1.
  { unfold DocumentListWindow.onMessageReceived. rewrite Hty. cbn. unfold handleDocJoinResponse.
    rewrite Hm, Hj, Z.eqb_refl, Hok. cbn. by rewrite andb_false_r. }
  assert (DocumentListWindow.onMessageReceived (DocumentListWindow.with_pending d 0) payload' = Some (DocumentListWindow.with_pending d 0, [])) as H2
    by (unfold DocumentListWindow.onMessageReceived; by rewrite Ht).
  destruct a as [u n dlg docs shown eds q quit]. cbn in Hq, He, Hqu, Hp, Hd, Hdlg. subst.
  set (editor := new_EditorWindow u n resp). set (d0 := DocumentListWindow.with_pending d 0) in *.
  assert (forall docs shown eds q p, deliver (mkClientApp u n dlg docs shown eds q false) ToDialog (NsMessage p)
            = Some (mkClientApp u n dlg docs shown eds q false, [])) as D1
    by (intros; unfold deliver; cbn [ap_dialog]; by rewrite Hdlg).
  assert (forall q, deliver (mkClientApp u n dlg (Some d) shown [] q false) ToDocs (NsMessage payload)
            = Some (mkClientApp u n dlg (Some d0) false [editor] q false, [])) as D2.
  { intros q. unfold deliver. cbn [ap_docs]. rewrite H1. unfold docs_ran. cbn -[new_EditorWindow]. by rewrite Hc. }
  assert (forall q, deliver (mkClientApp u n dlg (Some d0) false [editor] q false) ToDocs (NsMessage payload')
            = Some (mkClientApp u n dlg (Some d0) false [editor] q false, [])) as D3.
  { intros q. unfold deliver. cbn [ap_docs]. rewrite H2. unfold docs_ran. cbn -[new_EditorWindow]. by rewrite Hc. }
  exists (mkClientApp u n dlg (Some d0) false [editor] [] false). split; [|done].
  assert (forall docs shown eds r s q a', deliver (mkClientApp u n dlg docs shown eds q false) r s = Some (a', []) ->
            app_event (mkClientApp u n dlg docs shown eds ((r, s) :: q) false) AeTake = Some (a', [])) as T by done.
  set (q := [(ToDialog, NsMessage payload); (ToDocs, NsMessage payload);
             (ToDialog, NsMessage payload'); (ToDocs, NsMessage payload')]).
  rewrite (app_run_quiet _ (mkClientApp u n dlg (Some d) shown [] (take 2 q) false)) by done.
  rewrite (app_run_quiet _ (mkClientApp u n dlg (Some d) shown [] q false)) by done.
  subst q.
  rewrite (app_run_quiet _ _ _ _ (T _ _ _ _ _ _ _ (D1 _ _ _ _ _))).
  rewrite (app_run_quiet _ _ _ _ (T _ _ _ _ _ _ _ (D2 _))).
  rewrite (app_run_quiet _ _ _ _ (T _ _ _ _ _ _ _ (D1 _ _ _ _ _))).
  by rewrite (app_run_quiet _ _ _ _ (T _ _ _ _ _ _ _ (D3 _))).
Qed.

(** *** Witnesses *)

Definition sample_settings : Settings := mkSettings None None None.
Definition sample_text (j : json (Json := json_tree)) : string := pos_text (encode (j : JsonTree)).
(** Signing in, and the answer to a join. *)
Definition sample_login : list AppEvent :=
  [AeDialog (DeEdit [104] [57] [97] [98]); AeDialog DeLogin; AeEmit NsConnected; AeTake;
   AeEmit (NsMessage (sample_text (to_json_AuthResponseMsg (J := json_tree) (mkAuthResponseMsg true 1 "")))); AeTake].
Definition sample_resp : DocJoinResponseMsg := mkDocJoinResponseMsg true 9 "b" "text" 3 "editor" [] "".
Definition sample_join : list AppEvent :=
  [AeEmit (NsMessage (sample_text (to_json_DocJoinResponseMsg (J := json_tree) sample_resp))); AeTake; AeTake].

(** The application signs in, joins a document and leaves it again. *)
Definition sample_events : list AppEvent := sample_login ++ sample_join ++ [AeEditor 0 WeClose].
Lemma sample_run_ok :
  exists a out, app_run (Q := qt_basic) (J := json_tree) (new_ClientApp sample_settings) sample_events = Some (a, out)
    /\ length (ap_editors a) = 1%nat.
Proof.
  assert ((fun r => match r with Some (a, _) => (length (ap_editors a) =? 1)%nat | None => false end)
            (app_run (Q := qt_basic) (J := json_tree) (new_ClientApp sample_settings) sample_events) = true) as H
    by (vm_compute; reflexivity).
  revert H. generalize (app_run (Q := qt_basic) (J := json_tree) (new_ClientApp sample_settings) sample_events).
  intros [[a out]|] H; [|discriminate H]. exists a, out. split; [reflexivity|by apply Nat.eqb_eq].
Qed.

Lemma app_has_window_witness :
  exists a out, app_run (Q := qt_basic) (J := json_tree) (new_ClientApp sample_settings) sample_events = Some (a, out)
    /\ length (ap_editors a) = 1%nat
    /\ (ap_quit a = true \/ ap_docs a = None \/ ap_docs_shown a = true
        \/ exists i w, ap_editors a !! i = Some w /\ wn_closed w = false).
Proof.
  destruct sample_run_ok as (a & out & E & H). exists a, out. split; [exact E|]. split; [exact H|].
  exact (app_has_window (Q := qt_basic) (J := json_tree) sample_settings sample_events a out E).
Defined.

(** An application with an open editor. *)
Definition sample_app : ClientApp (Q := qt_basic) :=
  mkClientApp (Q := qt_basic) 1 [97]
    (new_ConnectionDialog (Q := qt_basic) sample_settings) (Some (mkDocumentListWindow [] None (Tr "" []) 0 [] false)) false
    [new_EditorWindow (Q := qt_basic) 1 [97] sample_resp] [] false.
Lemma sample_app_ok es :
  match app_run (Q := qt_basic) (J := json_tree) sample_app es with
  | Some (a, _) => negb (ap_quit a) && match ap_editors a !! 0%nat with Some w => negb (wn_closed w) | None => false end
  | None => false
  end = true ->
  exists a out w, app_run (Q := qt_basic) (J := json_tree) sample_app es = Some (a, out)
    /\ ap_quit a = false /\ ap_editors a !! 0%nat = Some w /\ wn_closed w = false.
Proof.
  generalize (app_run (Q := qt_basic) (J := json_tree) sample_app es). intros [[a out]|] H; [|discriminate H].
  apply andb_prop in H as [H1 H2]. destruct (ap_editors a !! 0%nat) as [w|] eqn:Ew; [|discriminate H2].
  exists a, out, w. by rewrite <- (negb_involutive (ap_quit a)), <- (negb_involutive (wn_closed w)), H1, H2.
Qed.

Lemma editor_gets_every_message_witness :
  let es := [AeEmit (NsMessage "a"); AeTake; AeEmit (NsMessage "b"); AeEditor 0 WeSelection; AeTake; AeTake] in
  exists a out w, app_run (Q := qt_basic) (J := json_tree) sample_app es = Some (a, out) /\ ap_editors a !! 0%nat = Some w
    /\ signals (editor_inputs (Q := qt_basic) (J := json_tree) sample_app es 0) ++ mail (ToEditor 0) (ap_queue a)
       = [NsMessage "a"; NsMessage "b"].
Proof.
  intros es. destruct (sample_app_ok es) as (a & out & w & E & Hq & Hw & Ho); [vm_compute; reflexivity|].
  exists a, out, w. split; [exact E|]. split; [exact Hw|].
  destruct (editor_gets_every_message (Q := qt_basic) (J := json_tree) es sample_app a out 0
           (new_EditorWindow (Q := qt_basic) 1 [97] sample_resp) E Hq eq_refl) as (w' & Hw' & _ & H).
  apply H. rewrite Hw in Hw'. injection Hw' as <-. exact Ho.
Defined.

Lemma operation_lost_before_editor_witness :
  let a := mkClientApp (Q := qt_basic) 1 [97] (new_ConnectionDialog (Q := qt_basic) sample_settings)
    (Some (mkDocumentListWindow [] None (Tr "" []) 9 [] false)) true [] [] false in
  let lost := sample_text (to_json_OperationBroadcastMsg (J := json_tree)
                (mkOperationBroadcastMsg 9 2 "bob" 4 [mkOpEntry "insert" 0 "x" 0])) in
  exists a', app_run (Q := qt_basic) (J := json_tree) a
      [AeEmit (NsMessage (sample_text (to_json_DocJoinResponseMsg (J := json_tree) sample_resp)));
       AeEmit (NsMessage lost); AeTake; AeTake; AeTake; AeTake] = Some (a', [])
    /\ ap_queue a' = [] /\ ap_editors a' = [new_EditorWindow (Q := qt_basic) 1 [97] sample_resp].
Proof.
  intros a lost.
  apply (operation_lost_before_editor (Q := qt_basic) (J := json_tree) (L := json_tree_laws) a
           (mkDocumentListWindow [] None (Tr "" []) 9 [] false) sample_resp _ lost); try reflexivity.
  cbn. split_and!; [unfold is_u32; lia|unfold is_u32; lia|constructor|reflexivity].
Defined.

(** Two editors at once. A document is created and, before the answer, another one is
    opened: the answer reaches the hidden documents window, which joins the new document
    while the first editor is still open. *)
Example two_editors :
  let es := [AeEmit (NsMessage (sample_text (to_json_DocCreateResponseMsg (J := json_tree) (mkDocCreateResponseMsg true 10))));
             AeTake; AeTake; AeTake;
             AeEmit (NsMessage (sample_text (to_json_DocJoinResponseMsg (J := json_tree)
                      (mkDocJoinResponseMsg true 10 "new" "" 0 "owner" [] "")))); AeTake; AeTake; AeTake] in
  match app_run (Q := qt_basic) (J := json_tree) sample_app es with
  | Some (a, _) => forallb (fun w => negb (wn_closed w)) (ap_editors a) && (length (ap_editors a) =? 2)%nat
  | None => false
  end = true.
Proof. vm_compute. reflexivity. Qed.
