(* ===== verification/StyleSheet.v ===== *)
(** * The style sheet of the client (client/src/theme.cpp)

    The sheet is a text that the application gives to Qt. It is kept here as it is, with
    a function that reads from it which rules there are, for [Layout], which puts it
    beside the names that the windows give to their widgets. *)
From S2P Require Import Prelude ByteString.
Local Open Scope Z_scope.

(** A quotation mark. *)
Definition quote : string := String "034" "".

Definition stylesheet : string :=
  "
* {
    font-family: " +:+ quote +:+
  "Inter" +:+ quote +:+
  ", " +:+ quote +:+
  "SF Pro Text" +:+ quote +:+
  ", " +:+ quote +:+
  "Segoe UI" +:+ quote +:+
  ", " +:+ quote +:+
  "Helvetica Neue" +:+ quote +:+
  ", Arial, sans-serif;
    font-size: 13px;
}

QMainWindow, QDialog, QWidget {
    background: #f5f6f8;
    color: #1f2328;
}

QLabel {
    background: transparent;
}

QFrame#card {
    background: #ffffff;
    border: 1px solid #e1e4e8;
    border-radius: 10px;
}

QLabel#h1 {
    font-size: 22px;
    font-weight: 600;
    color: #1f2328;
}
QLabel#h2 {
    font-size: 15px;
    font-weight: 600;
    color: #1f2328;
}
QLabel#subtitle {
    color: #6a737d;
    font-size: 13px;
}
QLabel#muted {
    color: #6a737d;
    font-size: 12px;
}
QLabel#mono {
    font-family: " +:+ quote +:+
  "JetBrains Mono" +:+ quote +:+
  ", " +:+ quote +:+
  "SF Mono" +:+ quote +:+
  ", " +:+ quote +:+
  "Menlo" +:+ quote +:+
  ", " +:+ quote +:+
  "Consolas" +:+ quote +:+
  ", monospace;
    font-size: 12px;
    color: #1f2328;
}
QLabel#formLabel {
    color: #3b424a;
    font-weight: 500;
}

QLineEdit {
    background: #ffffff;
    border: 1px solid #d0d7de;
    border-radius: 6px;
    padding: 6px 10px;
    selection-background-color: #c6dcff;
    color: #1f2328;
}
QLineEdit:focus {
    border: 1px solid #2d6cdf;
}
QLineEdit:disabled {
    background: #f2f3f5;
    color: #9aa2ad;
}

QPushButton {
    background: #ffffff;
    color: #1f2328;
    border: 1px solid #d0d7de;
    border-radius: 6px;
    padding: 6px 14px;
    min-height: 22px;
}
QPushButton:hover { background: #f1f3f5; }
QPushButton:pressed { background: #e5e8eb; }
QPushButton:disabled { color: #9aa2ad; background: #f5f6f8; }

QPushButton#primary {
    background: #2d6cdf;
    color: #ffffff;
    border: 1px solid #2d6cdf;
    font-weight: 600;
}
QPushButton#primary:hover  { background: #1f58c2; border-color: #1f58c2; }
QPushButton#primary:pressed{ background: #174aa6; border-color: #174aa6; }
QPushButton#primary:disabled { background: #a9c1ed; border-color: #a9c1ed; color: #ffffff; }

QPushButton#danger {
    background: #ffffff;
    color: #d63a2f;
    border: 1px solid #f0b7b2;
}
QPushButton#danger:hover  { background: #fdecea; }
QPushButton#danger:pressed{ background: #f8d5d1; }

QListWidget {
    background: #ffffff;
    border: 1px solid #e1e4e8;
    border-radius: 8px;
    padding: 4px;
    outline: 0;
}
QListWidget::item {
    padding: 2px 2px;
    border-radius: 8px;
    margin: 2px 0;
}
QListWidget::item:selected {
    background: #eaf1ff;
    color: #1f2328;
}
QListWidget::item:hover:!selected {
    background: #f5f7fb;
}

QFrame#docCard {
    background: transparent;
    border: 1px solid transparent;
    border-radius: 8px;
}

QToolBar {
    background: #ffffff;
    border: none;
    border-bottom: 1px solid #e1e4e8;
    padding: 6px 10px;
    spacing: 6px;
}
QToolBar QToolButton {
    background: transparent;
    border: 1px solid transparent;
    border-radius: 6px;
    padding: 4px 10px;
    color: #1f2328;
}
QToolBar QToolButton:hover {
    background: #f1f3f5;
    border-color: #d0d7de;
}
QToolBar QToolButton:pressed {
    background: #e5e8eb;
}

QStatusBar {
    background: #ffffff;
    border-top: 1px solid #e1e4e8;
}
QStatusBar::item { border: none; }
QStatusBar QLabel { padding: 2px 8px; }

QDockWidget::title {
    background: #eef0f3;
    padding: 4px 8px;
    border-bottom: 1px solid #e1e4e8;
}

QPlainTextEdit {
    background: #ffffff;
    border: none;
    color: #1f2328;
    selection-background-color: #c6dcff;
    padding: 8px 12px;
}

QMessageBox, QInputDialog {
    background: #f5f6f8;
}

QToolTip {
    background: #1f2328;
    color: #ffffff;
    border: none;
    padding: 4px 8px;
    border-radius: 4px;
}
".

(** ** Its rules

    A rule is a list of selectors before a block in braces; no value of the sheet has a
    brace or, outside a block, a comma in it. *)
Definition is_space (c : ascii) : bool := bool_decide (c = " "%char \/ c = "010"%char).
Fixpoint skip_spaces (s : string) : string :=
  match s with String c rest => if is_space c then skip_spaces rest else s | "" => "" end.
Fixpoint reversed (s acc : string) : string :=
  match s with "" => acc | String c rest => reversed rest (String c acc) end.

(** [buf]: what has been read of the current word, backwards. *)
Definition word (buf : string) : string := skip_spaces (reversed (skip_spaces buf) "").
Inductive Reading := InSelectors (done : list string) | InBlock (selectors : list string).
Fixpoint read_rules (s buf : string) (st : Reading) : option (list (list string * string)) :=
  match s, st with
  | "", InSelectors [] => if String.eqb (word buf) "" then Some [] else None
  | "", _ => None
  | String "," rest, InSelectors done => read_rules rest "" (InSelectors (done ++ [word buf]))
  | String "{" rest, InSelectors done => read_rules rest "" (InBlock (done ++ [word buf]))
  | String "}" _, InSelectors _ => None
  | String "{" _, InBlock _ => None
  | String "}" rest, InBlock selectors =>
      rules ← read_rules rest "" (InSelectors []); Some ((selectors, word buf) :: rules)
  | String c rest, _ => read_rules rest (String c buf) st
  end%string.
Definition rules : list (list string * string) := default [] (read_rules stylesheet "" (InSelectors [])).
Definition selectors : list string := concat rules.*1.

Example stylesheet_reads : is_Some (read_rules stylesheet "" (InSelectors [])).
Proof. apply (bool_decide_eq_true_1 (is_Some _)). vm_compute. reflexivity. Qed.

(** The names of widgets that it mentions: [QLabel#h1] and [QPushButton#primary:hover]. *)
Definition letter (c : ascii) : bool :=
  let n := N_of_ascii c in ((48 <=? n) && (n <=? 57) || (65 <=? n) && (n <=? 90) || (97 <=? n) && (n <=? 122))%N.
Fixpoint take_letters (s : string) : string :=
  match s with String c rest => if letter c then String c (take_letters rest) else "" | "" => "" end.
Fixpoint drop_letters (s : string) : string :=
  match s with String c rest => if letter c then drop_letters rest else s | "" => "" end.
Definition named (selector : string) : option (string * string) :=
  match drop_letters selector with
  | String "#" rest => Some (take_letters selector, take_letters rest)
  | _ => None
  end.
Definition names : list (string * string) := remove_dups (omap named selectors).
