(* ===== verification/Layout.v ===== *)
(** * The look of the client's windows (client/src/connection_dialog.cpp,
    client/src/document_list_window.cpp, client/src/editor_window.cpp,
    client/src/user_panel_widget.cpp, client/src/status_bar_widget.cpp)

    A window is a tree of widgets and layouts, which is a function of its state: the
    widgets that [buildUi] makes and puts into layouts, with what the slots write into
    them. Beside it, what a click on each of its buttons does ([wireSignals]), and the
    style sheet ([StyleSheet]). Where Qt puts the widgets on the screen is Qt's. *)
From stdpp Require Import pretty.
From S2P Require Import Prelude ByteString Json Protocol Frames Qt Widgets EditorWidget EditorWindow DocumentListWindow ConnectionDialog ClientApp.
From S2P Require Import StyleSheet.
Local Open Scope Z_scope.

Section Layout.
Context {Q : Qt} {J : Json}.

(** ** Widgets and layouts *)

(** What is set on a widget when it is made, as far as it is not its text. *)
Inductive Setting :=
| Placeholder (t : Text) | EchoPassword | IntValidator (bottom top : Z)
| Default | Enabled (b : bool) | WordWrap | AlignCenter | StyleSheetOf (t : Text)
| MinimumWidth (n : Z) | Size (width height : Z) | WindowTitle (t : Text)
| PointSizePlus (tenths : Z) | Bold
| NoFocus | NoFrame | NoSelection | SingleSelection | NoUniformSizes | IconSize (n : Z) | ItemSpacing (n : Z)
| ReadOnly (b : bool)
| NotMovable | NotFloatable | NoContextMenu | TextOnly | Movable | Floatable | NoSizeGrip.

Inductive Direction := Vertical | Horizontal.
Inductive Area := Central | DockRight | InDock | ToolBar | StatusBar | Permanent | ItemOf (data : Z).

(** The painting of an icon. *)
Inductive IconPaint :=
| FillTransparent (width height : Z) | Antialiasing | Pen (color : QColor) (width : Z) | Brush (color : QColor)
| DrawEllipse (x y width height : Z).

Inductive Shortcut := CloseKey | Keys (sequence : string).

(** A widget: its class, the member of its window that points to it, its object name,
    its text, its settings, and what is inside. A label of a form is in one row with its
    field. *)
#[local] Unset Elimination Schemes.
Inductive Widget :=
  mkWidget (cls member objectName : string) (shown : option Text) (settings : list Setting) (inside : list Item)
with Item :=
| AddWidget (w : Widget) (stretch : Z)
| AddSpacing (n : Z)
| AddStretch
| AddLayout (d : Direction) (margins : option (Z * Z * Z * Z)) (spacing : option Z) (items : list Item)
| AddForm (horizontal vertical : Z) (rows : list Item)
| AddRow (label field : Widget)
| AddAction (variable : string) (shown : Text) (shortcut : Shortcut) (toolTip : Text)
| AddItem (icon : list IconPaint) (shown : Text) (bold : bool)
| Hold (where_ : Area) (w : Widget).

#[local] Set Elimination Schemes.

(** Every widget of a tree. *)
Fixpoint widgets (w : Widget) : list Widget :=
  match w with mkWidget _ _ _ _ _ inside => w :: flat_map item_widgets inside end
with item_widgets (i : Item) : list Widget :=
  match i with
  | AddWidget w _ | Hold _ w => widgets w
  | AddLayout _ _ _ items | AddForm _ _ items => flat_map item_widgets items
  | AddRow label field => widgets label ++ widgets field
  | AddSpacing _ | AddStretch | AddAction _ _ _ _ | AddItem _ _ _ => []
  end.
Definition w_class (w : Widget) : string := match w with mkWidget c _ _ _ _ _ => c end.
Definition w_member (w : Widget) : string := match w with mkWidget _ m _ _ _ _ => m end.
Definition w_name (w : Widget) : string := match w with mkWidget _ _ n _ _ _ => n end.
Definition w_shown (w : Widget) : option Text := match w with mkWidget _ _ _ t _ _ => t end.
Definition w_settings (w : Widget) : list Setting := match w with mkWidget _ _ _ _ s _ => s end.

Definition add (w : Widget) : Item := AddWidget w 0.
Definition label (member name : string) (t : Text) (settings : list Setting) : Widget :=
  mkWidget "QLabel" member name (Some t) settings [].
Definition text (s : string) : Text := Tr s [].

(** ** ConnectionDialog *)

Definition makeFormLabel (t : Text) : Widget := label "" "formLabel" t [].

Definition line_edit (member : string) (contents : QString) (enabled : bool) (settings : list Setting) : Widget :=
  mkWidget "QLineEdit" member "" (Some (TextOf contents)) (settings ++ [Enabled enabled]) [].
Definition button (member name : string) (t : string) (settings : list Setting) : Widget :=
  mkWidget "QPushButton" member name (Some (text t)) settings [].

Definition connection_dialog (d : ConnectionDialog) : Widget :=
  let enabled := cd_inputs_enabled d in
  let title := label "" "h1" (text "Collab Editor") [] in
  let subtitle := label "" "subtitle" (text "Sign in or create a new account.") [] in
  let host_edit := line_edit "host_edit_" (cd_host_edit d) enabled [Placeholder (text "127.0.0.1")] in
  let port_edit := line_edit "port_edit_" (cd_port_edit d) enabled [IntValidator 1 65535; Placeholder (text "9000")] in
  let username_edit := line_edit "username_edit_" (cd_username_edit d) enabled [Placeholder (text "username")] in
  let password_edit := line_edit "password_edit_" (cd_password_edit d) enabled [EchoPassword; Placeholder (text "password")] in
  let login_btn := button "login_btn_" "primary" "Sign in" [Default; Enabled enabled] in
  let register_btn := button "register_btn_" "" "Register" [Enabled enabled] in
  let status_label := label "status_label_" "muted" (cd_status d) [WordWrap] in
  let form := AddForm 12 8
    [AddRow (makeFormLabel (text "Host")) host_edit; AddRow (makeFormLabel (text "Port")) port_edit;
     AddRow (makeFormLabel (text "Username")) username_edit; AddRow (makeFormLabel (text "Password")) password_edit] in
  let buttons := AddLayout Horizontal None None [add register_btn; AddStretch; add login_btn] in
  let card := mkWidget "QFrame" "" "card" None []
    [AddLayout Vertical (Some (24, 22, 24, 22)) (Some 12)
      [add title; add subtitle; AddSpacing 6; form; AddSpacing 4; buttons; add status_label]] in
  mkWidget "ConnectionDialog" "" "" None [WindowTitle (text "Collab Editor"); MinimumWidth 420]
    [AddLayout Vertical (Some (16, 16, 16, 16)) None [add card]].

Definition dialog_clicked (member : string) : option DialogEvent :=
  if String.eqb member "login_btn_" then Some DeLogin
  else if String.eqb member "register_btn_" then Some DeRegister
  else None.

(** ** DocumentListWindow *)

Definition of_label (l : QLabel) : Widget :=
  mkWidget "QLabel" "" "" (Some (label_text l))
    (match label_style l with Some t => [StyleSheetOf t] | None => [] end ++ [AlignCenter]) [].

Definition card_widget (c : DocCard) : Widget :=
  let title := label "" "" (TextOf (card_title c)) [PointSizePlus 15; Bold] in
  let id_label := label "" "muted" (card_id c) [] in
  let top := AddLayout Horizontal (Some (0, 0, 0, 0)) None [add title; AddStretch; add id_label] in
  let meta := AddLayout Horizontal (Some (0, 0, 0, 0)) (Some 6)
    [add (of_label (card_role c)); add (of_label (card_online c)); AddStretch] in
  mkWidget "QFrame" "" "docCard" None [] [AddLayout Vertical (Some (12, 10, 12, 10)) (Some 6) [top; meta]].

Definition documents_window (username : QString) (w : DocumentListWindow) : Widget :=
  let header := label "" "h1" (text "Your documents") [] in
  let subheader := label "" "subtitle" (Tr "Signed in as %1" [ArgString username]) [] in
  let list_ := mkWidget "QListWidget" "list_" "" None [ItemSpacing 0; SingleSelection; NoUniformSizes]
    ((fun '(id, card) => Hold (ItemOf id) (card_widget card)) <$> dl_items w) in
  let new_btn := button "new_btn_" "primary" "New document" [] in
  let open_btn := button "open_btn_" "" "Open" [] in
  let share_btn := button "share_btn_" "" "Share" [] in
  let delete_btn := button "delete_btn_" "danger" "Delete" [] in
  let refresh_btn := button "refresh_btn_" "" "Refresh" [] in
  let status := label "status_" "muted" (dl_status w) [] in
  let buttons := AddLayout Horizontal None (Some 8)
    [add new_btn; add open_btn; add share_btn; add delete_btn; AddStretch; add refresh_btn] in
  let central := mkWidget "QWidget" "" "" None []
    [AddLayout Vertical (Some (20, 18, 20, 16)) (Some 10)
      [add header; add subheader; AddSpacing 4; buttons; AddWidget list_ 1; add status]] in
  mkWidget "DocumentListWindow" "" "" None [WindowTitle (Tr "Documents — %1" [ArgString username]); Size 720 560]
    [Hold Central central].

(** What a click does; [input] and [ok] are the answer of the input dialog it opens. *)
Definition documents_clicked (member : string) (input : QString) (ok : bool) : option ListEvent :=
  if String.eqb member "new_btn_" then Some (EvNew input ok)
  else if String.eqb member "open_btn_" then Some EvOpen
  else if String.eqb member "delete_btn_" then Some EvDelete
  else if String.eqb member "share_btn_" then Some (EvShare input ok)
  else if String.eqb member "refresh_btn_" then Some EvRefresh
  else None.
(** A double click on an item selects it and opens it. *)
Definition documents_double_clicked (row : nat) : list ListEvent := [EvSelect (Some row); EvOpen].

(** ** The parts of EditorWindow *)

Definition dot_icon (color : QColor) : list IconPaint :=
  [FillTransparent 18 18; Antialiasing; Pen (darker color 140) 1; Brush color; DrawEllipse 2 2 14 14].

Definition user_panel (p : UserPanelWidget) : Widget :=
  let header := label "header_" "h2" (up_header p) [] in
  let list_ := mkWidget "QListWidget" "list_" "" None [NoFocus; NoFrame; NoSelection; IconSize 18]
    ((fun r => AddItem (dot_icon (pr_color r)) (pr_label r) (pr_bold r)) <$> up_rows p) in
  mkWidget "UserPanelWidget" "user_panel_" "" None [MinimumWidth 220]
    [AddLayout Vertical (Some (10, 10, 10, 10)) (Some 8) [add header; AddWidget list_ 1]].

Definition status_bar (s : StatusBarWidget) : Widget :=
  let cursor_label := label "cursor_label_" "mono" (sb_cursor s) [] in
  let revision_label := label "revision_label_" "mono" (sb_revision s) [] in
  let state_label := label "state_label_" "" (label_text (sb_state s))
    (match label_style (sb_state s) with Some t => [StyleSheetOf t] | None => [] end ++ [AlignCenter; MinimumWidth 44]) in
  let online_label := label "online_label_" "muted" (sb_online s) [] in
  mkWidget "StatusBarWidget" "status_" "" (fst <$> sb_message s) [NoSizeGrip]
    [Hold Permanent cursor_label; Hold Permanent revision_label; Hold Permanent state_label; Hold Permanent online_label].

Definition tool_bar : Widget :=
  mkWidget "QToolBar" "" "DocumentToolBar" (Some (text "Document")) [NotMovable; NotFloatable; NoContextMenu; TextOnly]
    [AddAction "leave" (text "← Documents") CloseKey (text "Return to the document list (Ctrl+W)");
     AddAction "share" (text "Share…") (Keys "Ctrl+Shift+S") (text "Grant editor access to another user (Ctrl+Shift+S)")].
Definition triggered (variable : string) (input : QString) (ok : bool) : option WindowEvent :=
  if String.eqb variable "leave" then Some WeClose
  else if String.eqb variable "share" then Some (WeShare input ok)
  else None.

Definition editor_window (w : EditorWindow) : Widget :=
  let editor := mkWidget "EditorWidget" "editor_" "" (Some (TextOf (ew_document (wn_editor w))))
    [ReadOnly (ew_read_only (wn_editor w))] [] in
  let dock := mkWidget "QDockWidget" "" "" (Some (text "Users")) [Movable; Floatable]
    [Hold InDock (user_panel (wn_panel w))] in
  mkWidget "EditorWindow" "" "" None [WindowTitle (wn_title w); Size 1100 680]
    [Hold Central editor; Hold DockRight dock; Hold StatusBar (status_bar (wn_status w)); Hold ToolBar tool_bar].

(** ** The application (client/src/main.cpp, client/src/logging.cpp) *)

Definition logNet : string := "collab.net".
Definition logOt : string := "collab.ot".
Definition logEditor : string := "collab.editor".
Definition logDocs : string := "collab.docs".
Definition logCursors : string := "collab.cursors".
Definition logAuth : string := "collab.auth".
Definition categories : list string := [logNet; logOt; logEditor; logDocs; logCursors; logAuth].

Inductive Configure :=
| SetOrganizationName (s : string) | SetApplicationName (s : string) | SetStyle (s : string)
| SetStyleSheet (s : string) | SetFilterRules (lines : list string).
Definition configureApplication (logging_rules_empty : bool) : list Configure :=
  [SetOrganizationName "collab"; SetApplicationName "collab-client"; SetStyle "Fusion"; SetStyleSheet stylesheet]
  ++ if logging_rules_empty then
       [SetFilterRules ["collab.*.info=true"; "collab.*.warning=true"; "collab.*.critical=true"; "collab.*.debug=false"]]
     else [].
End Layout.

(** ** The windows and the style sheet *)

Lemma names_of_sheet :
  names = [("QFrame", "card"); ("QLabel", "h1"); ("QLabel", "h2"); ("QLabel", "subtitle"); ("QLabel", "muted");
           ("QLabel", "mono"); ("QLabel", "formLabel"); ("QPushButton", "primary"); ("QPushButton", "danger");
           ("QFrame", "docCard")]%string.
Proof. vm_compute. reflexivity. Qed.

Section Looks.
Context {Q : Qt} {J : Json}.

Definition key (w : Widget) : string * string := (w_class w, w_name w).
(** The widget has no name of its own, or the sheet has a rule for it. *)
Definition styled (w : Widget) : Prop := w_name w = "" \/ key w ∈ names.

Lemma widgets_items {A} (f : A -> Item) (l : list A) (P : Widget -> Prop) :
  (forall x, Forall P (item_widgets (f x))) -> Forall P (flat_map item_widgets (f <$> l)).
Proof. intros H. induction l as [|x l IH]; cbn; [constructor|]. apply Forall_app. by split. Qed.

(** Goes through a tree that is known but for its lists. *)
Ltac each_widget tac :=
  repeat lazymatch goal with
  | |- Forall _ [] => constructor
  | |- Forall _ (_ ++ _) => apply Forall_app; split
  | |- Forall _ (_ :: _) => constructor; [solve [tac]|]
  | |- Forall _ (flat_map _ (_ <$> _)) => apply widgets_items
  end.
Ltac is_styled := first [by left|right; cbn; rewrite names_of_sheet; set_solver].

Lemma card_styled c : Forall styled (widgets (card_widget c)).
Proof. cbn. each_widget is_styled. Qed.
Lemma panel_styled p : Forall styled (widgets (user_panel p)).
Proof. cbn. each_widget is_styled. intros x. constructor. Qed.
Lemma status_styled s : Forall styled (widgets (status_bar s)).
Proof. cbn. each_widget is_styled. Qed.
Lemma dialog_styled d : Forall styled (widgets (connection_dialog d)).
Proof. cbn. each_widget is_styled. Qed.
Lemma documents_styled u w : Forall styled (widgets (documents_window u w)).
Proof.
  cbn. each_widget is_styled. intros [id c]. apply card_styled.
Qed.
Lemma editor_styled w : Forall (fun x => x = tool_bar \/ styled x) (widgets (editor_window w)).
Proof.
  cbn. each_widget ltac:(first [right; is_styled|by left]). intros x. constructor.
Qed.

(** Every name in the sheet is that of a widget. *)
Ltac find_in :=
  lazymatch goal with
  | |- _ ∈ _ :: _ => first [apply list_elem_of_here|apply list_elem_of_further; find_in]
  | |- _ ∈ _ ++ _ => apply elem_of_app; first [left; find_in|right; find_in]
  end.
Lemma names_used d u l w : dl_items l <> [] ->
  Forall (fun n => n ∈ key <$> widgets (connection_dialog d) ++ widgets (documents_window u l) ++ widgets (editor_window w)) names.
Proof.
  intros Hl. rewrite names_of_sheet. destruct (dl_items l) as [|[id c] items] eqn:E; [done|].
  cbn. rewrite E. cbn. repeat (rewrite fmap_app; cbn). repeat (constructor; [solve [find_in]|]). constructor.
Qed.

(** ** The buttons *)

Definition buttons (w : Widget) : list Widget := List.filter (fun x => String.eqb (w_class x) "QPushButton") (widgets w).

(** What the user can use of the dialog follows [setInputsEnabled]. *)
Definition is_input (w : Widget) : Prop := w_class w = "QLineEdit"%string \/ w_class w = "QPushButton"%string.
Lemma dialog_inputs d :
  Forall (fun x => is_input x -> Enabled (cd_inputs_enabled d) ∈ w_settings x) (widgets (connection_dialog d)).
Proof. cbn. each_widget ltac:(first [by intros [?|?]|intros _; cbn; set_solver]). Qed.

Lemma dialog_buttons d :
  buttons (connection_dialog d) =
  [button "register_btn_" "" "Register" [Enabled (cd_inputs_enabled d)];
   button "login_btn_" "primary" "Sign in" [Default; Enabled (cd_inputs_enabled d)]].
Proof. reflexivity. Qed.
Lemma documents_buttons u w :
  w_member <$> buttons (documents_window u w) =
  ["new_btn_"; "open_btn_"; "share_btn_"; "delete_btn_"; "refresh_btn_"]%string.
Proof.
  unfold buttons. cbn. rewrite !List.filter_app. cbn.
  replace (List.filter _ (flat_map _ _)) with (@nil Widget); [done|].
  symmetry. induction (dl_items w) as [|[id c] items IH]; [done|]. cbn [fmap list_fmap flat_map].
  rewrite List.filter_app, IH, app_nil_r. reflexivity.
Qed.
(** Every button of the two windows is connected to a slot, and no two to the same. *)
Lemma buttons_connected d u w input ok :
  Forall (fun b => is_Some (dialog_clicked (w_member b))) (buttons (connection_dialog d))
  /\ Forall (fun b => is_Some (documents_clicked (w_member b) input ok)) (buttons (documents_window u w))
  /\ NoDup (dialog_clicked <$> (w_member <$> buttons (connection_dialog d)))
  /\ NoDup ((fun m => documents_clicked m input ok) <$> (w_member <$> buttons (documents_window u w))).
Proof.
  assert (Forall (fun m => is_Some (documents_clicked m input ok)) (w_member <$> buttons (documents_window u w))) as H.
  { rewrite documents_buttons. repeat constructor; cbn; by eexists. }
  rewrite dialog_buttons, documents_buttons. split_and!.
  - repeat constructor; cbn; by eexists.
  - by rewrite Forall_fmap in H.
  - cbn. repeat (apply NoDup_cons; split; [set_solver|]). constructor.
  - cbn. repeat (apply NoDup_cons; split; [set_solver|]). constructor.
Qed.

(** A dialog that waits for the server takes no click. *)
Lemma disabled_button d b e : b ∈ buttons (connection_dialog d) -> dialog_clicked (w_member b) = Some e ->
  Enabled false ∈ w_settings b -> dialog_event d e = (d, []).
Proof.
  rewrite dialog_buttons. intros Hb He Hd.
  assert (cd_inputs_enabled d = false) as E.
  { rewrite !elem_of_cons, elem_of_nil in Hb. destruct Hb as [-> |[-> |[]]]; cbn in Hd;
      rewrite !elem_of_cons, elem_of_nil in Hd; naive_solver congruence. }
  rewrite !elem_of_cons, elem_of_nil in Hb. destruct Hb as [-> |[-> |[]]]; cbn in He; injection He as <-;
    unfold dialog_event; by rewrite E.
Qed.

(** A document's card is on the item that carries its id, also after a new list. *)
Lemma card_on_its_item w msg id c :
  Hold (ItemOf id) c ∈ (fun '(id, card) => Hold (ItemOf id) (card_widget card)) <$> dl_items (applyDocList w msg) ->
  exists x, In (label "" "muted" (Tr "#%1" [ArgNumber id]) x) (widgets c).
Proof.
  intros Hin. cbn [applyDocList dl_items] in Hin. rewrite <- list_fmap_compose in Hin.
  apply list_elem_of_fmap in Hin as (e & [= -> ->] & _). exists []. cbn. auto 10.
Qed.
End Looks.

(** The filter rules are about every category of the client: a pattern with a star at its
    end is about the names with that beginning. *)
Lemma categories_filtered (about : string -> string -> bool) :
  (forall beginning rest, about (beginning +:+ "*") (beginning +:+ rest) = true) ->
  Forall (fun c => about "collab.*"%string c = true) categories.
Proof. intros H. repeat constructor; apply (H "collab."%string). Qed.
