(* ===== verification/ServerConfig.v ===== *)
(** * The server's configuration (server/include/server/server_config.h,
    server/src/server_config.cpp)

    The contents of the file are an argument, [None] when it cannot be opened. Every line
    written to the standard error is an output. [None] as the result is an exception that
    [load_config] does not catch. *)
From S2P Require Import Prelude ByteString Json.
Local Open Scope Z_scope.

Record ServerConfig := mkServerConfig {
  port : Z;                              (* uint16_t *)
  thread_pool_size : Z;                  (* size_t *)
  autosave_interval_sec : Z;
  cursor_broadcast_interval_ms : Z;
  idle_document_timeout_sec : Z;
  snapshot_revision_threshold : Z;
  data_dir : string;
  shutdown_timeout_sec : Z;
  log_level : string;
  log_console : bool;
}.

Definition default_config : ServerConfig :=
  mkServerConfig 9000 0 30 100 300 100 "./data" 10 "info" true.

(** [hw] is [std::thread::hardware_concurrency()]. *)
Definition effective_thread_pool_size (c : ServerConfig) (hw : Z) : Z :=
  if 0 <? thread_pool_size c then thread_pool_size c else if 0 <? hw then hw else 4.

Section Load.
Context {J : Json}.

(** The lambda [get]: the new value of the field, and the complaint. *)
Definition get_field {T} (j : json) (from : json -> option T) (key : string) (field : T) : T * list string :=
  if json_contains j key then
    match json_at j key ≫= from with
    | Some v => (v, [])
    | None => (field, ["Invalid value for " +:+ key +:+ ", using default"])
    end
  else (field, []).

Definition load_json (j : json) (c : ServerConfig) : ServerConfig * list string :=
  let '(port, e1) := get_field j get_uint16 "port" (port c) in
  let '(thread_pool_size, e2) := get_field j get_size "thread_pool_size" (thread_pool_size c) in
  let '(autosave_interval_sec, e3) := get_field j get_uint32 "autosave_interval_sec" (autosave_interval_sec c) in
  let '(cursor_broadcast_interval_ms, e4) :=
    get_field j get_uint32 "cursor_broadcast_interval_ms" (cursor_broadcast_interval_ms c) in
  let '(idle_document_timeout_sec, e5) :=
    get_field j get_uint32 "idle_document_timeout_sec" (idle_document_timeout_sec c) in
  let '(snapshot_revision_threshold, e6) :=
    get_field j get_uint32 "snapshot_revision_threshold" (snapshot_revision_threshold c) in
  let '(data_dir, e7) := get_field j get_string "data_dir" (data_dir c) in
  let '(shutdown_timeout_sec, e8) := get_field j get_uint32 "shutdown_timeout_sec" (shutdown_timeout_sec c) in
  let '(log_level, e9) := get_field j get_string "log_level" (log_level c) in
  let '(log_console, e10) := get_field j get_bool "log_console" (log_console c) in
  (mkServerConfig port thread_pool_size autosave_interval_sec cursor_broadcast_interval_ms
     idle_document_timeout_sec snapshot_revision_threshold data_dir shutdown_timeout_sec log_level log_console,
   e1 ++ e2 ++ e3 ++ e4 ++ e5 ++ e6 ++ e7 ++ e8 ++ e9 ++ e10).

Definition load_config (path what : string) (file : option string) : option (ServerConfig * list string) :=
  let config := default_config in
  match file with
  | None => Some (config, ["Config file not found: " +:+ path +:+ ", using defaults"])
  | Some contents =>
      match json_read contents with
      | ReadParseError => Some (config, ["Failed to parse config: " +:+ what +:+ ", using defaults"])
      | ReadException => None
      | ReadValue j => Some (load_json j config)
      end
  end.

(** ** Well-formed configurations *)

Definition config_ok (c : ServerConfig) : Prop :=
  0 <= port c < 65536 /\ is_u64 (thread_pool_size c) /\ is_u32 (autosave_interval_sec c)
  /\ is_u32 (cursor_broadcast_interval_ms c) /\ is_u32 (idle_document_timeout_sec c)
  /\ is_u32 (snapshot_revision_threshold c) /\ is_u32 (shutdown_timeout_sec c).

(** The configuration file that says it all. *)
Definition config_json (c : ServerConfig) : json :=
  json_object [("port", json_number (port c)); ("thread_pool_size", json_number (thread_pool_size c));
    ("autosave_interval_sec", json_number (autosave_interval_sec c));
    ("cursor_broadcast_interval_ms", json_number (cursor_broadcast_interval_ms c));
    ("idle_document_timeout_sec", json_number (idle_document_timeout_sec c));
    ("snapshot_revision_threshold", json_number (snapshot_revision_threshold c));
    ("data_dir", json_string (data_dir c)); ("shutdown_timeout_sec", json_number (shutdown_timeout_sec c));
    ("log_level", json_string (log_level c)); ("log_console", json_bool (log_console c))].

Context {L : JsonLaws J}.

(** A field is the value in the file when it is there and has the right type, else what
    it was. *)
Lemma get_field_spec {T} j (from : json -> option T) key field :
  fst (get_field j from key field) = default field (json_at j key ≫= from)
  /\ (snd (get_field j from key field) = [] <-> (is_Some (json_at j key) -> is_Some (json_at j key ≫= from))).
Proof.
  unfold get_field. rewrite json_contains_at. destruct (json_at j key) as [v|]; cbn.
  - destruct (from v); cbn; split; try done. split; [done|]. intros H. by destruct (H (mk_is_Some _ _ eq_refl)).
  - split; [done|]. split; [by intros _ []|done].
Qed.
Lemma get_field_range {T} (P : T -> Prop) j (from : json -> option T) key field :
  (forall j v, from j = Some v -> P v) -> P field -> P (fst (get_field j from key field)).
Proof.
  intros Hf Hd. rewrite (proj1 (get_field_spec _ _ _ _)). destruct (json_at j key) as [v|]; [|done].
  cbn. destruct (from v) eqn:E; [by eapply Hf|done].
Qed.

Lemma load_json_fields j c : fst (load_json j c) = mkServerConfig
  (fst (get_field j get_uint16 "port" (port c))) (fst (get_field j get_size "thread_pool_size" (thread_pool_size c)))
  (fst (get_field j get_uint32 "autosave_interval_sec" (autosave_interval_sec c)))
  (fst (get_field j get_uint32 "cursor_broadcast_interval_ms" (cursor_broadcast_interval_ms c)))
  (fst (get_field j get_uint32 "idle_document_timeout_sec" (idle_document_timeout_sec c)))
  (fst (get_field j get_uint32 "snapshot_revision_threshold" (snapshot_revision_threshold c)))
  (fst (get_field j get_string "data_dir" (data_dir c)))
  (fst (get_field j get_uint32 "shutdown_timeout_sec" (shutdown_timeout_sec c)))
  (fst (get_field j get_string "log_level" (log_level c))) (fst (get_field j get_bool "log_console" (log_console c))).
Proof. unfold load_json. repeat destruct (get_field _ _ _ _). done. Qed.

Lemma load_json_ok j c : config_ok c -> config_ok (fst (load_json j c)).
Proof.
  intros (H1 & H2 & H3 & H4 & H5 & H6 & H7). rewrite load_json_fields. unfold config_ok.
  cbn [port thread_pool_size autosave_interval_sec cursor_broadcast_interval_ms idle_document_timeout_sec
       snapshot_revision_threshold shutdown_timeout_sec].
  split; [apply (get_field_range (fun x => 0 <= x < 65536))|split; [apply (get_field_range is_u64)|]];
    eauto using json_get_uint16_range, json_get_size_range.
  split_and!; apply (get_field_range is_u32); eauto using json_get_uint32_range.
Qed.

Lemma load_config_ok path what file c complaints : load_config path what file = Some (c, complaints) -> config_ok c.
Proof.
  intros E. assert (config_ok default_config) as Hd by (repeat split; done). unfold load_config in E.
  destruct file as [contents|]; [|by injection E as <- <-].
  destruct (json_read contents) as [j| |]; [|by injection E as <- <-|done].
  injection E as E. pose proof (load_json_ok j default_config Hd) as Hj. by rewrite E in Hj.
Qed.
End Load.

(** ** Properties *)

(** The server always starts on a configuration it can use. Whatever the file holds,
    if it is there at all, the port fits 16 bits and every other number its type, and the
    number of threads is positive whether it is configured or taken from the hardware. *)
Theorem config_in_range {J : Json} {L : JsonLaws J} path what file c complaints hw :
  load_config path what file = Some (c, complaints) -> is_u32 hw ->
  0 <= port c < 65536 /\ is_u64 (thread_pool_size c)
  /\ is_u32 (autosave_interval_sec c) /\ is_u32 (cursor_broadcast_interval_ms c)
  /\ is_u32 (idle_document_timeout_sec c) /\ is_u32 (snapshot_revision_threshold c)
  /\ is_u32 (shutdown_timeout_sec c) /\ 1 <= effective_thread_pool_size c hw < u64_mod.
Proof.
  intros (H1 & H2 & H3 & H4 & H5 & H6 & H7)%load_config_ok Hhw.
  do 7 (split; [done|]). unfold effective_thread_pool_size, is_u32, is_u64 in *. zcases; lia.
Qed.

Lemma config_in_range_witness :
  let bad := [("port", json_number 70000); ("thread_pool_size", json_string "many")] in
  let file := pos_text (encode (json_object (Json := json_tree) bad : JsonTree)) in
  exists c complaints, load_config (J := json_tree) "config.json" "" (Some file) = Some (c, complaints)
    /\ 1 <= effective_thread_pool_size c 0 < u64_mod.
Proof.
  intros bad file.
  destruct (load_config (J := json_tree) "config.json" "" (Some file)) as [[c complaints]|] eqn:E; [|discriminate E].
  exists c, complaints. split; [reflexivity|].
  refine (proj2 (proj2 (proj2 (proj2 (proj2 (proj2 (proj2
    (config_in_range (J := json_tree) "config.json" "" (Some file) c complaints 0 E _)))))))). decide_now.
Defined.

(** C39: a bad entry costs that entry only. A file that cannot be opened or parsed leaves
    every default and one complaint. In a file that can be read, every field is the value
    the file gives it, read at the field's own type, and the default where the file gives
    none or one of another type; there is no complaint exactly when every entry that is
    there is of its type. *)
Theorem config_errors {J : Json} {L : JsonLaws J} path what :
  load_config path what None = Some (default_config, ["Config file not found: " +:+ path +:+ ", using defaults"])
  /\ forall contents,
    match json_read contents with
    | ReadParseError =>
        load_config path what (Some contents)
        = Some (default_config, ["Failed to parse config: " +:+ what +:+ ", using defaults"])
    | ReadException => load_config path what (Some contents) = None
    | ReadValue j =>
        exists complaints,
          load_config path what (Some contents) = Some (mkServerConfig
            (default 9000 (json_at j "port" ≫= get_uint16))
            (default 0 (json_at j "thread_pool_size" ≫= get_size))
            (default 30 (json_at j "autosave_interval_sec" ≫= get_uint32))
            (default 100 (json_at j "cursor_broadcast_interval_ms" ≫= get_uint32))
            (default 300 (json_at j "idle_document_timeout_sec" ≫= get_uint32))
            (default 100 (json_at j "snapshot_revision_threshold" ≫= get_uint32))
            (default "./data"%string (json_at j "data_dir" ≫= get_string))
            (default 10 (json_at j "shutdown_timeout_sec" ≫= get_uint32))
            (default "info"%string (json_at j "log_level" ≫= get_string))
            (default true (json_at j "log_console" ≫= get_bool)), complaints)
          /\ (complaints = [] <->
               let typed {T} (from : json -> option T) key :=
                 is_Some (json_at j key) -> is_Some (json_at j key ≫= from) in
               typed get_uint16 "port" /\ typed get_size "thread_pool_size"
               /\ typed get_uint32 "autosave_interval_sec" /\ typed get_uint32 "cursor_broadcast_interval_ms"
               /\ typed get_uint32 "idle_document_timeout_sec" /\ typed get_uint32 "snapshot_revision_threshold"
               /\ typed get_string "data_dir" /\ typed get_uint32 "shutdown_timeout_sec"
               /\ typed get_string "log_level" /\ typed get_bool "log_console")%string
    end.
Proof.
  split; [done|]. intros contents. unfold load_config. destruct (json_read contents) as [j| |]; [|done|done].
  exists (snd (load_json j default_config)). split.
  - f_equal. rewrite (surjective_pairing (load_json j default_config)), load_json_fields.
    by rewrite !(fun T from key field => proj1 (get_field_spec (T := T) j from key field)).
  - unfold load_json, default_config. cbn [port thread_pool_size autosave_interval_sec cursor_broadcast_interval_ms
      idle_document_timeout_sec snapshot_revision_threshold data_dir shutdown_timeout_sec log_level log_console].
    repeat match goal with
    | |- context [get_field j ?from ?key ?field] =>
        pose proof (proj2 (get_field_spec j from key field)); destruct (get_field j from key field); cbn [snd] in *
    end.
    rewrite !app_nil. cbv zeta. naive_solver.
Qed.

Lemma config_errors_witness :
  let j := json_object (Json := json_tree) [("port"%string, json_string (Json := json_tree) "http"); ("log_console"%string, json_bool (Json := json_tree) false)] in
  let contents := pos_text (encode (j : JsonTree)) in
  exists complaints,
    load_config (J := json_tree) "config.json" "" (Some contents)
    = Some (mkServerConfig 9000 0 30 100 300 100 "./data" 10 "info" false, complaints)
    /\ complaints <> [].
Proof.
  intros j contents. pose proof (proj2 (config_errors (J := json_tree) (L := json_tree_laws) "config.json" "") contents) as H.
  assert (json_read (Json := json_tree) contents = ReadValue j) as E by reflexivity. rewrite E in H.
  destruct H as (complaints & H1 & H2). exists complaints. split; [exact H1|]. intros H3. apply H2 in H3 as [H3 _].
  assert (is_Some (json_at (Json := json_tree) j "port" ≫= get_uint16 (Json := json_tree))) as [v Hv] by (apply H3; by eexists).
  vm_compute in Hv. discriminate Hv.
Defined.

(** A number that does not fit is not an error. A port the configuration gives outside
    16 bits is cut to 16 bits without a complaint, and the default is not used. *)
Theorem config_wraps_port {J : Json} {L : JsonLaws J} path what contents n :
  json_dump (json_object [("port"%string, json_number n)]) = Some contents -> - i32_half <= n < i32_half ->
  exists c, load_config path what (Some contents) = Some (c, []) /\ port c = n mod 65536.
Proof.
  intros Hd%json_read_dump Hn. unfold load_config. rewrite Hd.
  set (j := json_object _). assert (forall key, json_at j key = assoc key [("port"%string, json_number n)]) as Hat.
  { intros key. apply json_at_object. repeat constructor. by intros ?%elem_of_nil. }
  exists (fst (load_json j default_config)).
  rewrite (surjective_pairing (load_json j default_config)) at 1.
  unfold load_json, get_field. rewrite !json_contains_at, !Hat. cbn [assoc].
  repeat (rewrite bool_decide_true by done || rewrite bool_decide_false by done). cbn.
  by rewrite json_get_uint16.
Qed.

Lemma config_wraps_port_witness :
  exists contents c, load_config (J := json_tree) "config.json" "" (Some contents) = Some (c, []) /\ port c = 4464.
Proof.
  exists (pos_text (encode (json_object (Json := json_tree) [("port"%string, json_number (Json := json_tree) 70000)] : JsonTree))).
  apply (config_wraps_port (J := json_tree) "config.json" "" _ 70000); [reflexivity|lia].
Defined.
