(* ===== verification/Logger.v ===== *)
(** * Logging (server/include/server/async_logger.h, server/src/async_logger.cpp,
    server/include/server/log_sink.h, server/src/log_sink.cpp)

    Any thread puts entries into the queue; the writer thread takes them out and gives
    them to the sinks. [writer_step] is one step of its loop: a test of the stop request,
    one entry taken and given to every sink, the end of a batch. The queue is a list,
    first in first out. The local time of an entry is an argument. A sink is used through
    the interface [ILogSink]; what a stream has been given reaches its file at the latest
    when it is flushed. *)
From stdpp Require Import pretty.
From S2P Require Import Prelude ByteString.
Local Open Scope Z_scope.

Inductive LogLevel := Debug | Info | Warn | Error.
#[export] Instance LogLevel_eq_dec : EqDecision LogLevel.
Proof. solve_decision. Defined.
Definition level_value (l : LogLevel) : Z :=
  match l with Debug => 0 | Info => 1 | Warn => 2 | Error => 3 end.

(** ** Sinks *)

Class ILogSink (S : Type) := {
  sink_write : S -> LogLevel -> string -> S;
  sink_flush : S -> S;
}.
(** What the logger relies on: an early flush makes no difference once everything is
    flushed. *)
Class LogSinkLaws (S : Type) `{ILogSink S} : Prop := {
  flush_write k l m : sink_flush (sink_write (sink_flush k) l m) = sink_flush (sink_write k l m);
  flush_flush k : sink_flush (sink_flush k) = sink_flush k;
}.

(** An output stream: what it was given, and how much of it has been flushed. *)
Record Stream := mkStream { st_text : string; st_flushed : Z }.
Definition put_line (s : Stream) (line : string) : Stream :=
  mkStream (st_text s +:+ line +:+ String "010" "") (st_flushed s).
Definition stream_flush (s : Stream) : Stream := mkStream (st_text s) (slen (st_text s)).

Record FileSink := mkFileSink { fs_open : bool; fs_file : Stream }.
Record ConsoleSink := mkConsoleSink { cn_out : Stream; cn_err : Stream }.

Definition new_FileSink (opened : bool) : FileSink := mkFileSink opened (mkStream "" 0).
Definition new_ConsoleSink : ConsoleSink := mkConsoleSink (mkStream "" 0) (mkStream "" 0).

(** Writing to a stream that failed to open does nothing. *)
Definition file_write (k : FileSink) (_ : LogLevel) (formatted : string) : FileSink :=
  if fs_open k then mkFileSink true (put_line (fs_file k) formatted) else k.
Definition file_flush (k : FileSink) : FileSink :=
  if fs_open k then mkFileSink true (stream_flush (fs_file k)) else k.
Definition console_write (k : ConsoleSink) (level : LogLevel) (formatted : string) : ConsoleSink :=
  if level_value Warn <=? level_value level then mkConsoleSink (cn_out k) (put_line (cn_err k) formatted)
  else mkConsoleSink (put_line (cn_out k) formatted) (cn_err k).
Definition console_flush (k : ConsoleSink) : ConsoleSink :=
  mkConsoleSink (stream_flush (cn_out k)) (stream_flush (cn_err k)).

#[export] Instance file_sink : ILogSink FileSink := {| sink_write := file_write; sink_flush := file_flush |}.
#[export] Instance console_sink : ILogSink ConsoleSink :=
  {| sink_write := console_write; sink_flush := console_flush |}.

(** A pointer to a sink; the calls are virtual. *)
Inductive Sink := SinkFile (k : FileSink) | SinkConsole (k : ConsoleSink).
#[export] Instance any_sink : ILogSink Sink := {|
  sink_write k l m := match k with
                      | SinkFile f => SinkFile (sink_write f l m)
                      | SinkConsole c => SinkConsole (sink_write c l m)
                      end;
  sink_flush k := match k with
                  | SinkFile f => SinkFile (sink_flush f)
                  | SinkConsole c => SinkConsole (sink_flush c)
                  end;
|}.

#[export] Instance file_sink_laws : LogSinkLaws FileSink.
Proof. split; intros [[] [t n]]; done. Qed.
#[export] Instance console_sink_laws : LogSinkLaws ConsoleSink.
Proof. split; [intros [[] []] []|intros [[] []]]; done. Qed.
#[export] Instance any_sink_laws : LogSinkLaws Sink.
Proof.
  split.
  - intros [k|k] l m; [exact (f_equal SinkFile (flush_write k l m))|exact (f_equal SinkConsole (flush_write k l m))].
  - intros [k|k]; [exact (f_equal SinkFile (flush_flush k))|exact (f_equal SinkConsole (flush_flush k))].
Qed.

(** ** Entries *)

Definition level_str (level : LogLevel) : string :=
  match level with Debug => "DEBUG" | Info => "INFO" | Warn => "WARN" | Error => "ERROR" end.

(** [{:0wd}]. *)
Fixpoint zeros (n : nat) : string := match n with O => "" | S n => String "0" (zeros n) end.
Definition padded (width : nat) (n : Z) : string :=
  if n <? 0 then "-" +:+ zeros (width - S (String.length (pretty (- n)))) +:+ pretty (- n)
  else zeros (width - String.length (pretty n)) +:+ pretty n.

(** [std::tm], and the milliseconds. *)
Record LocalTime := mkLocalTime {
  tm_year : Z; tm_mon : Z; tm_mday : Z; tm_hour : Z; tm_min : Z; tm_sec : Z; tm_ms : Z;
}.
Definition format_entry (now : LocalTime) (level : LogLevel) (message : string) : string :=
  "[" +:+ padded 4 (tm_year now + 1900) +:+ "-" +:+ padded 2 (tm_mon now + 1) +:+ "-" +:+ padded 2 (tm_mday now)
  +:+ " " +:+ padded 2 (tm_hour now) +:+ ":" +:+ padded 2 (tm_min now) +:+ ":" +:+ padded 2 (tm_sec now)
  +:+ "." +:+ padded 3 (tm_ms now) +:+ "] [" +:+ level_str level +:+ "] " +:+ message.

(** ** AsyncLogger *)

Section Logger.
Context {S : Type} `{ILogSink S}.
Abbreviation Entry := (LogLevel * string)%type.

(** Where the writer thread is: before the test of the loop, in the inner loop, behind a
    batch, in the loop after the last test, and ended. *)
Inductive Writer := WriterTest | WriterDrain (wrote : bool) | WriterSleep | WriterFinal | WriterEnded.

Record AsyncLogger := mkAsyncLogger {
  lg_queue : list Entry;
  lg_sinks : list S;
  lg_min_level : LogLevel;
  lg_stop : bool;
  lg_writer : Writer;
}.
Definition new_AsyncLogger (sinks : list S) (min_level : LogLevel) : AsyncLogger :=
  mkAsyncLogger [] sinks min_level false WriterTest.

Definition accepts (l : AsyncLogger) (level : LogLevel) : bool := negb (level_value level <? level_value (lg_min_level l)).
Definition log (l : AsyncLogger) (level : LogLevel) (message : string) (now : LocalTime) : AsyncLogger :=
  if level_value level <? level_value (lg_min_level l) then l
  else mkAsyncLogger (lg_queue l ++ [(level, format_entry now level message)]) (lg_sinks l) (lg_min_level l)
         (lg_stop l) (lg_writer l).
Definition info (l : AsyncLogger) (message : string) (now : LocalTime) : AsyncLogger := log l Info message now.
Definition warn (l : AsyncLogger) (message : string) (now : LocalTime) : AsyncLogger := log l Warn message now.
Definition error (l : AsyncLogger) (message : string) (now : LocalTime) : AsyncLogger := log l Error message now.
Definition debug (l : AsyncLogger) (message : string) (now : LocalTime) : AsyncLogger := log l Debug message now.

(** The first half of [shutdown]; the second waits for [WriterEnded]. *)
Definition request_stop (l : AsyncLogger) : AsyncLogger :=
  mkAsyncLogger (lg_queue l) (lg_sinks l) (lg_min_level l) true (lg_writer l).

Definition dispatch (item : Entry) (sinks : list S) : list S := (fun k => sink_write k (fst item) (snd item)) <$> sinks.

Definition at_writer (l : AsyncLogger) (queue : list Entry) (sinks : list S) (w : Writer) : AsyncLogger :=
  mkAsyncLogger queue sinks (lg_min_level l) (lg_stop l) w.
Definition writer_step (l : AsyncLogger) : AsyncLogger :=
  match lg_writer l with
  | WriterTest => at_writer l (lg_queue l) (lg_sinks l) (if lg_stop l then WriterFinal else WriterDrain false)
  | WriterDrain wrote =>
      match lg_queue l with
      | item :: queue => at_writer l queue (dispatch item (lg_sinks l)) (WriterDrain true)
      | [] => at_writer l [] (if wrote then sink_flush <$> lg_sinks l else lg_sinks l) WriterSleep
      end
  | WriterSleep => at_writer l (lg_queue l) (lg_sinks l) WriterTest
  | WriterFinal =>
      match lg_queue l with
      | item :: queue => at_writer l queue (dispatch item (lg_sinks l)) WriterFinal
      | [] => at_writer l [] (sink_flush <$> lg_sinks l) WriterEnded
      end
  | WriterEnded => l
  end.

(** A run of the logger, with the entries that were put into the queue. *)
Inductive LogRun : AsyncLogger -> list Entry -> AsyncLogger -> Prop :=
| run_nil l : LogRun l [] l
| run_log l es l1 level message now :
    LogRun l es l1 ->
    LogRun l (es ++ if accepts l1 level then [(level, format_entry now level message)] else [])
      (log l1 level message now)
| run_writer l es l1 : LogRun l es l1 -> LogRun l es (writer_step l1)
| run_stop l es l1 : LogRun l es l1 -> LogRun l es (request_stop l1).

(** What a sink has once the entries are written and flushed. *)
Definition writes (entries : list Entry) (k : S) : S := foldl (fun k e => sink_write k (fst e) (snd e)) k entries.
Definition final_sink (entries : list Entry) (k : S) : S := sink_flush (writes entries k).

(** ** Lemmas *)

Context `{!LogSinkLaws S}.

Lemma writes_app es es' k : writes (es ++ es') k = writes es' (writes es k).
Proof. apply foldl_app. Qed.

(** A flush in between is absorbed by the last one. *)
Lemma final_sink_flush es k : final_sink es (sink_flush k) = final_sink es k.
Proof.
  unfold final_sink. enough (forall k k', sink_flush k = sink_flush k' ->
    sink_flush (writes es k) = sink_flush (writes es k')) as E by apply E, flush_flush.
  clear k. induction es as [|[l m] es IH]; intros k k' Hk; [done|]. cbn. apply IH.
  by rewrite <- (flush_write k), <- (flush_write k'), Hk.
Qed.

(** The sinks hold exactly the entries [written] up to the last flush. *)
Definition holds (sinks0 sinks : list S) (written : list Entry) : Prop :=
  sink_flush <$> sinks = final_sink written <$> sinks0.

Lemma holds_dispatch sinks0 sinks written item :
  holds sinks0 sinks written -> holds sinks0 (dispatch item sinks) (written ++ [item]).
Proof.
  unfold holds, dispatch. intros Hh. rewrite <- list_fmap_compose.
  revert sinks0 Hh. induction sinks as [|k sinks IH]; intros [|k0 sinks0] Hh; try done.
  injection Hh as Hk Hh. cbn. f_equal; [|by apply IH].
  unfold final_sink in *. rewrite writes_app. cbn. rewrite <- flush_write, Hk. by rewrite flush_write.
Qed.
Lemma holds_flush sinks0 sinks written : holds sinks0 sinks written -> holds sinks0 (sink_flush <$> sinks) written.
Proof.
  unfold holds. intros <-. rewrite <- list_fmap_compose. apply list_fmap_ext. intros _ k _. apply flush_flush.
Qed.

(** The invariant of a run: what was put into the queue is what the sinks hold and what is
    still in the queue; when the writer has ended, everything put in [before] the stop has
    been written and all is flushed. *)
Record logger_ok (sinks0 : list S) (before es : list Entry) (l : AsyncLogger) (written : list Entry) : Prop := mkLoggerOk {
  lk_entries : es = written ++ lg_queue l;
  lk_sinks : holds sinks0 (lg_sinks l) written;
  lk_before : exists more, es = before ++ more;
  lk_ended : lg_writer l = WriterEnded ->
    lg_sinks l = final_sink written <$> sinks0 /\ exists more, written = before ++ more;
}.

Lemma logger_ok_writer sinks0 before es l written :
  logger_ok sinks0 before es l written -> exists written', logger_ok sinks0 before es (writer_step l) written'.
Proof.
  intros [-> Hs Hb He]. destruct l as [queue sinks min_level stop w]; cbn in *. destruct w as [|wrote| | |]; cbn.
  - exists written. split; try done. by destruct stop.
  - destruct queue as [|item queue]; cbn.
    + exists written. split; try done. cbn. destruct wrote; [by apply holds_flush|done].
    + exists (written ++ [item]). split; try done; cbn; [by rewrite <- app_assoc|by apply holds_dispatch].
  - exists written. by split.
  - destruct queue as [|item queue]; cbn.
    + exists written. split; try done; cbn; [by apply holds_flush|]. intros _. split; [exact Hs|].
      destruct Hb as [more Hb]. exists more. by rewrite app_nil_r in Hb.
    + exists (written ++ [item]). split; try done; cbn; [by rewrite <- app_assoc|by apply holds_dispatch].
  - exists written. by split.
Qed.

Lemma LogRun_ok sinks0 before l es l1 written0 es0 :
  logger_ok sinks0 before es0 l written0 -> LogRun l es l1 ->
  exists written, logger_ok sinks0 before (es0 ++ es) l1 written.
Proof.
  intros H0 Hr. induction Hr as [l|l es l1 level message now _ IH|l es l1 _ IH|l es l1 _ IH].
  - exists written0. by rewrite app_nil_r.
  - destruct (IH H0) as [written [He Hs [more Hb] Hd]]. exists written. unfold log, accepts.
    destruct (level_value level <? level_value (lg_min_level l1)); cbn.
    + rewrite app_nil_r. split; [done|done|by exists more|done].
    + split; [by rewrite (app_assoc es0 es), He, <- app_assoc|done| |done].
      rewrite app_assoc, Hb, <- app_assoc. by eexists.
  - destruct (IH H0) as [written Hw]. by apply logger_ok_writer in Hw.
  - destruct (IH H0) as [written [He Hs Hb Hd]]. exists written. by split.
Qed.

(** *** The end of the writer *)

Lemma iter_add n m (l : AsyncLogger) : Nat.iter (n + m) writer_step l = Nat.iter n writer_step (Nat.iter m writer_step l).
Proof. apply Nat.iter_add. Qed.

Lemma final_ends queue sinks min_level stop :
  lg_writer (Nat.iter (length queue + 1) writer_step (mkAsyncLogger queue sinks min_level stop WriterFinal)) = WriterEnded.
Proof.
  revert sinks. induction queue as [|item queue IH]; intros sinks; [done|].
  cbn [length]. rewrite Nat.add_succ_l, <- Nat.add_1_r, iter_add. apply IH.
Qed.
Lemma test_ends queue sinks min_level :
  lg_writer (Nat.iter (length queue + 2) writer_step (mkAsyncLogger queue sinks min_level true WriterTest)) = WriterEnded.
Proof. replace (length queue + 2)%nat with (length queue + 1 + 1)%nat by lia. rewrite iter_add. apply final_ends. Qed.
Lemma drain_ends queue sinks min_level wrote :
  lg_writer (Nat.iter (length queue + 4) writer_step (mkAsyncLogger queue sinks min_level true (WriterDrain wrote))) = WriterEnded.
Proof.
  revert sinks wrote. induction queue as [|item queue IH]; intros sinks wrote; [by destruct wrote|].
  cbn [length]. rewrite Nat.add_succ_l, <- Nat.add_1_r, iter_add. apply IH.
Qed.
Lemma ended_stays n l : lg_writer l = WriterEnded -> lg_writer (Nat.iter n writer_step l) = WriterEnded.
Proof.
  intros Hl. induction n as [|n IH]; [done|]. rewrite Nat.iter_succ. unfold writer_step at 1. by rewrite IH.
Qed.
End Logger.

(** ** Properties *)

(** Nothing that was logged before the shutdown is lost, and nothing is written twice
    or out of order. However producers, the writer thread and the stop request interleave,
    when the writer has ended every sink holds, flushed, the entries accepted before the
    stop, in the order of the queue, followed by those of the later ones that are not left
    in the queue; an entry is accepted exactly when its level is at least the configured
    one. *)
Theorem log_reaches_sinks {S : Type} `{LogSinkLaws S} sinks0 min_level es1 l1 es2 l2 :
  LogRun (new_AsyncLogger sinks0 min_level) es1 l1 -> LogRun (request_stop l1) es2 l2 ->
  lg_stop l1 = false -> lg_writer l2 = WriterEnded ->
  exists late, es2 = late ++ lg_queue l2 /\ lg_sinks l2 = final_sink (es1 ++ late) <$> sinks0.
Proof.
  intros R1 R2 Hstop Hend.
  assert (logger_ok sinks0 [] [] (new_AsyncLogger sinks0 min_level) []) as Hinit by (split; try done; by exists []).
  destruct (LogRun_ok _ _ _ _ _ _ _ Hinit R1) as [written [He Hs _ _]]. cbn in He.
  assert (lg_writer l1 <> WriterEnded /\ lg_writer l1 <> WriterFinal) as [Hw _].
  { clear -R1 Hstop. remember (new_AsyncLogger sinks0 min_level) as l0 eqn:E0.
    induction R1 as [l|l es l1 level message now _ IH|l es l1 _ IH|l es l1 _ IH]; [by subst| | |done].
    - revert Hstop. unfold log. destruct (_ <? _); cbn; auto.
    - destruct l1 as [queue sinks m stop w]. assert (stop = false) as -> by (by destruct w, queue).
      destruct (IH E0 eq_refl) as [I1 I2]. by destruct w, queue. }
  assert (logger_ok sinks0 es1 es1 (request_stop l1) written) as Hmid.
  { split; [done|done|exists []; by rewrite app_nil_r|]. cbn. intros E. by rewrite E in Hw. }
  destruct (LogRun_ok _ _ _ _ _ _ _ Hmid R2) as [written2 [He2 _ _ Hd]].
  destruct (Hd Hend) as [Hsinks [late ->]]. exists late. split; [|done].
  rewrite <- app_assoc in He2. by apply app_inv_head in He2.
Qed.

Lemma log_reaches_sinks_witness :
  let now := mkLocalTime 126 0 5 9 3 7 42 in
  let l0 := new_AsyncLogger [SinkFile (new_FileSink true); SinkConsole new_ConsoleSink] Info in
  let l1 := log (log l0 Debug "hidden" now) Error "bad" now in
  let l2 := Nat.iter 4 writer_step (request_stop l1) in
  let entry := format_entry now Error "bad" in
  entry = "[2026-01-05 09:03:07.042] [ERROR] bad"%string
  /\ lg_sinks l2 = final_sink [(Error, entry)] <$> [SinkFile (new_FileSink true); SinkConsole new_ConsoleSink].
Proof.
  intros now l0 l1 l2 entry. split; [reflexivity|].
  destruct (log_reaches_sinks [SinkFile (new_FileSink true); SinkConsole new_ConsoleSink] Info
              [(Error, entry)] l1 [] l2) as (late & Hl & Hs).
  - apply (run_log l0 [] (log l0 Debug "hidden" now) Error "bad" now).
    apply (run_log l0 [] l0 Debug "hidden" now). apply run_nil.
  - subst l2. cbn [Nat.iter]. repeat apply run_writer. apply run_nil.
  - reflexivity.
  - reflexivity.
  - symmetry in Hl. apply app_nil in Hl as [-> _]. exact Hs.
Defined.

(** Shutting the logger down ends. Once the stop is requested and nothing more is
    logged, the writer thread ends within four steps more than there are entries in the
    queue, wherever it is in its loop, and stays ended. *)
Theorem logger_shutdown_ends {S : Type} `{LogSinkLaws S} l n :
  lg_stop l = true -> (length (lg_queue l) + 4 <= n)%nat -> lg_writer (Nat.iter n writer_step l) = WriterEnded.
Proof.
  intros Hs Hn. enough (exists m, (m <= length (lg_queue l) + 4)%nat /\ lg_writer (Nat.iter m writer_step l) = WriterEnded)
    as (m & Hm & He).
  { replace n with (n - m + m)%nat by lia. rewrite iter_add. by apply ended_stays. }
  destruct l as [queue sinks min_level stop [|wrote| | |]]; cbn in Hs; subst stop; cbn [lg_queue].
  - exists (length queue + 2)%nat. split; [lia|apply test_ends].
  - exists (length queue + 4)%nat. split; [lia|apply drain_ends].
  - exists (length queue + 2 + 1)%nat. split; [lia|]. rewrite iter_add. apply test_ends.
  - exists (length queue + 1)%nat. split; [lia|apply final_ends].
  - exists O. split; [lia|done].
Qed.

Lemma logger_shutdown_ends_witness :
  let l := request_stop (log (new_AsyncLogger [new_FileSink true] Info) Warn "late" (mkLocalTime 0 0 0 0 0 0 0)) in
  lg_writer (Nat.iter 5 writer_step l) = WriterEnded.
Proof. intros l. apply logger_shutdown_ends; [reflexivity|]. cbn. lia. Defined.

(** What is in a log file is one line per entry, in order, and what is on the console
    is the same lines, warnings and errors on the error stream and the rest on the other. *)
Theorem sinks_hold_lines (entries : list (LogLevel * string)) :
  let lines (es : list (LogLevel * string)) : string :=
    foldr (fun e text => snd e +:+ String "010" text) "" es in
  let file := final_sink entries (new_FileSink true) in
  let console := final_sink entries new_ConsoleSink in
  st_text (fs_file file) = lines entries /\ st_flushed (fs_file file) = slen (lines entries)
  /\ st_text (cn_err console) = lines (filter (fun e => 2 <= level_value (fst e)) entries)
  /\ st_text (cn_out console) = lines (filter (fun e => level_value (fst e) < 2) entries)
  /\ final_sink entries (new_FileSink false) = new_FileSink false.
Proof.
  intros lines.
  assert (forall k es, fs_open k = true -> fs_open (writes es k) = true
            /\ st_text (fs_file (writes es k)) = st_text (fs_file k) +:+ lines es) as Hf.
  { intros k es. revert k. induction es as [|[l m] es IH]; intros k Hk; [by rewrite append_nil_r|].
    change (writes ((l, m) :: es) k) with (writes es (sink_write k l m)). destruct (IH (sink_write k l m)) as [-> ->]; cbn; unfold file_write; rewrite Hk; [done|].
    split; [done|]. cbn. by rewrite !append_assoc. }
  assert (forall k es, st_text (cn_err (writes es k)) = st_text (cn_err k) +:+ lines (filter (fun e => 2 <= level_value (fst e)) es)
            /\ st_text (cn_out (writes es k)) = st_text (cn_out k) +:+ lines (filter (fun e => level_value (fst e) < 2) es)) as Hc.
  { intros k es. revert k. induction es as [|[l m] es IH]; intros k; [by rewrite !append_nil_r|].
    change (writes ((l, m) :: es) k) with (writes es (sink_write k l m)). destruct (IH (sink_write k l m)) as [-> ->]. cbn. unfold console_write.
    destruct l; cbn; by rewrite !append_assoc. }
  destruct (Hf (new_FileSink true) entries eq_refl) as [Ho Ht]. destruct (Hc new_ConsoleSink entries) as [He Hout].
  cbn zeta. unfold final_sink. split_and!.
  - cbn. unfold file_flush. by rewrite Ho.
  - cbn. unfold file_flush. rewrite Ho. cbn. by rewrite Ht.
  - exact He.
  - exact Hout.
  - clear. induction entries as [|[l m] es IH]; [done|exact IH].
Qed.
