(* ===== verification/Shutdown.v ===== *)
(** * Starting and stopping the server (server/src/main.cpp, and the destructor of
    server/src/document_session.cpp)

    [shutdown_server] runs on the thread of the io context, so that no completion runs
    meanwhile. Removing a document session whose last pointer the manager holds runs its
    destructor, which waits for the session's thread; [held] says of which sessions
    another thread still has a pointer. The cursor aggregator and the autosave thread are
    only waited for. *)
From S2P Require Import Prelude ByteString Operation Document Json Frames Protocol ClientSession DocumentSession DocumentManager TcpServer.
From S2P Require Import MessageHandler Server Autosave ServerConfig Logger.
Local Open Scope Z_scope.

(** ** Start-up *)

Definition config_level (log_level : string) : LogLevel :=
  if bool_decide (log_level = "debug"%string) then Debug
  else if bool_decide (log_level = "warn"%string) then Warn
  else if bool_decide (log_level = "error"%string) then Error
  else Info.

(** [opened]: the log file could be opened. *)
Definition main_sinks (c : ServerConfig) (opened : bool) : list Sink :=
  SinkFile (new_FileSink opened) :: if log_console c then [SinkConsole new_ConsoleSink] else [].
Definition main_logger (c : ServerConfig) (opened : bool) : AsyncLogger :=
  new_AsyncLogger (main_sinks c opened) (config_level (log_level c)).

Section Shutdown.
Context {J : Json}.

(** ** ~DocumentSession

    The thread drains the queue and ends; [None] is an exception in the thread, which
    ends the process. *)
Fixpoint drain (fuel : nat) (m : DocumentManager) (loc : Z) : option (DocumentManager * Sends) :=
  match fuel with
  | O => Some (m, [])
  | S fuel =>
      '(m, out) ← session_step m loc;
      '(m, out') ← drain fuel m loc;
      Some (m, out ++ out')
  end.
Definition queue_length (m : DocumentManager) (loc : Z) : nat :=
  match hp_sessions (dm_heap m) !! loc with
  | Some o => length (ds_command_queue (so_state o))
  | None => 0
  end.
Definition destroy_session (m : DocumentManager) (loc : Z) : option (DocumentManager * Sends) :=
  drain (queue_length m loc) m loc.

(** [remove_session] with the end of the session object. *)
Definition close_session (held : Z -> bool) (m : DocumentManager) (docId : Z) : option (DocumentManager * Sends) :=
  match dm_sessions m !! docId with
  | None => Some (DocumentManager.remove_session m docId, [])
  | Some loc =>
      let m := DocumentManager.remove_session m docId in
      if held loc then Some (m, []) else destroy_session m loc
  end.
Fixpoint close_sessions (held : Z -> bool) (m : DocumentManager) (ids : list Z)
    : option (DocumentManager * Sends) :=
  match ids with
  | [] => Some (m, [])
  | docId :: ids =>
      '(m, out) ← close_session held m docId;
      '(m, out') ← close_sessions held m ids;
      Some (m, out ++ out')
  end.

(** ** shutdown_server *)

Definition close_each (t : TcpServer) (sids : list Z) : TcpServer * Outputs :=
  foldl (fun '(t, out) sid => let '(t, o) := on_session t sid (fun c => (c, close)) in (t, out ++ o)) (t, []) sids.

Definition shutdown_server (held : Z -> bool) (s : Server) : option Server :=
  let s := with_tcp s (stop (sv_tcp s), []) in
  payload ← serialize (to_json_ServerShutdownMsg (mkServerShutdownMsg "Server is shutting down"));
  let s := with_tcp s (broadcast_all (sv_tcp s) payload) in
  '(docs, sends) ← close_sessions held (sv_docs s) (all_active_doc_ids (sv_docs s));
  let s := deliver_sends (with_docs s docs) sends in
  let s := with_docs s (force_save_all (sv_docs s)) in
  let s := with_tcp s (close_each (sv_tcp s) (all_sessions (sv_tcp s))) in
  Some s.

(** ** Lemmas *)

Lemma process_command_queue d s cmd d' s' out :
  process_command d s cmd = Some (d', s', out) -> ds_command_queue s' = ds_command_queue s.
Proof.
  unfold process_command, DocumentSession.handle_join, DocumentSession.handle_leave,
    DocumentSession.handle_operation, DocumentSession.handle_delete.
  destruct (cmd_type cmd); [destruct (apply_with_ot d (cmd_operation cmd)) as [r d1]; destruct (negb (ot_success r))|..];
    intros E; repeat (cbv zeta in E; apply bind_Some in E as (? & _ & E)); by simplify_eq.
Qed.

(** The drained session: its document is what its thread makes of the queue. *)
Lemma drain_spec q m loc doc users st d :
  hp_sessions (dm_heap m) !! loc = Some (mkSessionObject doc (mkDocumentSession q users) st) ->
  hp_docs (dm_heap m) !! doc = Some d ->
  match drain (length q) m loc with
  | Some (m', out) =>
      exists d' s', run_loop q d (mkDocumentSession q users) = Some (d', s', out)
      /\ m' = with_heap m (mkHeap (<[doc := d']> (hp_docs (dm_heap m)))
                             (<[loc := mkSessionObject doc s' st]> (hp_sessions (dm_heap m))) (hp_next (dm_heap m)))
  | None => run_loop q d (mkDocumentSession q users) = None
  end.
Proof.
  revert m users d. induction q as [|cmd q IH]; intros m users d Hs Hd.
  - cbn. exists d, (mkDocumentSession [] users). split; [done|]. rewrite !insert_id by done.
    by destruct m as [? ? ? ? ? ? [] ?].
  - cbn [drain length]. unfold session_step. rewrite Hs, Hd. cbn [run_loop ds_connected_users].
    destruct (process_command d (mkDocumentSession q users) cmd) as [[[d1 s1] out1]|] eqn:E; [|done].
    apply process_command_queue in E. cbn in E. destruct s1 as [q1 users1]. cbn in E. subst q1. cbn [mbind option_bind].
    set (m1 := with_heap m _).
    assert (hp_sessions (dm_heap m1) !! loc = Some (mkSessionObject doc (mkDocumentSession q users1) st)) as Hs1
      by (cbn; apply lookup_insert_eq).
    assert (hp_docs (dm_heap m1) !! doc = Some d1) as Hd1 by (cbn; apply lookup_insert_eq).
    specialize (IH m1 users1 d1 Hs1 Hd1). destruct (drain (length q) m1 loc) as [[m' out]|].
    + destruct IH as (d' & s' & Er & ->). exists d', s'. rewrite Er. split; [done|].
      subst m1. cbn. by rewrite !insert_insert_eq.
    + by rewrite IH.
Qed.

Lemma dm_wf_drain n m loc m' out : dm_wf m -> drain n m loc = Some (m', out) -> dm_wf m'.
Proof.
  revert m m' out. induction n as [|n IH]; intros m m' out W E; [by cbn in E; simplify_eq|]. cbn in E.
  apply bind_Some in E as ([m1 out1] & E1 & E). apply bind_Some in E as ([m2 out2] & E2 & [= <- <-]).
  eapply IH; [|exact E2]. by eapply dm_wf_thread.
Qed.

(** What one call leaves alone: everything of the other documents. *)
Record others_kept (docId : Z) (m m' : DocumentManager) : Prop := mkOthersKept {
  ok_wf : dm_wf m';
  ok_documents : dm_documents m' = dm_documents m;
  ok_dir : dm_data_dir m' = dm_data_dir m;
  ok_files : dm_files m' = dm_files m;
  ok_session id : id <> docId -> dm_sessions m' !! id = dm_sessions m !! id;
  ok_object id loc : id <> docId -> dm_sessions m !! id = Some loc ->
    hp_sessions (dm_heap m') !! loc = hp_sessions (dm_heap m) !! loc;
  ok_doc id loc : id <> docId -> dm_documents m !! id = Some loc ->
    hp_docs (dm_heap m') !! loc = hp_docs (dm_heap m) !! loc;
}.

(** The document of a session that is closed, when nobody else holds the session. *)
Definition final_doc (m : DocumentManager) (docId : Z) (d d' : Document) : Prop :=
  match dm_sessions m !! docId with
  | Some loc => exists o s out, hp_sessions (dm_heap m) !! loc = Some o /\ run d (so_state o) = Some (d', s, out)
  | None => d' = d
  end.

Lemma close_session_spec m docId m' out :
  dm_wf m -> close_session (fun _ => false) m docId = Some (m', out) ->
  others_kept docId m m' /\ dm_sessions m' !! docId = None
  /\ forall doc d, dm_documents m !! docId = Some doc -> hp_docs (dm_heap m) !! doc = Some d ->
       exists d', hp_docs (dm_heap m') !! doc = Some d' /\ final_doc m docId d d'.
Proof.
  intros W E. unfold close_session in E. unfold final_doc. destruct (dm_sessions m !! docId) as [loc|] eqn:Es.
  - destruct (wf_session _ W _ _ Es) as (_ & [doc [q users] st] & Ho & _ & Hdoc). cbn in Hdoc.
    destruct (wf_document _ W _ _ Hdoc) as (_ & d & Hd & _).
    unfold destroy_session in E. set (m1 := DocumentManager.remove_session m docId) in *. pose proof (dm_wf_close m docId W) as W1.
    assert (hp_sessions (dm_heap m1) !! loc = Some (mkSessionObject doc (mkDocumentSession q users) true)) as Ho1.
    { subst m1. unfold DocumentManager.remove_session. rewrite Es. cbn. by rewrite lookup_alter_eq, Ho. }
    assert (queue_length m1 loc = length q) as Eq by (unfold queue_length; by rewrite Ho1).
    assert (hp_docs (dm_heap m1) !! doc = Some d) as Hd1 by (subst m1; unfold DocumentManager.remove_session; by rewrite Es).
    pose proof (drain_spec q m1 loc doc users true d Ho1 Hd1) as Hdr. rewrite Eq in E. rewrite E in Hdr.
    destruct Hdr as (d' & s' & Er & Em'). pose proof (dm_wf_drain _ _ _ _ _ W1 E) as W'.
    assert (dm_documents m' = dm_documents m /\ dm_data_dir m' = dm_data_dir m
            /\ dm_files m' = dm_files m /\ dm_sessions m' = delete docId (dm_sessions m)) as (F1 & F2 & F4 & F3).
    { rewrite Em'. subst m1. unfold DocumentManager.remove_session. by rewrite Es. }
    split; [split|split].
    + done.
    + done.
    + done.
    + done.
    + intros id Hne. rewrite F3. by apply lookup_delete_ne.
    + intros id l Hne Hl. assert (l <> loc) by (intros ->; apply Hne; by apply (wf_shared _ W id docId loc)).
      rewrite Em'. cbn. rewrite lookup_insert_ne by done. subst m1. unfold DocumentManager.remove_session. rewrite Es. cbn.
      by rewrite lookup_alter_ne.
    + intros id l Hne Hl. rewrite Em'. cbn.
      destruct (wf_document _ W _ _ Hl) as (_ & e & He & Hid & _).
      destruct (wf_document _ W _ _ Hdoc) as (_ & e' & He' & Hid' & _).
      rewrite lookup_insert_ne by (intros ->; congruence). subst m1. unfold DocumentManager.remove_session. by rewrite Es.
    + rewrite F3. apply lookup_delete_eq.
    + intros doc2 d2 Hdoc2 Hd2. assert (doc2 = doc) as -> by congruence. assert (d2 = d) as -> by congruence.
      exists d'. split; [rewrite Em'; cbn; apply lookup_insert_eq|]. exists (mkSessionObject doc (mkDocumentSession q users) st), s', out.
      split; [done|]. exact Er.
  - injection E as <- <-. unfold DocumentManager.remove_session. rewrite Es. split; [by split|]. split; [done|].
    intros doc d _ Hd. by exists d.
Qed.

Lemma final_doc_same m m' docId d d' : others_kept docId m m' -> forall id, id <> docId ->
  dm_wf m -> final_doc m' id d d' -> final_doc m id d d'.
Proof.
  intros K id Hne W. unfold final_doc. rewrite (ok_session _ _ _ K) by done.
  destruct (dm_sessions m !! id) as [loc|] eqn:E; [|done]. by rewrite (ok_object _ _ _ K id loc).
Qed.

Lemma close_sessions_spec ids m m' out :
  dm_wf m -> close_sessions (fun _ => false) m ids = Some (m', out) ->
  dm_wf m' /\ dm_documents m' = dm_documents m /\ dm_data_dir m' = dm_data_dir m /\ dm_files m' = dm_files m
  /\ forall docId doc d, (is_Some (dm_sessions m !! docId) -> docId ∈ ids) ->
       dm_documents m !! docId = Some doc -> hp_docs (dm_heap m) !! doc = Some d ->
       exists d', hp_docs (dm_heap m') !! doc = Some d' /\ final_doc m docId d d'.
Proof.
  revert m m' out. induction ids as [|docId0 ids IH]; intros m m' out W E.
  - cbn in E. injection E as <- <-. split_and!; try done. intros docId doc d Hin Hdoc Hd. exists d. split; [done|].
    unfold final_doc. destruct (dm_sessions m !! docId); [|done]. by destruct (not_elem_of_nil docId); apply Hin.
  - cbn in E. apply bind_Some in E as ([m1 out1] & E1 & E). apply bind_Some in E as ([m2 out2] & E2 & [= <- <-]).
    destruct (close_session_spec m docId0 m1 out1 W E1) as (K & Hnone & Hown).
    destruct (IH m1 m2 out2 (ok_wf _ _ _ K) E2) as (W2 & F1 & F2 & F4 & F3). split_and!; [done| | | |].
    + by rewrite F1, (ok_documents _ _ _ K).
    + by rewrite F2, (ok_dir _ _ _ K).
    + by rewrite F4, (ok_files _ _ _ K).
    + intros docId doc d Hin Hdoc Hd. destruct (decide (docId = docId0)) as [->|Hne].
      * destruct (Hown doc d Hdoc Hd) as (d1 & Hd1 & Hf).
        destruct (F3 docId0 doc d1) as (d2 & Hd2 & Hf2).
        -- rewrite Hnone. by intros [].
        -- by rewrite (ok_documents _ _ _ K).
        -- done.
        -- exists d2. split; [done|]. unfold final_doc in Hf2. rewrite Hnone in Hf2. by subst d2.
      * destruct (F3 docId doc d) as (d' & Hd' & Hf).
        -- rewrite (ok_session _ _ _ K) by done. intros Hs. specialize (Hin Hs). by apply elem_of_cons in Hin as [|].
        -- by rewrite (ok_documents _ _ _ K).
        -- by rewrite (ok_doc _ _ _ K docId doc).
        -- exists d'. split; [done|]. by eapply final_doc_same.
Qed.

Lemma all_active_elem m docId : is_Some (dm_sessions m !! docId) -> docId ∈ all_active_doc_ids m.
Proof. intros [loc H]. apply list_elem_of_fmap. exists (docId, loc). split; [done|]. by apply elem_of_map_to_list. Qed.

Lemma deliver_sends_docs s sends : sv_docs (deliver_sends s sends) = sv_docs s.
Proof.
  unfold deliver_sends. revert s. induction sends as [|[sid payload] sends IH]; intros s; [done|]. cbn. by rewrite IH.
Qed.
Lemma deliver_sends_sessions s sends :
  ts_sessions (sv_tcp (deliver_sends s sends)) = ts_sessions (sv_tcp s)
  /\ ts_open (sv_tcp (deliver_sends s sends)) = ts_open (sv_tcp s).
Proof.
  unfold deliver_sends. revert s. induction sends as [|[sid payload] sends IH]; intros s; [done|]. cbn.
  destruct (IH (with_tcp s (session_send (sv_tcp s) sid payload))) as [-> ->]. unfold session_send, on_session. cbn.
  by destruct (ClientSession.send _ _).
Qed.

(** The loops over the sessions. *)
Lemma each_keeps (f : TcpServer -> Z -> TcpServer * Outputs) t sids out :
  (forall t sid, ts_sessions (fst (f t sid)) = ts_sessions t /\ ts_open (fst (f t sid)) = ts_open t) ->
  let r := foldl (fun '(t, out) sid => let '(t, o) := f t sid in (t, out ++ o)) (t, out) sids in
  ts_sessions (fst r) = ts_sessions t /\ ts_open (fst r) = ts_open t.
Proof.
  intros Hf. revert t out. induction sids as [|sid sids IH]; intros t out; [done|]. cbn.
  pose proof (Hf t sid) as [H1 H2]. destruct (f t sid) as [t1 o1]. cbn in *.
  destruct (IH t1 (out ++ o1)) as [-> ->]. by rewrite H1, H2.
Qed.
Lemma on_session_keeps t sid f :
  ts_sessions (fst (on_session t sid f)) = ts_sessions t /\ ts_open (fst (on_session t sid f)) = ts_open t.
Proof. unfold on_session. by destruct (f _). Qed.

Lemma close_each_closes t sids sid : sid ∈ sids -> (sid, SocketClose) ∈ snd (close_each t sids).
Proof.
  unfold close_each. generalize (@nil (Z * CsOutput)) as out. revert t.
  assert (forall sids t out x, x ∈ out ->
    x ∈ snd (foldl (fun '(t, out) sid => let '(t, o) := on_session t sid (fun c => (c, close)) in (t, out ++ o)) (t, out) sids)) as Hkeep.
  { clear. induction sids as [|sid sids IH]; intros t out x Hx; [done|]. cbn. apply IH. set_solver. }
  induction sids as [|sid' sids IH]; intros t out Hin; [by apply elem_of_nil in Hin|]. cbn.
  apply elem_of_cons in Hin as [->|Hin]; [|by apply IH]. apply Hkeep. cbn. set_solver.
Qed.
End Shutdown.

(** ** Properties *)

(** C20: at a shutdown every edit reaches the disk that can. When no handler still holds a
    document's session, the shutdown of a consistent server processes every command queued
    for every open document and then saves every loaded document whose temporary file can
    be opened: its file holds the text its queued operations lead to, and the document is
    clean. A document whose temporary file cannot be opened keeps its dirty flag and its
    file is as it was, and its edits since the last save end with the process. The server
    accepts no new connection and every connection is closed. Where the shutdown has no
    result an exception ended the process. Opening a file is the only step of a save that
    can fail here. *)
Theorem shutdown_saves_everything {J : Json} s s' docId doc d :
  dm_wf (sv_docs s) -> shutdown_server (fun _ => false) s = Some s' ->
  dm_documents (sv_docs s) !! docId = Some doc -> hp_docs (dm_heap (sv_docs s)) !! doc = Some d ->
  let dir := dm_data_dir (sv_docs s) in
  let path := doc_path dir docId in
  let opens := can_open (dm_files (sv_docs s)) (tmp_path dir docId) in
  (exists d' d'', final_doc (sv_docs s) docId d d'
   /\ hp_docs (dm_heap (sv_docs s')) !! doc = Some d'' /\ doc_content d'' = doc_content d'
   /\ dm_files (sv_docs s') !! path = (if opens then Some (doc_content d') else dm_files (sv_docs s) !! path)
   /\ doc_dirty d'' = (if opens then false else doc_dirty d'))
  /\ ts_open (sv_tcp s') = false
  /\ forall sid, sid ∈ ts_sessions (sv_tcp s) -> (sid, SocketClose) ∈ sv_out s'.
Proof.
  intros W E Hdoc Hd dir path opens. unfold shutdown_server in E. apply bind_Some in E as (payload & _ & E). cbv zeta in E.
  apply bind_Some in E as ([docs sends] & Ec & [= <-]). cbn [sv_docs with_tcp] in Ec.
  destruct (close_sessions_spec _ _ _ _ W Ec) as (W' & F1 & F2 & F4 & F3).
  destruct (F3 docId doc d) as (d' & Hd' & Hf); [apply all_active_elem|done|done|].
  set (s1 := deliver_sends _ sends). assert (sv_docs s1 = docs) as E1 by (subst s1; by rewrite deliver_sends_docs).
  assert (dm_documents docs !! docId = Some doc) as Hdoc' by by rewrite F1.
  destruct (wf_document _ W' _ _ Hdoc') as (_ & d0 & Hd0 & Hid & _). assert (d0 = d') as -> by congruence.
  destruct (for_documents_loaded _ _ saves_force docs docId doc d') as [(d'' & G1 & _ & G2 & _ & G3) G4]; [done..|].
  assert (can_save (dm_data_dir docs) (fs_denied (dm_files docs)) d' = opens) as Eo
    by (unfold can_save; by rewrite Hid, F2, F4).
  rewrite Eo in G3, G4. rewrite F2, F4 in G4.
  pose proof (each_keeps (fun t sid => session_send t sid payload) (stop (sv_tcp s))
    (all_sessions (stop (sv_tcp s))) [] (fun t sid => on_session_keeps t sid _)) as [B1 B2].
  destruct (deliver_sends_sessions (with_docs (with_tcp (with_tcp s (stop (sv_tcp s), []))
    (broadcast_all (stop (sv_tcp s)) payload)) docs) sends) as [D1 D2].
  fold s1 in D1, D2. cbn [sv_tcp with_docs with_tcp] in D1, D2. split_and!.
  - exists d', d''. cbn [sv_docs with_tcp with_docs]. rewrite E1. by split_and!.
  - pose proof (each_keeps (fun t sid => on_session t sid (fun c => (c, close))) (sv_tcp s1) (all_sessions (sv_tcp s1)) []
      (fun t sid => on_session_keeps t sid _)) as [_ C2].
    cbn [sv_tcp with_tcp with_docs]. unfold close_each. rewrite C2, D2. exact B2.
  - intros sid Hin. cbn [sv_out with_tcp with_docs]. apply elem_of_app. right. apply close_each_closes.
    unfold all_sessions. apply elem_of_elements. cbn [sv_tcp with_tcp with_docs]. rewrite D1. unfold broadcast_all, send_each.
    rewrite B1. exact Hin.
Qed.

(** A server with one open document, one edit of which is still queued. *)
Lemma shutdown_saves_everything_witness :
  let cmd := mkDocCommand CmdOperation (make_insert 2 "!" 1 0) 1 "ann" "" 0 in
  let m := mkDocumentManager {[1 := 0]} {[1 := "t"%string]} {[1 := 1]} ∅ 2 "data"
             (mkHeap {[0 := doc_init 1 "t" "hi"]} {[1 := mkSessionObject 0 (mkDocumentSession [cmd] ∅) false]} 2) ∅ in
  let s := mkServer AuthManager.new_AuthManager ∅ m new_TcpServer [] in
  exists s', shutdown_server (J := json_tree) (fun _ => false) s = Some s'
    /\ dm_files (sv_docs s') !! doc_path "data" 1 = Some "hi!"%string.
Proof.
  intros cmd m s. assert (dm_wf m) as W.
  { split; cbn.
    - intros docId loc [<- <-]%lookup_singleton_Some. split; [lia|]. by eexists.
    - intros docId loc [<- <-]%lookup_singleton_Some. split; [lia|]. by eexists.
    - intros docId title [<- <-]%lookup_singleton_Some. by eexists.
    - intros docId loc [<- <-]%lookup_singleton_Some. lia.
    - by split; vm_compute.
    - by intros docId docId' loc [<- <-]%lookup_singleton_Some [<- _]%lookup_singleton_Some. }
  destruct (shutdown_server (J := json_tree) (fun _ => false) s) as [s'|] eqn:E; [|vm_compute in E; discriminate E].
  exists s'. split; [reflexivity|].
  destruct (shutdown_saves_everything (J := json_tree) s s' 1 0 (doc_init 1 "t" "hi") W E eq_refl eq_refl)
    as ((d' & d'' & (o & ds & out & Ho & Hr) & _ & _ & Hf & _) & _).
  vm_compute in Ho. injection Ho as <-.
  vm_compute in Hr. injection Hr as <- _ _. exact Hf.
Defined.
