(* ===== verification/Interleaving.v ===== *)
(** * The message handlers, critical section by critical section
    (server/src/message_handler.cpp, with the members it calls)

    Workers run handlers at the same time: between two locks that one handler takes, any
    other may take its own. Here a handler is a program of atomic actions, one for each
    critical section: a getter of a session, a member of the account store, of the rights,
    of the document manager or of a document, a command put into a queue, a frame sent.
    Members of the manager that hold its lock throughout are one action, although the
    rights have a lock of their own inside; the search for a user's session is one too.
    Run without interruption a program is the handler of [MessageHandler]. *)
From S2P Require Import Prelude ByteString Operation Document AccessControl AuthManager Json Frames Protocol Codec.
From S2P Require Import ClientSession DocumentSession DocumentManager TcpServer MessageHandler Color Server Autosave.
Local Open Scope Z_scope.

(** ** Programs

    [Ret None] is an exception. *)
Inductive Prog (A : Type) : Type :=
| Ret (o : option A)
| Act {B : Type} (f : Server -> Server * B) (k : B -> Prog A).
Arguments Ret {A} o.
Arguments Act {A B} f k.

Fixpoint prog_bind {A B} (k : A -> Prog B) (p : Prog A) : Prog B :=
  match p with
  | Ret (Some x) => k x
  | Ret None => Ret None
  | Act f c => Act f (fun x => prog_bind k (c x))
  end.
#[export] Instance Prog_ret : MRet Prog := fun A x => Ret (Some x).
#[export] Instance Prog_bind : MBind Prog := @prog_bind.

Fixpoint catch (p h : Prog ()) : Prog () :=
  match p with
  | Ret None => h
  | Ret o => Ret o
  | Act f c => Act f (fun x => catch (c x) h)
  end.

Definition act {A} (f : Server -> Server * A) : Prog A := Act f (fun x => Ret (Some x)).
Definition read {A} (f : Server -> A) : Prog A := act (fun s => (s, f s)).
Definition write (f : Server -> Server) : Prog () := act (fun s => (f s, ())).

(** One action, and a whole program without interruption. *)
Definition advance {A} (p : Prog A) (s : Server) : Server * Prog A :=
  match p with
  | Ret o => (s, Ret o)
  | Act f k => let '(s, x) := f s in (s, k x)
  end.
Fixpoint run {A} (p : Prog A) : M A := fun s =>
  match p with
  | Ret o => (s, o)
  | Act f k => let '(s, x) := f s in run (k x) s
  end.

Section Handlers.
Context {J : Json} (CC_SHA256 : string -> list Z).

(** The getters of a session, each under its lock. *)
Definition getter {A} (sid : Z) (f : ClientSession -> A) : Prog A :=
  read (fun s => f (session_object (sv_tcp s) sid)).
Definition is_authenticated (sid : Z) : Prog bool := getter sid cs_authenticated.
Definition user_id (sid : Z) : Prog Z := getter sid cs_userId.
Definition username (sid : Z) : Prog string := getter sid cs_username.
Definition color (sid : Z) : Prog string := getter sid cs_color.
Definition current_doc_id (sid : Z) : Prog Z := getter sid cs_currentDocId.

Definition on_session_steps (sid : Z) (f : ClientSession -> ClientSession * list CsOutput) : Prog () :=
  write (fun s => with_tcp s (on_session (sv_tcp s) sid f)).
(** [session->send(serialize(msg))] *)
Definition send_json_steps (sid : Z) (j : json) : Prog () :=
  payload ← Ret (serialize j); on_session_steps sid (fun c => send c payload).
Definition enqueue_steps (loc : Z) (cmd : DocCommand) : Prog () :=
  write (fun s => with_docs s (session_enqueue (sv_docs s) loc cmd)).

Definition send_error_steps (sid : Z) (code message : string) : Prog () :=
  _ ← send_json_steps sid (to_json_ErrorMsg (mkErrorMsg code message));
  if bool_decide (code = "invalid_message"%string) then
    count ← act (fun s => (with_tcp s (on_session (sv_tcp s) sid (fun c => (snd (increment_error_count c), []))),
                           fst (increment_error_count (session_object (sv_tcp s) sid))));
    if 3 <=? count then on_session_steps sid (fun c => (c, close)) else mret ()
  else mret ().

Definition check_auth_steps (sid : Z) (type : MessageType) : Prog bool :=
  if bool_decide (type = MtAuthRequest) then mret true
  else
    authenticated ← is_authenticated sid;
    if negb authenticated then
      _ ← send_error_steps sid "not_authenticated" "Authentication required"; mret false
    else mret true.

Definition handle_auth_request_steps (sid : Z) (buf : list Z) (j : json) : Prog () :=
  msg ← Ret (from_json_AuthRequestMsg j);
  if negb (bool_decide (arq_action msg = "login"%string))
     && negb (bool_decide (arq_action msg = "register"%string)) then
    send_error_steps sid "invalid_message" "Invalid action"
  else
    result ←
      (if bool_decide (arq_action msg = "register"%string) then
         act (fun s => let '(result, a) := register_user CC_SHA256 (sv_auth s) buf (arq_username msg) (arq_password msg) in
                       (with_auth s a, result))
       else read (fun s => login CC_SHA256 (sv_auth s) (arq_username msg) (arq_password msg)));
    if ar_success result then
      _ ← on_session_steps sid (fun c => (set_auth c (ar_userId result) (arq_username msg)
                                                   (generate_color (ar_userId result)), []));
      send_json_steps sid (to_json_AuthResponseMsg (mkAuthResponseMsg true (ar_userId result) ""))
    else
      let error := if bool_decide (ar_error result = "duplicate_username"%string)
                   then "username_taken"%string else ar_error result in
      send_json_steps sid (to_json_AuthResponseMsg (mkAuthResponseMsg false 0 error)).

Definition handle_doc_list_steps (sid : Z) : Prog () :=
  userId ← user_id sid;
  items ← read (fun s => list_documents (sv_access s) (sv_docs s) userId);
  send_json_steps sid (to_json_DocListResponseMsg (mkDocListResponseMsg items)).

Definition handle_doc_create_steps (sid : Z) (j : json) : Prog () :=
  msg ← Ret (from_json_DocCreateRequestMsg j);
  userId ← user_id sid;
  docId ← act (fun s => let '(docId, access, docs) := create_document (sv_access s) (sv_docs s) (dcq_title msg) userId in
                        (with_docs (with_access s access) docs, docId));
  send_json_steps sid (to_json_DocCreateResponseMsg (mkDocCreateResponseMsg true docId)).

(** [get_document]: two critical sections, and the reading of the files between them. *)
Definition get_document_steps (docId : Z) : Prog (option Z) :=
  doc ← read (fun s => get_document_lookup (sv_docs s) docId);
  match doc with
  | Some doc => mret (Some doc)
  | None =>
      loaded ← read (fun s => load_from_disk_unlocked (sv_docs s) docId);
      match loaded with
      | None => mret None
      | Some loaded =>
          act (fun s => let '(doc, docs) := get_document_publish (sv_docs s) docId loaded in (with_docs s docs, Some doc))
      end
  end.

(** A member function of a document. *)
Definition document {A} (doc : Z) (f : Document -> A) : Prog A :=
  read (fun s => f (match hp_docs (dm_heap (sv_docs s)) !! doc with Some d => d | None => new_Document 0 "" end)).

Definition handle_doc_join_steps (sid : Z) (j : json) : Prog () :=
  msg ← Ret (from_json_DocJoinRequestMsg j);
  let docId := djq_docId msg in
  userId ← user_id sid;
  allowed ← read (fun s => can_read (sv_access s) docId userId);
  if negb allowed then send_json_steps sid (to_json_DocJoinResponseMsg (join_failure "access_denied"))
  else
    doc ← get_document_steps docId;
    match doc with
    | None => send_json_steps sid (to_json_DocJoinResponseMsg (join_failure "doc_not_found"))
    | Some doc =>
        doc_session ← act (fun s => let '(loc, docs) := get_or_create_session (sv_docs s) docId in (with_docs s docs, loc));
        match doc_session with
        | None => send_json_steps sid (to_json_DocJoinResponseMsg (join_failure "doc_not_found"))
        | Some loc =>
            userId ← user_id sid;
            role_str ← read (fun s => role_to_string (sv_access s) docId userId);
            content ← document doc doc_content;
            revision ← document doc doc_revision;
            connected ← read (fun s => match hp_sessions (dm_heap (sv_docs s)) !! loc with
                                       | Some o => connected_users (so_state o) | None => [] end);
            let users := (fun cu => mkUserInfo (cu_userId cu) (cu_username cu) (cu_color cu)) <$> connected in
            _ ← on_session_steps sid (fun c => (set_current_doc c docId, []));
            title ← document doc doc_title;
            _ ← send_json_steps sid (to_json_DocJoinResponseMsg
                  (mkDocJoinResponseMsg true docId title content revision role_str users ""));
            userId ← user_id sid;
            name ← username sid;
            color ← color sid;
            enqueue_steps loc (mkDocCommand CmdJoin no_operation userId name color sid)
        end
    end.

Definition handle_doc_leave_steps (sid : Z) (j : json) : Prog () :=
  msg ← Ret (from_json_DocLeaveRequestMsg j);
  doc_session ← read (fun s => get_session (sv_docs s) (dvq_docId msg));
  _ ← match doc_session with
      | Some loc =>
          userId ← user_id sid; name ← username sid;
          enqueue_steps loc (mkDocCommand CmdLeave no_operation userId name "" 0)
      | None => mret ()
      end;
  _ ← on_session_steps sid (fun c => (set_current_doc c 0, []));
  send_json_steps sid (to_json_DocLeaveResponseMsg (mkDocLeaveResponseMsg true)).

Definition handle_doc_delete_steps (sid : Z) (j : json) : Prog () :=
  msg ← Ret (from_json_DocDeleteRequestMsg j);
  let docId := ddq_docId msg in
  userId ← user_id sid;
  allowed ← read (fun s => can_delete (sv_access s) docId userId);
  if negb allowed then
    _ ← send_error_steps sid "access_denied" "Only owner can delete documents";
    send_json_steps sid (to_json_DocDeleteResponseMsg (mkDocDeleteResponseMsg false))
  else
    doc_session ← read (fun s => get_session (sv_docs s) docId);
    _ ← match doc_session with
        | Some loc => enqueue_steps loc (mkDocCommand CmdDelete no_operation 0 "" "" 0)
        | None => mret ()
        end;
    _ ← write (fun s => let '(_, access, docs) := delete_document (sv_access s) (sv_docs s) docId in
                        with_docs (with_access s access) docs);
    send_json_steps sid (to_json_DocDeleteResponseMsg (mkDocDeleteResponseMsg true)).

Definition share_done_steps (sid docId : Z) (role : string) (target_id : Z) : Prog () :=
  _ ← send_json_steps sid (to_json_DocShareResponseMsg (mkDocShareResponseMsg true));
  target_session ← read (fun s => find_session_by_user_id (sv_tcp s) target_id);
  match target_session with
  | Some tid =>
      current ← current_doc_id tid;
      if current =? docId then send_json_steps tid (to_json_RoleChangedMsg (mkRoleChangedMsg docId role))
      else mret ()
  | None => mret ()
  end.

(** The user id is read a second time for the comparison with the target. *)
Definition handle_doc_share_steps (sid : Z) (j : json) : Prog () :=
  msg ← Ret (from_json_DocShareRequestMsg j);
  let docId := dsq_docId msg in
  userId ← user_id sid;
  allowed ← read (fun s => can_share (sv_access s) docId userId);
  if negb allowed then send_error_steps sid "access_denied" "Only owner can manage access"
  else
    target ← read (fun s => find_user_id (sv_auth s) (dsq_targetUsername msg));
    match target with
    | None => send_error_steps sid "user_not_found" "Target user not found"
    | Some target_id =>
        userId ← user_id sid;
        if target_id =? userId then send_error_steps sid "cannot_modify_own_role" "Cannot modify own role"
        else
          let role := dsq_role msg in
          let change (f : AccessControl -> AccessControl) : Prog () :=
            _ ← write (fun s => with_access s (f (sv_access s)));
            share_done_steps sid docId role target_id in
          if bool_decide (role = "none"%string) then change (fun a => revoke a docId target_id)
          else if bool_decide (role = "editor"%string) then change (fun a => grant a docId target_id Editor)
          else if bool_decide (role = "viewer"%string) then change (fun a => grant a docId target_id Viewer)
          else send_error_steps sid "invalid_message" "Invalid role"
    end.

(** The identity is read anew for the operation and for the command. *)
Definition enqueue_entry (sid loc revision : Z) (op_entry : OpEntry) : Prog () :=
  author ← user_id sid;
  userId ← user_id sid;
  name ← username sid;
  enqueue_steps loc
    (mkDocCommand CmdOperation (cmd_operation (command_of_entry author name revision op_entry)) userId name "" 0).
Fixpoint enqueue_entries (sid loc revision : Z) (ops : list OpEntry) : Prog () :=
  match ops with
  | [] => mret ()
  | op_entry :: ops => _ ← enqueue_entry sid loc revision op_entry; enqueue_entries sid loc revision ops
  end.

Definition handle_operation_steps (sid : Z) (j : json) : Prog () :=
  msg ← Ret (from_json_OperationMsg j);
  current ← current_doc_id sid;
  if negb (current =? opm_docId msg) then send_error_steps sid "not_in_document" "Not in this document"
  else
    userId ← user_id sid;
    allowed ← read (fun s => can_edit (sv_access s) (opm_docId msg) userId);
    if negb allowed then send_error_steps sid "access_denied" "No edit permission"
    else if 1000 <? Z.of_nat (length (opm_ops msg)) then
      send_error_steps sid "invalid_message" "Too many operations (max 1000)"
    else
      doc_session ← read (fun s => get_session (sv_docs s) (opm_docId msg));
      match doc_session with
      | None => send_error_steps sid "doc_not_found" "Document not active"
      | Some loc => enqueue_entries sid loc (opm_revision msg) (opm_ops msg)
      end.

Definition handle_cursor_update_steps (sid : Z) (j : json) : Prog () :=
  msg ← Ret (from_json_CursorUpdateMsg j);
  current ← current_doc_id sid;
  if negb (current =? cum_docId msg) then mret ()
  else
    doc_session ← read (fun s => get_session (sv_docs s) (cum_docId msg));
    match doc_session with
    | None => mret ()
    | Some _ =>
        userId ← user_id sid;
        name ← username sid;
        color ← color sid;
        write (fun s => with_docs s (update_cursor (sv_docs s) (cum_docId msg)
          (mkCursorState userId name color (cum_position msg) (cum_selectionStart msg) (cum_selectionEnd msg))))
    end.

Definition dispatch_steps (sid : Z) (buf : list Z) (type : MessageType) (j : json) : Prog () :=
  match type with
  | MtAuthRequest => handle_auth_request_steps sid buf j
  | MtDocListRequest => handle_doc_list_steps sid
  | MtDocCreateRequest => handle_doc_create_steps sid j
  | MtDocJoinRequest => handle_doc_join_steps sid j
  | MtDocLeaveRequest => handle_doc_leave_steps sid j
  | MtDocDeleteRequest => handle_doc_delete_steps sid j
  | MtDocShareRequest => handle_doc_share_steps sid j
  | MtOperation => handle_operation_steps sid j
  | MtCursorUpdate => handle_cursor_update_steps sid j
  | MtUndoRequest | MtRedoRequest | MtSnapshotListRequest | MtSnapshotViewRequest
  | MtSnapshotRestoreRequest =>
      send_error_steps sid "not_implemented" "This feature is not available in MVP"
  | _ => send_error_steps sid "invalid_message" "Unknown message type"
  end.

Definition handle_message_steps (sid : Z) (buf : list Z) (what json_payload : string) : Prog () :=
  match json_parse json_payload with
  | None => send_error_steps sid "invalid_message" "Invalid JSON"
  | Some j =>
      match json_at j "type" with
      | Some t =>
          if negb (json_contains j "type") || negb (json_is_string t) then
            send_error_steps sid "invalid_message" "Missing 'type' field"
          else
            type_str ← Ret (get_string t);
            let type := parse_message_type type_str in
            authorised ← check_auth_steps sid type;
            if negb authorised then mret ()
            else catch (dispatch_steps sid buf type j)
                   (send_error_steps sid "invalid_message" ("Malformed message: " +:+ what))
      | None => send_error_steps sid "invalid_message" "Missing 'type' field"
      end
  end.

End Handlers.

(** ** Without interruption *)

Lemma run_bind {A B} (p : Prog A) (k : A -> Prog B) s :
  run (p ≫= k) s = match run p s with (s, Some x) => run (k x) s | (s, None) => (s, None) end.
Proof.
  revert s. induction p as [[x|]|C f c IH]; intros s; try done.
  change (run (Act f c ≫= k) s) with (let '(s, x) := f s in run (c x ≫= k) s).
  cbn. destruct (f s) as [s1 x]. apply IH.
Qed.
Lemma bind_eq {A B} (m : M A) (k : A -> M B) s :
  (m ≫= k) s = match m s with (s, Some x) => k x s | (s, None) => (s, None) end.
Proof. done. Qed.
Lemma run_catch p h s : run (catch p h) s = try_catch (run p) (run h) s.
Proof.
  revert s. induction p as [[x|]|C f c IH]; intros s; try done.
  unfold try_catch. cbn. destruct (f s) as [s1 x]. apply IH.
Qed.
Lemma run_read {A B} (f : Server -> A) (k : A -> Prog B) s : run (read f ≫= k) s = run (k (f s)) s.
Proof. done. Qed.
Lemma run_write {B} f (k : () -> Prog B) s : run (write f ≫= k) s = run (k ()) (f s).
Proof. done. Qed.

(** [alone p m]: the program run alone is the computation of [MessageHandler]. *)
Definition alone {A} (p : Prog A) (m : M A) : Prop := forall s, run p s = m s.

(** The first part agrees in this state, the rest in every one. *)
Lemma run_bind_eq {A B} (p : Prog A) m (k : A -> Prog B) k' s :
  run p s = m s -> (forall x, alone (k x) (k' x)) -> run (p ≫= k) s = (m ≫= k') s.
Proof.
  intros H Hk. rewrite run_bind, bind_eq, H. destruct (m s) as [s1 [x|]]; [apply Hk|done].
Qed.
Lemma alone_bind {A B} (p : Prog A) m (k : A -> Prog B) k' :
  alone p m -> (forall x, alone (k x) (k' x)) -> alone (p ≫= k) (m ≫= k').
Proof. intros H Hk s. by apply run_bind_eq. Qed.
Lemma alone_throw {A B} (o : option A) (k : A -> Prog B) k' :
  (forall x, alone (k x) (k' x)) -> alone (Ret o ≫= k) (or_throw o ≫= k').
Proof. by apply alone_bind. Qed.
Lemma alone_update {B} sid f (k : () -> Prog B) k' :
  (forall x, alone (k x) (k' x)) -> alone (on_session_steps sid (fun c => (f c, [])) ≫= k) (update sid f ≫= k').
Proof. by apply alone_bind. Qed.

(** Runs the leading reads and writes of a program, on both sides. *)
Ltac run_reads :=
  unfold user_id, username, color, current_doc_id, is_authenticated, getter, document; cbv beta zeta;
  repeat (first [rewrite bind_session | rewrite bind_gets | rewrite run_read | rewrite run_write]; cbv beta zeta).

Section Alone.
Context {J : Json} (CC_SHA256 : string -> list Z).

Lemma alone_send_json sid j : alone (send_json_steps sid j) (send_json sid j).
Proof. by apply alone_throw. Qed.

Lemma alone_send_error sid code message : alone (send_error_steps sid code message) (send_error sid code message).
Proof.
  apply alone_bind; [apply alone_send_json|]. intros _. destruct (bool_decide _); [|done].
  intros s. rewrite bind_session. unfold update. cbn. by destruct (3 <=? _).
Qed.

Lemma alone_check_auth sid type : alone (check_auth_steps sid type) (check_auth sid type).
Proof.
  unfold check_auth_steps, check_auth. destruct (bool_decide _); [done|]. intros s.
  run_reads.
  destruct (negb _); [|done]. by apply alone_bind; [apply alone_send_error|].
Qed.

Lemma alone_auth_request sid buf j :
  alone (handle_auth_request_steps CC_SHA256 sid buf j) (handle_auth_request CC_SHA256 sid buf j).
Proof.
  apply alone_throw. intros msg. destruct (_ && _); [apply alone_send_error|]. apply alone_bind.
  - intros s. destruct (bool_decide _); [|done]. rewrite bind_gets. cbn.
    by destruct (register_user _ _ _ _ _).
  - intros result. destruct (ar_success result); [|apply alone_send_json].
    apply alone_update. intros _. apply alone_send_json.
Qed.

Lemma alone_doc_list sid : alone (handle_doc_list_steps sid) (handle_doc_list sid).
Proof. intros s. unfold handle_doc_list. rewrite bind_session, bind_gets. apply alone_send_json. Qed.

Lemma alone_doc_create sid j : alone (handle_doc_create_steps sid j) (handle_doc_create sid j).
Proof.
  apply alone_throw. intros msg s. rewrite bind_session, bind_gets. unfold id.
  run_reads. rewrite run_bind. cbn [run act].
  destruct (create_document _ _ _ _) as [[docId access] docs]. rewrite bind_modify. apply alone_send_json.
Qed.

Lemma run_get_document docId s :
  run (get_document_steps docId) s
  = let '(doc, docs) := get_document (sv_docs s) docId in (with_docs s docs, Some doc).
Proof.
  unfold get_document_steps, get_document. rewrite run_read. destruct (get_document_lookup (sv_docs s) docId).
  - by destruct s.
  - rewrite run_read. destruct (load_from_disk_unlocked (sv_docs s) docId) as [loaded|]; [|by destruct s].
    cbn. by destruct (get_document_publish _ _ _).
Qed.

Lemma alone_doc_join sid j : alone (handle_doc_join_steps sid j) (handle_doc_join sid j).
Proof.
  apply alone_throw. intros msg s. run_reads. destruct (negb _); [apply alone_send_json|].
  rewrite run_bind, bind_eq, run_get_document.
  destruct (get_document (sv_docs s) (djq_docId msg)) as [[doc|] docs]; [|apply alone_send_json].
  rewrite run_bind, bind_eq. cbn [run act sv_docs with_docs].
  destruct (get_or_create_session docs (djq_docId msg)) as [[loc|] docs']; [|apply alone_send_json].
  run_reads. unfold on_session_steps, update. rewrite bind_modify. run_reads.
  apply run_bind_eq; [apply alone_send_json|]. intros _ s2. by run_reads.
Qed.

Lemma alone_doc_leave sid j : alone (handle_doc_leave_steps sid j) (handle_doc_leave sid j).
Proof.
  apply alone_throw. intros msg s. run_reads. apply run_bind_eq.
  - destruct (get_session _ _); [by run_reads|done].
  - intros _. apply alone_update. intros _. apply alone_send_json.
Qed.

Lemma alone_doc_delete sid j : alone (handle_doc_delete_steps sid j) (handle_doc_delete sid j).
Proof.
  apply alone_throw. intros msg s. run_reads. destruct (negb _).
  - apply run_bind_eq; [apply alone_send_error|]. intros _. apply alone_send_json.
  - run_reads. apply run_bind_eq; [by destruct (get_session _ _)|]. intros _. apply alone_bind; [done|].
    intros _. apply alone_send_json.
Qed.

Lemma alone_share_done sid docId role target : alone (share_done_steps sid docId role target) (share_done sid docId role target).
Proof.
  apply alone_bind; [apply alone_send_json|]. intros _ s. run_reads.
  destruct (find_session_by_user_id _ _) as [tid|]; [|done]. run_reads. destruct (_ =? _); [apply alone_send_json|done].
Qed.

Lemma alone_doc_share sid j : alone (handle_doc_share_steps sid j) (handle_doc_share sid j).
Proof.
  apply alone_throw. intros msg s. run_reads. destruct (negb _); [apply alone_send_error|]. run_reads.
  destruct (find_user_id _ _) as [target|]; [|apply alone_send_error]. run_reads.
  destruct (_ =? _); [apply alone_send_error|].
  repeat (destruct (bool_decide _); [apply run_bind_eq; [done|intros _; apply alone_share_done]|]).
  apply alone_send_error.
Qed.

Lemma run_enqueue_entries sid loc rev ops s c m :
  session_object (sv_tcp (fst (m s))) sid = c -> snd (m s) = Some () ->
  run (enqueue_entries sid loc rev ops) (fst (m s))
  = foldl (fun m op_entry => _ ← m; enqueue_to loc (command_of_entry (cs_userId c) (cs_username c) rev op_entry)) m ops s.
Proof.
  revert m. induction ops as [|op ops IH]; intros m Hc Hm; cbn [foldl enqueue_entries].
  - destruct (m s) as [s1 x]. cbn in *. by subst.
  - rewrite run_bind. unfold enqueue_entry. run_reads. cbn [run enqueue_steps write act].
    rewrite <- IH; unfold mbind at 1, M_bind at 1; destruct (m s) as [s1 x]; cbn in *; subst; done.
Qed.

Lemma alone_operation sid j : alone (handle_operation_steps sid j) (handle_operation sid j).
Proof.
  apply alone_throw. intros msg s. run_reads. destruct (negb _); [apply alone_send_error|]. run_reads.
  destruct (negb _); [apply alone_send_error|]. destruct (1000 <? _); [apply alone_send_error|]. run_reads.
  destruct (get_session _ _) as [loc|]; [|apply alone_send_error].
  by apply (run_enqueue_entries sid loc (opm_revision msg) (opm_ops msg) s (session_object (sv_tcp s) sid) (@mret M M_ret () ())).
Qed.

Lemma alone_cursor_update sid j : alone (handle_cursor_update_steps sid j) (handle_cursor_update sid j).
Proof.
  apply alone_throw. intros msg s. run_reads. destruct (negb _); [done|]. run_reads.
  destruct (get_session _ _); [|done]. by run_reads.
Qed.

Lemma alone_dispatch sid buf type j :
  alone (dispatch_steps CC_SHA256 sid buf type j) (dispatch CC_SHA256 sid buf type j).
Proof.
  destruct type; first [apply alone_send_error | apply alone_auth_request | apply alone_doc_list
    | apply alone_doc_create | apply alone_doc_join | apply alone_doc_leave | apply alone_doc_delete
    | apply alone_doc_share | apply alone_operation | apply alone_cursor_update].
Qed.

(** The handlers of [MessageHandler] are the ones of the source run without interruption. 
    Taking the critical sections of a handler one after the other, with no other thread
    in between, gives the state, the outputs and the exception of the handler. *)
Theorem uninterrupted_handler sid buf what payload s :
  run (handle_message_steps CC_SHA256 sid buf what payload) s = handle_message CC_SHA256 sid buf what payload s.
Proof.
  unfold handle_message_steps, handle_message. destruct (json_parse payload) as [j|]; [|apply alone_send_error].
  destruct (json_at j "type") as [t|]; [|apply alone_send_error].
  destruct (_ || _); [apply alone_send_error|]. apply alone_throw. intros type_str.
  apply alone_bind; [apply alone_check_auth|]. intros [|]; [|done]. intros s1. cbn [negb]. rewrite run_catch.
  unfold try_catch. rewrite alone_dispatch. destruct (dispatch _ _ _ _ _ s1) as [s2 [x|]]; [done|apply alone_send_error].
Qed.

(** ** A handler ends

    [ends n p]: whatever the actions answer, there are at most [n] of them. *)
Fixpoint ends {A} (n : nat) (p : Prog A) {struct p} : Prop :=
  match p with
  | Ret _ => True
  | Act f k => match n with O => False | S n => forall x, ends n (k x) end
  end.

Lemma ends_more {A} n m (p : Prog A) : ends n p -> (n <= m)%nat -> ends m p.
Proof.
  revert n m. induction p as [o|B f k IH]; intros n m H Hn; [done|].
  destruct n as [|n]; [done|]. destruct m as [|m]; [lia|]. intros x. eapply IH; [apply H|lia].
Qed.
Lemma ends_bind {A B} n m (p : Prog A) (k : A -> Prog B) :
  ends n p -> (forall x, ends m (k x)) -> ends (n + m) (p ≫= k).
Proof.
  intros H Hk. revert n H. induction p as [[x|]|C f c IH]; intros n H; [|done|].
  - eapply ends_more; [apply Hk|lia].
  - destruct n as [|n]; [done|]. intros x. by apply IH.
Qed.
Lemma ends_catch n m p h : ends n p -> ends m h -> ends (n + m) (catch p h).
Proof.
  intros H Hh. revert n H. induction p as [[x|]|C f c IH]; intros n H; [done|eapply ends_more; [done|lia]|].
  destruct n as [|n]; [done|]. intros x. by apply IH.
Qed.
Lemma ends_throw {A B} n (o : option A) (k : A -> Prog B) : (forall x, ends n (k x)) -> ends n (Ret o ≫= k).
Proof. intros H. destruct o; [apply H|done]. Qed.
Lemma ends_act {A B} n (f : Server -> Server * A) (k : A -> Prog B) : (forall x, ends n (k x)) -> ends (S n) (act f ≫= k).
Proof. done. Qed.
Lemma ends_split {A B} m n (p : Prog A) (k : A -> Prog B) :
  ends m p -> (m <= n)%nat -> (forall x, ends (n - m) (k x)) -> ends n (p ≫= k).
Proof. intros H Hm Hk. replace n with (m + (n - m))%nat by lia. by apply ends_bind. Qed.

Lemma ends_send_json sid j : ends 1 (send_json_steps sid j).
Proof. by apply ends_throw. Qed.
Lemma ends_send_error sid code message : ends 3 (send_error_steps sid code message).
Proof.
  apply (ends_bind 1 2); [apply ends_send_json|]. intros _. destruct (bool_decide _); [|done].
  apply ends_act. intros count. by destruct (3 <=? count).
Qed.
Lemma ends_enqueue_entries sid loc rev ops : ends (4 * length ops) (enqueue_entries sid loc rev ops).
Proof.
  induction ops as [|op ops IH]; [exact I|]. eapply ends_more; [apply (ends_bind 4); [by repeat intros ?|intros _; apply IH]|cbn; lia].
Qed.

Lemma ends_get_document docId : ends 3 (get_document_steps docId).
Proof.
  apply ends_act. intros [doc|]; [done|]. apply ends_act. intros [d|]; [|done]. by intros ?.
Qed.

(** Counts the actions of a program without loops. *)
Ltac count_actions :=
  repeat lazymatch goal with
  | |- forall _, _ => intros ?
  | |- ends _ (Ret _) => exact I
  | |- ends _ (let _ := _ in _) => cbv zeta
  | |- ends _ (mret _) => exact I
  | |- ends _ (if ?b then _ else _) => destruct b
  | |- ends _ (match ?o with Some _ => _ | None => _ end) => destruct o
  | |- ends _ (match ?o with Some _ => _ | None => _ end ≫= _) => destruct o
  | |- ends _ (Ret _ ≫= _) => apply ends_throw
  | |- ends _ (send_json_steps _ _) => eapply ends_more; [apply ends_send_json|cbn; lia]
  | |- ends _ (send_error_steps _ _ _) => eapply ends_more; [apply ends_send_error|cbn; lia]
  | |- ends _ (send_json_steps _ _ ≫= _) => apply (ends_split 1); [apply ends_send_json|cbn; lia|]
  | |- ends _ (send_error_steps _ _ _ ≫= _) => apply (ends_split 3); [apply ends_send_error|cbn; lia|]
  | |- ends _ (get_document_steps _ ≫= _) => apply (ends_split 3); [apply ends_get_document|cbn; lia|]
  | |- ends _ (on_session_steps _ _ ≫= _) => apply (ends_split 1); [by intros ?|cbn; lia|]
  | |- ends _ (_ ≫= _) => apply (ends_split 1); [by intros ?|cbn; lia|]
  | |- ends _ _ => by intros ?
  end.

Lemma ends_auth_request sid buf j : ends 20 (handle_auth_request_steps CC_SHA256 sid buf j).
Proof.
  apply ends_throw. intros msg. destruct (_ && _); [count_actions|]. apply (ends_split 1); [by destruct (bool_decide _)|lia|].
  intros result. count_actions.
Qed.
Lemma ends_doc_list sid : ends 20 (handle_doc_list_steps sid).
Proof. unfold handle_doc_list_steps. count_actions. Qed.
Lemma ends_doc_create sid j : ends 20 (handle_doc_create_steps sid j).
Proof. unfold handle_doc_create_steps. count_actions. Qed.
Lemma ends_doc_join sid j : ends 20 (handle_doc_join_steps sid j).
Proof. unfold handle_doc_join_steps. count_actions. Qed.
Lemma ends_doc_leave sid j : ends 20 (handle_doc_leave_steps sid j).
Proof.
  apply ends_throw. intros msg. apply ends_act. intros doc_session. apply (ends_split 3); [|lia|intros _; count_actions].
  destruct doc_session; count_actions.
Qed.
Lemma ends_doc_delete sid j : ends 20 (handle_doc_delete_steps sid j).
Proof.
  apply ends_throw. intros msg. apply ends_act. intros userId. apply ends_act. intros allowed.
  destruct (negb allowed); [count_actions|]. apply ends_act. intros doc_session.
  apply (ends_split 1); [|lia|intros _; count_actions]. destruct doc_session; count_actions.
Qed.
Lemma ends_share_done sid docId role target : ends 4 (share_done_steps sid docId role target).
Proof. unfold share_done_steps. count_actions. Qed.
Lemma ends_doc_share sid j : ends 20 (handle_doc_share_steps sid j).
Proof.
  apply ends_throw. intros msg. do 2 (apply ends_act; intros ?). destruct (negb _); [count_actions|].
  apply ends_act. intros [target|]; [|count_actions]. apply ends_act. intros userId.
  destruct (_ =? _); [count_actions|]. cbv zeta.
  repeat (destruct (bool_decide _); [apply (ends_split 1); [by intros ?|lia|]; intros _;
    eapply ends_more; [apply ends_share_done|cbn; lia]|]).
  count_actions.
Qed.
Lemma ends_operation sid j : ends (20 + 4 * 1000) (handle_operation_steps sid j).
Proof.
  apply ends_throw. intros msg. apply ends_act. intros current. destruct (negb _).
  { eapply ends_more; [apply ends_send_error|lia]. }
  do 2 (apply ends_act; intros ?). destruct (negb _).
  { eapply ends_more; [apply ends_send_error|lia]. }
  destruct (Z.ltb_spec 1000 (Z.of_nat (length (opm_ops msg)))).
  { eapply ends_more; [apply ends_send_error|lia]. }
  apply ends_act. intros [loc|]; (eapply ends_more; [first [apply ends_enqueue_entries | apply ends_send_error]|lia]).
Qed.
Lemma ends_cursor_update sid j : ends 20 (handle_cursor_update_steps sid j).
Proof. unfold handle_cursor_update_steps. count_actions. Qed.

Lemma ends_dispatch sid buf type j : ends (20 + 4 * 1000) (dispatch_steps CC_SHA256 sid buf type j).
Proof.
  destruct type; first [apply ends_operation |
    eapply ends_more; [first [apply ends_send_error | apply ends_auth_request | apply ends_doc_list | apply ends_doc_create
      | apply ends_doc_join | apply ends_doc_leave | apply ends_doc_delete | apply ends_doc_share
      | apply ends_cursor_update]|lia]].
Qed.

Lemma ends_handle_message sid buf what payload :
  ends (27 + 4 * 1000) (handle_message_steps CC_SHA256 sid buf what payload).
Proof.
  unfold handle_message_steps.
  assert (forall code message, ends (27 + 4 * 1000) (send_error_steps sid code message)) as He
    by (intros; eapply ends_more; [apply ends_send_error|lia]).
  destruct (json_parse payload) as [j|]; [|apply He]. destruct (json_at j "type") as [t|]; [|apply He].
  destruct (_ || _); [apply He|]. apply ends_throw. intros type_str. apply (ends_split 4); [|lia|].
  - unfold check_auth_steps. destruct (bool_decide _); [done|]. count_actions.
  - intros authorised. destruct (negb authorised); [exact I|]. eapply ends_more; [apply ends_catch|].
    + apply ends_dispatch.
    + apply ends_send_error.
    + lia.
Qed.

(** The actions of a program, each in a state of its own: what the other threads do to the
    server in between is left open. *)
Definition scheduled {A} (p : Prog A) (states : list Server) : Prog A := foldl (fun p s => snd (advance p s)) p states.

Lemma ends_scheduled {A} n (p : Prog A) states :
  ends n p -> (n <= length states)%nat -> exists o, scheduled p states = Ret o.
Proof.
  unfold scheduled. revert n p. induction states as [|s states IH]; intros n p H Hn.
  - destruct p as [o|B f k]; [by exists o|]. by destruct n; [|cbn in Hn; lia].
  - cbn. destruct p as [o|B f k].
    + apply (IH 0%nat); [done|lia].
    + destruct n as [|n]; [done|]. cbn. destruct (f s) as [s' x]. apply (IH n); [apply H|cbn in Hn; lia].
Qed.

(** C32: no handler goes on for ever. Whatever the other threads do to the server between its
    critical sections, the handler of any message ends after at most 4027 of them. *)
Theorem handlers_end sid buf what payload states :
  4027 <= Z.of_nat (length states) ->
  exists o, scheduled (handle_message_steps CC_SHA256 sid buf what payload) states = Ret o.
Proof. intros H. eapply ends_scheduled; [apply ends_handle_message|lia]. Qed.
End Alone.

Lemma handlers_end_witness :
  exists o, scheduled (handle_message_steps (J := json_tree) sha 1 [] "" "hi") (replicate 4027 (new_Server "data" ∅)) = Ret o.
Proof.
  apply (handlers_end (J := json_tree) sha 1 [] "" "hi"). rewrite length_replicate. lia.
Defined.
