(* ===== verification/Background.v ===== *)
(** * The background threads, critical section by critical section
    (server/src/autosave.cpp, server/src/cursor_aggregator.cpp)

    The rounds of [Autosave] as programs of [Interleaving]: the documents are listed,
    read, written to a temporary file, renamed and marked under locks of their own. A
    background thread waits, works and looks at its stop token; an exception in it ends the
    process. The system is the server with the running handlers and the two threads. *)
From S2P Require Import Prelude ByteString Operation OT Document AccessControl AuthManager Json Frames Protocol.
From S2P Require Import ClientSession DocumentSession DocumentManager TcpServer MessageHandler Server Autosave Interleaving.
Local Open Scope Z_scope.

(** ** Rounds *)

Fixpoint for_each {A} (l : list A) (f : A -> Prog ()) : Prog () :=
  match l with
  | [] => mret ()
  | x :: l => _ ← f x; for_each l f
  end.

Definition change_files (f : string -> Files -> Files) : Prog () :=
  write (fun s => let m := sv_docs s in
    with_docs s (mkDocumentManager (dm_documents m) (dm_titles m) (dm_sessions m) (dm_cursor_buffers m)
                   (dm_next_doc_id m) (dm_data_dir m) (dm_heap m) (f (dm_data_dir m) (dm_files m)))).
(** [std::ofstream file(path)], what is written to it, and [file.is_open()]. *)
Definition write_out (path : string -> string) (contents : string) : Prog bool :=
  act (fun s => let m := sv_docs s in
    (with_docs s (with_files m (write_file (dm_files m) (path (dm_data_dir m)) contents)),
     can_open (dm_files m) (path (dm_data_dir m)))).
(** A member function that changes a document. *)
Definition change_document (doc : Z) (f : Document -> Document) : Prog () :=
  write (fun s => with_docs s (on_document (sv_docs s) doc (fun files d => (files, f d)))).

Definition save_document_steps (doc : Z) : Prog () :=
  docId ← document doc doc_id;
  content ← document doc doc_content;
  opened ← write_out (fun dir => tmp_path dir docId) content;
  if negb opened then mret () else
  _ ← change_files (fun dir files => rename files (tmp_path dir docId) (doc_path dir docId));
  change_document doc mark_saved.

Definition maybe_create_snapshot_steps (doc : Z) : Prog () :=
  docId ← document doc doc_id;
  needed ← document doc needs_snapshot;
  if negb needed then mret ()
  else
    content ← document doc doc_content;
    revision ← document doc doc_revision;
    opened ← write_out (fun dir => snapshot_path dir docId revision) content;
    if (opened : bool) then change_document doc mark_snapshot_created else mret ().

Definition round_body_steps (doc : Z) : Prog () :=
  dirty ← document doc doc_dirty;
  if (dirty : bool) then _ ← save_document_steps doc; maybe_create_snapshot_steps doc else mret ().
Definition autosave_round_steps : Prog () :=
  docs ← read (fun s => all_loaded_documents (sv_docs s)); for_each docs round_body_steps.
Definition force_save_all_steps : Prog () :=
  docs ← read (fun s => all_loaded_documents (sv_docs s)); for_each docs save_document_steps.

Section Cursors.
Context {J : Json}.

Definition broadcast_cursors_steps (docId : Z) : Prog () :=
  cursors ← read (fun s => get_cursors (sv_docs s) docId);
  if bool_decide (cursors = ∅) then mret ()
  else
    doc_session ← read (fun s => get_session (sv_docs s) docId);
    match doc_session with
    | None => mret ()
    | Some loc =>
        connected ← read (fun s => match hp_sessions (dm_heap (sv_docs s)) !! loc with
                                   | Some o => connected_users (so_state o) | None => [] end);
        payload ← Ret (serialize (to_json_CursorBroadcastMsg
          (mkCursorBroadcastMsg docId (cursor_info ∘ snd <$> map_to_list cursors))));
        for_each connected (fun user => on_session_steps (cu_session user) (fun c => send c payload))
    end.
Definition broadcast_loop_steps : Prog () :=
  doc_ids ← read (fun s => all_active_doc_ids (sv_docs s)); for_each doc_ids broadcast_cursors_steps.
End Cursors.

(** ** Threads

    [Died]: an exception left the function of the thread. *)
Inductive ThreadState := Idle | Working (p : Prog ()) | Ended | Died.
Record Thread := mkThread { th_state : ThreadState; th_stop : bool }.
Definition new_Thread : Thread := mkThread Idle false.
(** [thread_.request_stop()] *)
Definition ask_stop (t : Thread) : Thread := mkThread (th_state t) true.

(** One step of a thread that runs [round] again and again: the end of its waiting, an
    action of the round, or the end of the round with the condition of the loop. *)
Definition thread_step (round : Prog ()) (t : Thread) (s : Server) : Server * Thread :=
  match th_state t with
  | Idle => (s, mkThread (if th_stop t then Ended else Working round) (th_stop t))
  | Working (Ret (Some _)) => (s, mkThread (if th_stop t then Ended else Idle) (th_stop t))
  | Working (Ret None) => (s, mkThread Died (th_stop t))
  | Working p => let '(s, p) := advance p s in (s, mkThread (Working p) (th_stop t))
  | Ended | Died => (s, t)
  end.

(** ** The system *)

Record System := mkSystem {
  sys_state : Server;
  sys_handlers : list (Prog ());
  sys_autosave : Thread;
  sys_cursors : Thread;
}.
Definition new_System (data_dir : string) (files : Files) : System :=
  mkSystem (new_Server data_dir files) [] new_Thread new_Thread.

Section System.
Context {J : Json} (CC_SHA256 : string -> list Z).

(** The id counters have not reached their last value; the steps of the threads are taken
    in such states. *)
Definition small (s : Server) : Prop :=
  am_next_id (sv_auth s) + 1 < u32_mod /\ dm_next_doc_id (sv_docs s) + 1 < u32_mod.

Definition sys_arrival (sid : Z) (buf : list Z) (what payload : string) (x : System) : System :=
  mkSystem (sys_state x) (sys_handlers x ++ [handle_message_steps CC_SHA256 sid buf what payload])
    (sys_autosave x) (sys_cursors x).
Definition sys_act (i : nat) (x : System) : System :=
  match sys_handlers x !! i with
  | Some p =>
      let '(s, p) := advance p (sys_state x) in
      mkSystem s (<[i := p]> (sys_handlers x)) (sys_autosave x) (sys_cursors x)
  | None => x
  end.
Definition sys_save (x : System) : System :=
  let '(s, t) := thread_step autosave_round_steps (sys_autosave x) (sys_state x) in
  mkSystem s (sys_handlers x) t (sys_cursors x).
Definition sys_broadcast (x : System) : System :=
  let '(s, t) := thread_step broadcast_loop_steps (sys_cursors x) (sys_state x) in
  mkSystem s (sys_handlers x) (sys_autosave x) t.
Definition sys_stop (x : System) : System :=
  mkSystem (sys_state x) (sys_handlers x) (ask_stop (sys_autosave x)) (ask_stop (sys_cursors x)).

Inductive SystemStep : System -> System -> Prop :=
| sys_step_arrival x sid buf what payload : SystemStep x (sys_arrival sid buf what payload x)
| sys_step_act x i : small (sys_state x) -> SystemStep x (sys_act i x)
| sys_step_save x : small (sys_state x) -> SystemStep x (sys_save x)
| sys_step_broadcast x : small (sys_state x) -> SystemStep x (sys_broadcast x)
| sys_step_stop x : SystemStep x (sys_stop x)
| sys_step_io x s : IoStep (sys_state x) s ->
    SystemStep x (mkSystem s (sys_handlers x) (sys_autosave x) (sys_cursors x)).
End System.

(** ** Without interruption *)

Lemma run_for_each {A} (P : Server -> Prop) (f : A -> Prog ()) (g : Server -> A -> Server) l s :
  (forall x s, x ∈ l -> P s -> run (f x) s = (g s x, Some ()) /\ P (g s x)) -> P s ->
  run (for_each l f) s = (foldl g s l, Some ()).
Proof.
  revert s. induction l as [|x l IH]; intros s H Hp; [done|]. cbn.
  destruct (H x s) as [E Hp']; [by left|done|]. rewrite run_bind, E. apply IH; [|done].
  intros y s' Hy. apply H. by right.
Qed.

(** A change of the files and of one document, as a change of the server. *)
Definition on_doc (f : string -> Files -> Document -> Files * Document) (s : Server) (loc : Z) : Server :=
  with_docs s (on_document (sv_docs s) loc (f (dm_data_dir (sv_docs s)))).

Lemma run_save_document s loc d :
  hp_docs (dm_heap (sv_docs s)) !! loc = Some d ->
  run (save_document_steps loc) s = (on_doc (fun dir files d => save_document files dir d) s loc, Some ()).
Proof.
  intros Hd. unfold save_document_steps, write_out, change_files, change_document, on_doc. run_reads. rewrite Hd, run_bind.
  cbn [run act]. unfold on_document at 2. rewrite Hd. unfold save_document, write_file, save_write.
  destruct (can_open (dm_files (sv_docs s)) (tmp_path (dm_data_dir (sv_docs s)) (doc_id d))) eqn:E; cbn [negb].
  - unfold on_document. cbn. rewrite Hd. unfold write_file. by rewrite E.
  - cbn. rewrite insert_id by done. by destruct s as [? ? [? ? ? ? ? ? [] ?] ? ?].
Qed.
Lemma run_snapshot s loc d :
  hp_docs (dm_heap (sv_docs s)) !! loc = Some d ->
  run (maybe_create_snapshot_steps loc) s = (on_doc (fun dir files d => maybe_create_snapshot files dir d) s loc, Some ()).
Proof.
  intros Hd. unfold maybe_create_snapshot_steps, write_out, change_document, on_doc.
  run_reads. unfold on_document at 2. rewrite Hd. unfold maybe_create_snapshot. destruct (negb (needs_snapshot d)).
  - cbn. rewrite insert_id by done. destruct s as [? ? [? ? ? ? ? ? [] ?] ? ?]. done.
  - run_reads. rewrite Hd, run_bind. cbn [run act]. unfold write_file.
    destruct (can_open _ _) eqn:E.
    + cbn. unfold on_document. cbn. by rewrite Hd.
    + cbn. rewrite insert_id by done. by destruct s as [? ? [? ? ? ? ? ? [] ?] ? ?].
Qed.
Lemma run_round_body s loc d :
  hp_docs (dm_heap (sv_docs s)) !! loc = Some d ->
  run (round_body_steps loc) s = (on_doc round_body s loc, Some ()).
Proof.
  intros Hd. unfold round_body_steps. run_reads. unfold on_doc, on_document. rewrite Hd. unfold round_body.
  destruct (doc_dirty d).
  - rewrite run_bind, (run_save_document _ _ _ Hd). unfold on_doc at 1, on_document. rewrite Hd.
    destruct (save_document (dm_files (sv_docs s)) (dm_data_dir (sv_docs s)) d) as [files d'].
    erewrite run_snapshot by (cbn; apply lookup_insert_eq). unfold on_doc, on_document. cbn. rewrite lookup_insert_eq.
    destruct (maybe_create_snapshot _ _ _). cbn. by rewrite insert_insert_eq.
  - cbn. rewrite insert_id by done. by destruct s as [? ? [? ? ? ? ? ? [] ?] ? ?].
Qed.

(** Every listed document has an object. *)
Definition present (locs : list Z) (s : Server) : Prop :=
  forall loc, loc ∈ locs -> is_Some (hp_docs (dm_heap (sv_docs s)) !! loc).
Lemma present_on_doc locs f s loc : present locs s -> present locs (on_doc f s loc).
Proof.
  intros H loc' Hin. unfold on_doc, on_document. destruct (H loc' Hin) as [d Hd].
  destruct (hp_docs _ !! loc) as [e|]; [|by exists d]. destruct (f _ _ e) as [files e'].
  cbn. rewrite lookup_insert. case_decide; by eexists.
Qed.
Lemma present_all s : dm_wf (sv_docs s) -> present (all_loaded_documents (sv_docs s)) s.
Proof.
  intros W loc ([id l] & -> & Hin)%list_elem_of_fmap. apply elem_of_map_to_list in Hin.
  destruct (wf_document _ W _ _ Hin) as (_ & d & Hd & _). by exists d.
Qed.

Lemma for_documents_on_doc f s locs :
  foldl (on_doc f) s locs = with_docs s (for_documents f (sv_docs s) locs).
Proof.
  revert s. unfold for_documents. induction locs as [|loc locs IH]; intros s; [by destruct s|]. cbn [foldl].
  rewrite IH. done.
Qed.

Lemma run_for_documents steps f s :
  (forall s loc d, hp_docs (dm_heap (sv_docs s)) !! loc = Some d -> run (steps loc) s = (on_doc f s loc, Some ())) ->
  dm_wf (sv_docs s) ->
  run (docs ← read (fun s => all_loaded_documents (sv_docs s)); for_each docs steps) s
  = (with_docs s (for_documents f (sv_docs s) (all_loaded_documents (sv_docs s))), Some ()).
Proof.
  intros Hf W. rewrite run_read, <- for_documents_on_doc. set (locs := all_loaded_documents (sv_docs s)).
  apply (run_for_each (present locs)); [|by apply present_all]. intros loc s' Hin Hp.
  destruct (Hp loc Hin) as [d Hd]. split; [by apply Hf with d|by apply present_on_doc].
Qed.

(** What a background thread does when nothing else runs: the rounds of [Autosave]. *)
Lemma alone_autosave_round s :
  dm_wf (sv_docs s) -> run autosave_round_steps s = (with_docs s (autosave_round (sv_docs s)), Some ()).
Proof. apply run_for_documents, run_round_body. Qed.
Lemma alone_force_save s :
  dm_wf (sv_docs s) -> run force_save_all_steps s = (with_docs s (force_save_all (sv_docs s)), Some ()).
Proof. apply run_for_documents, run_save_document. Qed.

Section Properties.
Context {J : Json} (CC_SHA256 : string -> list Z).

Lemma run_sends users payload s :
  run (for_each users (fun user => on_session_steps (cu_session user) (fun c => send c payload))) s
  = (deliver_sends s ((fun user => (cu_session user, payload)) <$> users), Some ()).
Proof. revert s. induction users as [|u users IH]; intros s; [done|]. cbn. apply IH. Qed.

Lemma run_broadcast_cursors docId s :
  match broadcast_cursors s docId with
  | Some s' => run (broadcast_cursors_steps docId) s = (s', Some ())
  | None => snd (run (broadcast_cursors_steps docId) s) = None
  end.
Proof.
  unfold broadcast_cursors, broadcast_cursors_steps. run_reads. case_bool_decide; [done|]. run_reads.
  destruct (get_session _ _); [|done]. run_reads. destruct (serialize _) as [payload|]; [|done]. cbn [mbind option_bind].
  apply run_sends.
Qed.

Lemma broadcast_none ids : foldl (fun s docId => s ≫= fun s => broadcast_cursors s docId) None ids = None.
Proof. by induction ids. Qed.

(** The background threads do what the rounds of [Autosave] say when no other thread comes in
    between: the saving round of a consistent manager, the saving of all documents, and the
    round of the cursors, an exception of which ends the thread and with it the process. *)
Theorem uninterrupted_rounds s :
  dm_wf (sv_docs s) ->
  run autosave_round_steps s = (with_docs s (autosave_round (sv_docs s)), Some ())
  /\ run force_save_all_steps s = (with_docs s (force_save_all (sv_docs s)), Some ())
  /\ match broadcast_loop s with
     | Some s' => run broadcast_loop_steps s = (s', Some ())
     | None => snd (run broadcast_loop_steps s) = None
     end.
Proof.
  intros W. split; [by apply alone_autosave_round|]. split; [by apply alone_force_save|].
  unfold broadcast_loop, broadcast_loop_steps. rewrite run_read. generalize (all_active_doc_ids (sv_docs s)) as ids.
  intros ids. clear W. revert s. induction ids as [|docId ids IH]; intros s; [done|]. cbn [foldl for_each].
  rewrite run_bind. pose proof (run_broadcast_cursors docId s) as H. cbn [mbind option_bind].
  destruct (broadcast_cursors s docId) as [s'|].
  - rewrite H. apply IH.
  - rewrite broadcast_none. destruct (run (broadcast_cursors_steps docId) s) as [s' [x|]]; [done|done].
Qed.

(** The thread after [n] steps of its own, the [i]-th of them in the state [states i]. *)
Fixpoint thread_at (round : Prog ()) (t : Thread) (states : nat -> Server) (n : nat) : Thread :=
  match n with
  | O => t
  | S n => snd (thread_step round (thread_at round t states n) (states n))
  end.
Definition finished (t : Thread) : Prop := th_state t = Ended \/ th_state t = Died.

Lemma thread_at_first round t states n :
  thread_at round t states (S n) = thread_at round (snd (thread_step round t (states 0%nat))) (fun i => states (S i)) n.
Proof. induction n as [|n IH]; [done|]. cbn in *. by rewrite IH. Qed.

(** [stop] returns. A background thread that has been asked to stop comes to its end, also
    from the middle of a round and whatever the other threads do to the server meanwhile:
    it finishes the round it is in and does not start another one. *)
Theorem stop_returns round t states :
  th_stop t = true -> exists n, finished (thread_at round t states n).
Proof.
  destruct t as [st stop]. cbn. intros ->. destruct st as [|p| |].
  - exists 1%nat. by left.
  - revert states. induction p as [[x|]|B f k IH]; intros states.
    + exists 1%nat. by left.
    + exists 1%nat. by right.
    + unfold finished. destruct (f (states 0%nat)) as [s x] eqn:E.
      destruct (IH x (fun i => states (S i))) as [n Hn]. exists (S n). rewrite thread_at_first. cbn. by rewrite E.
  - exists 0%nat. by left.
  - exists 0%nat. by right.
Qed.
End Properties.

(** ** Witnesses *)

Lemma uninterrupted_rounds_witness :
  run autosave_round_steps (new_Server "data" ∅)
  = (with_docs (new_Server "data" ∅) (autosave_round (new_DocumentManager "data" ∅)), Some ()).
Proof. refine (proj1 (uninterrupted_rounds (J := json_tree) (new_Server "data" ∅) _)). apply dm_wf_new. Defined.

Lemma stop_returns_witness :
  exists n, finished (thread_at autosave_round_steps (mkThread (Working autosave_round_steps) true)
                        (fun _ => ann_created) n).
Proof. apply stop_returns. reflexivity. Defined.
