(* ===== verification/Concurrency.v ===== *)
(** * What holds while the threads of the server run at the same time

    A rely-guarantee argument over the programs of [Interleaving] and [Background]:
    [evolves] is what any step of the server may do to the state, [sys_ok] the invariant
    every action keeps. An action may rely on what its program has read before only as far
    as [evolves] preserves it. The invariant is weaker than the one of [Server], in which a
    handler is one step; the examples at the end show why. *)
From S2P Require Import Prelude ByteString Operation Document AccessControl AuthManager Json Frames Protocol Codec.
From S2P Require Import ClientSession DocumentSession DocumentManager TcpServer MessageHandler Color Server Autosave.
From S2P Require Import Interleaving Background.
Local Open Scope Z_scope.

(** The id has been given to a document. *)
Definition issued (s : Server) (d : Z) : Prop := d < dm_next_doc_id (sv_docs s).

(** What every step of the server may do: accounts are for ever, and ids are not given
    twice. *)
Record evolves (s s' : Server) : Prop := mkEvolves {
  ev_accounts n r : am_users (sv_auth s) !! n = Some r -> am_users (sv_auth s') !! n = Some r;
  ev_next : dm_next_doc_id (sv_docs s) <= dm_next_doc_id (sv_docs s');
}.
#[export] Instance evolves_refl : Reflexive evolves.
Proof. intros s. by split. Qed.
#[export] Instance evolves_trans : Transitive evolves.
Proof. intros s1 s2 s3 [A1 A2] [B1 B2]. split; [eauto|lia]. Qed.
Lemma ev_issued s s' d : evolves s s' -> issued s d -> issued s' d.
Proof. unfold issued. intros [_ H]. lia. Qed.

(** A session carries an identity, or none. *)
Definition session_ok (a : AuthManager) (c : ClientSession) : Prop := identity_ok a c /\ is_u32 (cs_userId c).

Record sys_ok (s : Server) : Prop := mkSysOk {
  ok_accounts : auth_wf (sv_auth s);
  ok_manager : dm_wf (sv_docs s);
  ok_session sid : session_ok (sv_auth s) (session_object (sv_tcp s) sid);
  ok_rights d u : is_u32 d -> is_u32 u -> get_role (sv_access s) d u <> None -> issued s d;
  ok_owner d u u' : is_u32 d -> is_u32 u -> is_u32 u' ->
    get_role (sv_access s) d u = Some Owner -> get_role (sv_access s) d u' = Some Owner -> u = u';
}.

(** A program that is safe from [s] on: its actions keep the invariant whatever the other
    threads do in between. *)
Fixpoint safe {A} (p : Prog A) (s : Server) : Prop :=
  match p with
  | Ret _ => True
  | Act f k => forall s1, evolves s s1 -> sys_ok s1 -> small s1 ->
      sys_ok (fst (f s1)) /\ evolves s1 (fst (f s1)) /\ safe (k (snd (f s1))) (fst (f s1))
  end.

(** ** Rules *)

Lemma safe_evolves {A} (p : Prog A) s s' : evolves s s' -> safe p s -> safe p s'.
Proof. destruct p as [o|B f k]; [done|]. intros E H s1 E1. apply H. by etrans. Qed.

Lemma safe_bind {A B} (p : Prog A) (k : A -> Prog B) s :
  safe p s -> (forall x s', evolves s s' -> safe (k x) s') -> safe (p ≫= k) s.
Proof.
  revert s. induction p as [[x|]|C f c IH]; intros s H Hk; [by apply Hk|done|].
  intros s1 E Ok Sm. destruct (H s1 E Ok Sm) as (H1 & H2 & H3). split; [done|]. split; [done|].
  apply IH; [done|]. intros x s' E'. apply Hk. etrans; [exact E|]. by etrans.
Qed.
Lemma safe_catch p h s : safe p s -> (forall s, safe h s) -> safe (catch p h) s.
Proof.
  revert s. induction p as [[x|]|C f c IH]; intros s H Hh; [done|by apply Hh|].
  intros s1 E Ok Sm. destruct (H s1 E Ok Sm) as (H1 & H2 & H3). auto.
Qed.
Lemma safe_throw {A B} (o : option A) (k : A -> Prog B) s : (forall x, o = Some x -> safe (k x) s) -> safe (Ret o ≫= k) s.
Proof. destruct o as [x|]; [|done]. intros H. by apply H. Qed.
Lemma safe_read {A B} (g : Server -> A) (k : A -> Prog B) s :
  (forall s1, evolves s s1 -> sys_ok s1 -> safe (k (g s1)) s1) -> safe (read g ≫= k) s.
Proof. intros H s1 E Ok _. cbn. split; [done|]. split; [reflexivity|]. by apply H. Qed.
Lemma safe_act {A B} (f : Server -> Server * A) (k : A -> Prog B) s :
  (forall s1, evolves s s1 -> sys_ok s1 -> small s1 ->
     sys_ok (fst (f s1)) /\ evolves s1 (fst (f s1)) /\ safe (k (snd (f s1))) (fst (f s1))) -> safe (act f ≫= k) s.
Proof. done. Qed.

(** ** Calm steps

    They touch neither accounts nor rights and keep the manager consistent; a session keeps
    its identity or has none. *)
Record calm (s s' : Server) : Prop := mkCalm {
  calm_auth : sv_auth s' = sv_auth s;
  calm_access : sv_access s' = sv_access s;
  calm_next : dm_next_doc_id (sv_docs s) <= dm_next_doc_id (sv_docs s');
  calm_wf : dm_wf (sv_docs s) -> dm_wf (sv_docs s');
  calm_session sid :
    same_identity (session_object (sv_tcp s) sid) (session_object (sv_tcp s') sid)
    \/ cs_authenticated (session_object (sv_tcp s') sid) = false /\ cs_userId (session_object (sv_tcp s') sid) = 0;
}.
#[export] Instance calm_refl : Reflexive calm.
Proof. intros s. split; try done. by left. Qed.
#[export] Instance calm_trans : Transitive calm.
Proof.
  intros s1 s2 s3 [A1 A2 A3 A4 A5] [B1 B2 B3 B4 B5]. split; [congruence|congruence|lia|by auto|].
  intros sid. destruct (B5 sid) as [(E1 & E2 & E3)|]; [|by right].
  destruct (A5 sid) as [(F1 & F2 & F3)|(F1 & F2)]; [left|right]; split_and?; try split_and!; congruence.
Qed.

Lemma calm_evolves s s' : calm s s' -> evolves s s'.
Proof. intros C. split; [by rewrite (calm_auth _ _ C)|apply C]. Qed.
Lemma calm_ok s s' : calm s s' -> sys_ok s -> sys_ok s'.
Proof.
  intros C [H1 H2 H3 H4 H5]. split; rewrite ?(calm_auth _ _ C), ?(calm_access _ _ C); try done.
  - by apply C.
  - intros sid. destruct (H3 sid) as [Hi Hu]. unfold session_ok, identity_ok.
    destruct (calm_session _ _ C sid) as [(E1 & E2 & E3)|[E1 E2]].
    + by rewrite E1, E2, E3.
    + rewrite E1, E2. by split.
  - intros d u Hd Hu Hr. eapply ev_issued; [by apply calm_evolves|]. by eapply H4.
Qed.

Lemma calm_quiet s s' : quiet s s' -> calm s s'.
Proof. intros [Q1 Q2 Q3 Q4]. split; rewrite ?Q3; try done. intros sid. left. apply Q4. Qed.
Lemma calm_docs s docs :
  dm_next_doc_id (sv_docs s) <= dm_next_doc_id docs -> (dm_wf (sv_docs s) -> dm_wf docs) -> calm s (with_docs s docs).
Proof. intros. split; try done. by left. Qed.
Lemma calm_on_session s sid f :
  (forall c, same_identity c (fst (f c))) -> calm s (with_tcp s (on_session (sv_tcp s) sid f)).
Proof. intros Hf. by apply calm_quiet, quiet_on_session. Qed.

Lemma safe_calm {A B} (f : Server -> Server * A) (k : A -> Prog B) s :
  (forall s1, calm s1 (fst (f s1))) -> (forall x s', evolves s s' -> sys_ok s' -> safe (k x) s') -> safe (act f ≫= k) s.
Proof.
  intros Hf Hk. apply safe_act. intros s1 E Ok _. specialize (Hf s1). pose proof (calm_evolves _ _ Hf) as E1.
  pose proof (calm_ok _ _ Hf Ok) as Ok1. split; [done|]. split; [done|]. apply Hk; [by etrans|done].
Qed.
Lemma safe_write (f : Server -> Server) s : (forall s1, calm s1 (f s1)) -> safe (write f) s.
Proof.
  intros Hf s1 E Ok _. specialize (Hf s1). split; [by eapply calm_ok|]. split; [by apply calm_evolves|done].
Qed.

(** ** The rest of the server *)

Section Steps.
Context {J : Json} (CC_SHA256 : string -> list Z).

Lemma calm_deliver s sends : calm s (deliver_sends s sends).
Proof.
  unfold deliver_sends. revert s. induction sends as [|[sid payload] sends IH]; intros s; [done|]. cbn.
  etrans; [|apply IH]. apply calm_on_session. intros c. apply same_identity_send.
Qed.

Lemma calm_thread s loc docs sends : session_step (sv_docs s) loc = Some (docs, sends) -> calm s (with_docs s docs).
Proof.
  intros H. pose proof (fun W => dm_wf_thread _ _ _ _ W H) as W. unfold session_step in H.
  destruct (hp_sessions _ !! loc) as [[doc [[|cmd q] users] st]|]; try (by simplify_eq; apply calm_docs).
  destruct (hp_docs _ !! doc) as [d|]; [|by simplify_eq; apply calm_docs].
  apply bind_Some in H as ([[d' s'] o] & _ & [= <- <-]). by apply calm_docs.
Qed.

Lemma calm_enqueue s loc cmd : calm s (with_docs s (session_enqueue (sv_docs s) loc cmd)).
Proof. apply calm_docs; try done. apply dm_wf_enqueue. Qed.

Lemma calm_on_disconnect sid s : calm s (on_disconnect sid s).
Proof.
  unfold on_disconnect. etrans; [|split; cbn; try done; by left].
  destruct (0 <? _); [|done]. apply calm_docs.
  - unfold remove_cursor. destruct (get_session _ _); cbn; by case_match.
  - intros W. apply dm_wf_uncursor. destruct (get_session _ _); [by apply dm_wf_enqueue|done].
Qed.

Lemma calm_session_event sid f s : (forall c, same_identity c (fst (f c))) -> calm s (session_event sid f s).
Proof.
  intros Hf. unfold session_event. pose proof (calm_on_session s sid f Hf) as H1.
  destruct (on_session (sv_tcp s) sid f) as [t out]. etrans; [exact H1|]. clear H1. generalize (with_tcp s (t, out)).
 
  induction out as [|[q o] out IH]; intros s1; [done|]. cbn. etrans; [|apply IH].
  destruct o; try done. apply calm_on_disconnect.
Qed.

Lemma calm_io s s' : IoStep s s' -> calm s s'.
Proof.
  intros [s0 loc docs sends H|s0 ec|s0 sid|s0 sid ec h|s0 sid ec body|s0 sid ec|s0 files].
  - etrans; [by eapply calm_thread|apply calm_deliver].
  - split; try done. intros sid. unfold accept. destruct ec; [by left|]. cbn. unfold session_object. cbn.
    rewrite lookup_insert. case_decide; [by right|by left].
  - apply calm_session_event. intros c. apply same_identity_disconnect.
  - apply calm_session_event. intros c. apply same_identity_header.
  - apply calm_session_event. intros c. by destruct ec.
  - apply calm_session_event. intros c. apply same_identity_written.
  - apply calm_docs; [done|]. intros []. by split.
Qed.

(** ** The actions that are not calm *)

Lemma register_ok s buf n p :
  sys_ok s -> small s ->
  let s' := with_auth s (snd (register_user CC_SHA256 (sv_auth s) buf n p)) in sys_ok s' /\ evolves s s'.
Proof.
  intros [H1 H2 H3 H4 H5] [Hn _] s'. subst s'.
  assert (forall n' r, am_users (sv_auth s) !! n' = Some r ->
    am_users (snd (register_user CC_SHA256 (sv_auth s) buf n p)) !! n' = Some r) as Hk.
  { intros n' r. eapply auth_step_keeps. by apply (auth_register CC_SHA256). }
  split; [split; try done|by split].
  - eapply auth_wf_step; [exact H1|]. by apply (auth_register CC_SHA256).
  - intros sid. destruct (H3 sid) as [Hi Hu]. split; [|done]. intros Ha. destruct (Hi Ha) as (r & Hr & Hid). eauto.
Qed.

Lemma set_auth_ok s sid n r color :
  sys_ok s -> am_users (sv_auth s) !! n = Some r ->
  let s' := with_tcp s (on_session (sv_tcp s) sid (fun c => (set_auth c (ur_id r) n color, []))) in
  sys_ok s' /\ evolves s s'.
Proof.
  intros [H1 H2 H3 H4 H5] Hr s'. subst s'. split; [split; try done|by split]. intros sid'. cbn.
  rewrite session_object_put. case_bool_decide; [|apply H3]. split; [intros _; by exists r|].
  destruct H1 as (Hn & Hu & _). destruct (Hu _ _ Hr) as (_ & _ & Hid). cbn. unfold is_u32. lia.
Qed.

Lemma create_ok s title u :
  sys_ok s -> small s -> is_u32 u ->
  let '(_, access, docs) := create_document (sv_access s) (sv_docs s) title u in
  let s' := with_docs (with_access s access) docs in sys_ok s' /\ evolves s s'.
Proof.
  intros [H1 H2 H3 H4 H5] [_ Hn] Hu. pose proof (wf_counter _ H2) as Hc.
  destruct (create_document (sv_access s) (sv_docs s) title u) as [[id access] docs] eqn:E.
  pose proof (dm_wf_create _ _ _ _ _ _ _ H2 Hn E) as W. unfold create_document in E. cbn in E. injection E as <- <- <-.
  set (id := dm_next_doc_id (sv_docs s)) in *. assert (is_u32 id) as Hid by (unfold is_u32; lia).
  split; [split; try done|split; [done|cbn; unwrap; lia]].
  - intros d v Hd Hv. cbn. rewrite get_role_grant by done. unfold issued. cbn. unwrap. case_bool_decide as Ed.
    + intros _. destruct Ed as [<- _]. lia.
    + intros Hr. apply H4 in Hr; [|done..]. unfold issued in Hr. fold id in Hr. lia.
  - assert (forall v, is_u32 v -> get_role (sv_access s) id v = None) as Hnone.
    { intros v Hv. destruct (get_role (sv_access s) id v) eqn:Er; [|done]. exfalso.
      assert (issued s id) as Hi by (apply (H4 id v); [done|done|by rewrite Er]). unfold issued in Hi. fold id in Hi. lia. }
    intros d v v' Hd Hv Hv'. cbn. rewrite !get_role_grant by done.
    do 2 case_bool_decide; intros E1 E2; try (by destruct_and!; congruence).
    + destruct H as [<- _]. by rewrite Hnone in E2.
    + destruct H0 as [<- _]. by rewrite Hnone in E1.
    + by apply (H5 d).
Qed.

Lemma delete_ok s docId :
  sys_ok s ->
  let '(_, access, docs) := delete_document (sv_access s) (sv_docs s) docId in
  let s' := with_docs (with_access s access) docs in sys_ok s' /\ evolves s s'.
Proof.
  intros [H1 H2 H3 H4 H5]. destruct (delete_document (sv_access s) (sv_docs s) docId) as [[x access] docs] eqn:E.
  pose proof (dm_wf_delete _ _ _ _ _ _ H2 E) as W.
  assert (access = revoke_all_for_document (sv_access s) docId
          /\ dm_next_doc_id docs = dm_next_doc_id (sv_docs s)) as [-> En].
  { unfold delete_document in E. destruct (dm_sessions _ !! docId); by injection E as _ <- <-. }
  split; [split; try done|split; [done|cbn; lia]].
  - intros d u Hd Hu. cbn. rewrite get_role_revoke_all by done. case_bool_decide; [done|]. intros Hr.
    unfold issued. cbn. rewrite En. by apply (H4 d u).
  - intros d u u' Hd Hu Hu'. cbn. rewrite !get_role_revoke_all by done. case_bool_decide; [done|]. by apply H5.
Qed.

(** A role that is not the owner's, for an id that was given out. *)
Lemma change_ok s d t a' :
  sys_ok s -> is_u32 d -> is_u32 t -> issued s d ->
  (forall d' u', is_u32 d' -> is_u32 u' -> (d, t) <> (d', u') -> get_role a' d' u' = get_role (sv_access s) d' u') ->
  get_role a' d t <> Some Owner -> sys_ok (with_access s a') /\ evolves s (with_access s a').
Proof.
  intros [H1 H2 H3 H4 H5] Hd Ht K Hsame Hnot. split; [split; try done|by split].
  - intros d' u' Hd' Hu' Hr. destruct (decide ((d, t) = (d', u'))) as [[= <- <-]|Hne]; [done|].
    cbn in Hr. rewrite Hsame in Hr by done. by apply (H4 d' u').
  - assert (forall d' u', is_u32 d' -> is_u32 u' -> get_role a' d' u' = Some Owner ->
      get_role (sv_access s) d' u' = Some Owner) as Hold.
    { intros d' u' Hd' Hu' Hr. destruct (decide ((d, t) = (d', u'))) as [[= <- <-]|Hne]; [done|]. by rewrite <- Hsame. }
    intros d' u u' Hd' Hu Hu' E1 E2. apply (H5 d'); auto.
Qed.

Lemma change_roles s d t :
  sys_ok s -> is_u32 d -> is_u32 t -> issued s d ->
  (let s' := with_access s (revoke (sv_access s) d t) in sys_ok s' /\ evolves s s')
  /\ forall r, r <> Owner -> let s' := with_access s (grant (sv_access s) d t r) in sys_ok s' /\ evolves s s'.
Proof.
  intros Ok Hd Ht K. split.
  - apply (change_ok s d t); try done.
    + intros d' u' Hd' Hu' Hne. rewrite get_role_revoke, bool_decide_false by (done || by intros [-> ->]). done.
    + by rewrite get_role_revoke, bool_decide_true.
  - intros r Hr. destruct (grant_change (sv_access s) d t r Hd Ht Hr). by apply (change_ok s d t).
Qed.
End Steps.

(** ** Every handler is safe *)

Section Safe.
Context {J : Json} {L : JsonLaws J} (CC_SHA256 : string -> list Z).

(** Runs a read, without what it has read. *)
Ltac skip := apply safe_read; let t := fresh "t" in intros t _ _.

Lemma calm_send sid payload s : calm s (with_tcp s (on_session (sv_tcp s) sid (fun c => ClientSession.send c payload))).
Proof. apply calm_on_session. intros c. apply same_identity_send. Qed.

Lemma safe_send_json sid j s : safe (send_json_steps sid j) s.
Proof. apply safe_throw. intros payload _. apply safe_write. intros s1. apply calm_send. Qed.

Lemma safe_send_error sid code message s : safe (send_error_steps sid code message) s.
Proof.
  apply safe_bind; [apply safe_send_json|]. intros _ s1 _. destruct (bool_decide _); [|done].
  apply safe_calm; [intros s2; by apply calm_on_session|]. intros count s2 _ _.
  destruct (3 <=? count); [|done]. apply safe_write. intros s3. by apply calm_on_session.
Qed.

Lemma safe_check_auth sid type s : safe (check_auth_steps sid type) s.
Proof.
  unfold check_auth_steps. destruct (bool_decide _); [done|]. skip. destruct (negb _); [|done].
  by apply safe_bind; [apply safe_send_error|].
Qed.

Lemma safe_auth_request sid buf j s : safe (handle_auth_request_steps CC_SHA256 sid buf j) s.
Proof.
  apply safe_throw. intros msg _. destruct (_ && _); [apply safe_send_error|].
  assert (forall result s, (ar_success result = true -> exists r, am_users (sv_auth s) !! arq_username msg = Some r
      /\ ur_id r = ar_userId result) ->
    safe (if ar_success result then
            _ ← on_session_steps sid (fun c => (set_auth c (ar_userId result) (arq_username msg)
                                                   (generate_color (ar_userId result)), []));
            send_json_steps sid (to_json_AuthResponseMsg (mkAuthResponseMsg true (ar_userId result) ""))
          else send_json_steps sid (to_json_AuthResponseMsg (mkAuthResponseMsg false 0
                 (if bool_decide (ar_error result = "duplicate_username"%string)
                  then "username_taken"%string else ar_error result)))) s) as Hrest.
  { intros result s0 Hr. destruct (ar_success result); [|apply safe_send_json].
    destruct (Hr eq_refl) as (r & Hn & Hid). apply safe_act. intros s1 E Ok _. rewrite <- Hid.
    destruct (set_auth_ok s1 sid (arq_username msg) r (generate_color (ur_id r)) Ok) as [G1 G2].
    { by apply (ev_accounts _ _ E). }
    split; [exact G1|]. split; [exact G2|]. apply safe_send_json. }
  destruct (bool_decide _).
  - apply safe_act. intros s1 E Ok Sm. pose proof (register_ok CC_SHA256 s1 buf (arq_username msg) (arq_password msg) Ok Sm) as H.
    pose proof (register_success CC_SHA256 (sv_auth s1) buf (arq_username msg) (arq_password msg)) as R.
    destruct (register_user _ _ _ _ _) as [result a]. destruct H as [H1 H2]. split; [exact H1|]. split; [exact H2|].
    by apply Hrest.
  - skip. apply Hrest. apply login_success.
Qed.

Lemma safe_doc_list sid s : safe (handle_doc_list_steps sid) s.
Proof. do 2 skip. apply safe_send_json. Qed.

Lemma safe_doc_create sid j s : safe (handle_doc_create_steps sid j) s.
Proof.
  apply safe_throw. intros msg _. apply safe_read. intros s1 _ Ok1. apply safe_act. intros s2 _ Ok2 Sm.
  pose proof (create_ok s2 (dcq_title msg) _ Ok2 Sm (proj2 (ok_session _ Ok1 sid))) as H.
  destruct (create_document _ _ _ _) as [[docId access] docs]. destruct H as [H1 H2].
  split; [exact H1|]. split; [exact H2|]. apply safe_send_json.
Qed.

(** A document that is not in the table any more may have a file: it is loaded again. *)
Lemma calm_publish s docId loaded :
  is_u32 docId -> issued s docId -> sys_ok s -> doc_id loaded = docId ->
  calm s (with_docs s (snd (get_document_publish (sv_docs s) docId loaded))).
Proof.
  intros Hd Hi Ok Hid. pose proof (wf_counter _ (ok_manager _ Ok)) as Hc. unfold issued in Hi. apply calm_docs.
  - unfold get_document_publish. destruct (dm_documents (sv_docs s) !! docId); [done|]. cbn.
    destruct (Z.leb_spec (dm_next_doc_id (sv_docs s)) docId); lia.
  - intros W. apply dm_wf_publish; [done|done|lia|done].
Qed.

Lemma safe_get_document {B} docId (k : option Z -> Prog B) s :
  is_u32 docId -> issued s docId -> (forall x s', evolves s s' -> safe (k x) s') -> safe (get_document_steps docId ≫= k) s.
Proof.
  intros Hd Hi Hk. apply safe_bind; [|exact Hk]. apply safe_read. intros s1 E1 _.
  destruct (get_document_lookup _ _); [done|]. apply safe_read. intros s2 E2 _.
  destruct (load_from_disk_unlocked (sv_docs s2) docId) as [loaded|] eqn:El; [|done].
  pose proof (loaded_id _ _ _ El) as Hid.
  intros s3 E3 Ok _. pose proof (calm_publish s3 docId loaded Hd) as C. 
  assert (issued s3 docId) as Hi3 by (eapply ev_issued; [|exact Hi]; etrans; [exact E1|]; by etrans).
  specialize (C Hi3 Ok Hid). destruct (get_document_publish _ _ _) as [doc docs].
  split; [by eapply calm_ok|]. split; [by apply calm_evolves|done].
Qed.

Lemma calm_open s docId :
  calm s (with_docs s (snd (get_or_create_session (sv_docs s) docId))).
Proof.
  apply calm_docs; [unfold get_or_create_session; case_match; [done|by case_match]|]. apply dm_wf_open.
Qed.

Lemma can_read_issued s d u : sys_ok s -> is_u32 d -> is_u32 u -> can_read (sv_access s) d u = true -> issued s d.
Proof.
  intros Ok Hd Hu H. apply (ok_rights _ Ok d u Hd Hu). unfold can_read in H. unfold get_role.
  by destruct (get_role_locked _ _ _).
Qed.

Lemma safe_doc_join sid j s : safe (handle_doc_join_steps sid j) s.
Proof.
  apply safe_throw. intros msg Em.
  assert (is_u32 (djq_docId msg)) as Hd.
  { unfold from_json_DocJoinRequestMsg in Em. apply bind_Some in Em as (n & Hn & [= <-]). by eapply at_get_uint32_range. }
  apply safe_read. intros s1 _ Ok1. apply safe_read. intros s2 _ Ok2.
  destruct (can_read _ _ _) eqn:Hr; cbn [negb]; [|apply safe_send_json].
  apply safe_get_document; [done|by eapply can_read_issued; [|exact Hd|apply (ok_session _ Ok1 sid)|exact Hr]|].
  intros [doc|] s3 _; [|apply safe_send_json]. apply safe_calm.
  { intros s4. pose proof (calm_open s4 (djq_docId msg)) as C. by destruct (get_or_create_session _ _). }
  intros [loc|] s4 _ _; [|apply safe_send_json]. do 5 skip.
  apply safe_calm; [intros s5; by apply calm_on_session|]. intros _ s5 _ _. skip.
  apply safe_bind; [apply safe_send_json|]. intros _ s6 _. do 3 skip. apply safe_write. intros s7. apply calm_enqueue.
Qed.

Lemma safe_doc_leave sid j s : safe (handle_doc_leave_steps sid j) s.
Proof.
  apply safe_throw. intros msg _. skip. apply safe_bind.
  - destruct (get_session _ _); [|done]. do 2 skip. apply safe_write. intros s7. apply calm_enqueue.
  - intros _ s2 _. apply safe_calm; [intros s3; by apply calm_on_session|]. intros _ s3 _ _. apply safe_send_json.
Qed.

Lemma safe_doc_delete sid j s : safe (handle_doc_delete_steps sid j) s.
Proof.
  apply safe_throw. intros msg _.
  do 2 skip. destruct (negb _).
  - apply safe_bind; [apply safe_send_error|]. intros _ s3 _. apply safe_send_json.
  - skip. apply safe_bind.
    { destruct (get_session _ _); [|done]. apply safe_write. intros s7. apply calm_enqueue. }
    intros _ s4 _. apply safe_act. intros s5 _ Ok _. pose proof (delete_ok s5 (ddq_docId msg) Ok) as H. cbn [fst].
    destruct (delete_document _ _ _) as [[x access] docs]. destruct H as [H1 H2].
    split; [exact H1|]. split; [exact H2|]. apply safe_send_json.
Qed.

Lemma safe_share_done sid docId role target s : safe (share_done_steps sid docId role target) s.
Proof.
  apply safe_bind; [apply safe_send_json|]. intros _ s1 _. skip. destruct (find_session_by_user_id _ _); [|done].
  skip. destruct (_ =? _); [apply safe_send_json|done].
Qed.

Lemma safe_doc_share sid j s : safe (handle_doc_share_steps sid j) s.
Proof.
  apply safe_throw. intros msg Em.
  assert (is_u32 (dsq_docId msg)) as Hd.
  { unfold from_json_DocShareRequestMsg in Em. apply bind_Some in Em as (n & Hn & (? & _ & (? & _ & [= <-])%bind_Some)%bind_Some).
    by eapply at_get_uint32_range. }
  apply safe_read. intros s1 _ Ok1. apply safe_read. intros s2 _ Ok2.
  destruct (can_share _ _ _) eqn:Hs; cbn [negb]; [|apply safe_send_error].
  assert (issued s2 (dsq_docId msg)) as K.
  { eapply can_read_issued; [done|done|by apply (ok_session _ Ok1 sid)|]. unfold can_share in Hs. unfold can_read.
    by destruct (get_role_locked _ _ _). }
  apply safe_read. intros s3 E3 Ok3. destruct (find_user_id _ _) as [target|] eqn:Et; [|apply safe_send_error].
  assert (is_u32 target) as Ht.
  { unfold find_user_id in Et. destruct (am_users (sv_auth s3) !! _) as [r|] eqn:Er; [|done]. injection Et as <-.
    destruct (ok_accounts _ Ok3) as (Hn & Hr & _). destruct (Hr _ _ Er) as (_ & _ & Hid). unfold is_u32. lia. }
  apply safe_read. intros s4 E4 _. destruct (_ =? _); [apply safe_send_error|].
  assert (forall f role, (forall s5, sys_ok s5 -> issued s5 (dsq_docId msg) ->
      let s' := with_access s5 (f (sv_access s5)) in sys_ok s' /\ evolves s5 s') ->
    safe (_ ← write (fun s => with_access s (f (sv_access s))); share_done_steps sid (dsq_docId msg) role target) s4) as Hc.
  { intros f role Hf. apply safe_act. intros s5 E5 Ok5 _. destruct (Hf s5 Ok5) as [G1 G2].
    - by apply (ev_issued _ _ _ E5), (ev_issued _ _ _ E4), (ev_issued _ _ _ E3).
    - split; [exact G1|]. split; [exact G2|]. apply safe_share_done. }
  repeat case_bool_decide; try apply safe_send_error.
  - apply (Hc (fun a => revoke a _ _)). intros s5 Ok5 K5. by apply change_roles.
  - apply (Hc (fun a => grant a _ _ Editor)). intros s5 Ok5 K5. by apply change_roles.
  - apply (Hc (fun a => grant a _ _ Viewer)). intros s5 Ok5 K5. by apply change_roles.
Qed.

Lemma safe_enqueue_entries sid loc rev ops s : safe (enqueue_entries sid loc rev ops) s.
Proof.
  revert s. induction ops as [|op ops IH]; intros s; [done|]. apply safe_bind; [|intros _ s1 _; apply IH].
  do 3 skip. apply safe_write. intros s2. apply calm_enqueue.
Qed.

Lemma safe_operation sid j s : safe (handle_operation_steps sid j) s.
Proof.
  apply safe_throw. intros msg _. skip. destruct (negb _); [apply safe_send_error|]. do 2 skip.
  destruct (negb _); [apply safe_send_error|]. destruct (1000 <? _); [apply safe_send_error|]. skip.
  destruct (get_session _ _); [apply safe_enqueue_entries|apply safe_send_error].
Qed.

Lemma safe_cursor_update sid j s : safe (handle_cursor_update_steps sid j) s.
Proof.
  apply safe_throw. intros msg _. skip. destruct (negb _); [done|]. skip. destruct (get_session _ _); [|done].
  do 3 skip. apply safe_write. intros s2. apply calm_docs; try done. intros W. split; apply W.
Qed.

Lemma safe_handle_message sid buf what payload s : safe (handle_message_steps CC_SHA256 sid buf what payload) s.
Proof.
  unfold handle_message_steps. destruct (json_parse payload) as [j|]; [|apply safe_send_error].
  destruct (json_at j "type") as [t|]; [|apply safe_send_error]. destruct (_ || _); [apply safe_send_error|].
  apply safe_throw. intros type_str _. apply safe_bind; [apply safe_check_auth|]. intros [|] s1 _; [|done]. cbn [negb].
  apply safe_catch; [|intros s2; apply safe_send_error].
  destruct (parse_message_type type_str); first [apply safe_send_error | apply safe_auth_request | apply safe_doc_list
    | apply safe_doc_create | apply safe_doc_join | apply safe_doc_leave | apply safe_doc_delete
    | apply safe_doc_share | apply safe_operation | apply safe_cursor_update].
Qed.

(** ** The background threads are safe *)

Lemma safe_for_each {A} (l : list A) (f : A -> Prog ()) s : (forall x s, safe (f x) s) -> safe (for_each l f) s.
Proof.
  intros H. revert s. induction l as [|x l IH]; intros s; [done|]. apply safe_bind; [apply H|intros _ s' _; apply IH].
Qed.

Lemma calm_files s f :
  calm s (with_docs s (mkDocumentManager (dm_documents (sv_docs s)) (dm_titles (sv_docs s)) (dm_sessions (sv_docs s))
    (dm_cursor_buffers (sv_docs s)) (dm_next_doc_id (sv_docs s)) (dm_data_dir (sv_docs s)) (dm_heap (sv_docs s)) f)).
Proof. apply calm_docs; [done|]. intros W. split; apply W. Qed.

Lemma calm_document s loc f :
  (forall d, doc_id (f d) = doc_id d /\ doc_title (f d) = doc_title d) ->
  calm s (with_docs s (on_document (sv_docs s) loc (fun files d => (files, f d)))).
Proof.
  intros Hf. unfold on_document. destruct (hp_docs (dm_heap (sv_docs s)) !! loc) as [d|] eqn:Ed; [|by apply calm_docs].
  apply calm_docs; [done|]. intros W. split; cbn; try apply W.
  intros id l El. destruct (wf_document _ W _ _ El) as (L1 & e & He & Hid & Ht). split; [done|].
  destruct (decide (loc = l)) as [<-|Hne].
  - exists (f d). rewrite lookup_insert_eq. destruct (Hf d) as [-> ->]. by simplify_eq.
  - exists e. by rewrite lookup_insert_ne.
Qed.

Lemma safe_save_document loc s : safe (save_document_steps loc) s.
Proof.
  do 2 skip. apply safe_calm; [intros s1; apply calm_files|intros opened s1 _ _]. destruct (negb opened); [done|].
  apply safe_calm; [intros s2; apply calm_files|intros _ s2 _ _]. apply safe_write. intros s3. by apply calm_document.
Qed.
Lemma safe_snapshot loc s : safe (maybe_create_snapshot_steps loc) s.
Proof.
  do 2 skip. destruct (negb _); [done|]. do 2 skip. apply safe_calm; [intros s1; apply calm_files|intros opened s1 _ _].
  destruct opened; [|done]. apply safe_write. intros s3. by apply calm_document.
Qed.
Lemma safe_autosave_round s : safe autosave_round_steps s.
Proof.
  skip. apply safe_for_each. intros loc s'. skip. destruct (doc_dirty _); [|done].
  apply safe_bind; [apply safe_save_document|intros _ s1 _; apply safe_snapshot].
Qed.
Lemma safe_broadcast_loop s : safe broadcast_loop_steps s.
Proof.
  skip. apply safe_for_each. intros docId s'. skip. destruct (bool_decide _); [done|]. skip.
  destruct (get_session _ _); [|done]. skip. apply safe_throw. intros payload _. apply safe_for_each. intros user s1.
  apply safe_write. intros s2. apply calm_send.
Qed.

(** ** The whole system *)

Lemma sys_ok_new data_dir files : sys_ok (new_Server data_dir files).
Proof.
  split.
  - apply auth_wf_new.
  - apply dm_wf_new.
  - intros sid. unfold session_object. cbn. by rewrite lookup_empty.
  - intros d u _ _. unfold get_role, get_role_locked. cbn. by rewrite lookup_empty.
  - intros d u u' _ _ _. unfold get_role, get_role_locked. cbn. by rewrite lookup_empty.
Qed.

Definition thread_safe (t : Thread) (s : Server) : Prop :=
  match th_state t with Working p => safe p s | _ => True end.
Record system_ok (x : System) : Prop := mkSystemOk {
  system_server : sys_ok (sys_state x);
  system_handlers p : p ∈ sys_handlers x -> safe p (sys_state x);
  system_autosave : thread_safe (sys_autosave x) (sys_state x);
  system_cursors : thread_safe (sys_cursors x) (sys_state x);
}.

Lemma thread_safe_evolves t s s' : evolves s s' -> thread_safe t s -> thread_safe t s'.
Proof. unfold thread_safe. destruct (th_state t); try done. apply safe_evolves. Qed.

(** A step of one thread: the others stay safe, because the server has only evolved. *)
Lemma system_ok_evolves x s :
  system_ok x -> sys_ok s -> evolves (sys_state x) s ->
  system_ok (mkSystem s (sys_handlers x) (sys_autosave x) (sys_cursors x)).
Proof.
  intros [_ H1 H2 H3] Ok E. split; [done|intros p Hp; eapply safe_evolves; [exact E|by apply H1]|..];
    by eapply thread_safe_evolves.
Qed.

Lemma safe_advance {A} (p : Prog A) s :
  safe p s -> sys_ok s -> small s ->
  sys_ok (fst (advance p s)) /\ evolves s (fst (advance p s)) /\ safe (snd (advance p s)) (fst (advance p s)).
Proof.
  destruct p as [o|B f k]; [done|]. intros H Ok Sm. cbn. specialize (H s (reflexivity _) Ok Sm). by destruct (f s).
Qed.

Lemma thread_step_ok round t s :
  (forall s, safe round s) -> thread_safe t s -> sys_ok s -> small s ->
  let '(s', t') := thread_step round t s in sys_ok s' /\ evolves s s' /\ thread_safe t' s'.
Proof.
  intros Hr Ht Ok Sm. assert (forall t', thread_safe t' s -> sys_ok s /\ evolves s s /\ thread_safe t' s) as Hsame
    by (intros t' H; split; [done|by split]).
  unfold thread_step. unfold thread_safe in Ht. destruct (th_state t) as [|p| |] eqn:Et.
  - apply Hsame. unfold thread_safe. cbn. destruct (th_stop t); [done|apply Hr].
  - destruct p as [[x|]|B f k].
    + apply Hsame. unfold thread_safe. cbn. by destruct (th_stop t).
    + by apply Hsame.
    + pose proof (safe_advance _ s Ht Ok Sm) as H. by destruct (advance (Act f k) s).
  - apply Hsame. unfold thread_safe. by rewrite Et.
  - apply Hsame. unfold thread_safe. by rewrite Et.
Qed.

Lemma system_ok_step x x' : SystemStep CC_SHA256 x x' -> system_ok x -> system_ok x'.
Proof.
  intros St H. pose proof H as [Ok H1 H2 H3].
  destruct St as [x sid buf what payload|x i Sm|x Sm|x Sm|x|x s Hio].
  - split; cbn; try done. intros p [Hin|Hin]%elem_of_app; [by apply H1|].
    apply list_elem_of_singleton in Hin as ->. apply safe_handle_message.
  - unfold sys_act. destruct (sys_handlers x !! i) as [p|] eqn:Ei; [|done].
    destruct (safe_advance p (sys_state x)) as (G1 & G2 & G3); [by apply H1; eapply list_elem_of_lookup_2|done|done|].
    destruct (advance p (sys_state x)) as [s q]. destruct (system_ok_evolves x s H G1 G2) as [K1 K2 K3 K4].
    split; cbn [sys_state sys_handlers sys_autosave sys_cursors] in *; try done.
    intros p' [k Hk]%list_elem_of_lookup. destruct (decide (i = k)) as [<-|Hne].
    + rewrite list_lookup_insert_eq in Hk by (by eapply lookup_lt_Some). by injection Hk as <-.
    + rewrite list_lookup_insert_ne in Hk by done. apply K2. by eapply list_elem_of_lookup_2.
  - unfold sys_save. pose proof (thread_step_ok _ _ _ safe_autosave_round H2 Ok Sm) as G.
    destruct (thread_step _ _ _) as [s t]. destruct G as (G1 & G2 & G3).
    destruct (system_ok_evolves x s H G1 G2) as [K1 K2 K3 K4]. by split.
  - unfold sys_broadcast. pose proof (thread_step_ok _ _ _ safe_broadcast_loop H3 Ok Sm) as G.
    destruct (thread_step _ _ _) as [s t]. destruct G as (G1 & G2 & G3).
    destruct (system_ok_evolves x s H G1 G2) as [K1 K2 K3 K4]. by split.
  - by split.
  - pose proof (calm_io _ _ Hio) as C. apply system_ok_evolves; [done|by eapply calm_ok|by apply calm_evolves].
Qed.

(** C11: the server under every interleaving of its threads. Whatever messages arrive, and in
    whatever order the critical sections of their handlers, of the two background threads
    and of the documents' threads and the completions of the io thread take place: a session
    that counts as logged in carries the id and the name of one account; no document has two
    owners; a right exists only for a document id that was given out; and the manager's
    tables are consistent. *)
Theorem concurrent_invariant data_dir files x :
  rtc (SystemStep CC_SHA256) (new_System data_dir files) x ->
  let s := sys_state x in
  (forall sid, let c := session_object (sv_tcp s) sid in cs_authenticated c = true ->
     find_user_id (sv_auth s) (cs_username c) = Some (cs_userId c))
  /\ (forall d u u', is_u32 d -> is_u32 u -> is_u32 u' ->
        get_role (sv_access s) d u = Some Owner -> get_role (sv_access s) d u' = Some Owner -> u = u')
  /\ (forall d u, is_u32 d -> is_u32 u -> get_role (sv_access s) d u <> None -> d < dm_next_doc_id (sv_docs s))
  /\ dm_wf (sv_docs s).
Proof.
  intros Hs s. assert (system_ok x) as [Ok _ _ _].
  { apply (rtc_ind_r system_ok (new_System data_dir files)) in Hs; [done| |].
    - split; [apply sys_ok_new| |done|done]. intros p Hp. by apply elem_of_nil in Hp.
    - intros x1 x2 _ St H. by eapply system_ok_step. }
  split_and!; try apply Ok. intros sid c Ha. destruct (ok_session _ Ok sid) as [Hi _].
  destruct (Hi Ha) as (r & Hr & Hid). fold s c in Hr, Hid. unfold find_user_id. by rewrite Hr, Hid.
Qed.
End Safe.

(** ** Schedules *)

Section Schedules.
Context {J : Json} (CC_SHA256 : string -> list Z).

(** Who takes the next step: a handler, by its index, or a background thread. *)
Inductive Turn := THandler (i : nat) | TAutosave | TCursors.
Definition take_turn (x : System) (t : Turn) : System :=
  match t with THandler i => sys_act i x | TAutosave => sys_save x | TCursors => sys_broadcast x end.
Definition takes (turns : list Turn) (x : System) : System := foldl take_turn x turns.

Definition is_small (s : Server) : bool :=
  (am_next_id (sv_auth s) + 1 <? u32_mod) && (dm_next_doc_id (sv_docs s) + 1 <? u32_mod).
Fixpoint all_small (turns : list Turn) (x : System) : bool :=
  match turns with
  | [] => true
  | t :: turns => is_small (sys_state x) && all_small turns (take_turn x t)
  end.

Lemma takes_reachable turns x : all_small turns x = true -> rtc (SystemStep CC_SHA256) x (takes turns x).
Proof.
  revert x. induction turns as [|t turns IH]; intros x H; [done|]. cbn in H.
  apply andb_true_iff in H as [[H1 H2]%andb_true_iff H3]. apply Z.ltb_lt in H1, H2.
  eapply rtc_l; [|by apply IH]. destruct t; by constructor.
Qed.
End Schedules.

(** ** Concrete runs *)

Section Concrete.
#[local] Existing Instance json_tree.

Definition receives (sid : Z) (m : ClientMsg) (x : System) : System :=
  sys_arrival (J := json_tree) sha sid [] "" (text_of m) x.
Definition on_server (f : Server -> Server) (x : System) : System :=
  mkSystem (f (sys_state x)) (sys_handlers x) (sys_autosave x) (sys_cursors x).
Definition system_at (s : Server) : System := mkSystem s [] new_Thread new_Thread.
Definition handler (i n : nat) : list Turn := replicate n (THandler i).
Definition autosave (n : nat) : list Turn := replicate n TAutosave.
Definition text_in (s : Server) : option (string * Z) :=
  (fun d => (doc_content d, doc_revision d)) <$> hp_docs (dm_heap (sv_docs s)) !! 0.

(** A join can read a torn document. Its handler asks the document for its text and then,
    under a new lock, for its revision. When the document's thread applies an operation
    in between, the answer has the text without the operation and the revision with it:
    the new client never gets the operation, and its copy is another text for good. *)
Example join_reads_torn_document :
  let s := handled 1 (COperation (mkOperationMsg 1 0 [mkOpEntry "insert" 0 "x" 0])) (thread_takes 1 bob_invited) in
  let x := takes (handler 0 8) (receives 2 (CDocJoin (mkDocJoinRequestMsg 1)) (system_at s)) in
  let x := takes (handler 0 20) (on_server (thread_takes 1) x) in
  text_in (sys_state x) = Some ("x"%string, 1)
  /\ last (frames_to 2 (sys_state x)) = Some (encode_frame (pos_text (encode (to_json_DocJoinResponseMsg (J := json_tree)
       (mkDocJoinResponseMsg true 1 "notes" "" 1 "editor" [mkUserInfo 1 "ann" "#265AD8"] ""))))).
Proof. vm_compute. by split. Qed.

(** Ann's document, and bob's account (session 2). *)
Definition bob_registered : Server := handled 2 (CAuth (mkAuthRequestMsg "register" "bob" "pw")) ann_created.

(** A right can outlive its document. Ann's request to share is checked, then her request
    to delete the document is handled, then bob is granted the role: his list shows a
    document without a title that nobody can open or delete. *)
Example share_outlives_document :
  let x := receives 1 (CDocDelete (mkDocDeleteRequestMsg 1)) (receives 1 (CDocShare (mkDocShareRequestMsg 1 "bob" "editor"))
             (system_at bob_registered)) in
  let s := sys_state (takes (handler 0 5 ++ handler 1 9 ++ handler 0 9) x) in
  dm_documents (sv_docs s) !! 1 = None /\ get_role (sv_access s) 1 2 = Some Editor
  /\ list_documents (sv_access s) (sv_docs s) 2 = [mkDocListEntry 1 "" "editor" 0].
Proof. vm_compute. by split_and!. Qed.

(** A document can lose its owner. The target of a share is compared with a user id that
    is read again: when the connection logs in as bob after ann's right was checked, ann
    takes the role of an editor from herself, and the document has no owner any more. *)
Example owner_demotes_herself :
  let x := receives 1 (CAuth (mkAuthRequestMsg "login" "bob" "pw")) (receives 1 (CDocShare (mkDocShareRequestMsg 1 "ann" "editor"))
             (system_at bob_registered)) in
  let s := sys_state (takes (handler 0 4 ++ handler 1 9 ++ handler 0 9) x) in
  is_Some (dm_documents (sv_docs s) !! 1) /\ get_role (sv_access s) 1 1 = Some Editor /\ get_role (sv_access s) 1 2 = None.
Proof. vm_compute. split_and!; eauto. Qed.

(** A deleted document can come back. The saving thread has read the text of ann's document
    when she deletes it, and then writes and renames the file of a document that does not
    exist any more: the text is on the disk again, and bob, whose right has outlived the
    document as above, opens it; it has no owner. *)
Definition ann_edited : Server :=
  thread_takes 1 (handled 1 (COperation (mkOperationMsg 1 0 [mkOpEntry "insert" 0 "x" 0]))
    (thread_takes 1 (handled 1 (CDocJoin (mkDocJoinRequestMsg 1)) bob_registered))).
Example deleted_document_comes_back :
  let x := receives 1 (CDocDelete (mkDocDeleteRequestMsg 1)) (receives 1 (CDocShare (mkDocShareRequestMsg 1 "bob" "editor"))
             (system_at ann_edited)) in
  let deleted := takes (autosave 5 ++ handler 0 5 ++ handler 1 9) x in
  let saved := takes (autosave 9 ++ handler 0 9) deleted in
  let s := sys_state (takes (handler 2 20) (receives 2 (CDocJoin (mkDocJoinRequestMsg 1)) saved)) in
  dm_files (sv_docs (sys_state deleted)) !! doc_path "data" 1 = None
  /\ dm_files (sv_docs (sys_state saved)) !! doc_path "data" 1 = Some "x"%string
  /\ is_Some (dm_documents (sv_docs s) !! 1)
  /\ get_role (sv_access s) 1 1 = None /\ get_role (sv_access s) 1 2 = Some Editor.
Proof. vm_compute. split_and!; eauto. Qed.

Lemma concurrent_invariant_witness :
  let x := takes (handler 0 5 ++ autosave 2) (receives 1 (CAuth (mkAuthRequestMsg "register" "ann" "pw"))
             (new_System "data" ∅)) in
  find_user_id (sv_auth (sys_state x)) "ann" = Some 1.
Proof.
  intros x. assert (rtc (SystemStep (J := json_tree) sha) (new_System "data" ∅) x) as Hr.
  { eapply rtc_l; [apply (sys_step_arrival sha _ 1 [] "")|]. apply takes_reachable. by vm_compute. }
  pose proof (proj1 (concurrent_invariant (L := json_tree_laws) sha "data" ∅ x Hr) 1) as H. cbv zeta in H.
  replace (cs_username (session_object (sv_tcp (sys_state x)) 1)) with "ann"%string in H by (by vm_compute).
  replace (cs_userId (session_object (sv_tcp (sys_state x)) 1)) with 1 in H by (by vm_compute).
  apply H. by vm_compute.
Defined.
End Concrete.
