(* ===== verification/ServerPool.v ===== *)
(** * The server with its thread pool (server/src/main.cpp)

    The io thread reads messages and hands each to the pool; the workers call the
    handler; the signal handler shuts the server down; [main] then leaves its scope,
    which destroys the handler and, later, the pool: the pool was declared first. The
    lambda a task is holds a reference to the handler. A worker runs the handler one
    critical section at a time ([Interleaving]), so that the handlers of several workers,
    the background threads and the io thread interleave. *)
From S2P Require Import Prelude ByteString Operation Document AccessControl AuthManager Json Frames Protocol Codec.
From S2P Require Import ClientSession DocumentSession DocumentManager TcpServer MessageHandler Server ThreadPool Shutdown.
From S2P Require Import Interleaving Background Concurrency.
Local Open Scope Z_scope.

(** The captures of the lambda: the session and the payload. *)
Record HandlerTask := mkHandlerTask { ht_session : Z; ht_payload : string }.

(** How far [main] is: [io_ctx.run()] has not returned, it has returned, the handler
    has been destroyed. *)
Inductive MainPhase := Serving | Stopped | HandlerGone.
#[export] Instance MainPhase_eq_dec : EqDecision MainPhase.
Proof. solve_decision. Defined.

(** [ps_system]: the server, its background threads and the calls of the handler, in the
    order of their beginning; [ps_calls]: which of them a worker runs; [ps_dead_calls]: the
    tasks that used the handler after its destruction. *)
Record PooledServer := mkPooledServer {
  ps_phase : MainPhase;
  ps_pool : ThreadPool (T := HandlerTask);
  ps_system : System;
  ps_calls : gmap nat nat;
  ps_dead_calls : list HandlerTask;
}.
Definition ps_server (ps : PooledServer) : Server := sys_state (ps_system ps).

Definition new_PooledServer (num_threads : nat) (data_dir : string) (files : Files) : PooledServer :=
  mkPooledServer Serving (new_ThreadPool num_threads) (new_System data_dir files) ∅ [].

Definition with_phase (ps : PooledServer) (phase : MainPhase) : PooledServer :=
  mkPooledServer phase (ps_pool ps) (ps_system ps) (ps_calls ps) (ps_dead_calls ps).
Definition with_pool (ps : PooledServer) (pool : ThreadPool) : PooledServer :=
  mkPooledServer (ps_phase ps) pool (ps_system ps) (ps_calls ps) (ps_dead_calls ps).
Definition with_system (ps : PooledServer) (x : System) : PooledServer :=
  mkPooledServer (ps_phase ps) (ps_pool ps) x (ps_calls ps) (ps_dead_calls ps).
Definition with_server (ps : PooledServer) (s : Server) : PooledServer :=
  let x := ps_system ps in with_system ps (mkSystem s (sys_handlers x) (sys_autosave x) (sys_cursors x)).

(** The message callback of [main], up to the release of the queue's lock; the
    notification is a step of its own. *)
Definition on_message (sid : Z) (payload : string) (ps : PooledServer) : PooledServer :=
  with_pool ps (push (ps_pool ps) (mkHandlerTask sid payload)).

(** The completion of the read of a body, with the callbacks of [main]. *)
Definition read_body (sid : Z) (ec : bool) (body : string) (ps : PooledServer) : PooledServer :=
  let '(t, out) := on_session (sv_tcp (ps_server ps)) sid (fun c => on_body c ec body) in
  let ps := with_server ps (with_tcp (ps_server ps) (t, out)) in
  foldl (fun ps '(_, o) =>
           match o with
           | OnMessage payload => on_message sid payload ps
           | OnDisconnect => with_server ps (on_disconnect sid (ps_server ps))
           | _ => ps
           end) ps out.

Section ServerPool.
Context {J : Json} (CC_SHA256 : string -> list Z).

(** The body of the lambda, [handler.handle_message(session, payload)]: the call, and one
    critical section of it. When the handler returns or throws the task has run. *)
Definition start_call (i : nat) (task : HandlerTask) (buf : list Z) (what : string) (ps : PooledServer) : PooledServer :=
  mkPooledServer (ps_phase ps) (ps_pool ps)
    (sys_arrival CC_SHA256 (ht_session task) buf what (ht_payload task) (ps_system ps))
    (<[i := length (sys_handlers (ps_system ps))]> (ps_calls ps)) (ps_dead_calls ps).
Definition ended (p : Prog ()) : bool := match p with Ret _ => true | _ => false end.
Definition call_step (i : nat) (ps : PooledServer) : PooledServer :=
  match ps_calls ps !! i with
  | Some k =>
      let ps := with_system ps (sys_act k (ps_system ps)) in
      match sys_handlers (ps_system ps) !! k with
      | Some p => if ended p then with_pool ps (worker i (ps_pool ps)) else ps
      | None => ps
      end
  | None => ps
  end.

(** One step of worker [i]. A task that calls the destroyed handler, or is inside it when
    it is destroyed, is recorded; what it then does is not defined. *)
Definition worker_step (i : nat) (buf : list Z) (what : string) (ps : PooledServer) : PooledServer :=
  let ps' := with_pool ps (worker i (ps_pool ps)) in
  match tp_workers (ps_pool ps) !! i, ps_phase ps with
  | Some (Taken task), HandlerGone => ps'
  | Some (Taken task), _ => start_call i task buf what ps'
  | Some (Running task), HandlerGone =>
      mkPooledServer HandlerGone (ps_pool ps') (ps_system ps) (ps_calls ps) (ps_dead_calls ps ++ [task])
  | Some (Running task), _ => call_step i ps
  | _, _ => ps'
  end.

(** [held] is the argument of [shutdown_server]. *)
Inductive PsStep : PooledServer -> PooledServer -> Prop :=
| ps_read ps sid ec body : ps_phase ps = Serving -> PsStep ps (read_body sid ec body ps)
| ps_notify ps pick : PsStep ps (with_pool ps (notify_one pick (ps_pool ps)))
| ps_wake ps i : PsStep ps (with_pool ps (wake i (ps_pool ps)))
| ps_worker ps i buf what :
    am_next_id (sv_auth (ps_server ps)) + 1 < u32_mod -> dm_next_doc_id (sv_docs (ps_server ps)) + 1 < u32_mod ->
    PsStep ps (worker_step i buf what ps)
| ps_background ps x :
    ps_phase ps = Serving -> small (ps_server ps) -> x = sys_save (ps_system ps) \/ x = sys_broadcast (ps_system ps) ->
    PsStep ps (with_system ps x)
| ps_io ps s : ps_phase ps = Serving -> IoStep (ps_server ps) s -> PsStep ps (with_server ps s)
| ps_signal ps held s :
    ps_phase ps = Serving -> shutdown_server held (ps_server ps) = Some s ->
    PsStep ps (with_phase (with_server ps s) Stopped)
| ps_destroy_handler ps : ps_phase ps = Stopped -> PsStep ps (with_phase ps HandlerGone)
| ps_destroy_pool ps :
    ps_phase ps = HandlerGone -> PsStep ps (with_pool ps (request_stop (ps_pool ps))).

(** Everybody who can bring a message to its end, as in [ThreadPool]. *)
Inductive PsTurn := PsWorker (i : nat) (buf : list Z) (what : string) | PsNotify (pick : nat) | PsWake (i : nat).
Definition pool_turn (t : PsTurn) : PoolTurn :=
  match t with PsWorker i _ _ => TWorker i | PsNotify pick => TNotify pick | PsWake i => TWake i end.
Definition ps_turn (t : PsTurn) (ps : PooledServer) : PooledServer :=
  match t with
  | PsWorker i buf what => worker_step i buf what ps
  | t => with_pool ps (move (pool_turn t) (ps_pool ps))
  end.

(** The program [p] is what is left of the call for [task]: some of its critical sections
    have taken place, each in some state of the server. *)
Definition handles (task : HandlerTask) (p : Prog ()) : Prop :=
  exists buf what states,
    scheduled (handle_message_steps CC_SHA256 (ht_session task) buf what (ht_payload task)) states = p.

(** ** Lemmas: the calls *)

(** The tasks a worker has taken and not called the handler for yet. *)
Definition fetched (ws : list (Worker (T := HandlerTask))) : list HandlerTask :=
  omap (fun w => match w with Taken t => Some t | _ => None end) ws.

(** As long as the handler is there: each worker that runs a task runs a call of its own,
    which ends; the calls that have not ended are these; and there is one call for every
    task taken and not just fetched. *)
Record calls_ok (ps : PooledServer) : Prop := mkCallsOk {
  co_running i task : tp_workers (ps_pool ps) !! i = Some (Running task) ->
    exists k p, ps_calls ps !! i = Some k /\ sys_handlers (ps_system ps) !! k = Some p /\ ends 4027 p;
  co_own i j k t t' : tp_workers (ps_pool ps) !! i = Some (Running t) -> tp_workers (ps_pool ps) !! j = Some (Running t') ->
    ps_calls ps !! i = Some k -> ps_calls ps !! j = Some k -> i = j;
  co_unfinished k p : sys_handlers (ps_system ps) !! k = Some p -> ended p = false ->
    exists i t, tp_workers (ps_pool ps) !! i = Some (Running t) /\ ps_calls ps !! i = Some k;
  co_started : exists started, Forall2 handles started (sys_handlers (ps_system ps))
    /\ tp_taken (ps_pool ps) ≡ₚ started ++ fetched (tp_workers (ps_pool ps))
    /\ (length (tp_workers (ps_pool ps)) = 1%nat ->
        tp_taken (ps_pool ps) = started ++ fetched (tp_workers (ps_pool ps)));
}.

(** A change that starts, ends and moves no call. *)
Definition same_calls (ps ps' : PooledServer) : Prop :=
  sys_handlers (ps_system ps') = sys_handlers (ps_system ps) /\ ps_calls ps' = ps_calls ps
  /\ tp_taken (ps_pool ps') = tp_taken (ps_pool ps)
  /\ length (tp_workers (ps_pool ps')) = length (tp_workers (ps_pool ps))
  /\ (forall i t, tp_workers (ps_pool ps') !! i = Some (Running t) <-> tp_workers (ps_pool ps) !! i = Some (Running t))
  /\ fetched (tp_workers (ps_pool ps')) = fetched (tp_workers (ps_pool ps)).
Lemma calls_ok_same ps ps' : same_calls ps ps' -> calls_ok ps -> calls_ok ps'.
Proof.
  intros (E1 & E2 & E3 & E4 & E5 & E6) [R O U S]. split; rewrite ?E1, ?E2, ?E3, ?E4, ?E6; [| | |done].
  - intros i t H%E5. eauto.
  - intros i j k t t' H%E5 H'%E5. eauto.
  - intros k p H He. destruct (U k p H He) as (i & t & Hi & Hc). exists i, t. by rewrite E5.
Qed.

(** Worker [i] changes its place in the loop, and neither place is one with a call. *)
Definition idle_place (w : Worker (T := HandlerTask)) : Prop :=
  match w with Taken _ | Running _ => False | _ => True end.
Lemma fetched_insert ws i w w' :
  ws !! i = Some w -> fetched [w'] ++ fetched ws ≡ₚ fetched [w] ++ fetched (<[i := w']> ws).
Proof. apply omap_insert. Qed.
Lemma fetched_same ws i w w' : ws !! i = Some w -> idle_place w -> idle_place w' -> fetched (<[i := w']> ws) = fetched ws.
Proof.
  intros E H H'. apply list_elem_of_split_length in E as (l1 & l2 & -> & ->).
  rewrite insert_app_r_alt, Nat.sub_diag by lia. unfold fetched. rewrite !omap_app. cbn. by destruct w, w'.
Qed.
Lemma running_insert (ws : list (Worker (T := HandlerTask))) i w w' j t :
  ws !! i = Some w -> idle_place w -> idle_place w' -> <[i := w']> ws !! j = Some (Running t) <-> ws !! j = Some (Running t).
Proof.
  intros E H H'. rewrite list_lookup_insert. case_decide as Hd; [|done]. destruct Hd as [<- _]. rewrite E.
  split; intros [= ->]; done.
Qed.

(** A turn that is not a worker's, and a worker's turn that has to do with no call. *)
Lemma same_calls_move t ps :
  match t with TWorker i => forall w, tp_workers (ps_pool ps) !! i = Some w -> idle_place w /\ (w = Waiting -> tp_tasks (ps_pool ps) = [])
  | _ => True end ->
  same_calls ps (with_pool ps (move t (ps_pool ps))).
Proof.
  intros Hq. assert (same_calls ps (with_pool ps (ps_pool ps))) as Hid by (by split_and!).
  assert (forall i w w' a k n run, tp_workers (ps_pool ps) !! i = Some w -> idle_place w -> idle_place w' ->
    same_calls ps (with_pool ps (mkThreadPool (tp_tasks (ps_pool ps)) a (<[i := w']> (tp_workers (ps_pool ps))) k n
      (tp_submitted (ps_pool ps)) (tp_taken (ps_pool ps)) run))) as Hins.
  { intros i w w' a k n run E H H'. split_and!; cbn; try done.
    - by rewrite length_insert.
    - intros j u. by eapply running_insert.
    - by eapply fetched_same. }
  destruct t as [i|pick|i]; cbn.
  - unfold worker. destruct (tp_workers (ps_pool ps) !! i) as [w|] eqn:E; [|done]. destruct (Hq w eq_refl) as [Hw Ht].
    destruct w; try done; [|by eapply Hins]. rewrite Ht by done. eapply Hins; [done..|]. by destruct (tp_stop (ps_pool ps)).
  - unfold notify_one. destruct (tp_notifies (ps_pool ps)); [done|].
    destruct (wake_one_spec pick (tp_workers (ps_pool ps))) as [[-> _]|(i & Hi & ->)]; [by split_and!|by eapply Hins].
  - unfold wake. destruct (tp_workers (ps_pool ps) !! i) as [[]|] eqn:E; try done. by eapply Hins.
Qed.

Lemma handles_advance task p s : handles task p -> handles task (snd (advance p s)).
Proof.
  intros (buf & what & states & <-). exists buf, what, (states ++ [s]). unfold scheduled. by rewrite foldl_app.
Qed.
Lemma ends_advance {A} n (p : Prog A) s : ends n p -> ends (pred n) (snd (advance p s)).
Proof. destruct p as [o|B f k]; [done|]. destruct n as [|n]; [done|]. intros H. cbn. destruct (f s). apply H. Qed.

(** A worker fetches a task. *)
Lemma calls_ok_fetch i task tasks ps :
  calls_ok ps -> tp_workers (ps_pool ps) !! i = Some Waiting -> tp_tasks (ps_pool ps) = task :: tasks ->
  calls_ok (with_pool ps (worker i (ps_pool ps))).
Proof.
  intros [R O U (started & F & P & Q)] Ew Et. unfold worker. rewrite Ew, Et.
  assert (forall j t, <[i := Taken task]> (tp_workers (ps_pool ps)) !! j = Some (Running t) ->
            tp_workers (ps_pool ps) !! j = Some (Running t)) as Hr.
  { intros j t. rewrite list_lookup_insert. case_decide as Hd; [by intros [=]|done]. }
  split; cbn.
  - intros j t H%Hr. eauto.
  - intros j j' k t t' H%Hr H'%Hr. eauto.
  - intros k p H He. destruct (U k p H He) as (j & t & Hj & Hc). exists j, t. split; [|done].
    rewrite list_lookup_insert. case_decide as Hd; [|done]. destruct Hd as [<- _]. congruence.
  - exists started. split; [done|]. split.
    + pose proof (fetched_insert _ _ _ (Taken task) Ew) as Hp. cbn in Hp. rewrite <- Hp, P. solve_Permutation.
    + rewrite length_insert. intros Hl. specialize (Q Hl). rewrite Q.
      destruct (tp_workers (ps_pool ps)) as [|w [|]]; try done. destruct i; [|done]. injection Ew as ->. cbn.
      by rewrite app_nil_r.
Qed.

(** The beginning of a call. *)
Lemma calls_ok_start i task buf what ps :
  calls_ok ps -> tp_workers (ps_pool ps) !! i = Some (Taken task) ->
  calls_ok (start_call i task buf what (with_pool ps (worker i (ps_pool ps)))).
Proof.
  intros [R O U (started & F & P & Q)] Ew. unfold worker. rewrite Ew. set (hs := sys_handlers (ps_system ps)) in *.
  set (p0 := handle_message_steps CC_SHA256 (ht_session task) buf what (ht_payload task)).
  assert (forall j t, <[i := Running task]> (tp_workers (ps_pool ps)) !! j = Some (Running t) ->
            j = i \/ j <> i /\ tp_workers (ps_pool ps) !! j = Some (Running t)) as Hr.
  { intros j t. destruct (decide (j = i)) as [->|Hne]; [by left|]. rewrite list_lookup_insert_ne by done. auto. }
  assert (forall j t, tp_workers (ps_pool ps) !! j = Some (Running t) -> j <> i) as Hne by (intros j t H ->; congruence).
  split; cbn; fold hs.
  - intros j t [->|[Hj H]]%Hr.
    + exists (length hs), p0. rewrite lookup_insert_eq, lookup_app_r, Nat.sub_diag by lia.
      split_and!; [done..|apply ends_handle_message].
    + destruct (R j t H) as (k & p & H1 & H2 & H3). exists k, p. rewrite lookup_insert_ne by done.
      split_and!; [done|by apply lookup_app_l_Some|done].
  - assert (forall j t k, tp_workers (ps_pool ps) !! j = Some (Running t) -> ps_calls ps !! j = Some k -> k <> length hs) as Hk.
    { intros j t k H Hc ->. destruct (R j t H) as (k & p & H1 & H2 & _). rewrite Hc in H1. injection H1 as <-.
      apply lookup_lt_Some in H2. unfold hs in H2. lia. }
    intros j j' k t t' [->|[Hj H]]%Hr [->|[Hj' H']]%Hr; [done| | |].
    + rewrite lookup_insert_eq, lookup_insert_ne by done. intros [= <-] Hc. by destruct (Hk _ _ _ H' Hc).
    + rewrite lookup_insert_eq, lookup_insert_ne by done. intros Hc [= <-]. by destruct (Hk _ _ _ H Hc).
    + rewrite !lookup_insert_ne by done. eauto.
  - intros k p H He. apply lookup_app_Some in H as [H|[Hk H]].
    + destruct (U k p H He) as (j & t & Hj & Hc). exists j, t. pose proof (Hne j t Hj).
      by rewrite list_lookup_insert_ne, lookup_insert_ne.
    + apply list_lookup_singleton_Some in H as [Hk' <-]. exists i, task.
      rewrite list_lookup_insert_eq by (by eapply lookup_lt_Some). split; [done|].
      rewrite lookup_insert_eq. f_equal. unfold hs in *. lia.
  - exists (started ++ [task]). split; [|split].
    + apply Forall2_app; [done|]. constructor; [|done]. by exists buf, what, [].
    + pose proof (fetched_insert _ _ _ (Running task) Ew) as Hp. cbn in Hp. rewrite P, Hp. solve_Permutation.
    + rewrite length_insert. intros Hl. rewrite (Q Hl).
      destruct (tp_workers (ps_pool ps)) as [|w [|]]; try done. destruct i; [|done]. injection Ew as ->. cbn.
      by rewrite app_nil_r.
Qed.

(** What a step of a call comes to. *)
Lemma call_step_spec i task ps :
  calls_ok ps -> tp_workers (ps_pool ps) !! i = Some (Running task) ->
  exists k p, ps_calls ps !! i = Some k /\ sys_handlers (ps_system ps) !! k = Some p /\ ends 4027 p
  /\ let p' := snd (advance p (ps_server ps)) in
     sys_handlers (ps_system (call_step i ps)) = <[k := p']> (sys_handlers (ps_system ps))
     /\ ps_calls (call_step i ps) = ps_calls ps /\ ps_phase (call_step i ps) = ps_phase ps
     /\ ps_dead_calls (call_step i ps) = ps_dead_calls ps
     /\ ps_system (call_step i ps) = sys_act k (ps_system ps)
     /\ ps_pool (call_step i ps) = (if ended p' then worker i (ps_pool ps) else ps_pool ps).
Proof.
  intros H Ew. destruct (co_running _ H i task Ew) as (k & p & Hc & Hp & He). exists k, p. split_and!; try done.
  unfold call_step. rewrite Hc. unfold sys_act. rewrite Hp. unfold ps_server.
  destruct (advance p (sys_state (ps_system ps))) as [s p']. cbn.
  rewrite list_lookup_insert_eq by (by eapply lookup_lt_Some). by destruct (ended p').
Qed.

Lemma calls_ok_call i task ps :
  calls_ok ps -> tp_workers (ps_pool ps) !! i = Some (Running task) -> calls_ok (call_step i ps).
Proof.
  intros Hok Ew. pose proof Hok as [R O U (started & F & P & Q)].
  destruct (call_step_spec i task ps Hok Ew) as (k & p & Hc & Hp & He & E1 & E2 & _ & _ & _ & E3).
  set (p' := snd (advance p (ps_server ps))) in *.
  assert (forall j t, tp_workers (ps_pool (call_step i ps)) !! j = Some (Running t) ->
            tp_workers (ps_pool ps) !! j = Some (Running t)) as Hr.
  { rewrite E3. intros j t. destruct (ended p'); [|done]. unfold worker. rewrite Ew. cbn.
    rewrite list_lookup_insert. case_decide as Hd; [by intros [=]|done]. }
  assert (tp_taken (ps_pool (call_step i ps)) = tp_taken (ps_pool ps)
    /\ fetched (tp_workers (ps_pool (call_step i ps))) = fetched (tp_workers (ps_pool ps))
    /\ length (tp_workers (ps_pool (call_step i ps))) = length (tp_workers (ps_pool ps))) as (G1 & G2 & G3).
  { rewrite E3. destruct (ended p'); [|done]. rewrite worker_length. unfold worker. rewrite Ew. cbn.
    split_and!; [done| |done]. clear -Ew. apply list_elem_of_split_length in Ew as (l1 & l2 & -> & ->).
    rewrite insert_app_r_alt, Nat.sub_diag by lia. unfold fetched. by rewrite !omap_app. }
  split.
  - intros j t H%Hr. rewrite E1, E2. destruct (R j t H) as (k' & q & H1 & H2 & H3).
    destruct (decide (k' = k)) as [->|Hne].
    + exists k, p'. rewrite list_lookup_insert_eq by (by eapply lookup_lt_Some). split_and!; [done..|].
      eapply ends_more; [by apply ends_advance|lia].
    + exists k', q. by rewrite list_lookup_insert_ne.
  - intros j j' k' t t' H%Hr H'%Hr. rewrite E2. eauto.
  - rewrite E1, E2. intros k' q Hq Hend. rewrite list_lookup_insert in Hq. case_decide as Hd.
    + destruct Hd as [-> _]. injection Hq as <-. exists i, task. by rewrite E3, Hend.
    + assert (k' <> k) as Hne by (intros ->; apply Hd; split; [done|by eapply lookup_lt_Some]).
      destruct (U k' q Hq Hend) as (j & t & Hj & Hcj). exists j, t. split; [|done]. rewrite E3.
      destruct (ended p'); [|done]. unfold worker. rewrite Ew. cbn. rewrite list_lookup_insert_ne; [done|congruence].
  - exists started. rewrite E1, G1, G2, G3. split_and!; [|done..].
    pose proof (Forall2_lookup_r _ _ _ _ _ F Hp) as (task' & Ht & Hh).
    rewrite <- (list_insert_id started k task' Ht). apply Forall2_insert; [done|]. by apply handles_advance.
Qed.

Lemma calls_ok_worker i buf what ps :
  ps_phase ps <> HandlerGone -> calls_ok ps -> calls_ok (worker_step i buf what ps).
Proof.
  intros Hp H. unfold worker_step.
  destruct (tp_workers (ps_pool ps) !! i) as [w|] eqn:Ew.
  - destruct w as [| |task|task| |].
    + destruct (tp_tasks (ps_pool ps)) as [|task tasks] eqn:Et; [|by eapply calls_ok_fetch].
      eapply calls_ok_same; [|exact H]. apply (same_calls_move (TWorker i)). intros w E. rewrite Ew in E. by injection E as <-.
    + eapply calls_ok_same; [|exact H]. apply (same_calls_move (TWorker i)). intros w E. rewrite Ew in E. by injection E as <-.
    + assert (calls_ok (start_call i task buf what (with_pool ps (worker i (ps_pool ps))))) as Hs by (by apply calls_ok_start).
      by destruct (ps_phase ps).
    + assert (calls_ok (call_step i ps)) as Hs by (by eapply calls_ok_call). by destruct (ps_phase ps).
    + eapply calls_ok_same; [|exact H]. apply (same_calls_move (TWorker i)). intros w E. rewrite Ew in E. by injection E as <-.
    + eapply calls_ok_same; [|exact H]. apply (same_calls_move (TWorker i)). intros w E. rewrite Ew in E. by injection E as <-.
  - eapply calls_ok_same; [|exact H]. apply (same_calls_move (TWorker i)). intros w E. by rewrite Ew in E.
Qed.

(** ** Lemmas: the steps *)

(** The callback does to the server what [session_event] does, and to the pool one
    [push] for the message read. *)
Ltac body_cases ec := destruct ec; [unfold on_body, disconnect; destruct (cs_disconnected _)|]; done.

Lemma read_body_server sid ec body ps :
  ps_system (read_body sid ec body ps)
  = ps_system (with_server ps (session_event sid (fun c => on_body c ec body) (ps_server ps))).
Proof. unfold read_body, session_event, on_session. body_cases ec. Qed.
Lemma read_body_pool sid ec body ps :
  ps_pool (read_body sid ec body ps)
  = if ec then ps_pool ps else push (ps_pool ps) (mkHandlerTask sid body).
Proof. unfold read_body, on_session. body_cases ec. Qed.
Lemma read_body_rest sid ec body ps :
  ps_phase (read_body sid ec body ps) = ps_phase ps /\ ps_dead_calls (read_body sid ec body ps) = ps_dead_calls ps
  /\ ps_calls (read_body sid ec body ps) = ps_calls ps.
Proof. unfold read_body, on_session. body_cases ec. Qed.
Lemma read_body_calls sid ec body ps : same_calls ps (read_body sid ec body ps).
Proof.
  unfold same_calls. rewrite read_body_server, read_body_pool.
  destruct (read_body_rest sid ec body ps) as (_ & _ & ->). split_and!; try done; by destruct ec.
Qed.

Lemma worker_stop (p : ThreadPool (T := HandlerTask)) i : tp_stop (worker i p) = tp_stop p.
Proof. unfold worker. destruct (_ !! i) as [[]|]; try done. by destruct (tp_tasks p). Qed.

(** A step of a worker while the handler is there, and behind its destruction. *)
Lemma worker_step_alive i buf what ps :
  ps_phase ps <> HandlerGone -> calls_ok ps ->
  ps_phase (worker_step i buf what ps) = ps_phase ps /\ ps_dead_calls (worker_step i buf what ps) = ps_dead_calls ps
  /\ (ps_pool (worker_step i buf what ps) = worker i (ps_pool ps) \/ ps_pool (worker_step i buf what ps) = ps_pool ps)
  /\ (ps_system (worker_step i buf what ps) = ps_system ps
      \/ (exists sid payload, ps_system (worker_step i buf what ps) = sys_arrival CC_SHA256 sid buf what payload (ps_system ps))
      \/ exists k, ps_system (worker_step i buf what ps) = sys_act k (ps_system ps)).
Proof.
  intros Hp H. unfold worker_step. destruct (tp_workers (ps_pool ps) !! i) as [[| |task|task| |]|] eqn:Ew; auto 6.
  - destruct (ps_phase ps) eqn:E; [..|done]; (split_and!; [done|done|by left|right; left; by do 2 eexists]).
  - destruct (call_step_spec i task ps H Ew) as (k & p & _ & _ & _ & _ & _ & E1 & E2 & E3 & E4).
    destruct (ps_phase ps) eqn:E; [..|done]; rewrite E1, E2, E3, E4; (split_and!; [done|done| |right; right; by exists k]);
      destruct (ended _); auto.
Qed.
Lemma dead_worker i buf what ps :
  ps_phase ps = HandlerGone ->
  ps_pool (worker_step i buf what ps) = worker i (ps_pool ps) /\ ps_phase (worker_step i buf what ps) = HandlerGone
  /\ exists ran, tp_run (worker i (ps_pool ps)) = tp_run (ps_pool ps) ++ ran
       /\ ps_dead_calls (worker_step i buf what ps) = ps_dead_calls ps ++ ran.
Proof.
  intros Hp. unfold worker_step, worker. rewrite Hp.
  destruct (tp_workers (ps_pool ps) !! i) as [[| |task|task| |]|] eqn:Ew;
    try (split_and!; [done|done|]; exists []; rewrite !app_nil_r; done).
  - split_and!; [done|done|]. exists []. rewrite !app_nil_r. split; [|done]. by destruct (tp_tasks (ps_pool ps)).
  - split_and!; [done|done|]. by exists [task].
Qed.

(** What holds in every reachable state. *)
Record ps_ok (num_threads : nat) (x0 : System) (ps : PooledServer) : Prop := mkPsOk {
  ok_pool : rtc TpStep (new_ThreadPool num_threads) (ps_pool ps);
  ok_alive : ps_phase ps <> HandlerGone -> ps_dead_calls ps = [] /\ tp_stop (ps_pool ps) = false /\ calls_ok ps;
  ok_serving : ps_phase ps = Serving -> rtc (SystemStep CC_SHA256) x0 (ps_system ps);
}.

Lemma ps_ok_new n data_dir files : ps_ok n (new_System data_dir files) (new_PooledServer n data_dir files).
Proof.
  assert (forall i w, replicate n (Waiting (T := HandlerTask)) !! i = Some w -> w = Waiting) as Hw
    by (intros i w [H _]%lookup_replicate; done).
  split; cbn; [done| |done]. intros _. split_and!; try done. split; [cbn..|].
  - intros i t H%Hw. done.
  - intros i j k t t' H%Hw. done.
  - intros k p H. by rewrite lookup_nil in H.
  - assert (fetched (replicate n (Waiting (T := HandlerTask))) = []) as E by (clear; induction n as [|n IH]; [done|exact IH]).
    exists []. change (fetched (tp_workers _)) with (fetched (replicate n (Waiting (T := HandlerTask)))). rewrite E.
    by split_and!.
Qed.

Lemma ps_ok_worker n x0 ps i buf what :
  small (ps_server ps) -> ps_ok n x0 ps -> ps_ok n x0 (worker_step i buf what ps).
Proof.
  intros Sm [P A S]. destruct (decide (ps_phase ps = HandlerGone)) as [Hp|Hp].
  - destruct (dead_worker i buf what ps Hp) as (E1 & E2 & _). split; rewrite ?E1, ?E2; [|done|done].
    eapply rtc_r; [exact P|apply tp_worker].
  - destruct (A Hp) as (A1 & A2 & A3). destruct (worker_step_alive i buf what ps Hp A3) as (E1 & E2 & E3 & E4). split.
    + destruct E3 as [->| ->]; [|done]. eapply rtc_r; [exact P|apply tp_worker].
    + rewrite E1, E2. intros _. split_and!; [done| |by apply calls_ok_worker].
      destruct E3 as [->| ->]; by rewrite ?worker_stop.
    + rewrite E1. intros Hs. specialize (S Hs). destruct E4 as [->|[(sid & payload & ->)|(k & ->)]]; [done|..];
        (eapply rtc_r; [exact S|]); [apply sys_step_arrival|by apply sys_step_act].
Qed.

Lemma ps_ok_step n x0 ps ps' : PsStep ps ps' -> ps_ok n x0 ps -> ps_ok n x0 ps'.
Proof.
  intros St H. destruct St as [ps sid ec body Hp|ps pick|ps i|ps i buf what Hn Hd|ps x Hp Sm Hx|ps s Hp Hio|ps held s Hp Hs|ps Hp|ps Hp];
    try (by apply ps_ok_worker); destruct H as [P A S].
  - destruct (read_body_rest sid ec body ps) as (E1 & E2 & _). split.
    + rewrite read_body_pool. destruct ec; [done|]. eapply rtc_r; [exact P|apply tp_push].
    + rewrite E1, E2, read_body_pool. intros Hg. destruct (A Hg) as (A1 & A2 & A3). split_and!; [done|by destruct ec|].
      eapply calls_ok_same; [apply read_body_calls|done].
    + rewrite E1, read_body_server. intros _. eapply rtc_r; [by apply S|]. apply sys_step_io, io_body.
  - split; cbn; [by eapply rtc_r; [exact P|apply tp_notify]| |done]. intros Hg. destruct (A Hg) as (A1 & A2 & A3).
    split_and!; [done|unfold notify_one; by destruct (tp_notifies (ps_pool ps))|].
    eapply calls_ok_same; [by apply (same_calls_move (TNotify pick))|done].
  - split; cbn; [by eapply rtc_r; [exact P|apply tp_wake]| |done]. intros Hg. destruct (A Hg) as (A1 & A2 & A3).
    split_and!; [done|unfold wake; by destruct (tp_workers (ps_pool ps) !! i) as [[]|]|].
    eapply calls_ok_same; [by apply (same_calls_move (TWake i))|done].
  - assert (sys_handlers x = sys_handlers (ps_system ps)) as E.
    { destruct Hx as [-> | ->]; unfold sys_save, sys_broadcast; by destruct (thread_step _ _ _). }
    split; cbn; [done| |].
    + intros Hg. destruct (A Hg) as (A1 & A2 & A3). split_and!; [done..|]. eapply calls_ok_same; [|exact A3]. by split_and!.
    + intros _. eapply rtc_r; [by apply S|]. destruct Hx as [-> | ->]; [by apply sys_step_save|by apply sys_step_broadcast].
  - split; cbn; [done| |].
    + intros Hg. destruct (A Hg) as (A1 & A2 & A3). split_and!; [done..|]. eapply calls_ok_same; [|exact A3]. by split_and!.
    + intros _. eapply rtc_r; [by apply S|by apply sys_step_io].
  - split; cbn; [done| |done].
    intros _. destruct (A ltac:(by rewrite Hp)) as (A1 & A2 & A3). split_and!; [done..|]. eapply calls_ok_same; [|exact A3]. by split_and!.
  - by split.
  - split; cbn; [by eapply rtc_r; [exact P|apply tp_request_stop]|by rewrite Hp|by rewrite Hp].
Qed.

Lemma ps_ok_steps n data_dir files ps :
  rtc PsStep (new_PooledServer n data_dir files) ps -> ps_ok n (new_System data_dir files) ps.
Proof.
  intros Hs. apply (rtc_ind_r (ps_ok n (new_System data_dir files)) (new_PooledServer n data_dir files)) in Hs;
    [done|apply ps_ok_new|]. intros q q' _ St H. by eapply ps_ok_step.
Qed.

(** At most one unfinished call for each worker. *)
Definition unfinished (x : System) : nat := length (filter (fun p => ended p = false) (sys_handlers x)).
Lemma count_indices {A} (P : A -> Prop) `{!forall x, Decision (P x)} (l : list A) (idx : list nat) :
  (forall k x, l !! k = Some x -> P x -> k ∈ idx) -> (length (filter P l) <= length idx)%nat.
Proof.
  intros Hin. set (z := zip (seq 0 (length l)) l).
  assert (filter P l = (filter (fun kx => P kx.2) z).*2) as ->.
  { assert (z.*2 = l) as E by (apply snd_zip; rewrite length_seq; lia). rewrite <- E at 1. clear.
    induction z as [|kx z IH]; [done|]. rewrite fmap_cons, !filter_cons. case_decide; rewrite ?fmap_cons; by rewrite IH. }
  rewrite length_fmap, <- (length_fmap fst). apply submseteq_length, NoDup_submseteq.
  - eapply sublist_NoDup; [|apply fmap_sublist, sublist_filter].
    unfold z. rewrite fst_zip by (rewrite length_seq; lia). apply NoDup_seq.
  - intros k ([k' x] & -> & [Hp Hz]%list_elem_of_filter)%list_elem_of_fmap. cbn in *.
    apply elem_of_lookup_zip_with in Hz as (i & k0 & x0 & [= -> ->] & Hk & Hx). apply lookup_seq in Hk as [-> _]. by eapply Hin.
Qed.
Lemma unfinished_bound ps : calls_ok ps -> (unfinished (ps_system ps) <= length (tp_workers (ps_pool ps)))%nat.
Proof.
  intros H. set (f := fun i => match ps_calls ps !! i with Some k => k | None => 0%nat end).
  rewrite <- (length_seq (length (tp_workers (ps_pool ps))) 0), <- (length_fmap f). apply count_indices.
  intros k p Hp He. destruct (co_unfinished _ H k p Hp He) as (i & t & Hi & Hc). apply list_elem_of_fmap.
  exists i. unfold f. rewrite Hc. split; [done|]. apply elem_of_seq. apply lookup_lt_Some in Hi. lia.
Qed.

(** ** Lemmas: turns *)

(** [m i] critical sections are left of the call worker [i] runs, at most. *)
Definition measured (m : nat -> nat) (ps : PooledServer) : Prop :=
  (forall i, m i <= 4027)%nat
  /\ forall i t k p, tp_workers (ps_pool ps) !! i = Some (Running t) -> ps_calls ps !! i = Some k ->
       sys_handlers (ps_system ps) !! k = Some p -> ends (m i) p.
Definition left_over (m : nat -> nat) (ps : PooledServer) : nat := work_left 4027 m (ps_pool ps).

Lemma measured_same m ps ps' : same_calls ps ps' -> measured m ps -> measured m ps'.
Proof. intros (E1 & E2 & _ & _ & E5 & _) [H1 H2]. split; [done|]. rewrite E1, E2. intros i t k p Hi%E5. by apply (H2 i t). Qed.

(** A helpful turn of a worker does some of the work. *)
Lemma helpful_worker m i buf what ps :
  ps_phase ps <> HandlerGone -> calls_ok ps -> measured m ps -> helps (Some i) (ps_pool ps) ->
  exists m', measured m' (worker_step i buf what ps) /\ (left_over m' (worker_step i buf what ps) < left_over m ps)%nat.
Proof.
  intros Hp Hok [M1 M2] H. pose proof (worker_works 4027 m m i _ H ltac:(done) (M1 i)) as Hw.
  unfold worker_step. destruct (tp_workers (ps_pool ps) !! i) as [w|] eqn:Ew; [|by unfold helps in H; rewrite Ew in H].
  assert (forall w', tp_workers (worker i (ps_pool ps)) = <[i := w']> (tp_workers (ps_pool ps)) -> (forall t, w' <> Running t) ->
    forall j t, tp_workers (worker i (ps_pool ps)) !! j = Some (Running t) -> j <> i /\ tp_workers (ps_pool ps) !! j = Some (Running t)) as Hr.
  { intros w' -> Hne j t. rewrite list_lookup_insert. case_decide as Hd; [intros [= ->]; by destruct (Hne t)|].
    intros Hj. split; [|done]. intros ->. apply Hd. split; [done|by eapply lookup_lt_Some]. }
  assert (forall w', tp_workers (worker i (ps_pool ps)) = <[i := w']> (tp_workers (ps_pool ps)) -> (forall t, w' <> Running t) ->
    exists m', measured m' (with_pool ps (worker i (ps_pool ps))) /\ (left_over m' (with_pool ps (worker i (ps_pool ps))) < left_over m ps)%nat) as Hstay.
  { intros w' E Hne. exists m. split; [split; [done|]|done]. cbn. intros j t k p Hj. apply (Hr w' E Hne) in Hj as [_ Hj]. by apply (M2 j t). }
  destruct w as [| |task|task| |]; try (unfold helps in H; by rewrite Ew in H).
  - destruct (tp_tasks (ps_pool ps)) as [|task tasks] eqn:Et; [by unfold helps in H; rewrite Ew in H|].
    apply (Hstay (Taken task)); [|done]. unfold worker. by rewrite Ew, Et.
  - set (m' := fun j => if decide (j = i) then 4027%nat else m j).
    assert (measured m' (start_call i task buf what (with_pool ps (worker i (ps_pool ps))))
      /\ (left_over m' (start_call i task buf what (with_pool ps (worker i (ps_pool ps)))) < left_over m ps)%nat) as Hs.
    { split; [split|].
      - intros j. unfold m'. case_decide; [done|apply M1].
      - cbn. intros j t k p Hj Hk Hh. unfold m'. case_decide as Hd.
        + subst j. rewrite lookup_insert_eq in Hk. injection Hk as <-. rewrite lookup_app_r, Nat.sub_diag in Hh by lia.
          injection Hh as <-. apply ends_handle_message.
        + rewrite lookup_insert_ne in Hk by done. unfold worker in Hj. rewrite Ew in Hj. cbn in Hj.
          rewrite list_lookup_insert_ne in Hj by done. destruct (co_running _ Hok j t Hj) as (k' & q & Hk' & Hq & _).
          rewrite Hk in Hk'. injection Hk' as <-. rewrite lookup_app_l in Hh by (by eapply lookup_lt_Some).
          by apply (M2 j t k).
      - apply worker_works; [done| |]; unfold m'; [intros j Hj; by rewrite decide_False|by rewrite decide_True]. }
    exists m'. by destruct (ps_phase ps).
  - assert (exists m', measured m' (call_step i ps) /\ (left_over m' (call_step i ps) < left_over m ps)%nat) as Hs;
      [|by destruct (ps_phase ps)].
    destruct (call_step_spec i task ps Hok Ew) as (k & p & Hc & Hk & _ & E1 & E2 & _ & _ & _ & E3).
    set (p' := snd (advance p (ps_server ps))) in *. pose proof (M2 i task k p Ew Hc Hk) as He.
    pose proof (ends_advance _ p (ps_server ps) He) as He'. fold p' in He'.
    set (m' := fun j => if decide (j = i) then pred (m i) else m j).
    assert (forall j, j <> i -> m' j = m j) as Hm by (intros j Hj; unfold m'; by rewrite decide_False).
    assert (m' i = pred (m i)) as Hmi by (unfold m'; by rewrite decide_True).
    exists m'. split; [split|].
    + intros j. destruct (decide (j = i)) as [->|Hne]; [rewrite Hmi; specialize (M1 i); lia|rewrite Hm by done; apply M1].
    + rewrite E1, E2. intros j t k' q Hj Hk' Hq.
      assert (tp_workers (ps_pool ps) !! j = Some (Running t)) as Hj0.
      { rewrite E3 in Hj. destruct (ended p'); [|done]. unfold worker in Hj. rewrite Ew in Hj. cbn in Hj.
        rewrite list_lookup_insert in Hj. case_decide; [by injection Hj|done]. }
      rewrite list_lookup_insert in Hq. case_decide as Hd.
      * destruct Hd as [<- _]. injection Hq as <-. rewrite (co_own _ Hok j i k t task Hj0 Ew Hk' Hc), Hmi. done.
      * rewrite Hm; [by apply (M2 j t k')|]. intros ->. apply Hd. rewrite Hc in Hk'. injection Hk' as <-.
        split; [done|by eapply lookup_lt_Some].
    + unfold left_over. rewrite E3. destruct (ended p') eqn:Ee; [by apply worker_works; [..|rewrite Hmi; specialize (M1 i); lia]|].
      assert (exists n, m i = S n) as [n En].
      { destruct p as [o|B f c]; [unfold p' in Ee; by cbn in Ee|]. destruct (m i) as [|n]; [done|by exists n]. }
      unfold work_left. pose proof (weights_insert 4027 m m' _ i _ (Running task) Ew Hm) as Hwi.
      rewrite list_insert_id in Hwi by done. rewrite Hmi, En in Hwi. cbn in Hwi. lia.
  - apply (Hstay Waiting); [|done]. unfold worker. by rewrite Ew.
Qed.

(** Any other turn is one of the pool alone. *)
Lemma other_turn m t ps :
  (match t with PsWorker i _ _ => ~ helps (Some i) (ps_pool ps) | _ => True end) -> measured m ps ->
  ps_turn t ps = with_pool ps (move (pool_turn t) (ps_pool ps)) /\ measured m (ps_turn t ps).
Proof.
  intros H Hm. assert (ps_turn t ps = with_pool ps (move (pool_turn t) (ps_pool ps))) as E.
  { destruct t as [i buf what|pick|i]; try done. cbn. unfold helps in H. unfold worker_step.
    destruct (tp_workers (ps_pool ps) !! i) as [[]|]; tauto. }
  split; [done|]. rewrite E. eapply measured_same; [|exact Hm]. apply same_calls_move.
  destruct t as [i buf what|pick|i]; try done. cbn. intros w Ew. unfold helps in H. rewrite Ew in H.
  destruct w; try tauto; (split; [done|]); intros E2; try discriminate E2. destruct (tp_tasks (ps_pool ps)); [done|by destruct H].
Qed.

(** What turns keep, and how they come to an end. *)
Record serving_ok (n : nat) (subs : list HandlerTask) (ps : PooledServer) : Prop := mkServingOk {
  sv_alive : ps_phase ps <> HandlerGone;
  sv_dead : ps_dead_calls ps = [];
  sv_calls : calls_ok ps;
  sv_pool : tp_ok (ps_pool ps);
  sv_manned : manned (ps_pool ps);
  sv_length : length (tp_workers (ps_pool ps)) = n;
  sv_submitted : tp_submitted (ps_pool ps) = subs;
}.
Definition bounded (n : nat) (subs : list HandlerTask) (ps : PooledServer) (k : nat) : Prop :=
  serving_ok n subs ps /\ exists m, measured m ps /\ (left_over m ps <= k)%nat.

Lemma serving_turn n subs t ps : serving_ok n subs ps -> serving_ok n subs (ps_turn t ps).
Proof.
  intros [A D C P M L S].
  assert (ps_phase (ps_turn t ps) = ps_phase ps /\ ps_dead_calls (ps_turn t ps) = ps_dead_calls ps /\ calls_ok (ps_turn t ps)
    /\ (ps_pool (ps_turn t ps) = move (pool_turn t) (ps_pool ps) \/ ps_pool (ps_turn t ps) = ps_pool ps)) as (E1 & E2 & E3 & E4).
  { destruct t as [i buf what|pick|i].
    - destruct (worker_step_alive i buf what ps A C) as (F1 & F2 & F3 & _). split_and!; [done|done|by apply calls_ok_worker|done].
    - split_and!; [done|done| |by left]. eapply calls_ok_same; [by apply (same_calls_move (TNotify pick))|done].
    - split_and!; [done|done| |by left]. eapply calls_ok_same; [by apply (same_calls_move (TWake i))|done]. }
  split; rewrite ?E1, ?E2; try done; destruct E4 as [-> | ->]; try done.
  - by apply tp_ok_turn.
  - by apply manned_turn.
  - by rewrite move_length.
  - by rewrite turn_submitted.
Qed.

Definition ps_participant (t : PsTurn) : option (option nat) := participant (pool_turn t).
Lemma bounded_turn n subs t ps k :
  bounded n subs ps k ->
  exists m k', measured m (ps_turn t ps) /\ left_over m (ps_turn t ps) = k' /\ (k' <= k)%nat
  /\ forall key, helps key (ps_pool ps) ->
       (ps_participant t <> Some key /\ helps key (ps_pool (ps_turn t ps))) \/ (k' < k)%nat.
Proof.
  intros [Hs (m & Hm & Hk)].
  assert ((exists i buf what, t = PsWorker i buf what /\ helps (Some i) (ps_pool ps))
    \/ match t with PsWorker i _ _ => ~ helps (Some i) (ps_pool ps) | _ => True end) as [(i & buf & what & -> & H)|H].
  { destruct t as [i buf what|pick|i]; [|by right..].
    destruct (decide (helps (Some i) (ps_pool ps))); [left; by do 3 eexists|by right]. }
  - cbn [ps_turn].
    destruct (helpful_worker m i buf what ps) as (m' & Hm' & Hl); [apply Hs|apply Hs|done|done|].
    exists m', (left_over m' (worker_step i buf what ps)). split_and!; [done|done|lia|]. intros key _. right. lia.
  - destruct (other_turn m t ps H Hm) as [E Hm'].
    exists m, (left_over m (ps_turn t ps)). rewrite E in Hm' |- *. unfold left_over in *. cbn [ps_pool with_pool].
    pose proof (turn_works 4027 m (pool_turn t) (ps_pool ps) (proj1 Hm)) as Hle.
    split_and!; [done|done|lia|]. intros key Hh. destruct (decide (ps_participant t = Some key)) as [Ek|Ek].
    + right. pose proof (turn_helps 4027 m _ key _ (proj1 Hm) Ek Hh). lia.
    + destruct (helps_kept 4027 (pool_turn t) key (ps_pool ps) m (proj1 Hm) Hh Ek); [by left|right; lia].
Qed.

Lemma measured_full ps : calls_ok ps -> measured (fun _ => 4027%nat) ps.
Proof.
  intros H. split; [done|]. intros i t k p Hi Hk Hp. destruct (co_running _ H i t Hi) as (k' & q & Hk' & Hq & He).
  by simplify_eq.
Qed.

(** ** Properties *)

(** C21: the server behind its pool, under every interleaving. Whatever the io thread, the
    workers, the background threads and the documents' threads do, in any order of their
    critical sections: until the signal the server is in a state of [SystemStep], so that
    [concurrent_invariant] holds of it; and as long as the handler has not been destroyed,
    each message received is exactly once in the queue, or fetched by a worker, or the
    message of one call of the handler, of which some of the critical sections have taken
    place; at most as many calls are unfinished as there are workers; and with a single
    worker the calls begin in the order in which the messages arrived. The steps of workers
    and background threads are taken before the 32-bit id counters reach their last value. *)
Theorem pooled_server_refines n data_dir files ps :
  rtc PsStep (new_PooledServer n data_dir files) ps ->
  (ps_phase ps = Serving -> rtc (SystemStep CC_SHA256) (new_System data_dir files) (ps_system ps))
  /\ (ps_phase ps <> HandlerGone -> exists msgs,
       Forall2 handles msgs (sys_handlers (ps_system ps))
       /\ tp_submitted (ps_pool ps) ≡ₚ msgs ++ fetched (tp_workers (ps_pool ps)) ++ tp_tasks (ps_pool ps)
       /\ (unfinished (ps_system ps) <= n)%nat
       /\ (n = 1%nat -> msgs `prefix_of` tp_submitted (ps_pool ps))).
Proof.
  intros [P A S]%ps_ok_steps. split; [done|]. intros Hp. destruct (A Hp) as (_ & _ & C).
  destruct (co_started _ C) as (msgs & F & T & T1). exists msgs. pose proof (ok_order _ (tp_ok_steps _ _ P)) as O.
  pose proof (steps_workers _ _ P) as L. split_and!; [done| | |].
  - rewrite O, T. by rewrite <- app_assoc.
  - rewrite <- L. by apply unfinished_bound.
  - intros ->. rewrite O, (T1 L), <- app_assoc. by apply prefix_app_r.
Qed.

(** C37: every message received is handled, and no wake-up is lost. Once no further message
    arrives, however the threads are scheduled: after as many rounds as the work left
    counts (4031 for a message in the queue, which covers the at most 4027 critical
    sections of its handler), in each of which every worker and the thread that notifies
    have a turn, in any order, with further turns and with workers that wake up for no
    reason, every message received has been handled once, by a call that has ended, and no
    worker has a task. The pool has a worker, the handler has not been destroyed, and a
    worker that finds no message sleeps until it is notified. *)
Theorem received_messages_are_handled n data_dir files ps rounds :
  rtc PsStep (new_PooledServer n data_dir files) ps -> (0 < n)%nat -> ps_phase ps <> HandlerGone ->
  Forall (fair ps_participant (in_pool n)) rounds ->
  (work_left 4027 (fun _ => 4027%nat) (ps_pool ps) <= length rounds)%nat ->
  let ps' := turns ps_turn (concat rounds) ps in
  at_rest (ps_pool ps') /\ ps_dead_calls ps' = []
  /\ exists msgs, msgs ≡ₚ tp_submitted (ps_pool ps)
     /\ Forall2 (fun msg p => handles msg p /\ ended p = true) msgs (sys_handlers (ps_system ps')).
Proof.
  intros [P A _]%ps_ok_steps Hn Hp F Hr ps'. destruct (A Hp) as (Hd & Hst & C). set (subs := tp_submitted (ps_pool ps)).
  assert (bounded n subs ps (work_left 4027 (fun _ => 4027%nat) (ps_pool ps))) as B0.
  { split; [|exists (fun _ => 4027%nat); split; [by apply measured_full|done]].
    split; try done; [by apply tp_ok_steps with n|right; by apply (not_stopped_live n)|by apply steps_workers]. }
  assert (forall t q k, bounded n subs q k -> bounded n subs (ps_turn t q) k) as Hkeep.
  { intros t q k B. destruct (bounded_turn n subs t q k B) as (m & k' & M1 & M2 & M3 & _).
    split; [by apply serving_turn, B|]. exists m. rewrite M2. done. }
  assert (at_rest (ps_pool ps')) as Hrest.
  { apply (fair_rounds ps_turn ps_participant (in_pool n) (bounded n subs) (fun q => at_rest (ps_pool q))
             (fun key q => helps key (ps_pool q))) with (n := work_left 4027 (fun _ => 4027%nat) (ps_pool ps)); try done.
    - intros [i|] _; [by exists (PsWorker i [] "")|by exists (PsNotify 0)].
    - intros q k [B _]. rewrite <- (sv_length _ _ _ B). apply (somebody_helps 0); apply B.
    - intros t q k key B H. destruct (bounded_turn n subs t q k B) as (m & k' & M1 & M2 & M3 & M4).
      destruct (M4 key H) as [H'|H']; [by left|right]. exists k'. split; [done|].
      split; [by apply serving_turn, B|]. exists m. by rewrite M2.
    - intros t q k [B (m & M & _)] H.
      destruct (other_turn m t q) as [-> _]; [|done|by apply at_rest_turn].
      destruct t as [i buf what|pick|i]; try done. intros Hh. by apply (at_rest_helps _ _ H) in Hh. }
  destruct (turns_keep ps_turn (bounded n subs) Hkeep (concat rounds) ps _ B0) as [B _]. fold ps' in B.
  split; [done|]. split; [apply B|]. destruct (co_started _ (sv_calls _ _ _ B)) as (msgs & Fh & T & _). exists msgs.
  destruct Hrest as [Et Hw]. assert (fetched (tp_workers (ps_pool ps')) = []) as Ef.
  { revert Hw. clear. unfold fetched. generalize (tp_workers (ps_pool ps')). intros ws. induction ws as [|w ws IH]; intros Hw; [done|].
    cbn. rewrite IH by (intros; apply Hw; set_solver). by destruct (Hw w) as [->|[->| ->]]; [set_solver|..]. }
  rewrite Ef, app_nil_r in T. split.
  - rewrite <- T, <- (sv_submitted _ _ _ B), (ok_order _ (sv_pool _ _ _ B)), Et. by rewrite app_nil_r.
  - apply Forall2_same_length_lookup. split; [by eapply Forall2_length|]. intros k msg p Hm Hk.
    split; [by eapply (Forall2_lookup_lr _ _ _ _ _ _ Fh)|]. destruct (ended p) eqn:He; [done|].
    destruct (co_unfinished _ (sv_calls _ _ _ B) k p Hk He) as (i & t & Hi & _).
    apply list_elem_of_lookup_2, Hw in Hi. by destruct Hi as [|[|]].
Qed.

(** Any number of steps after the destruction of the handler. *)
Lemma dead_turns turns ps :
  ps_phase ps = HandlerGone ->
  let ps' := foldl (fun ps '(i, buf, what) => worker_step i buf what ps) ps turns in
  ps_pool ps' = foldl (fun p '(i, _, _) => worker i p) (ps_pool ps) turns
  /\ exists ran, tp_run (ps_pool ps') = tp_run (ps_pool ps) ++ ran
       /\ ps_dead_calls ps' = ps_dead_calls ps ++ ran.
Proof.
  revert ps. induction turns as [|[[i buf] what] turns IH]; intros ps Hp; cbn.
  - split; [done|]. exists []. by rewrite !app_nil_r.
  - destruct (dead_worker i buf what ps Hp) as (E & Hp' & ran0 & F1 & F2).
    destruct (IH (worker_step i buf what ps) Hp') as (E1 & ran & E2 & E3). rewrite E in E1, E2.
    split; [done|]. exists (ran0 ++ ran). by rewrite E2, E3, F1, F2, !app_assoc.
Qed.

Lemma worker_turns {A B} (turns : list (nat * A * B)) (p : ThreadPool (T := HandlerTask)) :
  tp_ok p -> left_empty p ->
  let p' := foldl (fun p '(i, _, _) => worker i p) p turns in
  tp_ok p' /\ left_empty p' /\ length (tp_workers p') = length (tp_workers p) /\ tp_submitted p' = tp_submitted p.
Proof.
  revert p. induction turns as [|[[i a] b] turns IH]; intros p Ok He; [done|]. cbn.
  destruct (IH (worker i p)) as (H1 & H2 & H3 & H4); [by apply tp_ok_worker|by apply left_empty_worker|].
  by rewrite H3, H4, worker_length, worker_submitted.
Qed.

(** C22: messages pending at the shutdown call a destroyed handler. [main] destroys the
    handler before the pool, and the destructor of the pool waits until its workers have
    emptied the queue: however they are scheduled, every message that was waiting or taken
    when the handler was destroyed is then run on it. *)
Theorem pending_messages_call_destroyed_handler n data_dir files ps turns :
  rtc PsStep (new_PooledServer n data_dir files) ps -> (0 < n)%nat -> ps_phase ps = Stopped ->
  let ps1 := with_phase ps HandlerGone in
  let ps2 := foldl (fun ps '(i, buf, what) => worker_step i buf what ps)
               (with_pool ps1 (request_stop (ps_pool ps1))) turns in
  (forall w, w ∈ tp_workers (ps_pool ps2) -> w = Exited) ->
  ps_dead_calls ps2 ≡ₚ in_hand (tp_workers (ps_pool ps)) ++ tp_tasks (ps_pool ps).
Proof.
  intros H%ps_ok_steps Hn Hp ps1 ps2 Hx. pose proof (ok_pool _ _ _ H) as P.
  destruct (ok_alive _ _ _ H) as (Hd & Hs & _); [by rewrite Hp|].
  set (p1 := request_stop (ps_pool ps)). pose proof (tp_ok_steps _ _ P) as Ok.
  assert (tp_ok p1) as Ok1 by (by apply tp_ok_stop).
  assert (left_empty p1) as He1.
  { intros Hin%(proj1 (wake_up_exited (tp_workers (ps_pool ps)))). apply (ok_exited _ Ok) in Hin. congruence. }
  destruct (dead_turns turns (with_pool ps1 p1)) as (G1 & ran & G2 & G3); [done|].
  assert (ps_pool ps2 = foldl (fun p '(i, _, _) => worker i p) p1 turns) as G4 by exact G1.
  destruct (worker_turns turns p1 Ok1 He1) as (Ok2 & He2 & Hl2 & Hs2).
  assert (tp_run (ps_pool ps2) ≡ₚ tp_submitted (ps_pool ps)) as Hall.
  { rewrite <- G4 in *. change (tp_submitted (ps_pool ps)) with (tp_submitted p1). rewrite <- Hs2.
    apply exited_run; try done. intros E. rewrite E in Hl2. cbn in Hl2. rewrite length_fmap, (steps_workers _ _ P) in Hl2. lia. }
  fold ps1 in Hx. subst ps2. cbn [ps_dead_calls with_pool ps1 with_phase ps_pool] in G2, G3. rewrite Hd in G3.
  etrans; [apply reflexive_eq; exact G3|]. cbn.
  apply (Permutation_app_inv_l (tp_run (ps_pool ps))).
  etrans; [apply reflexive_eq; symmetry; exact G2|]. etrans; [exact Hall|].
  rewrite (ok_order _ Ok), (ok_taken _ Ok). by rewrite <- app_assoc.
Qed.
End ServerPool.

(** ** Witnesses *)

Section Concrete.
#[local] Existing Instance json_tree.

Definition turn (i : nat) (ps : PooledServer) : PooledServer := worker_step sha i [] "" ps.
(** Worker [i] goes on until it waits for a task, with one. *)
Fixpoint until_waiting (fuel i : nat) (ps : PooledServer) : PooledServer :=
  match fuel with
  | O => ps
  | S fuel => match tp_workers (ps_pool ps) !! i with
              | Some Waiting | Some Asleep => ps
              | _ => until_waiting fuel i (turn i ps)
              end
  end.
Definition round (i : nat) (ps : PooledServer) : PooledServer := until_waiting 60 i (turn i ps).
Definition receives (sid : Z) (m : ClientMsg) (ps : PooledServer) : PooledServer := read_body sid false (text_of m) ps.
Definition document_thread (loc : Z) (ps : PooledServer) : PooledServer :=
  with_server ps (thread_takes loc (ps_server ps)).

(** Ann's connection: she registers, creates a document and opens it. *)
Definition ann_editing : PooledServer :=
  let ps := new_PooledServer 2 "data" ∅ in
  let ps := with_server ps (with_tcp (ps_server ps) (accept (sv_tcp (ps_server ps)) false)) in
  let ps := round 0 (receives 1 (CAuth (mkAuthRequestMsg "register" "ann" "pw")) ps) in
  let ps := round 0 (receives 1 (CDocCreate (mkDocCreateRequestMsg "notes")) ps) in
  document_thread 1 (round 0 (receives 1 (CDocJoin (mkDocJoinRequestMsg 1)) ps)).

(** The text of the document, and the last frame for a session. *)
Definition text_in (ps : PooledServer) : option string :=
  doc_content <$> hp_docs (dm_heap (sv_docs (ps_server ps))) !! 0.
Definition last_frame (ps : PooledServer) : option string := last (frames_to 1 (ps_server ps)).

(** Two messages of one connection can be handled in the wrong order. Ann types a
    character and closes the document; the first worker takes her operation, the second
    handles her leaving before the first goes on: the operation is refused, as she is no
    longer in the document, and her last edit is lost. Handled in the order of their
    arrival the edit is in the document. *)
Example operation_overtaken_by_leave :
  let op := COperation (mkOperationMsg 1 0 [mkOpEntry "insert" 0 "x" 0]) in
  let leave := CDocLeave (mkDocLeaveRequestMsg 1) in
  let ps := receives 1 leave (receives 1 op ann_editing) in
  let overtaken := document_thread 1 (document_thread 1 (until_waiting 60 0 (round 1 (turn 0 ps)))) in
  let in_order := document_thread 1 (document_thread 1 (round 1 (round 0 ps))) in
  text_in in_order = Some "x"%string /\ text_in overtaken = Some ""%string
  /\ last_frame overtaken = Some (encode_frame (pos_text (encode
       (to_json_ErrorMsg (J := json_tree) (mkErrorMsg "not_in_document" "Not in this document"))))).
Proof. vm_compute. by split_and!. Qed.

Definition task_hi : HandlerTask := mkHandlerTask 1 "hi".
(** The workers sleep when the message arrives. *)
Definition asleep (n : nat) : PooledServer := foldl (fun ps i => turn i ps) (new_PooledServer n "data" ∅) (seq 0 n).
Definition received_hi (n : nat) : PooledServer := read_body 1 false "hi" (asleep n).

Lemma asleep_reachable n : rtc (PsStep (J := json_tree) sha) (new_PooledServer n "data" ∅) (asleep n).
Proof.
  unfold asleep. generalize (seq 0 n) as l. assert (forall l ps, is_small (ps_server ps) = true ->
    (forall i w, tp_workers (ps_pool ps) !! i = Some w -> w = Waiting \/ w = Asleep) -> tp_tasks (ps_pool ps) = [] ->
    tp_stop (ps_pool ps) = false ->
    rtc (PsStep (J := json_tree) sha) ps (foldl (fun ps i => turn i ps) ps l)) as H.
  { induction l as [|i l IH]; intros ps Hs Hw Ht Hst; [done|]. cbn.
    pose proof Hs as [H1%Z.ltb_lt H2%Z.ltb_lt]%andb_true_iff.
    eapply rtc_l; [by apply (ps_worker sha ps i [] "")|]. change (worker_step sha i [] "" ps) with (turn i ps).
    assert (turn i ps = with_pool ps (worker i (ps_pool ps))) as E.
    { unfold turn, worker_step. destruct (tp_workers (ps_pool ps) !! i) as [w|] eqn:Ew; [|done].
      by destruct (Hw i w Ew) as [->| ->]. }
    rewrite E. apply IH; [done| | |].
    - intros j w. cbn. unfold worker. destruct (tp_workers (ps_pool ps) !! i) as [w0|] eqn:Ew; [|apply Hw].
      destruct (Hw i w0 Ew) as [->| ->]; [|apply Hw]. rewrite Ht, Hst. cbn. rewrite list_lookup_insert.
      case_decide; [intros [= <-]; by right|apply Hw].
    - cbn. unfold worker. destruct (tp_workers (ps_pool ps) !! i) as [[]|]; try done; by rewrite ?Ht.
    - cbn. by rewrite worker_stop. }
  intros l. apply H; try done. cbn. intros i w [-> _]%lookup_replicate. by left.
Qed.
Lemma received_hi_reachable n :
  ps_phase (asleep n) = Serving -> rtc (PsStep (J := json_tree) sha) (new_PooledServer n "data" ∅) (received_hi n).
Proof. intros H. eapply rtc_r; [apply asleep_reachable|by apply ps_read]. Qed.

(** Two workers, woken both for one message, of which one has begun to handle it. *)
Lemma pooled_server_refines_witness :
  let ps := turn 1 (turn 1 (with_pool (received_hi 2) (notify_one 1 (ps_pool (received_hi 2))))) in
  exists msgs, Forall2 (handles (J := json_tree) sha) msgs (sys_handlers (ps_system ps))
  /\ [task_hi] ≡ₚ msgs /\ (unfinished (ps_system ps) <= 2)%nat.
Proof.
  intros ps. destruct (pooled_server_refines (J := json_tree) sha 2 "data" ∅ ps) as (_ & H).
  - eapply rtc_r; [eapply rtc_r; [eapply rtc_r; [by apply received_hi_reachable|apply (ps_notify sha _ 1)]|]|];
      apply ps_worker; decide_now.
  - destruct H as (msgs & H1 & H2 & H3 & _); [done|]. exists msgs. split; [exact H1|].
    split; [|exact H3].
    assert (fetched (tp_workers (ps_pool ps)) ++ tp_tasks (ps_pool ps) = []) as E by (vm_compute; reflexivity).
    rewrite E, app_nil_r in H2. exact H2.
Defined.

Definition hi_round : list PsTurn := [PsWorker 0 [] ""; PsNotify 0].
Lemma received_messages_are_handled_witness :
  let ps' := turns (ps_turn (J := json_tree) sha) (concat (replicate 4032 hi_round)) (received_hi 1) in
  exists msgs, msgs ≡ₚ [task_hi]
  /\ Forall2 (fun msg p => handles (J := json_tree) sha msg p /\ ended p = true) msgs (sys_handlers (ps_system ps')).
Proof.
  intros ps'.
  refine (proj2 (proj2 (received_messages_are_handled (J := json_tree) sha 1 "data" ∅ (received_hi 1) (replicate 4032 hi_round) _ _ _ _ _))).
  - by apply received_hi_reachable.
  - lia.
  - discriminate.
  - apply Forall_replicate. intros [i|] Hi; cbn in Hi.
    + assert (i = 0%nat) as -> by lia. exists (PsWorker 0 [] ""). split; [by left|done].
    + exists (PsNotify 0). split; [right; by left|done].
  - rewrite length_replicate. apply Nat.leb_le. vm_compute. reflexivity.
Defined.

Lemma shutdown_hi : exists s, shutdown_server (J := json_tree) (fun _ => false) (ps_server (received_hi 1)) = Some s.
Proof. eexists. vm_compute. reflexivity. Qed.

Lemma pending_messages_call_destroyed_handler_witness :
  exists ps, ps_phase ps = HandlerGone /\ ps_dead_calls ps ≡ₚ [task_hi].
Proof.
  destruct shutdown_hi as [s Hs].
  eexists. split; [|refine (pending_messages_call_destroyed_handler (J := json_tree) sha 1 "data" ∅
    (with_phase (with_server (received_hi 1) s) Stopped) (replicate 5 (0%nat, [], ""%string)) _ _ _ _)].
  - reflexivity.
  - eapply rtc_r; [by apply received_hi_reachable|]. by eapply ps_signal.
  - lia.
  - reflexivity.
  - intros w Hw. cbn in Hw. by apply list_elem_of_singleton in Hw.
Defined.
End Concrete.
