(* ===== verification/Startup.v ===== *)
(** * Starting the server (server/src/main.cpp)

    [main] up to [io_ctx.run()], and the end of [main]: the configuration, the
    directories, the logger with its first lines, and the objects of the server. The
    arguments of the program, the files it can read, what the system allows the process to
    do, the number of hardware threads and the clock are arguments; [None] is an exception,
    which ends the process: nothing in [main] catches one. *)
From stdpp Require Import pretty.
From S2P Require Import Prelude ByteString Operation Document AccessControl AuthManager Json Frames Protocol Codec.
From S2P Require Import ClientSession DocumentSession DocumentManager TcpServer MessageHandler Server ThreadPool.
From S2P Require Import ServerConfig Logger Shutdown Interleaving Background ServerPool.
Local Open Scope Z_scope.






Section Startup.
Context {J : Json}.


(** Behind [io_ctx.run()]. *)
Definition main_end (l : AsyncLogger (S := Sink)) (now : LocalTime) : AsyncLogger :=
  Logger.request_stop (info l "Server stopped" now).

Context {L : JsonLaws J}.



End Startup.

