(* ===== verification/Hosting.v ===== *)
(** * One document on the server

    What the server's functions do to one document, its session and the bytes its
    connections receive: between the message handler ([MessageHandler]), the manager
    ([DocumentManager]) and the sockets ([ClientSession]) on one side and the clients of the
    document on the other ([EndToEnd]). *)
From S2P Require Import Prelude ByteString Operation Document AccessControl Json Frames Protocol Codec.
From S2P Require Import ClientSession DocumentSession DocumentManager TcpServer MessageHandler Server.
From S2P Require Import NetworkManager.
Local Open Scope Z_scope.

(** ** The bytes sent to a session

    A frame is written to the socket when [async_write] is started for it. The first frame
    of the write queue is the one under way; the others have not been started. *)
Definition started (sid : Z) (out : Outputs) : string :=
  join_chunks (omap (fun '(q, o) => match o with
                                    | AsyncWrite frame => if bool_decide (q = sid) then Some frame else None
                                    | _ => None end) out).
Definition unstarted (c : ClientSession) : string := join_chunks (tail (cs_write_queue c)).
Definition sent_bytes (s : Server) (sid : Z) : string :=
  started sid (sv_out s) +:+ unstarted (session_object (sv_tcp s) sid).

(** A connected session: a write is under way exactly when its queue is not empty. *)
Definition session_ok (c : ClientSession) : Prop :=
  cs_disconnected c = false /\ cs_writing c = bool_decide (cs_write_queue c <> []).
#[export] Instance session_ok_dec c : Decision (session_ok c).
Proof. unfold session_ok. apply _. Defined.

(** [grows sid more s s']: between the two states the server sends the payloads [more] to
    the session. *)
Definition grows (sid : Z) (more : list string) (s s' : Server) : Prop :=
  session_ok (session_object (sv_tcp s) sid) ->
  session_ok (session_object (sv_tcp s') sid) /\ sent_bytes s' sid = sent_bytes s sid +:+ stream more.

Definition same_session (c c' : ClientSession) : Prop :=
  same_identity c c' /\ cs_currentDocId c' = cs_currentDocId c.

Lemma join_chunks_app a b : join_chunks (a ++ b) = join_chunks a +:+ join_chunks b.
Proof. induction a as [|x a IH]; [done|]. cbn. fold (join_chunks (a ++ b)). rewrite IH. by rewrite append_assoc. Qed.
Lemma stream_app ps qs : stream (ps ++ qs) = stream ps +:+ stream qs.
Proof. induction ps as [|p ps IH]; [done|]. cbn. fold (stream (ps ++ qs)). rewrite IH. by rewrite append_assoc. Qed.
Lemma stream_one p : stream [p] = encode_frame p.
Proof. cbn. apply append_nil_r. Qed.
Lemma started_app sid out out' : started sid (out ++ out') = started sid out +:+ started sid out'.
Proof. unfold started. by rewrite omap_app, join_chunks_app. Qed.
Lemma started_tagged sid q (out : list CsOutput) :
  started sid ((fun o => (q, o)) <$> out) = if bool_decide (q = sid) then join_chunks (writes out) else "".
Proof.
  unfold started, writes. induction out as [|o out IH]; cbn; [by case_bool_decide|].
  destruct o; try exact IH. case_bool_decide; cbn in *; [|exact IH]. f_equal. exact IH.
Qed.

Lemma grows_refl sid s : grows sid [] s s.
Proof. intros H. split; [done|]. cbn. by rewrite append_nil_r. Qed.
Lemma grows_trans sid more more' s1 s2 s3 :
  grows sid more s1 s2 -> grows sid more' s2 s3 -> grows sid (more ++ more') s1 s3.
Proof.
  intros H1 H2 H. destruct (H1 H) as [A B]. destruct (H2 A) as [C D].
  split; [done|]. by rewrite D, B, stream_app, append_assoc.
Qed.
Lemma grows_same sid s s' : sv_tcp s' = sv_tcp s -> sv_out s' = sv_out s -> grows sid [] s s'.
Proof. intros E1 E2 H. unfold sent_bytes. rewrite E1, E2. split; [done|]. cbn. by rewrite append_nil_r. Qed.

(** A member function of one session. *)
Lemma session_object_on t q f sid :
  session_object (fst (on_session t q f)) sid
  = if bool_decide (q = sid) then fst (f (session_object t q)) else session_object t sid.
Proof.
  unfold on_session. destruct (f (session_object t q)) as [c out]. cbn. by rewrite session_object_put.
Qed.
Lemma grows_on_session sid q f more s :
  (q = sid -> let c := session_object (sv_tcp s) sid in session_ok c ->
     session_ok (fst (f c)) /\ join_chunks (writes (snd (f c))) +:+ unstarted (fst (f c)) = unstarted c +:+ stream more) ->
  (q <> sid -> more = []) -> grows sid more s (with_tcp s (on_session (sv_tcp s) q f)).
Proof.
  intros Hq Hne H. cbn [sv_tcp with_tcp]. unfold sent_bytes. cbn [sv_tcp sv_out with_tcp].
  rewrite session_object_on. unfold on_session.
  destruct (f (session_object (sv_tcp s) q)) as [c out] eqn:E. cbn [fst snd].
  rewrite started_app, started_tagged. case_bool_decide as D.
  - subst q. destruct (Hq eq_refl H) as [H1 H2]. rewrite E in H1, H2. cbn [fst snd] in H1, H2. split; [done|].
    by rewrite append_assoc, H2, append_assoc.
  - rewrite (Hne D). split; [done|]. cbn. by rewrite !append_nil_r.
Qed.

Lemma send_ok c payload : session_ok c ->
  session_ok (fst (ClientSession.send c payload))
  /\ join_chunks (writes (snd (ClientSession.send c payload))) +:+ unstarted (fst (ClientSession.send c payload))
     = unstarted c +:+ stream [payload].
Proof.
  intros [Hd Hw]. rewrite send_connected by done. unfold session_ok, unstarted. cbn [fst snd with_queue cs_disconnected cs_writing cs_write_queue].
  rewrite Hw, stream_one. destruct (cs_write_queue c) as [|g q]; cbn.
  - split; [by split|]. by rewrite !append_nil_r.
  - split; [by split|]. rewrite join_chunks_app. cbn. by rewrite append_nil_r.
Qed.
Lemma written_ok c : session_ok c -> cs_write_queue c <> [] ->
  session_ok (fst (on_write c false))
  /\ join_chunks (writes (snd (on_write c false))) +:+ unstarted (fst (on_write c false)) = unstarted c +:+ stream [].
Proof.
  unfold session_ok, unstarted, on_write. intros [Hd Hw] Hne. cbn [stream foldr]. rewrite append_nil_r.
  destruct (cs_write_queue c) as [|g [|h q]]; cbn; [done|by split|]. rewrite Hw. split; [by split|].
  by rewrite append_nil_r.
Qed.

Lemma grows_send sid q payload s :
  grows sid (if bool_decide (q = sid) then [payload] else []) s (with_tcp s (session_send (sv_tcp s) q payload)).
Proof.
  apply grows_on_session; [|by intros ?; rewrite bool_decide_false].
  intros -> c Hc. rewrite bool_decide_true by done. by apply send_ok.
Qed.
Lemma grows_update sid q f s :
  (forall c, cs_write_queue (f c) = cs_write_queue c /\ cs_writing (f c) = cs_writing c
             /\ cs_disconnected (f c) = cs_disconnected c) ->
  grows sid [] s (with_tcp s (on_session (sv_tcp s) q (fun c => (f c, [])))).
Proof.
  intros Hf. apply grows_on_session; [|done]. intros _ c [H1 H2]. destruct (Hf c) as (E1 & E2 & E3).
  unfold session_ok, unstarted. cbn [fst snd writes omap list_omap join_chunks foldr].
  rewrite E1, E2, E3. split; [by split|]. cbn. by rewrite append_nil_r.
Qed.

Lemma same_session_send c payload : same_session c (fst (ClientSession.send c payload)).
Proof.
  unfold ClientSession.send, do_write. destruct (cs_disconnected c); [done|]. cbn.
  destruct (cs_writing c); [done|]. cbn. by destruct (cs_write_queue c ++ _).
Qed.
#[export] Instance same_session_trans : Transitive same_session.
Proof. intros x y z [(A1 & A2 & A3) A4] [(B1 & B2 & B3) B4]. unfold same_session, same_identity. split_and!; congruence. Qed.

Lemma received_cons sid q payload out :
  received sid ((q, payload) :: out) = (if bool_decide (q = sid) then [payload] else []) ++ received sid out.
Proof. unfold received. cbn. by case_bool_decide. Qed.

(** The payloads a thread sends. *)
Lemma deliver_sends_keeps s out : sv_docs (deliver_sends s out) = sv_docs s /\ sv_access (deliver_sends s out) = sv_access s.
Proof. unfold deliver_sends. revert s. induction out as [|[q p] out IH]; intros s; [done|]. cbn. by destruct (IH (with_tcp s (session_send (sv_tcp s) q p))) as [-> ->]. Qed.
Lemma grows_deliver sid out s : grows sid (received sid out) s (deliver_sends s out).
Proof.
  unfold deliver_sends. revert s. induction out as [|[q p] out IH]; intros s; [apply grows_refl|].
  rewrite received_cons. eapply grows_trans; [apply grows_send|apply IH].
Qed.
Lemma same_session_deliver sid out s :
  same_session (session_object (sv_tcp s) sid) (session_object (sv_tcp (deliver_sends s out)) sid).
Proof.
  unfold deliver_sends. revert s. induction out as [|[q p] out IH]; intros s; [done|]. cbn [foldl].
  etrans; [|apply IH]. cbn [sv_tcp with_tcp]. unfold session_send. rewrite session_object_on.
  case_bool_decide; [subst; apply same_session_send|done].
Qed.

(** ** A hosted document

    Document [D] is loaded, and its session, if there is one, works on it. *)
Definition hosts (m : DocumentManager) (D : Z) (d : Document) (ds : DocumentSession) : Prop :=
  exists doc, dm_documents m !! D = Some doc /\ hp_docs (dm_heap m) !! doc = Some d
  /\ match dm_sessions m !! D with
     | Some loc => exists stop, hp_sessions (dm_heap m) !! loc = Some (mkSessionObject doc ds stop)
     | None => ds = new_DocumentSession
     end.

(** The parts of a manager that matter. *)
Lemma hosts_same m m' D d ds :
  dm_documents m' = dm_documents m -> dm_sessions m' = dm_sessions m -> dm_heap m' = dm_heap m ->
  hosts m D d ds -> hosts m' D d ds.
Proof. unfold hosts. by intros -> -> ->. Qed.

Lemma hosts_open m D d ds : dm_wf m -> hosts m D d ds ->
  exists loc, fst (get_or_create_session m D) = Some loc
  /\ dm_sessions (snd (get_or_create_session m D)) !! D = Some loc
  /\ hosts (snd (get_or_create_session m D)) D d ds.
Proof.
  intros W (doc & Hdoc & Hd & Hs). unfold get_or_create_session.
  destruct (dm_sessions m !! D) as [loc|] eqn:E.
  - exists loc. split_and!; [done..|]. exists doc. cbn. by rewrite E.
  - rewrite Hdoc. cbn. eexists. split_and!; [done|by rewrite lookup_insert_eq|].
    exists doc. cbn. rewrite lookup_insert_eq. split_and!; [done..|]. exists false. by rewrite lookup_insert_eq, Hs.
Qed.

Lemma hosts_enqueue m D d ds loc cmd : dm_sessions m !! D = Some loc ->
  hosts m D d ds -> hosts (session_enqueue m loc cmd) D d (enqueue_command ds cmd).
Proof.
  intros E (doc & Hdoc & Hd & Hs). rewrite E in Hs. destruct Hs as [stop Hs]. exists doc. split_and!; [done..|].
  cbn. rewrite E. exists stop. by rewrite lookup_alter_eq, Hs.
Qed.
Lemma hosts_enqueue_all {A} m D d ds loc (f : A -> DocCommand) (l : list A) : dm_sessions m !! D = Some loc ->
  hosts m D d ds ->
  hosts (foldl (fun m x => session_enqueue m loc (f x)) m l) D d (foldl enqueue_command ds (f <$> l)).
Proof.
  revert m ds. induction l as [|x l IH]; intros m ds E H; [done|]. cbn. apply IH; [done|]. by apply hosts_enqueue.
Qed.

Lemma hosts_session m D d ds : hosts m D d ds -> ds_command_queue ds <> [] -> exists loc, get_session m D = Some loc.
Proof.
  intros (doc & _ & _ & Hs) Hq. unfold get_session. destruct (dm_sessions m !! D) as [loc|]; [by exists loc|].
  by rewrite Hs in Hq.
Qed.

Lemma session_eta ds : mkDocumentSession (ds_command_queue ds) (ds_connected_users ds) = ds.
Proof. by destruct ds. Qed.

(** The document's thread. *)
Lemma hosts_thread {J : Json} m D d ds loc cmd q m' out :
  hosts m D d ds -> get_session m D = Some loc -> ds_command_queue ds = cmd :: q ->
  session_step m loc = Some (m', out) ->
  exists d' ds', process_command d (mkDocumentSession q (ds_connected_users ds)) cmd = Some (d', ds', out)
  /\ hosts m' D d' ds'.
Proof.
  intros (doc & Hdoc & Hd & Hs) E Hq. unfold get_session in E. rewrite E in Hs. destruct Hs as [stop Hs].
  unfold session_step. rewrite Hs. destruct ds as [q0 us]. cbn in Hq |- *. subst q0. rewrite Hd.
  intros ([[d' ds'] out'] & Hp & [= <- <-])%bind_Some. exists d', ds'. split; [done|]. exists doc. cbn.
  rewrite lookup_insert_eq. split_and!; [done..|]. rewrite E. exists stop. by rewrite lookup_insert_eq.
Qed.

(** Whom a cursor belongs to is no part of the session. *)
Lemma hosts_remove_cursor m D D' u d ds : hosts m D d ds -> hosts (remove_cursor m D' u) D d ds.
Proof. unfold remove_cursor. intros H. destruct (dm_cursor_buffers m !! D'); [|done]. by eapply hosts_same. Qed.
Lemma hosts_update_cursor m D D' st d ds : hosts m D d ds -> hosts (update_cursor m D' st) D d ds.
Proof. by apply hosts_same. Qed.

(** ** The handlers, for a client's message *)

Section Messages.
Context {J : Json} {L : JsonLaws J} (CC_SHA256 : string -> list Z).

(** [payload] is the text of a client's message. *)
Definition says (payload : string) (m : ClientMsg) : Prop := serialize (client_json m) = Some payload.

(** A well-formed message of a logged-in session reaches its handler. *)
Lemma handle_client_message sid buf what payload m s :
  says payload m -> client_type m <> MtAuthRequest -> cs_authenticated (session_object (sv_tcp s) sid) = true ->
  handle_message CC_SHA256 sid buf what payload s
  = try_catch (dispatch CC_SHA256 sid buf (client_type m) (client_json m))
      (send_error sid "invalid_message" ("Malformed message: " +:+ what)) s.
Proof.
  intros Hs%json_parse_dump Ht Ha. unfold handle_message.
  rewrite Hs, client_json_type, json_contains_at, client_json_type, json_is_string_string, bool_decide_true by done.
  cbn [orb negb].
  rewrite bind_throw, json_get_string, parse_type_to_string by (by destruct m). unfold check_auth.
  rewrite bool_decide_false by done. unfold mbind at 1, M_bind at 1. rewrite bind_session, Ha. cbn [negb].
  done.
Qed.

(** The answer to a join. *)
Definition join_answer (s : Server) (D u : Z) (d : Document) (ds : DocumentSession) : DocJoinResponseMsg :=
  mkDocJoinResponseMsg true D (doc_title d) (doc_content d) (doc_revision d) (role_to_string (sv_access s) D u)
    ((fun cu => mkUserInfo (cu_userId cu) (cu_username cu) (cu_color cu)) <$> connected_users ds) "".

(** A handler that returns. *)
Lemma try_catch_ok (m h : M ()) s s' : m s = (s', Some ()) -> fst (try_catch m h s) = s'.
Proof. unfold try_catch. by intros ->. Qed.

Lemma bind_send_json {B} q j payload (k : () -> M B) s : serialize j = Some payload ->
  (send_json q j ≫= k) s = k () (with_tcp s (session_send (sv_tcp s) q payload)).
Proof. intros E. unfold send_json, mbind, M_bind, or_throw. by rewrite E. Qed.

(** What a handler does to the document, to the bytes sent and to the sessions: session
    [sid] is sent [resp] and has document [cur] open, the others see nothing of it. *)
Record serves (D : Z) (d : Document) (ds : DocumentSession) (sid : Z) (resp : list string) (cur : Z) (s s' : Server) : Prop := mkServes {
  serves_hosts : hosts (sv_docs s') D d ds;
  serves_grows q : grows q (if bool_decide (sid = q) then resp else []) s s';
  serves_others q : q <> sid -> session_object (sv_tcp s') q = session_object (sv_tcp s) q;
  serves_identity : same_identity (session_object (sv_tcp s) sid) (session_object (sv_tcp s') sid);
  serves_current : cs_currentDocId (session_object (sv_tcp s') sid) = cur;
}.

(** A session that changes its document and is sent an answer. *)
Lemma answered s sid cur resp :
  let s1 := with_tcp s (on_session (sv_tcp s) sid (fun c => (set_current_doc c cur, []))) in
  let s2 := with_tcp s1 (session_send (sv_tcp s1) sid resp) in
  (forall q, grows q (if bool_decide (sid = q) then [resp] else []) s s2)
  /\ (forall q, q <> sid -> session_object (sv_tcp s2) q = session_object (sv_tcp s) q)
  /\ same_identity (session_object (sv_tcp s) sid) (session_object (sv_tcp s2) sid)
  /\ cs_currentDocId (session_object (sv_tcp s2) sid) = cur.
Proof.
  intros s1 s2. assert (session_object (sv_tcp s1) sid = set_current_doc (session_object (sv_tcp s) sid) cur) as E.
  { unfold s1. cbn [sv_tcp with_tcp]. by rewrite session_object_on, bool_decide_true. }
  destruct (same_session_send (session_object (sv_tcp s1) sid) resp) as [H1 H2]. split_and!.
  - intros q. apply (grows_trans q [] _ s s1 s2); [|apply grows_send]. by apply grows_update.
  - intros q Hq. unfold s2, session_send, s1. cbn [sv_tcp with_tcp].
    by rewrite !session_object_on, !bool_decide_false by congruence.
  - unfold s2, session_send. cbn [sv_tcp with_tcp]. rewrite session_object_on, bool_decide_true by done. by rewrite E in H1 |- *.
  - unfold s2, session_send. cbn [sv_tcp with_tcp]. rewrite session_object_on, bool_decide_true by done. by rewrite H2, E.
Qed.

(** The run of the handler of a join that is allowed. *)
Lemma doc_join_run sid s D doc d loc ds stop resp :
  let c := session_object (sv_tcp s) sid in
  let docs := snd (get_or_create_session (sv_docs s) D) in
  let s0 := with_docs s docs in
  let s1 := with_tcp s0 (on_session (sv_tcp s0) sid (fun c => (set_current_doc c D, []))) in
  let s2 := with_tcp s1 (session_send (sv_tcp s1) sid resp) in
  let c2 := session_object (sv_tcp s2) sid in
  is_u32 D -> dm_documents (sv_docs s) !! D = Some doc ->
  fst (get_or_create_session (sv_docs s) D) = Some loc ->
  hp_docs (dm_heap docs) !! doc = Some d -> hp_sessions (dm_heap docs) !! loc = Some (mkSessionObject doc ds stop) ->
  can_read (sv_access s) D (cs_userId c) = true ->
  serialize (to_json_DocJoinResponseMsg (join_answer s D (cs_userId c) d ds)) = Some resp ->
  handle_doc_join sid (to_json_DocJoinRequestMsg (mkDocJoinRequestMsg D)) s
  = (with_docs s2 (session_enqueue docs loc
       (mkDocCommand CmdJoin no_operation (cs_userId c2) (cs_username c2) (cs_color c2) sid)), Some ()).
Proof.
  intros c docs s0 s1 s2 c2 HD Hdoc Hloc Hd Hds Hr Hresp. unfold handle_doc_join.
  assert (from_json_DocJoinRequestMsg (to_json_DocJoinRequestMsg (mkDocJoinRequestMsg D)) = Some (mkDocJoinRequestMsg D)) as ->.
  { pose proof (read_client_json (CDocJoin (mkDocJoinRequestMsg D)) HD) as E. cbn in E.
    destruct (from_json_DocJoinRequestMsg _) as [m|]; [|done]. by injection E as ->. }
  rewrite bind_throw, bind_session, bind_gets. fold c. cbn [djq_docId]. rewrite Hr. cbn [negb].
  unfold mbind at 1, M_bind at 1. unfold get_document, get_document_lookup. rewrite Hdoc. cbn beta iota.
  replace (with_docs s (sv_docs s)) with s by (by destruct s).
  unfold mbind at 1, M_bind at 1. subst docs. destruct (get_or_create_session (sv_docs s) D) as [l docs].
  cbn [fst snd] in *. subst l. cbn beta iota. rewrite !bind_gets. fold s0.
  cbn [sv_docs sv_access with_docs s0]. rewrite Hd, Hds. cbn [so_state].
  unfold update. rewrite bind_modify. fold s1. by rewrite (bind_send_json _ _ resp).
Qed.

(** A user opens the document. *)
Lemma join_message sid buf what payload s D d ds resp :
  let c := session_object (sv_tcp s) sid in
  dm_wf (sv_docs s) -> hosts (sv_docs s) D d ds -> is_u32 D ->
  says payload (CDocJoin (mkDocJoinRequestMsg D)) ->
  cs_authenticated c = true -> can_read (sv_access s) D (cs_userId c) = true ->
  serialize (to_json_DocJoinResponseMsg (join_answer s D (cs_userId c) d ds)) = Some resp ->
  exists name color,
  serves D d (enqueue_command ds (mkDocCommand CmdJoin no_operation (cs_userId c) name color sid))
    sid [resp] D s (fst (handle_message CC_SHA256 sid buf what payload s)).
Proof.
  intros c W H HD Hs Ha Hr Hresp.
  rewrite (handle_client_message _ _ _ _ _ _ Hs) by done. cbn [client_type client_json dispatch].
  destruct (hosts_open (sv_docs s) D d ds W H) as (loc & Hopen & Hloc & H').
  pose proof H as (doc & Hdoc & _). pose proof H' as (doc' & Hdoc' & Hd & Hds). rewrite Hloc in Hds.
  destruct Hds as [stop Hds]. rewrite get_or_create_documents, Hdoc in Hdoc'. injection Hdoc' as <-.
  rewrite (try_catch_ok _ _ _ _ (doc_join_run sid s D doc d loc ds stop resp HD Hdoc Hopen Hd Hds Hr Hresp)).
  set (s0 := with_docs s _) in *.
  destruct (answered s0 sid D resp) as (G1 & G2 & G3 & G4). destruct G3 as (G5 & G6 & G7).
  eexists _, _. split; cbn [sv_docs sv_tcp with_docs].
  - rewrite G6. by apply hosts_enqueue.
  - intros q. eapply (grows_trans q [] _ s s0); [by apply grows_same|].
    rewrite <- (app_nil_r (if bool_decide _ then _ else _)). eapply grows_trans; [apply G1|by apply grows_same].
  - exact G2.
  - done.
  - exact G4.
Qed.

(** A user leaves it. *)
Lemma leave_message sid buf what payload s D d ds resp :
  let c := session_object (sv_tcp s) sid in
  hosts (sv_docs s) D d ds -> is_Some (get_session (sv_docs s) D) -> is_u32 D ->
  says payload (CDocLeave (mkDocLeaveRequestMsg D)) -> cs_authenticated c = true ->
  serialize (to_json_DocLeaveResponseMsg (mkDocLeaveResponseMsg true)) = Some resp ->
  exists name,
  serves D d (enqueue_command ds (mkDocCommand CmdLeave no_operation (cs_userId c) name "" 0))
    sid [resp] 0 s (fst (handle_message CC_SHA256 sid buf what payload s)).
Proof.
  intros c H [loc Hloc] HD Hs Ha Hresp.
  rewrite (handle_client_message _ _ _ _ _ _ Hs) by done. cbn [client_type client_json dispatch].
  exists (cs_username c). set (cmd := mkDocCommand _ _ _ _ _ _).
  set (s0 := with_docs s (session_enqueue (sv_docs s) loc cmd)).
  set (s1 := with_tcp s0 (on_session (sv_tcp s0) sid (fun c => (set_current_doc c 0, [])))).
  rewrite (try_catch_ok _ _ s (with_tcp s1 (session_send (sv_tcp s1) sid resp))).
  2: { unfold handle_doc_leave.
    assert (from_json_DocLeaveRequestMsg (to_json_DocLeaveRequestMsg (mkDocLeaveRequestMsg D)) = Some (mkDocLeaveRequestMsg D)) as ->.
    { pose proof (read_client_json (CDocLeave (mkDocLeaveRequestMsg D)) HD) as E. cbn in E.
      destruct (from_json_DocLeaveRequestMsg _) as [m|]; [|done]. by injection E as ->. }
    rewrite bind_throw, bind_session, bind_gets. cbn [dvq_docId]. rewrite Hloc.
    unfold enqueue_to, update. rewrite !bind_modify. fold c cmd s0 s1.
    unfold send_json. by rewrite bind_throw, Hresp. }
  destruct (answered s0 sid 0 resp) as (G1 & G2 & G3 & G4). split; cbn [sv_docs with_tcp]; [|intros q|done..].
  - by apply hosts_enqueue.
  - eapply (grows_trans q [] _ s s0); [by apply grows_same|]. apply G1.
Qed.

(** A message with operations. *)
Lemma operation_message sid buf what payload s D d ds m msg :
  let c := session_object (sv_tcp s) sid in
  hosts (sv_docs s) D d ds -> is_Some (get_session (sv_docs s) D) ->
  says payload (COperation m) -> from_json_OperationMsg (to_json_OperationMsg m) = Some msg ->
  opm_docId msg = D -> Z.of_nat (length (opm_ops msg)) <= 1000 ->
  cs_authenticated c = true -> cs_currentDocId c = D -> can_edit (sv_access s) D (cs_userId c) = true ->
  let s' := fst (handle_message CC_SHA256 sid buf what payload s) in
  exists name,
  hosts (sv_docs s') D d (foldl enqueue_command ds (command_of_entry (cs_userId c) name (opm_revision msg) <$> opm_ops msg))
  /\ sv_tcp s' = sv_tcp s /\ sv_out s' = sv_out s.
Proof.
  intros c H [loc Hloc] Hs Hm <- Hlen Ha Hcur He.
  cbv zeta. rewrite (handle_client_message _ _ _ _ _ _ Hs) by done. cbn [client_type client_json dispatch].
  exists (cs_username c).
  rewrite (try_catch_ok _ _ s (with_docs s (foldl (fun d e => session_enqueue d loc
             (command_of_entry (cs_userId c) (cs_username c) (opm_revision msg) e)) (sv_docs s) (opm_ops msg)))).
  - split; [|done]. cbn [sv_docs with_docs]. by apply hosts_enqueue_all.
  - unfold handle_operation. rewrite Hm, bind_throw, bind_session. fold c. rewrite Hcur, Z.eqb_refl. cbn [negb].
    rewrite bind_gets, He. cbn [negb]. rewrite (proj2 (Z.ltb_ge _ _)) by done. rewrite bind_gets, Hloc.
    apply enqueue_all_spec.
Qed.
End Messages.

(** A connection that is lost, by an error or by a header that is none: the session's user
    leaves the document it has open. *)
Definition drop_connection (pre : list CsOutput) (c : ClientSession) : ClientSession * list CsOutput :=
  (fst (disconnect c), pre ++ snd (disconnect c)).

Lemma lost_connection sid pre s D d ds :
  let c := session_object (sv_tcp s) sid in
  pre = [] \/ pre = close -> hosts (sv_docs s) D d ds -> is_Some (get_session (sv_docs s) D) -> 0 < D ->
  cs_disconnected c = false -> cs_currentDocId c = D ->
  let s' := session_event sid (drop_connection pre) s in
  exists name,
  hosts (sv_docs s') D d (enqueue_command ds (mkDocCommand CmdLeave no_operation (cs_userId c) name "" 0))
  /\ forall q, q <> sid -> session_object (sv_tcp s') q = session_object (sv_tcp s) q /\ grows q [] s s'.
Proof.
  intros c Hpre H [loc Hloc] HD Hd Hcur. cbv zeta. exists (cs_username c). unfold session_event.
  pose proof (session_object_on (sv_tcp s) sid (drop_connection pre)) as Ho.
  assert (forall q, q <> sid -> grows q [] s (with_tcp s (on_session (sv_tcp s) sid (drop_connection pre)))) as Hg
    by (intros q Hq; by apply grows_on_session).
  unfold on_session in Ho, Hg |- *. fold c in Ho, Hg |- *. unfold drop_connection, disconnect in Ho, Hg |- *.
  rewrite Hd in Ho, Hg |- *. cbn [fst snd] in Ho, Hg |- *. set (c' := mkClientSession _ _ _ _ _ _ _ _ _ _) in *.
  set (s1 := with_tcp s _) in *.
  assert (forall s0, foldl (fun s '(_, o) => match o with OnDisconnect => on_disconnect sid s | _ => s end) s0
            ((fun o => (sid, o)) <$> pre ++ [OnDisconnect]) = on_disconnect sid s0) as Hf
    by (destruct Hpre as [-> | ->]; done).
  rewrite Hf. unfold on_disconnect. assert (session_object (sv_tcp s1) sid = c') as Hc'.
  { unfold s1. cbn [sv_tcp with_tcp fst]. by rewrite Ho, bool_decide_true. }
  rewrite Hc'. change (cs_currentDocId c') with (cs_currentDocId c). rewrite Hcur, (proj2 (Z.ltb_lt _ _)) by done.
  change (sv_docs s1) with (sv_docs s). rewrite Hloc. split.
  - cbn [sv_docs with_tcp with_docs]. apply hosts_remove_cursor. by apply hosts_enqueue.
  - intros q Hq. specialize (Ho q). rewrite bool_decide_false in Ho by congruence. split; [exact Ho|].
    rewrite <- (app_nil_r []). eapply grows_trans; [by apply Hg|]. apply (grows_trans q [] [] _ (with_docs s1 (remove_cursor
      (session_enqueue (sv_docs s) loc (mkDocCommand CmdLeave no_operation (cs_userId c') (cs_username c') "" 0))
      D (cs_userId c')))); [by apply grows_same|].
    intros Hok. unfold sent_bytes. cbn. split; [exact Hok|]. by rewrite !append_nil_r, app_nil_r.
Qed.

(** A write that has completed: the next frame is started. *)
Lemma written_event sid s :
  session_ok (session_object (sv_tcp s) sid) -> cs_write_queue (session_object (sv_tcp s) sid) <> [] ->
  let s' := session_event sid (fun c => on_write c false) s in
  sv_docs s' = sv_docs s /\ (forall q, grows q [] s s')
  /\ forall q, same_session (session_object (sv_tcp s) q) (session_object (sv_tcp s') q).
Proof.
  intros Hok Hq. cbv zeta. unfold session_event.
  assert (forall q, grows q [] s (with_tcp s (on_session (sv_tcp s) sid (fun c => on_write c false)))) as Hg.
  { intros q. apply grows_on_session; [|done]. intros -> c Hc. by apply written_ok. }
  assert (forall q, same_session (session_object (sv_tcp s) q)
    (session_object (sv_tcp (with_tcp s (on_session (sv_tcp s) sid (fun c => on_write c false)))) q)) as Hs.
  { intros q. cbn [sv_tcp with_tcp]. rewrite session_object_on. case_bool_decide; [subst q|done].
    split; [apply same_identity_written|]. unfold on_write, do_write. by destruct (tail _). }
  assert (snd (on_write (session_object (sv_tcp s) sid) false) = [] \/
    exists f, snd (on_write (session_object (sv_tcp s) sid) false) = [AsyncWrite f]) as Hout.
  { unfold on_write, do_write. destruct (tail _); [by left|right]. by eexists. }
  unfold on_session in *. destruct (on_write (session_object (sv_tcp s) sid) false) as [c out]. cbn [snd] in Hout.
  destruct Hout as [->|[f ->]]; cbn; split_and!; done.
Qed.
