(* ===== verification/EndToEnd.v ===== *)
(** * The whole system around one document

    The server of [Server] with all its parts, and the clients of one of its documents:
    messages travel as bytes of frames over the connections, which the clients cut up again
    in whatever chunks they arrive ([NetworkManager]); the handlers look at logins and rights
    ([MessageHandler]); the document lives in the manager's heap, where its session's thread
    works on it ([DocumentManager]); a client's editor is set up from the answer to its
    request. What the other users do with other documents goes on at the same time.
    A handler is one step, and the steps leave out the runs in which the program loses or
    reorders text; the premises are listed at [HostStep].

    Every step of this system is one of [ManyClients], or none: what is proved there holds
    here. *)
From S2P Require Import Prelude ByteString Operation OT Ladder Document AccessControl AuthManager Json Frames Protocol Codec.
From S2P Require Import ClientSession DocumentSession DocumentManager TcpServer MessageHandler Server Autosave.
From S2P Require Import NetworkManager OTController Convergence ManyClients Hosting.
Local Open Scope Z_scope.

(** ** The clients *)

(** A client's end of a connection: the bytes it has been handed, its network manager,
    and the messages its main thread has not looked at. Ghost: the messages that are on
    their way in bytes. *)
Record Conn := mkConn {
  cn_got : string;
  cn_nm : NetworkManager;
  cn_inbox : list string;
  cn_pending : list string;
}.
Definition arriving (cn : Conn) : list string := cn_inbox cn ++ cn_pending cn.

(** A user who has asked for the document: the answer is awaited, the editor is open, or it
    has been closed and the server does not know yet. [pe_up] are the messages that have been
    given to the connection and that no worker has handled; the read side hands them over as
    they are ([ClientSession.reads_in_order]). *)
Inductive Phase :=
| Opening
| Editing (oc : OTController) (ld : LocalDocument) (base : string)   (* [base] is ghost, see [ManyClients] *)
| Closing.
Record Peer := mkPeer { pe_session : Z; pe_up : list string; pe_phase : Phase }.

Record Host := mkHost {
  h_sv : Server;
  h_conns : gmap Z Conn;   (* by session id *)
  h_peers : gmap Z Peer;   (* by user id *)
}.

(** What a controller's editor knows of the server, for the ghost. *)
Definition peer_sys (oc : OTController) (ld : LocalDocument) (base : string) : Sys :=
  mkSys (new_Document 0 "") new_DocumentSession [] [] oc ld base.

(** Messages sent are on their way. *)
Definition push (out : Sends) (conns : gmap Z Conn) : gmap Z Conn :=
  map_imap (fun sid cn => Some (mkConn (cn_got cn) (cn_nm cn) (cn_inbox cn) (cn_pending cn ++ received sid out))) conns.

Definition emitted (out : list NetOutput) : list string :=
  omap (fun o => match o with SigMessageReceived payload => Some payload | _ => None end) out.

Definition with_inbox (cn : Conn) (inbox : list string) : Conn :=
  mkConn (cn_got cn) (cn_nm cn) inbox (cn_pending cn).

Section Host.
Context {J : Json} {L : JsonLaws J} (CC_SHA256 : string -> list Z) (D : Z).

(** The answer to a request for the document. *)
Definition answer_of (payload : string) : option DocJoinResponseMsg :=
  match fst (parse_envelope payload) with
  | MtDocJoinResponse =>
      msg ← parse_as from_json_DocJoinResponseMsg payload;
      if djm_success msg && (djm_docId msg =? D) then Some msg else None
  | _ => None
  end.

(** Something a connection can carry, other than such an answer. *)
Definition ordinary (payload : string) : Prop := sized payload /\ answer_of payload = None.
#[export] Instance ordinary_dec payload : Decision (ordinary payload).
Proof. unfold ordinary. apply _. Defined.

(** The id counters have not reached their last value. *)
Definition ids_left (s : Server) : Prop :=
  am_next_id (sv_auth s) + 1 < u32_mod /\ dm_next_doc_id (sv_docs s) + 1 < u32_mod.
#[export] Instance ids_left_dec s : Decision (ids_left s).
Proof. unfold ids_left. apply _. Defined.

(** The steps of the server that are none of the document's. *)
Inductive ServerMove : Server -> Server -> Prop :=
| move_step s s' : SvStep CC_SHA256 s s' -> ServerMove s s'
| move_cursors s s' : broadcast_loop s = Some s' -> ServerMove s s'
| move_saved s loc f :
    (forall files d, doc_id (snd (f files d)) = doc_id d /\ doc_title (snd (f files d)) = doc_title d) ->
    ServerMove s (with_docs s (on_document (sv_docs s) loc f)).

Definition deliver_inbox (h : Host) (sid : Z) (cn : Conn) (inbox : list string) : gmap Z Conn :=
  <[sid := with_inbox cn inbox]> (h_conns h).

(** The steps of the system. Some constructors have premises that the code does not check;
    they exclude the runs in which it loses or reorders text, and the theorems below say so:
    - no operation is queued at a join ([host_join]): the answer would miss it
      ([Server.join_misses_queued_operation]);
    - the author of an operation may edit when it is handled ([host_operation]): the handler
      would answer with an error and the client would wait for ever;
    - only news lies behind the answer when an editor opens ([host_open]): an operation there
      would go to no editor ([ClientApp.operation_lost_before_editor]);
    - a received operation is [receivable] ([host_receive]): no tie of two insertions of one
      user, no hollow delete, no overflow on its ladder ([OT.same_user_tie],
      [OT.hollow_delete_wipes_tail]);
    - a handler is one step ([Concurrency] has the interleavings of their locks), and the
      work of [host_other] leaves this document, its session and its users' logins alone.
    The other premises say that a step succeeds (no exception, sizes that fit a frame) and
    that no counter is at its last value. *)
Inductive HostStep : Host -> Host -> Prop :=
(** The handler of a request for the document, from a session no client of it uses, by a
    user who may read it and does not have it open; for the queue see [ManyClients]. *)
| host_join h sid u d ds buf what payload resp :
    let s := h_sv h in let c := session_object (sv_tcp s) sid in
    ids_left s -> is_Some (h_conns h !! sid) ->
    cs_authenticated c = true -> cs_userId c = u -> h_peers h !! u = None ->
    map_Forall (fun _ pe => pe_session pe <> sid) (h_peers h) ->
    can_read (sv_access s) D u = true ->
    hosts (sv_docs s) D d ds -> Forall (fun cmd => ~ is_operation cmd) (ds_command_queue ds) ->
    says payload (CDocJoin (mkDocJoinRequestMsg D)) ->
    serialize (to_json_DocJoinResponseMsg (join_answer s D u d ds)) = Some resp -> sized resp ->
    HostStep h (mkHost (fst (handle_message CC_SHA256 sid buf what payload s))
                       (push [(sid, resp)] (h_conns h)) (<[u := mkPeer sid [] Opening]> (h_peers h)))
(** The handler of a client's next message, by a user who may edit the document. *)
| host_operation h u pe payload up msg buf what :
    let s := h_sv h in
    ids_left s -> h_peers h !! u = Some pe -> pe_up pe = payload :: up ->
    parse_as from_json_OperationMsg payload = Some msg -> can_edit (sv_access s) D u = true ->
    HostStep h (mkHost (fst (handle_message CC_SHA256 (pe_session pe) buf what payload s)) (h_conns h)
                       (<[u := mkPeer (pe_session pe) up (pe_phase pe)]> (h_peers h)))
(** The handler of the message of a client whose editor has been closed. *)
| host_leave h u pe buf what payload resp :
    let s := h_sv h in
    ids_left s -> h_peers h !! u = Some pe -> pe_phase pe = Closing ->
    says payload (CDocLeave (mkDocLeaveRequestMsg D)) ->
    serialize (to_json_DocLeaveResponseMsg (mkDocLeaveResponseMsg true)) = Some resp -> sized resp ->
    HostStep h (mkHost (fst (handle_message CC_SHA256 (pe_session pe) buf what payload s))
                       (push [(pe_session pe, resp)] (h_conns h)) (delete u (h_peers h)))
(** A client's connection is lost, in any phase. *)
| host_lost h u pe pre :
    h_peers h !! u = Some pe -> pre = [] \/ pre = close ->
    HostStep h (mkHost (session_event (pe_session pe) (drop_connection pre) (h_sv h))
                       (delete (pe_session pe) (h_conns h)) (delete u (h_peers h)))
(** The thread of the document takes a command. *)
| host_take h d ds cmd q loc docs out :
    let s := h_sv h in
    hosts (sv_docs s) D d ds -> ds_command_queue ds = cmd :: q -> doc_revision d + 1 < u32_mod ->
    get_session (sv_docs s) D = Some loc -> session_step (sv_docs s) loc = Some (docs, out) ->
    Forall (fun '(_, payload) => sized payload) out ->
    HostStep h (mkHost (deliver_sends (with_docs s docs) out) (push out (h_conns h)) (h_peers h))
(** A frame has been written to a connection. *)
| host_written h sid :
    is_Some (h_conns h !! sid) -> cs_write_queue (session_object (sv_tcp (h_sv h)) sid) <> [] ->
    HostStep h (mkHost (session_event sid (fun c => on_write c false) (h_sv h)) (h_conns h) (h_peers h))
(** A client is handed some of the bytes that have been written. *)
| host_read h sid cn chunk rest nm out :
    h_conns h !! sid = Some cn -> started sid (sv_out (h_sv h)) = cn_got cn +:+ chunk +:+ rest ->
    onReadyRead (cn_nm cn) ConnectedState chunk = (nm, out) ->
    HostStep h (mkHost (h_sv h)
      (<[sid := mkConn (cn_got cn +:+ chunk) nm (cn_inbox cn ++ emitted out) (drop (length (emitted out)) (cn_pending cn))]>
         (h_conns h)) (h_peers h))
(** The main thread of a client finds the answer, and opens the editor. What the network
    manager has emitted before goes to no editor ([ClientApp.operation_lost_before_editor]);
    the step is for when no operation is lost. *)
| host_open h u pe cn payload rest msg :
    h_peers h !! u = Some pe -> pe_phase pe = Opening -> h_conns h !! pe_session pe = Some cn ->
    cn_inbox cn = payload :: rest -> answer_of payload = Some msg -> Forall news rest ->
    HostStep h (mkHost (h_sv h) (deliver_inbox h (pe_session pe) cn [])
      (<[u := mkPeer (pe_session pe) (pe_up pe)
                (Editing (new_OTController u (djm_docId msg) (djm_revision msg))
                         (mkLocalDocument (djm_content msg) (djm_revision msg)) (djm_content msg))]> (h_peers h)))
(** The main thread looks at a message when no editor is open. *)
| host_skip h sid cn payload rest :
    h_conns h !! sid = Some cn -> cn_inbox cn = payload :: rest ->
    map_Forall (fun _ pe => pe_session pe = sid ->
       pe_phase pe = Closing \/ (pe_phase pe = Opening /\ answer_of payload = None)) (h_peers h) ->
    HostStep h (mkHost (h_sv h) (deliver_inbox h sid cn rest) (h_peers h))
(** The controller of an open editor receives a message. *)
| host_receive h u pe cn oc ld base payload rest c d out :
    h_peers h !! u = Some pe -> pe_phase pe = Editing oc ld base -> h_conns h !! pe_session pe = Some cn ->
    cn_inbox cn = payload :: rest -> receivable (peer_sys oc ld base) payload ->
    onNetworkMessage oc ld payload = Some (c, d, out) -> fatal out = false ->
    HostStep h (mkHost (h_sv h) (deliver_inbox h (pe_session pe) cn rest)
      (<[u := mkPeer (pe_session pe) (pe_up pe ++ OTController.sends out)
                (Editing c d (next_base (peer_sys oc ld base) payload))]> (h_peers h)))
(** It is told that an operation was too old, and the editor closes. *)
| host_fatal h u pe cn oc ld base payload rest c d out :
    h_peers h !! u = Some pe -> pe_phase pe = Editing oc ld base -> h_conns h !! pe_session pe = Some cn ->
    cn_inbox cn = payload :: rest ->
    onNetworkMessage oc ld payload = Some (c, d, out) -> fatal out = true ->
    HostStep h (mkHost (h_sv h) (deliver_inbox h (pe_session pe) cn rest)
      (<[u := mkPeer (pe_session pe) (pe_up pe) Closing]> (h_peers h)))
(** A user types. *)
| host_edit h u pe oc ld base ops c d out :
    h_peers h !! u = Some pe -> pe_phase pe = Editing oc ld base -> Forall op_wf ops ->
    onLocalOperations oc ld ops = Some (c, d, out) ->
    HostStep h (mkHost (h_sv h) (h_conns h)
      (<[u := mkPeer (pe_session pe) (pe_up pe ++ OTController.sends out) (Editing c d base)]> (h_peers h)))
(** A user closes the editor. *)
| host_close h u pe oc ld base :
    h_peers h !! u = Some pe -> pe_phase pe = Editing oc ld base ->
    HostStep h (mkHost (h_sv h) (h_conns h) (<[u := mkPeer (pe_session pe) (pe_up pe) Closing]> (h_peers h)))
(** The document is saved. *)
| host_saved h doc :
    dm_documents (sv_docs (h_sv h)) !! D = Some doc ->
    HostStep h (mkHost (with_docs (h_sv h) (on_document (sv_docs (h_sv h)) doc
                          (fun files d => save_document files (dm_data_dir (sv_docs (h_sv h))) d)))
                       (h_conns h) (h_peers h))
(** A new connection. *)
| host_accept h nm :
    let sid := ts_next_session_id (sv_tcp (h_sv h)) in
    h_conns h !! sid = None -> started sid (sv_out (h_sv h)) = ""%string ->
    nm_socket nm = true -> nm_rx_buffer nm = ""%string ->
    HostStep h (mkHost (with_tcp (h_sv h) (accept (sv_tcp (h_sv h)) false))
                       (<[sid := mkConn "" nm [] []]> (h_conns h)) (h_peers h))
(** Anything else that the server does and that leaves the document, its session and its
    clients' logins alone, whatever messages it sends them. *)
| host_other h s' out :
    ServerMove (h_sv h) s' ->
    (forall d ds, hosts (sv_docs (h_sv h)) D d ds -> hosts (sv_docs s') D d ds) ->
    get_session (sv_docs s') D = get_session (sv_docs (h_sv h)) D ->
    (forall sid, is_Some (h_conns h !! sid) -> grows sid (received sid out) (h_sv h) s') ->
    Forall (fun '(_, payload) => ordinary payload) out ->
    map_Forall (fun _ pe =>
      same_session (session_object (sv_tcp (h_sv h)) (pe_session pe)) (session_object (sv_tcp s') (pe_session pe))
      /\ Forall news (received (pe_session pe) out)) (h_peers h) ->
    HostStep h (mkHost s' (push out (h_conns h)) (h_peers h)).

(** ** The invariant *)

Definition no_answer (payload : string) : Prop := answer_of payload = None.

(** A connection: what has been sent and not yet been emitted are the frames of the
    pending messages. *)
Record conn_ok (s : Server) (sid : Z) (cn : Conn) : Prop := mkConnOk {
  conn_session : session_ok (session_object (sv_tcp s) sid);
  conn_socket : nm_socket (cn_nm cn) = true;
  conn_sized : Forall sized (cn_pending cn);
  conn_incomplete : incomplete (nm_rx_buffer (cn_nm cn)) (cn_pending cn);
  conn_bytes : exists rest, sent_bytes s sid = cn_got cn +:+ rest
               /\ nm_rx_buffer (cn_nm cn) +:+ rest = stream (cn_pending cn);
}.

(** The session of a client is logged in as its user and has the document open. *)
Record linked (s : Server) (u sid : Z) : Prop := mkLinked {
  linked_auth : cs_authenticated (session_object (sv_tcp s) sid) = true;
  linked_user : cs_userId (session_object (sv_tcp s) sid) = u;
  linked_doc : cs_currentDocId (session_object (sv_tcp s) sid) = D;
  linked_active : is_Some (get_session (sv_docs s) D);
}.

(** A client of the system, and what it is in [ManyClients]. *)
Definition phase_ok (u : Z) (pe : Peer) (cn : Conn) (cl : Client) : Prop :=
  match pe_phase pe with
  | Opening =>
      exists pre payload msg, arriving cn = pre ++ payload :: cl_down cl
      /\ Forall no_answer pre /\ Forall no_answer (cl_down cl) /\ answer_of payload = Some msg
      /\ cl_oc cl = new_OTController u D (djm_revision msg)
      /\ cl_ld cl = mkLocalDocument (djm_content msg) (djm_revision msg) /\ cl_base cl = djm_content msg
  | Editing oc ld base =>
      Forall no_answer (arriving cn) /\ cl_down cl = arriving cn
      /\ cl_oc cl = oc /\ cl_ld cl = ld /\ cl_base cl = base /\ oc_ok oc /\ oc_doc_id oc = D
  | Closing => Forall no_answer (arriving cn)
  end.
Definition peer_ok (s : Server) (conns : gmap Z Conn) (u : Z) (pe : Peer) (cl : Client) : Prop :=
  is_u32 u /\ linked s u (pe_session pe) /\ cl_session cl = pe_session pe /\ cl_up cl = pe_up pe
  /\ Forall (op_message D) (pe_up pe)
  /\ exists cn, conns !! pe_session pe = Some cn /\ phase_ok u pe cn cl.

(** Connections that no client uses carry no answer. *)
Definition idle_ok (conns : gmap Z Conn) (peers : gmap Z Peer) : Prop :=
  map_Forall (fun sid cn => map_Forall (fun _ pe => pe_session pe <> sid) peers -> Forall no_answer (arriving cn)) conns.

(** Whoever is or will be connected is a client. *)
Record users_ok (ds : DocumentSession) (peers : gmap Z Peer) : Prop := mkUsersOk {
  users_peers : map_Forall (fun v w => exists pe, peers !! v = Some pe /\ pe_session pe = cu_session w)
                  (users_after (ds_connected_users ds) (ds_command_queue ds));
  users_ids : map_Forall (fun _ w => is_u32 (cu_userId w)) (ds_connected_users ds);
  users_joining : Forall (fun cmd => cmd_type cmd = CmdJoin -> is_u32 (cmd_userId cmd)) (ds_command_queue ds);
}.

Record tracks (s : Server) (conns : gmap Z Conn) (peers : gmap Z Peer) (N : Net) : Prop := mkTracks {
  tr_server : sv_ok s;
  tr_document : hosts (sv_docs s) D (net_doc N) (net_ds N);
  tr_conns : map_Forall (conn_ok s) conns;
  tr_peers u : option_Forall2 (peer_ok s conns u) (peers !! u) (net_clients N !! u);
  tr_alone u v pe pe' : peers !! u = Some pe -> peers !! v = Some pe' -> pe_session pe = pe_session pe' -> u = v;
}.
Record follows (h : Host) (N : Net) : Prop := mkFollows {
  fo_tracks : tracks (h_sv h) (h_conns h) (h_peers h) N;
  fo_idle : idle_ok (h_conns h) (h_peers h);
  fo_users : users_ok (net_ds N) (h_peers h);
}.

(** ** Connections *)

Lemma lookup_push out conns sid :
  push out conns !! sid
  = (fun cn => mkConn (cn_got cn) (cn_nm cn) (cn_inbox cn) (cn_pending cn ++ received sid out)) <$> conns !! sid.
Proof. unfold push. rewrite map_lookup_imap. by destruct (conns !! sid). Qed.
Lemma push_nil conns : push [] conns = conns.
Proof. apply map_eq. intros sid. rewrite lookup_push. destruct (conns !! sid) as [[]|]; [|done]. cbn. by rewrite app_nil_r. Qed.
Lemma push_arriving out conns sid cn : conns !! sid = Some cn ->
  exists cn', push out conns !! sid = Some cn' /\ arriving cn' = arriving cn ++ received sid out.
Proof. intros E. rewrite lookup_push, E. eexists. split; [done|]. unfold arriving. cbn. by rewrite app_assoc. Qed.

Lemma incomplete_app rx ps more : incomplete rx ps -> incomplete rx (ps ++ more).
Proof.
  destruct ps as [|p ps]; [|done]. cbn. intros ->. destruct more as [|p more]; [done|]. cbn.
  rewrite slen_empty. pose proof (slen_nonneg p). lia.
Qed.

Lemma conn_ok_grows s s' sid cn more : conn_ok s sid cn -> grows sid more s s' -> Forall sized more ->
  conn_ok s' sid (mkConn (cn_got cn) (cn_nm cn) (cn_inbox cn) (cn_pending cn ++ more)).
Proof.
  intros [C1 C2 C3 C4 (rest & C5 & C6)] G Hm. destruct (G C1) as [G1 G2]. split; cbn; [done|done| | |].
  - by apply Forall_app.
  - by apply incomplete_app.
  - exists (rest +:+ stream more). rewrite G2, C5, stream_app, <- C6. by rewrite !append_assoc.
Qed.
Lemma conns_grow s s' conns out : map_Forall (conn_ok s) conns ->
  (forall sid, is_Some (conns !! sid) -> grows sid (received sid out) s s') ->
  Forall (fun '(_, payload) => sized payload) out -> map_Forall (conn_ok s') (push out conns).
Proof.
  intros Hc Hg Ho sid cn' H. rewrite lookup_push in H. apply fmap_Some in H as (cn & E & ->).
  apply (conn_ok_grows s); [by apply Hc|by apply Hg; eexists|by apply received_forall].
Qed.

(** Bytes that arrive: the frames they complete are emitted. *)
Lemma conn_ok_read s sid cn chunk rest nm out :
  conn_ok s sid cn -> started sid (sv_out s) = cn_got cn +:+ chunk +:+ rest ->
  onReadyRead (cn_nm cn) ConnectedState chunk = (nm, out) ->
  let cn' := mkConn (cn_got cn +:+ chunk) nm (cn_inbox cn ++ emitted out) (drop (length (emitted out)) (cn_pending cn)) in
  conn_ok s sid cn' /\ arriving cn' = arriving cn.
Proof.
  intros [C1 C2 C3 C4 (rest0 & C5 & C6)] Hst E cn'.
  assert (rest0 = chunk +:+ rest +:+ unstarted (session_object (sv_tcp s) sid)) as ->.
  { apply (bytes_of_inj_app_l (cn_got cn)). rewrite <- C5. unfold sent_bytes. by rewrite Hst, !append_assoc. }
  rewrite <- append_assoc in C6.
  destruct (rx_loop_stream _ _ _ _ C3 C6 (le_n _)) as (qs & ps' & b' & Eps & Erx & Hb & Hi).
  unfold onReadyRead in E. rewrite C2 in E. cbn [negb] in E. rewrite Erx in E. rewrite app_nil_r in E.
  injection E as <- <-.
  assert (emitted (SigMessageReceived <$> qs) = qs) as Hem.
  { clear. induction qs as [|q qs IH]; [done|]. cbn. by f_equal. }
  unfold cn'. rewrite Hem. assert (drop (length qs) (cn_pending cn) = ps') as Hdrop by (by rewrite Eps, drop_app_length).
  rewrite Hdrop. split.
  - split; cbn; [done|done| |done|].
    + rewrite Eps in C3. by apply Forall_app in C3 as [_ ?].
    + exists (rest +:+ unstarted (session_object (sv_tcp s) sid)). split; [|done]. by rewrite C5, append_assoc.
  - unfold arriving. cbn. by rewrite Eps, app_assoc.
Qed.

(** When the server has sent everything and the client has got all of it, nothing is pending. *)
Lemma conn_ok_settled s sid cn : conn_ok s sid cn -> cn_got cn = sent_bytes s sid -> cn_pending cn = [].
Proof.
  intros [C1 C2 C3 C4 (rest & C5 & C6)] Hg. rewrite <- Hg in C5.
  assert (rest = ""%string) as ->.
  { apply (bytes_of_inj_app_l (cn_got cn)). by rewrite <- C5, append_nil_r. }
  rewrite append_nil_r in C6. destruct (cn_pending cn) as [|p ps]; [done|]. cbn in C4. rewrite C6 in C4.
  cbn [stream foldr] in C4. rewrite slen_app, slen_encode_frame in C4. fold (stream ps) in C4.
  pose proof (slen_nonneg (stream ps)). lia.
Qed.

(** ** Effects on the clients *)

Lemma linked_same s s' u sid : linked s u sid -> same_session (session_object (sv_tcp s) sid) (session_object (sv_tcp s') sid) ->
  (is_Some (get_session (sv_docs s) D) -> is_Some (get_session (sv_docs s') D)) -> linked s' u sid.
Proof. intros [H1 H2 H3 H4] [(E1 & E2 & _) E3] Hg. split; [congruence..|]. by apply Hg. Qed.

Lemma phase_ok_deliver u pe cn cn' cl out :
  phase_ok u pe cn cl -> arriving cn' = arriving cn ++ received (cl_session cl) out ->
  Forall no_answer (received (cl_session cl) out) -> phase_ok u pe cn' (deliver_to out cl).
Proof.
  unfold phase_ok. intros H E Hn. destruct (pe_phase pe) as [|oc ld base|]; rewrite E.
  - destruct H as (pre & payload & msg & Ha & H1 & H2 & H). exists pre, payload, msg. cbn.
    rewrite Ha, <- app_assoc. split_and!; [done..| |apply H|apply H|apply H|apply H]. by apply Forall_app.
  - destruct H as (H1 & H2 & H). split_and!; [by apply Forall_app|cbn; by rewrite H2|apply H..].
  - by apply Forall_app.
Qed.

Lemma peer_ok_server s s' conns out u pe cl :
  peer_ok s conns u pe cl -> same_session (session_object (sv_tcp s) (pe_session pe)) (session_object (sv_tcp s') (pe_session pe)) ->
  (is_Some (get_session (sv_docs s) D) -> is_Some (get_session (sv_docs s') D)) ->
  Forall no_answer (received (pe_session pe) out) -> peer_ok s' (push out conns) u pe (deliver_to out cl).
Proof.
  intros (Hu & Hl & Hsid & Hup & Hops & cn & Hcn & Hp) Hsame Hg Hn. unfold peer_ok.
  split_and!; [done|by eapply linked_same|done|done|done|].
  destruct (push_arriving out conns _ _ Hcn) as (cn' & Hcn' & E). exists cn'. split; [done|].
  rewrite <- Hsid in E, Hn. by eapply phase_ok_deliver.
Qed.

(** The server does something and sends [out]. *)
Lemma tracks_server s s' conns peers N d' ds' out :
  tracks s conns peers N -> sv_ok s' -> hosts (sv_docs s') D d' ds' ->
  (forall sid, is_Some (conns !! sid) -> grows sid (received sid out) s s') ->
  Forall (fun '(_, payload) => sized payload) out ->
  map_Forall (fun _ pe => same_session (session_object (sv_tcp s) (pe_session pe)) (session_object (sv_tcp s') (pe_session pe))
                          /\ Forall no_answer (received (pe_session pe) out)) peers ->
  (is_Some (get_session (sv_docs s) D) -> is_Some (get_session (sv_docs s') D)) ->
  tracks s' (push out conns) peers (mkNet d' ds' (deliver_to out <$> net_clients N)).
Proof.
  intros [T1 T2 T3 T4 T5] Hok Hd Hg Ho Hp Hs. split; [done|done|by eapply conns_grow| |done].
  intros u. cbn. rewrite lookup_fmap. specialize (T4 u).
  destruct (peers !! u) as [pe|] eqn:E, (net_clients N !! u) as [cl|] eqn:E'; inversion T4; subst; constructor.
  destruct (Hp u pe E) as [P1 P2]. by eapply peer_ok_server.
Qed.

Lemma tracks_peer s conns peers N u pe : tracks s conns peers N -> peers !! u = Some pe ->
  exists cl, net_clients N !! u = Some cl /\ peer_ok s conns u pe cl.
Proof. intros T E. pose proof (tr_peers _ _ _ _ T u) as H. rewrite E in H. inversion H; subst. eauto. Qed.
Lemma tracks_no_peer s conns peers N u : tracks s conns peers N -> peers !! u = None -> net_clients N !! u = None.
Proof. intros T E. pose proof (tr_peers _ _ _ _ T u) as H. rewrite E in H. by inversion H. Qed.

Lemma peer_ok_conn s conns sid cn u pe cl :
  pe_session pe <> sid -> peer_ok s conns u pe cl -> peer_ok s (<[sid := cn]> conns) u pe cl.
Proof.
  intros Hne (Hu & Hl & Hsid & Hup & Hops & cn0 & Hcn & Hp). unfold peer_ok. split_and!; try done.
  exists cn0. by rewrite lookup_insert_ne.
Qed.
Lemma peer_ok_no_conn s conns sid u pe cl :
  pe_session pe <> sid -> peer_ok s conns u pe cl -> peer_ok s (delete sid conns) u pe cl.
Proof.
  intros Hne (Hu & Hl & Hsid & Hup & Hops & cn0 & Hcn & Hp). unfold peer_ok. split_and!; try done.
  exists cn0. by rewrite lookup_delete_ne.
Qed.

(** A client's own step. *)
Lemma tracks_client s conns peers N u pe pe' cn' cl' :
  tracks s conns peers N -> peers !! u = Some pe -> pe_session pe' = pe_session pe ->
  conn_ok s (pe_session pe) cn' -> peer_ok s (<[pe_session pe := cn']> conns) u pe' cl' ->
  tracks s (<[pe_session pe := cn']> conns) (<[u := pe']> peers) (with_client N u cl').
Proof.
  intros [T1 T2 T3 T4 T5] Hu Hsid Hcn Hp. split; [done|done| | |].
  - by apply map_Forall_insert_2.
  - intros v. cbn. destruct (decide (u = v)) as [<-|Hne]; [rewrite !lookup_insert_eq; by constructor|].
    rewrite !lookup_insert_ne by done. specialize (T4 v).
    destruct (peers !! v) as [pev|] eqn:E, (net_clients N !! v) as [clv|] eqn:E'; inversion T4; subst; constructor.
    apply peer_ok_conn; [|done]. intros E1. by apply Hne, (T5 u v pe pev).
  - intros v w pv pw. rewrite !lookup_insert. repeat case_decide; intros; simplify_eq; eauto.
    + eapply T5; [exact Hu|done|]. congruence.
    + eapply T5; [done|exact Hu|]. congruence.
Qed.
(** The client's connection is as it was. *)
Lemma tracks_client_same s conns peers N u pe pe' cl' :
  tracks s conns peers N -> peers !! u = Some pe -> pe_session pe' = pe_session pe ->
  peer_ok s conns u pe' cl' -> tracks s conns (<[u := pe']> peers) (with_client N u cl').
Proof.
  intros T Hu Hsid Hp. pose proof Hp as (_ & _ & _ & _ & _ & cn & Hcn & _). rewrite Hsid in Hcn.
  rewrite <- (insert_id conns (pe_session pe) cn) by done. apply tracks_client; try done.
  - by apply (tr_conns _ _ _ _ T).
  - by rewrite insert_id.
Qed.

Lemma tracks_join s conns peers N u pe cl :
  tracks s conns peers N -> peers !! u = None -> map_Forall (fun _ pe' => pe_session pe' <> pe_session pe) peers ->
  peer_ok s conns u pe cl -> tracks s conns (<[u := pe]> peers) (with_client N u cl).
Proof.
  intros [T1 T2 T3 T4 T5] Hu Hsid Hp. split; [done|done|done| |].
  - intros v. cbn. rewrite !lookup_insert. case_decide; [subst; by constructor|done].
  - intros v w pv pw. rewrite !lookup_insert. repeat case_decide; intros; simplify_eq; eauto.
    + exfalso. by eapply (Hsid w).
    + exfalso. by eapply (Hsid v).
Qed.

Lemma tracks_delete s conns peers N u :
  tracks s conns peers N -> tracks s conns (delete u peers) (mkNet (net_doc N) (net_ds N) (delete u (net_clients N))).
Proof.
  intros [T1 T2 T3 T4 T5]. split; [done|done|done| |].
  - intros v. cbn. rewrite !lookup_delete. case_decide; [constructor|done].
  - intros v w pv pw [_ Hv]%lookup_delete_Some [_ Hw]%lookup_delete_Some. by apply T5.
Qed.

(** A connection that no client uses ends. *)
Lemma tracks_lose s conns peers N sid :
  tracks s conns peers N -> map_Forall (fun _ pe => pe_session pe <> sid) peers -> tracks s (delete sid conns) peers N.
Proof.
  intros [T1 T2 T3 T4 T5] Hfree. split; [done|done|by apply map_Forall_delete| |done].
  intros u. specialize (T4 u).
  destruct (peers !! u) as [pe|] eqn:E, (net_clients N !! u) as [cl|] eqn:E'; inversion T4; subst; constructor.
  apply peer_ok_no_conn; [by eapply Hfree|done].
Qed.

(** ** Idle connections *)

Lemma idle_push conns peers out : idle_ok conns peers -> Forall (fun '(_, payload) => no_answer payload) out ->
  idle_ok (push out conns) peers.
Proof.
  intros H Ho sid cn' E Hp. rewrite lookup_push in E. apply fmap_Some in E as (cn & E & ->).
  unfold arriving. cbn. rewrite app_assoc. apply Forall_app. split; [by apply (H sid cn E)|by apply received_forall].
Qed.
(** A client's step keeps the sessions. *)
Lemma idle_client conns peers u pe pe' sid cn' :
  idle_ok conns peers -> peers !! u = Some pe -> pe_session pe' = pe_session pe ->
  pe_session pe = sid -> idle_ok (<[sid := cn']> conns) (<[u := pe']> peers).
Proof.
  intros H Hu Hs <- q cn E Hp. apply lookup_insert_Some in E as [[<- <-]|[Hne E]].
  - exfalso. apply (Hp u pe'); [apply lookup_insert_eq|done].
  - apply (H q cn E). intros v pv Hv. destruct (decide (u = v)) as [<-|Hne'].
    + by simplify_eq.
    + apply (Hp v pv). by rewrite lookup_insert_ne.
Qed.
Lemma idle_client_same conns peers u pe pe' :
  idle_ok conns peers -> peers !! u = Some pe -> pe_session pe' = pe_session pe -> idle_ok conns (<[u := pe']> peers).
Proof.
  intros H Hu Hs sid cn E Hp. apply (H sid cn E). intros v pv Hv. destruct (decide (u = v)) as [<-|Hne'].
  - simplify_eq. rewrite <- Hs. apply (Hp u pe'), lookup_insert_eq.
  - apply (Hp v pv). by rewrite lookup_insert_ne.
Qed.

(** ** The users of the document's session *)

Lemma users_client ds peers u pe pe' :
  users_ok ds peers -> peers !! u = Some pe -> pe_session pe' = pe_session pe -> users_ok ds (<[u := pe']> peers).
Proof.
  intros [U1 U2 U3] Hu Hs. split; [|done|done]. intros v w Hw. destruct (U1 v w Hw) as (pv & Hv & E).
  destruct (decide (u = v)) as [<-|Hne].
  - exists pe'. rewrite lookup_insert_eq. simplify_eq. by rewrite Hs.
  - exists pv. by rewrite lookup_insert_ne.
Qed.
Lemma users_join ds peers u name color sid :
  users_ok ds peers -> is_u32 u ->
  users_ok (enqueue_command ds (mkDocCommand CmdJoin no_operation u name color sid)) (<[u := mkPeer sid [] Opening]> peers).
Proof.
  intros [U1 U2 U3] Hu. split; cbn.
  - rewrite users_after_app. cbn. intros v w [[<- <-]|[Hne Hw]]%lookup_insert_Some.
    + eexists. by rewrite lookup_insert_eq.
    + destruct (U1 v w Hw) as (pv & Hv & E). exists pv. by rewrite lookup_insert_ne.
  - done.
  - apply Forall_app. split; [done|]. by constructor.
Qed.
Lemma users_leave ds peers u name :
  users_ok ds peers ->
  users_ok (enqueue_command ds (mkDocCommand CmdLeave no_operation u name "" 0)) (delete u peers).
Proof.
  intros [U1 U2 U3]. split; cbn.
  - rewrite users_after_app. cbn. intros v w [Hne Hw]%lookup_delete_Some.
    destruct (U1 v w Hw) as (pv & Hv & E). exists pv. by rewrite lookup_delete_ne.
  - done.
  - apply Forall_app. split; [done|]. by constructor.
Qed.
Lemma users_operations ds peers u name rev es :
  users_ok ds peers -> users_ok (foldl enqueue_command ds (command_of_entry u name rev <$> es)) peers.
Proof.
  intros [U1 U2 U3]. rewrite enqueue_commands. split; cbn.
  - rewrite users_after_app. enough (forall us, users_after us (command_of_entry u name rev <$> es) = us) as -> by done.
    clear. induction es as [|e es IH]; intros us; [done|]. cbn. by rewrite IH.
  - done.
  - apply Forall_app. split; [done|]. apply Forall_fmap, Forall_forall. by intros e _.
Qed.

(** What a command of a client does to the session. *)
Lemma process_session d q us cmd d' ds' out :
  cmd_ok cmd -> process_command d (mkDocumentSession q us) cmd = Some (d', ds', out) ->
  ds' = mkDocumentSession q (user_change us cmd).
Proof.
  intros [Ht _] H. destruct (decide (is_operation cmd)) as [Hop|Hop].
  - destruct (operation_command _ _ _ _ _ _ Hop H) as [_ ->]. unfold user_change. by rewrite Hop.
  - destruct (user_command d (mkDocumentSession q us) cmd d' ds' out) as (_ & _ & _ & -> & _); [|done|done].
    unfold is_operation in Hop. set_solver.
Qed.
Lemma users_take q us cmd peers :
  users_ok (mkDocumentSession (cmd :: q) us) peers -> users_ok (mkDocumentSession q (user_change us cmd)) peers.
Proof.
  intros [U1 U2 U3]. cbn in *. apply Forall_cons in U3 as [Hj U3]. split; cbn; [exact U1| |done].
  unfold user_change. destruct (cmd_type cmd); try done.
  - apply map_Forall_insert_2; [by apply Hj|done].
  - by apply map_Forall_delete.
Qed.

(** ** The steps *)

Lemma serves_other_session sid D0 d ds resp cur s s' q : serves D0 d ds sid resp cur s s' -> q <> sid ->
  same_session (session_object (sv_tcp s) q) (session_object (sv_tcp s') q).
Proof. intros H Hq. by rewrite (serves_others _ _ _ _ _ _ _ _ H q Hq). Qed.
Lemma received_one q sid payload : received q [(sid, payload)] = if bool_decide (sid = q) then [payload] else [].
Proof. rewrite received_cons. by case_bool_decide. Qed.

Lemma deliver_none out (cs : gmap Z Client) :
  map_Forall (fun _ cl => received (cl_session cl) out = []) cs -> deliver_to out <$> cs = cs.
Proof.
  intros H. apply map_eq. intros u. rewrite lookup_fmap. destruct (cs !! u) as [[]|] eqn:E; [|done].
  specialize (H u _ E). unfold deliver_to in *. cbn in *. by rewrite H, app_nil_r.
Qed.

Lemma hosts_inj m d ds d' ds' : hosts m D d ds -> hosts m D d' ds' -> d = d' /\ ds = ds'.
Proof.
  intros (doc & A1 & A2 & A3) (doc' & B1 & B2 & B3). simplify_eq. split; [done|].
  destruct (dm_sessions m !! D); [|congruence]. destruct A3 as [st A3], B3 as [st' B3]. by simplify_eq.
Qed.
Lemma hosts_id s d ds : sv_ok s -> hosts (sv_docs s) D d ds -> doc_id d = D.
Proof. intros H (doc & A1 & A2 & _). destruct (wf_document _ (ok_docs _ H) _ _ A1) as (_ & d0 & E & Hid & _). by simplify_eq. Qed.

Lemma no_answer_typed m payload : serialize (server_json m) = Some payload ->
  server_type m <> MtDocJoinResponse -> no_answer payload.
Proof.
  intros Hs%json_parse_dump Ht. unfold no_answer, answer_of.
  rewrite (parse_envelope_typed _ _ (server_type m) Hs); [|by destruct m|apply server_json_type].
  cbn [fst]. by destruct (server_type m).
Qed.
Lemma send_to_user_forall (P : string -> Prop) s u x : P x -> Forall (fun '(_, y) => P y) (send_to_user s u x).
Proof. intros H. unfold send_to_user. destruct (_ !! _); by repeat constructor. Qed.
Lemma process_no_answer d s cmd d' s' out :
  process_command d s cmd = Some (d', s', out) -> Forall (fun '(_, payload) => no_answer payload) out.
Proof.
  unfold process_command. destruct (cmd_type cmd).
  - unfold DocumentSession.handle_operation. destruct (apply_with_ot _ _) as [r e]. destruct (negb _).
    + intros (pl & Hs & [= <- <- <-])%bind_Some. apply send_to_user_forall.
      by apply (no_answer_typed (SError _) _ Hs).
    + intros (ack & Ha & (pl & Hb & [= <- <- <-])%bind_Some)%bind_Some. apply Forall_app. split.
      * apply send_to_user_forall. by apply (no_answer_typed (SAck _) _ Ha).
      * apply broadcast_forall. by apply (no_answer_typed (SBroadcast _) _ Hb).
  - intros (pl & Hs & [= <- <- <-])%bind_Some. apply broadcast_forall. by apply (no_answer_typed (SUserJoined _) _ Hs).
  - intros (pl & Hs & [= <- <- <-])%bind_Some. apply broadcast_forall. by apply (no_answer_typed (SUserLeft _) _ Hs).
  - intros (pl & Hs & [= <- <- <-])%bind_Some. apply broadcast_forall. by apply (no_answer_typed (SDocDeleted _) _ Hs).
  - by intros [= <- <- <-].
Qed.

Lemma join_answer_read s u d ds resp : is_u32 D -> is_u32 (doc_revision d) ->
  map_Forall (fun _ w => is_u32 (cu_userId w)) (ds_connected_users ds) ->
  serialize (to_json_DocJoinResponseMsg (join_answer s D u d ds)) = Some resp ->
  answer_of resp = Some (join_answer s D u d ds).
Proof.
  intros HD Hr Hu Hs. assert (server_wf (SDocJoin (join_answer s D u d ds))) as Hwf.
  { cbn. split_and!; [done..| |done]. apply Forall_fmap, Forall_forall. intros w Hw.
    apply list_elem_of_fmap in Hw as ([v w'] & -> & Hw%elem_of_map_to_list). by apply (Hu v). }
  destruct (server_read_back (SDocJoin (join_answer s D u d ds)) resp Hwf Hs) as [Ht Hm].
  apply (parse_as_fmap SDocJoin) in Hm; [|by intros ? ? [= ->]].
  unfold answer_of. rewrite Ht. cbn [fst server_type]. rewrite Hm. cbn. by rewrite Z.eqb_refl.
Qed.

Lemma net_ok_doc N : net_ok N -> is_u32 (doc_id (net_doc N)) /\ is_u32 (doc_revision (net_doc N)).
Proof.
  intros ((Hid & l & ((W1 & W2 & W3 & W4) & _) & _) & _). split; [done|]. unfold is_u32. lia.
Qed.

(** The facts the steps share. *)
Lemma follows_id h N : follows h N -> net_ok N -> doc_id (net_doc N) = D /\ is_u32 D.
Proof.
  intros F Hok. pose proof (hosts_id _ _ _ (tr_server _ _ _ _ (fo_tracks _ _ F)) (tr_document _ _ _ _ (fo_tracks _ _ F))) as E.
  split; [done|]. rewrite <- E. by apply net_ok_doc.
Qed.
Lemma hosts_active m d ds cmd : hosts m D d (enqueue_command ds cmd) -> is_Some (get_session m D).
Proof. intros H. destruct (hosts_session _ _ _ _ H) as [loc ->]; [cbn; by destruct (ds_command_queue ds)|by eexists]. Qed.
Lemma others_free s conns peers N u pe : tracks s conns peers N -> peers !! u = Some pe ->
  map_Forall (fun _ pv => pe_session pv <> pe_session pe) (delete u peers).
Proof. intros T Hu v pv [Hne Hv]%lookup_delete_Some E. by apply Hne, (tr_alone _ _ _ _ T u v pe pv). Qed.
(** A message to a session that no client uses. *)
Lemma unaddressed s conns peers N sid payload :
  tracks s conns peers N -> map_Forall (fun _ pe => pe_session pe <> sid) peers ->
  map_Forall (fun _ pe => received (pe_session pe) [(sid, payload)] = []) peers
  /\ deliver_to [(sid, payload)] <$> net_clients N = net_clients N.
Proof.
  intros T Hfree.
  assert (map_Forall (fun _ pe => received (pe_session pe) [(sid, payload)] = []) peers) as Hnone.
  { intros v pe Hv. rewrite received_one, bool_decide_false; [done|]. intros ->. by eapply Hfree. }
  split; [done|]. apply deliver_none. intros v cl Hv. pose proof (tr_peers _ _ _ _ T v) as Hp. rewrite Hv in Hp.
  inversion Hp as [pe cl0 Hpe E|]; subst. destruct Hpe as (_ & _ & -> & _). by apply (Hnone v pe).
Qed.
(** A handler that answers such a session. *)
Lemma tracks_answered s s' conns peers N sid d ds resp cur :
  tracks s conns peers N -> map_Forall (fun _ pe => pe_session pe <> sid) peers ->
  serves D d ds sid [resp] cur s s' -> sv_ok s' -> is_Some (get_session (sv_docs s') D) -> sized resp ->
  tracks s' (push [(sid, resp)] conns) peers (mkNet d ds (net_clients N)).
Proof.
  intros T Hfree H Hok Hact Hsz. destruct (unaddressed _ _ _ _ sid resp T Hfree) as [H1 H2]. rewrite <- H2.
  apply (tracks_server _ _ _ _ _ _ _ _ T); [done|apply H| |by repeat constructor| |done].
  - intros q _. rewrite received_one. apply H.
  - intros v pe Hv. split; [by eapply serves_other_session; [exact H|eapply Hfree]|]. by rewrite (H1 v pe Hv).
Qed.

Lemma step_join h N sid u d ds buf what payload resp :
  follows h N -> net_ok N ->
  let s := h_sv h in let c := session_object (sv_tcp s) sid in
  ids_left s -> is_Some (h_conns h !! sid) ->
  cs_authenticated c = true -> cs_userId c = u -> h_peers h !! u = None ->
  map_Forall (fun _ pe => pe_session pe <> sid) (h_peers h) ->
  can_read (sv_access s) D u = true ->
  hosts (sv_docs s) D d ds -> Forall (fun cmd => ~ is_operation cmd) (ds_command_queue ds) ->
  says payload (CDocJoin (mkDocJoinRequestMsg D)) ->
  serialize (to_json_DocJoinResponseMsg (join_answer s D u d ds)) = Some resp -> sized resp ->
  exists N', rtc NetStep N N' /\ follows (mkHost (fst (handle_message CC_SHA256 sid buf what payload s))
                       (push [(sid, resp)] (h_conns h)) (<[u := mkPeer sid [] Opening]> (h_peers h))) N'.
Proof.
  intros F Hok s c [Hn1 Hn2] Hconn Ha <- Hu Hfree Hr H Hq Hs Hresp Hsz. pose proof F as [T Hi Hus].
  destruct (hosts_inj _ _ _ _ _ H (tr_document _ _ _ _ T)) as [-> ->].
  destruct (follows_id h N F Hok) as [Hid HD]. destruct (net_ok_doc N Hok) as [_ Hrev].
  pose proof (identity_u32 s sid (tr_server _ _ _ _ T) Ha) as Hu32. fold c in Hu32.
  destruct (join_message CC_SHA256 sid buf what payload s D _ _ resp (ok_docs _ (tr_server _ _ _ _ T)) H HD Hs Ha Hr Hresp)
    as (name & color & Hserve). fold c in Hserve.
  set (s' := fst (handle_message CC_SHA256 sid buf what payload s)) in *.
  pose proof (ok_handle_message CC_SHA256 s sid buf what payload (tr_server _ _ _ _ T) Hn1 Hn2) as Hok'. fold s' in Hok'.
  pose proof (hosts_active _ _ _ _ (serves_hosts _ _ _ _ _ _ _ _ Hserve)) as Hact.
  set (cmd := mkDocCommand CmdJoin no_operation (cs_userId c) name color sid) in *.
  exists (mkNet (net_doc N) (enqueue_command (net_ds N) cmd)
            (<[cs_userId c := open_client (cs_userId c) sid (net_doc N)]> (net_clients N))). split.
  { apply rtc_once, net_open; [by eapply tracks_no_peer|done|done|]. intros v w Hw Hs'.
    destruct (users_peers _ _ Hus v w Hw) as (pe & Hpe & E). exfalso. apply (Hfree v pe Hpe). by rewrite E. }
  pose proof (tracks_answered _ _ _ _ _ _ _ _ _ _ T Hfree Hserve Hok' Hact Hsz) as T1.
  split; cbn [h_sv h_conns h_peers].
  - apply (tracks_join _ _ _ _ (cs_userId c) (mkPeer sid [] Opening) (open_client (cs_userId c) sid (net_doc N)) T1 Hu Hfree).
    destruct Hconn as [cn Hcn]. destruct (push_arriving [(sid, resp)] _ _ _ Hcn) as (cn' & Hcn' & E).
    destruct (serves_identity _ _ _ _ _ _ _ _ Hserve) as (E1 & E2 & _). fold c in E1, E2.
    split_and!; [done| |done|done|constructor|].
    + split; cbn [pe_session]; [by rewrite E1|by rewrite E2|apply Hserve|done].
    + exists cn'. split; [done|]. cbn. exists (arriving cn), resp, (join_answer s D (cs_userId c) (net_doc N) (net_ds N)).
      rewrite E, received_one, bool_decide_true by done. split_and!; [done| |constructor| |by rewrite Hid|done|done].
      * apply (Hi sid cn Hcn). intros v pe Hv. by eapply Hfree.
      * apply join_answer_read; [done|done|apply Hus|done].
  - intros q cn' E Hp. rewrite lookup_push in E. apply fmap_Some in E as (cn & E & ->).
    assert (sid <> q) as Hne by (apply (Hp (cs_userId c) (mkPeer sid [] Opening)), lookup_insert_eq).
    unfold arriving. cbn [cn_inbox cn_pending]. rewrite received_one, bool_decide_false, app_nil_r by done. apply (Hi q cn E).
    intros v pe Hv. apply (Hp v pe). rewrite lookup_insert_ne; [done|]. congruence.
  - by apply users_join.
Qed.

(** Steps of the server that send nothing. *)
Lemma tracks_silent s s' conns peers N d' ds' :
  tracks s conns peers N -> sv_ok s' -> hosts (sv_docs s') D d' ds' ->
  (forall sid, is_Some (conns !! sid) -> grows sid [] s s') ->
  map_Forall (fun _ pe => same_session (session_object (sv_tcp s) (pe_session pe)) (session_object (sv_tcp s') (pe_session pe))) peers ->
  (is_Some (get_session (sv_docs s) D) -> is_Some (get_session (sv_docs s') D)) ->
  tracks s' conns peers (mkNet d' ds' (net_clients N)).
Proof.
  intros T Hok Hd Hg Hp Hs. rewrite <- (push_nil conns), <- (deliver_none [] (net_clients N)) by done.
  eapply tracks_server; [exact T|done|done|exact Hg|constructor| |done].
  intros u pe Hu. split; [by apply (Hp u pe)|constructor].
Qed.

(** A client's message is what its controller sent. *)
Lemma up_operation h N u pe payload up : follows h N -> h_peers h !! u = Some pe -> pe_up pe = payload :: up ->
  exists m, says payload (COperation m) /\ opm_docId m = D /\ length (opm_ops m) = 1%nat.
Proof.
  intros F Hu Hup. destruct (tracks_peer _ _ _ _ _ _ (fo_tracks _ _ F) Hu) as (cl & _ & _ & _ & _ & _ & Hops & _).
  rewrite Hup in Hops. apply Forall_cons in Hops as [H _]. exact H.
Qed.

Lemma step_operation h N u pe payload up msg buf what :
  follows h N -> net_ok N ->
  let s := h_sv h in
  ids_left s -> h_peers h !! u = Some pe -> pe_up pe = payload :: up ->
  parse_as from_json_OperationMsg payload = Some msg -> can_edit (sv_access s) D u = true ->
  exists N', rtc NetStep N N' /\ follows (mkHost (fst (handle_message CC_SHA256 (pe_session pe) buf what payload s)) (h_conns h)
                       (<[u := mkPeer (pe_session pe) up (pe_phase pe)]> (h_peers h))) N'.
Proof.
  intros F Hok s [Hn1 Hn2]. subst s. intros Hu Hup Hm He. pose proof F as [T Hi Hus].
  destruct (up_operation _ _ _ _ _ _ F Hu Hup) as (m & Hs & Hid & Hlen).
  destruct (tracks_peer _ _ _ _ _ _ T Hu) as (cl & Hcl & Hpeer).
  pose proof Hpeer as (Hu32 & [La Lu Ld Ls] & Hsid & Hcup & Hops & cn & Hcn & Hph).
  destruct (follows_id h N F Hok) as [_ HD].
  assert (from_json_OperationMsg (to_json_OperationMsg m) = Some msg) as Hm'.
  { unfold parse_as in Hm. by rewrite (json_parse_dump _ _ Hs) in Hm. }
  destruct (operation_msg_parts m msg Hm') as [P1 P2].
  destruct (operation_message CC_SHA256 (pe_session pe) buf what payload (h_sv h) D _ _ m msg (tr_document _ _ _ _ T) Ls Hs Hm')
    as (name & Hd & Ht & Ho); [rewrite P1; by rewrite Hid|rewrite P2, Hlen; lia|done|done|by rewrite Lu|].
  set (s' := fst (handle_message CC_SHA256 (pe_session pe) buf what payload (h_sv h))) in *. rewrite Lu in Hd.
  set (cmds := command_of_entry u name (opm_revision msg) <$> opm_ops msg) in *.
  set (cl' := mkClient (cl_session cl) up (cl_down cl) (cl_oc cl) (cl_ld cl) (cl_base cl)).
  exists (mkNet (net_doc N) (foldl enqueue_command (net_ds N) cmds) (<[u := cl']> (net_clients N))). split.
  { apply rtc_once. eapply net_submit; [done|by rewrite Hcup|done]. }
  assert (forall q, session_object (sv_tcp s') q = session_object (sv_tcp (h_sv h)) q) as Hsame by (by rewrite Ht).
  split; cbn [h_sv h_conns h_peers].
  - assert (tracks s' (h_conns h) (h_peers h) (mkNet (net_doc N) (foldl enqueue_command (net_ds N) cmds) (net_clients N))) as T1.
    { eapply tracks_silent; [exact T| |done|intros q _; by apply grows_same|intros v pv _; by rewrite Hsame|].
      - by apply ok_handle_message; [apply T|..].
      - intros _. assert (ds_command_queue (foldl enqueue_command (net_ds N) cmds) <> []) as Hne.
        { rewrite enqueue_commands. unfold cmds. cbn. destruct (opm_ops msg); [by rewrite Hlen in P2|].
          cbn. by destruct (ds_command_queue (net_ds N)). }
        destruct (hosts_session _ _ _ _ Hd Hne) as [loc ->]. by eexists. }
    destruct (tracks_peer _ _ _ _ _ _ T1 Hu) as (cl1 & Hcl1 & Hpeer1). cbn in Hcl1.
    rewrite Hcl in Hcl1. injection Hcl1 as <-.
    apply (tracks_client_same _ _ _ _ u pe (mkPeer (pe_session pe) up (pe_phase pe)) cl' T1 Hu); [done|].
    destruct Hpeer1 as (_ & L1 & _ & _ & _ & cn1 & Hcn1 & Hph1).
    rewrite Hup in Hops. apply Forall_cons in Hops as [_ Hops].
    split_and!; [done..|]. exists cn1. split; [done|]. unfold phase_ok in *. cbn [pe_phase cl_down cl_oc cl_ld cl_base cl'] in *. exact Hph1.
  - by eapply idle_client_same.
  - eapply users_client; [|done|done]. by apply users_operations.
Qed.

Lemma step_leave h N u pe buf what payload resp :
  follows h N -> net_ok N ->
  let s := h_sv h in
  ids_left s -> h_peers h !! u = Some pe -> pe_phase pe = Closing ->
  says payload (CDocLeave (mkDocLeaveRequestMsg D)) ->
  serialize (to_json_DocLeaveResponseMsg (mkDocLeaveResponseMsg true)) = Some resp -> sized resp ->
  exists N', rtc NetStep N N' /\ follows (mkHost (fst (handle_message CC_SHA256 (pe_session pe) buf what payload s))
                       (push [(pe_session pe, resp)] (h_conns h)) (delete u (h_peers h))) N'.
Proof.
  intros F Hok s [Hn1 Hn2]. subst s. intros Hu Hph Hs Hresp Hsz. pose proof F as [T Hi Hus].
  destruct (tracks_peer _ _ _ _ _ _ T Hu) as (cl & Hcl & _ & [La Lu Ld Ls] & Hsid & Hcup & Hops & cn & Hcn & Hcl').
  unfold phase_ok in Hcl'. rewrite Hph in Hcl'.
  destruct (follows_id h N F Hok) as [_ HD].
  destruct (leave_message CC_SHA256 (pe_session pe) buf what payload (h_sv h) D _ _ resp (tr_document _ _ _ _ T) Ls HD Hs La Hresp)
    as (name & Hserve). rewrite Lu in Hserve.
  set (s' := fst (handle_message CC_SHA256 (pe_session pe) buf what payload (h_sv h))) in *.
  set (cmd := mkDocCommand CmdLeave no_operation u name "" 0) in *.
  pose proof (others_free _ _ _ _ _ _ T Hu) as Hfree.
  assert (no_answer resp) as Hna by (by apply (no_answer_typed (SDocLeave (mkDocLeaveResponseMsg true)))).
  pose proof (tracks_delete _ _ _ _ u T) as T1.
  exists (mkNet (net_doc N) (enqueue_command (net_ds N) cmd) (delete u (net_clients N))). split.
  { apply rtc_once. by eapply net_close. }
  split; cbn [h_sv h_conns h_peers].
  - refine (tracks_answered _ _ _ _ _ _ _ _ _ _ T1 Hfree Hserve _ _ Hsz).
    + by apply ok_handle_message; [apply T|..].
    + by eapply hosts_active, Hserve.
  - apply idle_push; [|by repeat constructor]. intros q cq Hq Hp.
    destruct (decide (q = pe_session pe)) as [->|Hne]; [by simplify_eq|].
    apply (Hi q cq Hq). intros v pv Hv. destruct (decide (u = v)) as [<-|Hne']; [by simplify_eq|].
    apply (Hp v pv). by rewrite lookup_delete_ne.
  - by apply users_leave.
Qed.

Lemma step_lost h N u pe pre :
  follows h N -> net_ok N -> 0 < D -> h_peers h !! u = Some pe -> pre = [] \/ pre = close ->
  exists N', rtc NetStep N N' /\ follows (mkHost (session_event (pe_session pe) (drop_connection pre) (h_sv h))
                       (delete (pe_session pe) (h_conns h)) (delete u (h_peers h))) N'.
Proof.
  intros F Hok HD Hu Hpre. pose proof F as [T Hi Hus].
  destruct (tracks_peer _ _ _ _ _ _ T Hu) as (cl & Hcl & _ & [La Lu Ld Ls] & Hsid & Hcup & Hops & cn & Hcn & _).
  destruct (conn_session _ _ _ (tr_conns _ _ _ _ T _ _ Hcn)) as [Hdis _].
  destruct (lost_connection (pe_session pe) pre (h_sv h) D _ _ Hpre (tr_document _ _ _ _ T) Ls HD Hdis Ld)
    as (name & Hd & Hothers). rewrite Lu in Hd.
  set (s' := session_event _ _ _) in *. set (cmd := mkDocCommand CmdLeave no_operation u name "" 0) in *.
  pose proof (others_free _ _ _ _ _ _ T Hu) as Hfree.
  pose proof (tracks_delete _ _ _ _ u T) as T1.
  assert (tracks (h_sv h) (delete (pe_session pe) (h_conns h)) (delete u (h_peers h))
            (mkNet (net_doc N) (net_ds N) (delete u (net_clients N)))) as T2.
  { by apply tracks_lose. }
  exists (mkNet (net_doc N) (enqueue_command (net_ds N) cmd) (delete u (net_clients N))). split.
  { apply rtc_once. by eapply net_close. }
  split; cbn [h_sv h_conns h_peers].
  - eapply (tracks_silent _ s' _ _ _ (net_doc N) (enqueue_command (net_ds N) cmd) T2).
    + apply ok_session_event; [intros c; done|apply T].
    + done.
    + intros q [cq [Hne Hq]%lookup_delete_Some]. by apply Hothers.
    + intros v pv Hv. by destruct (Hothers (pe_session pv)) as [-> _]; [by eapply Hfree|].
    + intros _. by eapply hosts_active.
  - intros q cq [Hne Hq]%lookup_delete_Some Hp. apply (Hi q cq Hq). intros v pv Hv.
    destruct (decide (u = v)) as [<-|Hne']; [by simplify_eq|]. apply (Hp v pv). by rewrite lookup_delete_ne.
  - by apply users_leave.
Qed.

Lemma session_step_sessions m loc m' out : session_step m loc = Some (m', out) -> dm_sessions m' = dm_sessions m.
Proof.
  unfold session_step. destruct (hp_sessions _ !! loc) as [[doc [[|cmd q] us] stop]|]; try (by intros [= <- <-]).
  destruct (hp_docs _ !! doc) as [d|]; [|by intros [= <- <-]].
  by intros ([[d' ds'] out'] & _ & [= <- <-])%bind_Some.
Qed.

Lemma step_take h N d ds cmd q loc docs out :
  follows h N -> net_ok N ->
  let s := h_sv h in
  hosts (sv_docs s) D d ds -> ds_command_queue ds = cmd :: q -> doc_revision d + 1 < u32_mod ->
  get_session (sv_docs s) D = Some loc -> session_step (sv_docs s) loc = Some (docs, out) ->
  Forall (fun '(_, payload) => sized payload) out ->
  exists N', rtc NetStep N N' /\ follows (mkHost (deliver_sends (with_docs s docs) out) (push out (h_conns h)) (h_peers h)) N'.
Proof.
  intros [T Hi Hus] Hok s H Hq Hw Hloc Hst Hsz.
  destruct (hosts_inj _ _ _ _ _ H (tr_document _ _ _ _ T)) as [-> ->].
  destruct (hosts_thread _ _ _ _ _ _ _ _ _ H Hloc Hq Hst) as (d' & ds' & Hp & H').
  destruct Hok as (_ & Hc & _). unfold waiting in Hc. rewrite Hq in Hc. apply Forall_cons in Hc as [Hc _].
  exists (mkNet d' ds' (deliver_to out <$> net_clients N)). split.
  { apply rtc_once. by eapply net_take. }
  destruct (deliver_sends_keeps (with_docs s docs) out) as [Ed _].
  split; cbn [h_sv h_conns h_peers net_ds].
  - apply (tracks_server _ _ _ _ _ _ _ _ T); try done.
    + apply (ok_io s); [by eapply io_thread|apply T].
    + by rewrite Ed.
    + intros sid _. apply (grows_trans sid [] _ _ (with_docs s docs)); [by apply grows_same|apply grows_deliver].
    + intros v pe Hv. split; [apply (same_session_deliver _ out (with_docs s docs))|].
      apply received_forall. by eapply process_no_answer.
    + rewrite Ed. cbn. unfold get_session. by rewrite (session_step_sessions _ _ _ _ Hst).
  - apply idle_push; [done|]. by eapply process_no_answer.
  - rewrite (process_session _ _ _ _ _ _ _ Hc Hp). apply users_take. rewrite <- Hq, session_eta. exact Hus.
Qed.

Lemma net_eta N : mkNet (net_doc N) (net_ds N) (net_clients N) = N.
Proof. by destruct N. Qed.

Lemma step_written h N sid :
  follows h N -> is_Some (h_conns h !! sid) -> cs_write_queue (session_object (sv_tcp (h_sv h)) sid) <> [] ->
  follows (mkHost (session_event sid (fun c => on_write c false) (h_sv h)) (h_conns h) (h_peers h)) N.
Proof.
  intros [T Hi Hus] [cn Hcn] Hq.
  destruct (written_event sid (h_sv h) (conn_session _ _ _ (tr_conns _ _ _ _ T _ _ Hcn)) Hq) as (E & Hg & Hsame).
  split; [|done..]. cbn [h_sv h_conns h_peers]. rewrite <- (net_eta N). eapply tracks_silent; [exact T| |rewrite E; apply T|by intros ? _| |by rewrite E].
  - apply ok_session_event; [|apply T]. intros c. apply same_identity_written.
  - intros v pe _. apply Hsame.
Qed.

(** Steps of a client's connection alone. *)
Lemma tracks_conn s conns peers N sid cn cn' :
  tracks s conns peers N -> conns !! sid = Some cn -> conn_ok s sid cn' ->
  (forall u pe cl, peers !! u = Some pe -> pe_session pe = sid -> phase_ok u pe cn cl -> phase_ok u pe cn' cl) ->
  tracks s (<[sid := cn']> conns) peers N.
Proof.
  intros [T1 T2 T3 T4 T5] Hcn Hok Hp. split; [done|done|by apply map_Forall_insert_2| |done].
  intros u. specialize (T4 u).
  destruct (peers !! u) as [pe|] eqn:E, (net_clients N !! u) as [cl|] eqn:E'; inversion T4 as [? ? H|]; subst; constructor.
  destruct (decide (pe_session pe = sid)) as [Es|Hne]; [|by apply peer_ok_conn].
  destruct H as (P1 & P2 & P3 & P4 & P5 & cn0 & Hcn0 & P6). split_and!; try done. exists cn'.
  rewrite Es, lookup_insert_eq. split; [done|]. rewrite Es, Hcn in Hcn0. injection Hcn0 as <-. by eapply Hp.
Qed.
Lemma conn_ok_inbox s sid cn inbox : conn_ok s sid cn -> conn_ok s sid (with_inbox cn inbox).
Proof. by intros [C1 C2 C3 C4 C5]. Qed.
Lemma phase_ok_arriving u pe cn cn' cl : arriving cn' = arriving cn -> phase_ok u pe cn cl -> phase_ok u pe cn' cl.
Proof. intros E. unfold phase_ok. by rewrite E. Qed.

Lemma step_read h N sid cn chunk rest nm out :
  follows h N -> h_conns h !! sid = Some cn -> started sid (sv_out (h_sv h)) = cn_got cn +:+ chunk +:+ rest ->
  onReadyRead (cn_nm cn) ConnectedState chunk = (nm, out) ->
  follows (mkHost (h_sv h)
      (<[sid := mkConn (cn_got cn +:+ chunk) nm (cn_inbox cn ++ emitted out) (drop (length (emitted out)) (cn_pending cn))]>
         (h_conns h)) (h_peers h)) N.
Proof.
  intros [T Hi Hus] Hcn Hst E.
  destruct (conn_ok_read _ _ _ _ _ _ _ (tr_conns _ _ _ _ T _ _ Hcn) Hst E) as [Hok Harr].
  split; [| |done]; cbn.
  - eapply tracks_conn; [done..|]. intros u pe cl _ _. by apply phase_ok_arriving.
  - intros q cq Hq Hp. apply lookup_insert_Some in Hq as [[<- <-]|[_ Hq]]; [|by apply (Hi q cq Hq)].
    rewrite Harr. by apply (Hi _ _ Hcn).
Qed.

(** The messages that arrive behind the answer and are no operations are passed over. *)
Lemma receive_news N u cl rest down :
  net_clients N !! u = Some cl -> cl_down cl = rest ++ down -> Forall news rest ->
  rtc NetStep N (with_client N u (mkClient (cl_session cl) (cl_up cl) down (cl_oc cl) (cl_ld cl) (cl_base cl))).
Proof.
  intros Hu Hd Hn. revert N cl Hu Hd. induction Hn as [|payload rest Hp _ IH]; intros N cl Hu Hd; cbn in Hd.
  - unfold with_client. rewrite <- Hd. rewrite insert_id; [by rewrite net_eta|]. rewrite Hu. by destruct cl.
  - set (cl1 := mkClient (cl_session cl) (cl_up cl) (rest ++ down) (cl_oc cl) (cl_ld cl) (cl_base cl)).
    eapply (rtc_l _ _ (with_client N u cl1)).
    + pose proof (net_receive N u cl payload (rest ++ down) (cl_oc cl) (cl_ld cl) [] Hu Hd) as St.
      cbn [OTController.sends omap list_omap] in St. rewrite app_nil_r, (news_base _ _ Hp) in St.
      apply St; [|by apply news_ignored|done]. unfold receivable. unfold news in Hp.
      by destruct (fst (parse_envelope payload)).
    + specialize (IH (with_client N u cl1) cl1). unfold with_client in *. cbn [net_doc net_ds net_clients] in *.
      rewrite insert_insert_eq in IH. apply IH; [apply lookup_insert_eq|done].
Qed.

Lemma idle_inbox conns peers sid cn payload rest :
  idle_ok conns peers -> conns !! sid = Some cn -> cn_inbox cn = payload :: rest ->
  idle_ok (<[sid := with_inbox cn rest]> conns) peers.
Proof.
  intros H Hcn Hin q cq Hq Hp. apply lookup_insert_Some in Hq as [[<- <-]|[_ Hq]]; [|by apply (H q cq Hq)].
  specialize (H _ _ Hcn Hp). unfold arriving in *. rewrite Hin in H. by apply Forall_cons in H as [_ ?].
Qed.

Lemma step_open h N u pe cn payload rest msg :
  follows h N ->
  h_peers h !! u = Some pe -> pe_phase pe = Opening -> h_conns h !! pe_session pe = Some cn ->
  cn_inbox cn = payload :: rest -> answer_of payload = Some msg -> Forall news rest ->
  exists N', rtc NetStep N N' /\ follows (mkHost (h_sv h) (deliver_inbox h (pe_session pe) cn [])
      (<[u := mkPeer (pe_session pe) (pe_up pe)
                (Editing (new_OTController u (djm_docId msg) (djm_revision msg))
                         (mkLocalDocument (djm_content msg) (djm_revision msg)) (djm_content msg))]> (h_peers h))) N'.
Proof.
  intros F Hu Hph Hcn Hin Hans Hnews. pose proof F as [T Hi Hus].
  destruct (tracks_peer _ _ _ _ _ _ T Hu) as (cl & Hcl & Hu32 & Hl & Hsid & Hcup & Hops & cn0 & Hcn0 & H).
  rewrite Hcn in Hcn0. injection Hcn0 as <-. unfold phase_ok in H. rewrite Hph in H.
  destruct H as (pre & payload' & msg' & Harr & Hpre & Hdown & Hans' & Eoc & Eld & Ebase).
  unfold arriving in Harr. rewrite Hin in Harr. destruct pre as [|p pre].
  2: { injection Harr as <- _. apply Forall_cons in Hpre as [Hpre _]. unfold no_answer in Hpre. congruence. }
  injection Harr as <- Harr. rewrite Hans' in Hans. injection Hans as <-.
  assert (djm_docId msg' = D) as Hid.
  { unfold answer_of in Hans'. destruct (fst (parse_envelope payload)); try discriminate.
    apply bind_Some in Hans' as (m & _ & Hm). destruct (djm_success m && (djm_docId m =? D)) eqn:E; [|discriminate].
    injection Hm as ->. apply andb_prop in E as [_ E]. by apply Z.eqb_eq in E. }
  eexists. split; [apply (receive_news N u cl rest (cn_pending cn) Hcl); [by symmetry|done]|].
  split; cbn [h_sv h_conns h_peers].
  - unfold deliver_inbox. eapply tracks_client; [done|done|done|by apply conn_ok_inbox, (tr_conns _ _ _ _ T)|].
    split_and!; [done..|]. exists (with_inbox cn []). cbn [pe_session]. rewrite lookup_insert_eq. split; [done|].
    unfold phase_ok. cbn [pe_phase cl_down cl_oc cl_ld cl_base]. rewrite Hid. unfold arriving. cbn.
    rewrite Eoc, Eld, Ebase. split_and!; try done. rewrite <- Harr in Hdown. by apply Forall_app in Hdown as [_ ?].
  - by eapply idle_client.
  - by eapply users_client.
Qed.

Lemma step_skip h N sid cn payload rest :
  follows h N -> h_conns h !! sid = Some cn -> cn_inbox cn = payload :: rest ->
  map_Forall (fun _ pe => pe_session pe = sid ->
       pe_phase pe = Closing \/ (pe_phase pe = Opening /\ answer_of payload = None)) (h_peers h) ->
  follows (mkHost (h_sv h) (deliver_inbox h sid cn rest) (h_peers h)) N.
Proof.
  intros [T Hi Hus] Hcn Hin Hp. split; cbn [h_sv h_conns h_peers]; [|by eapply idle_inbox|done].
  eapply tracks_conn; [done|done|by apply conn_ok_inbox, (tr_conns _ _ _ _ T)|].
  intros u pe cl Hu Hs H. unfold phase_ok, arriving in *. cbn [cn_inbox cn_pending with_inbox] in *. rewrite Hin in H.
  destruct (Hp u pe Hu Hs) as [E|[E Ha]]; rewrite E in *; [by apply Forall_cons in H as [_ ?]|].
  destruct H as ([|p pre] & payload' & msg & Harr & Hpre & H).
  - injection Harr as <- _. destruct H as (_ & H & _). congruence.
  - injection Harr as <- Harr. apply Forall_cons in Hpre as [_ Hpre]. by exists pre, payload', msg.
Qed.

(** An open editor's client. *)
Lemma editing_client h N u pe oc ld base :
  follows h N -> h_peers h !! u = Some pe -> pe_phase pe = Editing oc ld base ->
  exists cl cn, net_clients N !! u = Some cl /\ h_conns h !! pe_session pe = Some cn
  /\ cl = mkClient (pe_session pe) (pe_up pe) (arriving cn) oc ld base
  /\ is_u32 u /\ linked (h_sv h) u (pe_session pe) /\ Forall (op_message D) (pe_up pe)
  /\ Forall no_answer (arriving cn) /\ oc_ok oc /\ oc_doc_id oc = D.
Proof.
  intros F Hu Hph. destruct (tracks_peer _ _ _ _ _ _ (fo_tracks _ _ F) Hu) as (cl & Hcl & H1 & H2 & H3 & H4 & H5 & cn & Hcn & H).
  unfold phase_ok in H. rewrite Hph in H. destruct H as (E1 & E2 & E3 & E4 & E5 & E6 & E7).
  exists cl, cn. split_and!; try done. destruct cl. cbn in *. congruence.
Qed.

Lemma peer_ok_editing s conns u sid up oc ld base cn :
  is_u32 u -> linked s u sid -> Forall (op_message D) up -> conns !! sid = Some cn ->
  Forall no_answer (arriving cn) -> oc_ok oc -> oc_doc_id oc = D ->
  peer_ok s conns u (mkPeer sid up (Editing oc ld base)) (mkClient sid up (arriving cn) oc ld base).
Proof. intros. split_and!; try done. by exists cn. Qed.

Lemma step_receive h N u pe cn oc ld base payload rest c d out :
  follows h N ->
  h_peers h !! u = Some pe -> pe_phase pe = Editing oc ld base -> h_conns h !! pe_session pe = Some cn ->
  cn_inbox cn = payload :: rest -> receivable (peer_sys oc ld base) payload ->
  onNetworkMessage oc ld payload = Some (c, d, out) -> fatal out = false ->
  exists N', rtc NetStep N N' /\ follows (mkHost (h_sv h) (deliver_inbox h (pe_session pe) cn rest)
      (<[u := mkPeer (pe_session pe) (pe_up pe ++ OTController.sends out)
                (Editing c d (next_base (peer_sys oc ld base) payload))]> (h_peers h))) N'.
Proof.
  intros F Hu Hph Hcn Hin Hrec E Hf. pose proof F as [T Hi Hus].
  destruct (editing_client _ _ _ _ _ _ _ F Hu Hph) as (cl & cn0 & Hcl & Hcn0 & Ecl & Hu32 & Hl & Hops & Hna & Hok & Hid).
  rewrite Hcn in Hcn0. injection Hcn0 as <-.
  pose proof (onNetworkMessage_ok oc ld payload Hok) as H. rewrite E in H. destruct H as [Hok' [_ Hid']].
  pose proof (onNetworkMessage_sends _ _ _ _ _ _ Hok E) as Hs. rewrite Hid in Hs.
  assert (arriving cn = payload :: arriving (with_inbox cn rest)) as Harr by (unfold arriving; by rewrite Hin).
  set (base' := next_base (peer_sys oc ld base) payload).
  set (cl' := mkClient (pe_session pe) (pe_up pe ++ OTController.sends out) (arriving (with_inbox cn rest)) c d base').
  exists (with_client N u cl'). split.
  { subst cl. apply rtc_once.
    exact (net_receive N u _ payload (arriving (with_inbox cn rest)) c d out Hcl Harr Hrec E Hf). }
  split; cbn [h_sv h_conns h_peers].
  - unfold deliver_inbox. eapply tracks_client; [done|done|done|by apply conn_ok_inbox, (tr_conns _ _ _ _ T)|].
    apply peer_ok_editing; [done|done|by apply Forall_app|apply lookup_insert_eq| |done|by rewrite Hid'].
    rewrite Harr in Hna. by apply Forall_cons in Hna as [_ ?].
  - by eapply idle_client.
  - by eapply users_client.
Qed.

(** The editor closes; the server does not know yet. *)
Lemma step_close h N u pe oc ld base :
  follows h N -> h_peers h !! u = Some pe -> pe_phase pe = Editing oc ld base ->
  follows (mkHost (h_sv h) (h_conns h) (<[u := mkPeer (pe_session pe) (pe_up pe) Closing]> (h_peers h))) N.
Proof.
  intros F Hu Hph. pose proof F as [T Hi Hus].
  destruct (editing_client _ _ _ _ _ _ _ F Hu Hph) as (cl & cn & Hcl & Hcn & Ecl & Hu32 & Hl & Hops & Hna & Hok & Hid).
  split; cbn [h_sv h_conns h_peers]; [|by eapply idle_client_same|by eapply users_client].
  assert (N = with_client N u cl) as ->.
  { unfold with_client. by rewrite insert_id, net_eta. }
  eapply tracks_client_same; [done|done|done|]. subst cl. split_and!; try done. by exists cn.
Qed.

Lemma step_fatal h N u pe cn oc ld base payload rest :
  follows h N -> h_peers h !! u = Some pe -> pe_phase pe = Editing oc ld base -> h_conns h !! pe_session pe = Some cn ->
  cn_inbox cn = payload :: rest ->
  follows (mkHost (h_sv h) (deliver_inbox h (pe_session pe) cn rest)
             (<[u := mkPeer (pe_session pe) (pe_up pe) Closing]> (h_peers h))) N.
Proof.
  intros F Hu Hph Hcn Hin. pose proof (step_close _ _ _ _ _ _ _ F Hu Hph) as F'.
  refine (step_skip _ _ (pe_session pe) cn payload rest F' Hcn Hin _). cbn [h_peers].
  intros v pv Hv Hs. apply lookup_insert_Some in Hv as [[<- <-]|[Hne Hv]]; [by left|].
  exfalso. apply Hne. by apply (tr_alone _ _ _ _ (fo_tracks _ _ F) u v pe pv).
Qed.

Lemma step_edit h N u pe oc ld base ops c d out :
  follows h N -> h_peers h !! u = Some pe -> pe_phase pe = Editing oc ld base -> Forall op_wf ops ->
  onLocalOperations oc ld ops = Some (c, d, out) ->
  exists N', rtc NetStep N N' /\ follows (mkHost (h_sv h) (h_conns h)
      (<[u := mkPeer (pe_session pe) (pe_up pe ++ OTController.sends out) (Editing c d base)]> (h_peers h))) N'.
Proof.
  intros F Hu Hph Hops' E. pose proof F as [T Hi Hus].
  destruct (editing_client _ _ _ _ _ _ _ F Hu Hph) as (cl & cn & Hcl & Hcn & Ecl & Hu32 & Hl & Hops & Hna & Hok & Hid).
  pose proof (onLocalOperations_spec oc ld ops Hok) as H. rewrite E in H. destruct H as (Hok' & _ & _ & [_ Hid'] & _).
  pose proof (onLocalOperations_sends _ _ _ _ _ _ Hok E) as Hs. rewrite Hid in Hs.
  exists (with_client N u (mkClient (pe_session pe) (pe_up pe ++ OTController.sends out) (arriving cn) c d base)). split.
  { subst cl. apply rtc_once. exact (net_edit N u _ ops c d out Hcl Hops' E). }
  split; cbn [h_sv h_conns h_peers]; [|by eapply idle_client_same|by eapply users_client].
  eapply tracks_client_same; [done|done|done|]. apply peer_ok_editing; try done; [by apply Forall_app|congruence].
Qed.

(** ** Steps of the server alone *)

Lemma dm_wf_on_document m loc f :
  (forall files d, doc_id (snd (f files d)) = doc_id d /\ doc_title (snd (f files d)) = doc_title d) ->
  dm_wf m -> dm_wf (on_document m loc f) /\ dm_documents (on_document m loc f) = dm_documents m
  /\ dm_sessions (on_document m loc f) = dm_sessions m.
Proof.
  intros Hf W. unfold on_document. destruct (hp_docs (dm_heap m) !! loc) as [d|] eqn:E; [|done].
  destruct (Hf (dm_files m) d) as [Hid Htitle]. destruct (f (dm_files m) d) as [files d']. cbn in *.
  split; [|done]. split; cbn; try apply W. intros docId l Hl. destruct (wf_document _ W _ _ Hl) as (Hlt & d0 & Hd & H).
  split; [done|]. rewrite lookup_insert. case_decide; [|by exists d0]. subst l. rewrite E in Hd. injection Hd as <-.
  exists d'. by rewrite Hid, Htitle.
Qed.
Lemma ok_broadcast_loop s s' : broadcast_loop s = Some s' -> sv_ok s -> sv_ok s'.
Proof.
  unfold broadcast_loop. generalize (all_active_doc_ids (sv_docs s)). intros ids. revert s.
  induction ids as [|docId ids IH]; intros s; cbn; [by intros [= ->]|].
  destruct (broadcast_cursors s docId) as [s1|] eqn:E.
  - intros H Hok. apply (IH s1 H). revert E. unfold broadcast_cursors. case_bool_decide; [by intros [= <-]|].
    destruct (get_session (sv_docs s) docId); [|by intros [= <-]]. intros (payload & _ & [= <-])%bind_Some.
    by apply ok_deliver_sends.
  - intros H. exfalso. clear -H. induction ids as [|x ids IH]; [done|]. by apply IH.
Qed.
Lemma ok_move s s' : ServerMove s s' -> sv_ok s -> sv_ok s'.
Proof.
  intros [s0 s1 St|s0 s1 St|s0 loc f Hf] H; [by eapply ok_step|by eapply ok_broadcast_loop|].
  destruct (dm_wf_on_document _ loc f Hf (ok_docs _ H)) as (W & E & _). by apply sv_ok_docs.
Qed.

Lemma step_saved h N doc : follows h N -> dm_documents (sv_docs (h_sv h)) !! D = Some doc ->
  exists N', rtc NetStep N N' /\ follows (mkHost (with_docs (h_sv h) (on_document (sv_docs (h_sv h)) doc
                          (fun files d => save_document files (dm_data_dir (sv_docs (h_sv h))) d)))
                       (h_conns h) (h_peers h)) N'.
Proof.
  intros [T Hi Hus] Hdoc. set (f := fun files d => save_document files (dm_data_dir (sv_docs (h_sv h))) d).
  assert (forall files d, doc_id (snd (f files d)) = doc_id d /\ doc_title (snd (f files d)) = doc_title d) as Hf
    by (intros files d; unfold f, save_document; by destruct (can_open files _)).
  set (opens := can_open (dm_files (sv_docs (h_sv h))) (tmp_path (dm_data_dir (sv_docs (h_sv h))) (doc_id (net_doc N)))).
  exists (mkNet (if opens then mark_saved (net_doc N) else net_doc N) (net_ds N) (net_clients N)).
  split; [destruct opens; [by apply rtc_once, net_saved|by rewrite net_eta]|].
  split; cbn [h_sv h_conns h_peers net_ds]; [|done..].
  destruct (dm_wf_on_document _ doc f Hf (ok_docs _ (tr_server _ _ _ _ T))) as (W & E & E').
  apply (tracks_silent _ _ _ _ _ _ _ T).
  - apply (ok_move (h_sv h)); [by apply move_saved|apply T].
  - destruct (tr_document _ _ _ _ T) as (doc' & A1 & A2 & A3). exists doc'. cbn. rewrite E, E'.
    split; [done|]. rewrite Hdoc in A1. injection A1 as <-. unfold on_document. rewrite A2.
    unfold f, save_document. fold opens. destruct opens; cbn; by rewrite lookup_insert_eq.
  - intros q _. by apply grows_same.
  - by intros u pe _.
  - cbn. unfold get_session. by rewrite E'.
Qed.

Lemma step_accept h N nm :
  follows h N -> let sid := ts_next_session_id (sv_tcp (h_sv h)) in
  h_conns h !! sid = None -> started sid (sv_out (h_sv h)) = ""%string ->
  nm_socket nm = true -> nm_rx_buffer nm = ""%string ->
  follows (mkHost (with_tcp (h_sv h) (accept (sv_tcp (h_sv h)) false)) (<[sid := mkConn "" nm [] []]> (h_conns h)) (h_peers h)) N.
Proof.
  intros [T Hi Hus] sid Hnew Hst Hsock Hrx. set (s' := with_tcp _ _).
  assert (forall q, session_object (sv_tcp s') q = if bool_decide (sid = q) then new_ClientSession sid else session_object (sv_tcp (h_sv h)) q) as Hobj.
  { intros q. unfold s'. cbn. unfold session_object. cbn. rewrite lookup_insert. by case_decide; case_bool_decide. }
  assert (forall q, started q (sv_out s') = started q (sv_out (h_sv h))) as Hsame.
  { intros q. unfold s'. cbn [sv_out with_tcp]. rewrite started_app. cbn. apply append_nil_r. }
  assert (forall q, is_Some (h_conns h !! q) -> sid <> q) as Hne by (intros q [cq Hq] ->; congruence).
  assert (forall u pe, h_peers h !! u = Some pe -> sid <> pe_session pe) as Hpe.
  { intros u pe Hu. destruct (tracks_peer _ _ _ _ _ _ T Hu) as (cl & _ & _ & _ & _ & _ & _ & cn & Hcn & _).
    apply Hne. by eexists. }
  assert (tracks s' (h_conns h) (h_peers h) N) as T1.
  { rewrite <- (net_eta N). apply (tracks_silent _ s' _ _ _ _ _ T); [|apply T| | |done].
    - apply (ok_io (h_sv h)); [apply io_accept|apply T].
    - intros q Hq Hok. rewrite Hobj, bool_decide_false by (by apply Hne). split; [done|].
      unfold sent_bytes. rewrite Hsame, Hobj, bool_decide_false by (by apply Hne). cbn. by rewrite append_nil_r.
    - intros u pe Hu. rewrite Hobj, bool_decide_false by (by eapply Hpe). done. }
  split; cbn [h_sv h_conns h_peers]; [| |done].
  - destruct T1 as [A1 A2 A3 A4 A5]. split; [done|done| | |done].
    + apply map_Forall_insert_2; [|done]. split; cbn; rewrite ?Hobj, ?bool_decide_true by done; try done.
      exists ""%string. unfold sent_bytes. rewrite Hsame, Hst, Hobj, bool_decide_true by done. cbn. by rewrite Hrx.
    + intros u. specialize (A4 u).
      destruct (h_peers h !! u) as [pe|] eqn:E, (net_clients N !! u) as [cl|] eqn:E'; inversion A4; subst; constructor.
      apply peer_ok_conn; [|done]. apply not_eq_sym. by eapply Hpe.
  - intros q cq [[<- <-]|[_ Hq]]%lookup_insert_Some Hp; [constructor|by apply (Hi q cq Hq)].
Qed.

Lemma step_other h N s' out :
  follows h N -> ServerMove (h_sv h) s' ->
  (forall d ds, hosts (sv_docs (h_sv h)) D d ds -> hosts (sv_docs s') D d ds) ->
  get_session (sv_docs s') D = get_session (sv_docs (h_sv h)) D ->
  (forall sid, is_Some (h_conns h !! sid) -> grows sid (received sid out) (h_sv h) s') ->
  Forall (fun '(_, payload) => ordinary payload) out ->
  map_Forall (fun _ pe =>
      same_session (session_object (sv_tcp (h_sv h)) (pe_session pe)) (session_object (sv_tcp s') (pe_session pe))
      /\ Forall news (received (pe_session pe) out)) (h_peers h) ->
  exists N', rtc NetStep N N' /\ follows (mkHost s' (push out (h_conns h)) (h_peers h)) N'.
Proof.
  intros [T Hi Hus] Hmv Hd Hact Hg Hout Hp.
  exists (mkNet (net_doc N) (net_ds N) (deliver_to out <$> net_clients N)). split.
  { apply rtc_once, net_news. intros u cl Hu. pose proof (tr_peers _ _ _ _ T u) as H. rewrite Hu in H.
    inversion H as [pe cl0 Hpe E|]; subst. destruct Hpe as (_ & _ & -> & _). by apply (Hp u pe). }
  assert (Forall (fun '(_, payload) => sized payload) out /\ Forall (fun '(_, payload) => no_answer payload) out) as [H1 H2].
  { split; eapply Forall_impl; try exact Hout; intros [q p]; by intros [? ?]. }
  split; cbn [h_sv h_conns h_peers net_ds]; [|by apply idle_push|done].
  apply (tracks_server _ _ _ _ _ _ _ _ T); [by eapply ok_move; [|apply T]|apply Hd, T|done|done| |by rewrite Hact].
  intros u pe Hu. split; [by apply (Hp u pe)|]. by apply received_forall.
Qed.

Lemma host_step_follows h h' N : HostStep h h' -> 0 < D -> follows h N -> net_ok N ->
  exists N', rtc NetStep N N' /\ follows h' N'.
Proof.
  assert (forall h1 : Host, follows h1 N -> exists N', rtc NetStep N N' /\ follows h1 N') as Hstay
    by (intros h1 H1; by exists N).
  intros St HD F Hok. destruct St.
  - by eapply step_join.
  - by eapply step_operation.
  - by eapply step_leave.
  - by eapply step_lost.
  - by eapply step_take.
  - by apply Hstay, step_written.
  - by eapply Hstay, step_read.
  - by eapply step_open.
  - by eapply Hstay, step_skip.
  - by eapply step_receive.
  - by eapply Hstay, step_fatal.
  - by eapply step_edit.
  - by eapply Hstay, step_close.
  - by apply step_saved.
  - by apply Hstay, step_accept.
  - by eapply step_other.
Qed.

(** ** From the beginning

    The server has run for a while; the document is loaded, and nobody has it open. *)
Record host_start (h : Host) (d : Document) : Prop := mkHostStart {
  start_server : exists data_dir files, rtc (SvStep CC_SHA256) (new_Server data_dir files) (h_sv h);
  start_id : 0 < D;
  start_document : hosts (sv_docs (h_sv h)) D d new_DocumentSession;
  start_sound : sound d;
  start_conns : map_Forall (fun sid cn => conn_ok (h_sv h) sid cn /\ Forall no_answer (arriving cn)) (h_conns h);
  start_peers : h_peers h = ∅;
}.

Lemma start_follows h d : host_start h d -> follows h (net_init d).
Proof.
  intros [(dir & files & Hs) _ Hd Hsound Hc Hp]. split; rewrite ?Hp.
  - split; [by eapply ok_steps|done| | |]; rewrite ?Hp.
    + intros sid cn Hcn. by apply (Hc sid cn Hcn).
    + intros u. cbn. rewrite !lookup_empty. constructor.
    + intros u v pe pe'. by rewrite lookup_empty.
  - intros sid cn Hcn _. by apply (Hc sid cn Hcn).
  - split; cbn; [apply map_Forall_empty..|constructor].
Qed.

Lemma host_reachable h0 d h : host_start h0 d -> rtc HostStep h0 h ->
  exists N, rtc NetStep (net_init d) N /\ follows h N /\ net_ok N.
Proof.
  intros H0 Hs.
  refine (rtc_preserved HostStep (fun h => exists N, rtc NetStep (net_init d) N /\ follows h N /\ net_ok N) _ _ _ Hs _).
  - intros h1 h2 (N1 & R1 & F1 & K1) St. destruct (host_step_follows _ _ _ St (start_id _ _ H0) F1 K1) as (N2 & R2 & F2).
    exists N2. split; [by etrans|]. split; [done|]. by apply (rtc_preserved _ net_ok _ _ net_step_ok R2).
  - exists (net_init d). split; [done|]. split; [by apply start_follows|]. apply net_init_ok, H0.
Qed.

(** ** At rest

    No operation waits; every client's editor is open and its messages have been handled,
    and it has been handed and has looked at everything that was sent to it. *)
Definition caught_up (s : Server) (sid : Z) (cn : Conn) : Prop :=
  cn_inbox cn = [] /\ cn_got cn = started sid (sv_out s) /\ tail (cs_write_queue (session_object (sv_tcp s) sid)) = [].
Definition peer_settled (h : Host) (pe : Peer) : Prop :=
  match pe_phase pe, h_conns h !! pe_session pe with
  | Editing _ _ _, Some cn => pe_up pe = [] /\ caught_up (h_sv h) (pe_session pe) cn
  | _, _ => False
  end.
#[export] Instance peer_settled_dec h pe : Decision (peer_settled h pe).
Proof. unfold peer_settled, caught_up. repeat case_match; apply _. Defined.
Definition settled (h : Host) (ds : DocumentSession) : Prop :=
  Forall (fun cmd => ~ is_operation cmd) (ds_command_queue ds) /\ map_Forall (fun _ pe => peer_settled h pe) (h_peers h).
#[export] Instance settled_dec h ds : Decision (settled h ds).
Proof. unfold settled. apply _. Defined.

Lemma settled_calm h N : follows h N -> settled h (net_ds N) -> calm N.
Proof.
  intros F [Hq Hp]. split; [exact Hq|]. intros u cl Hcl.
  pose proof (tr_peers _ _ _ _ (fo_tracks _ _ F) u) as H. rewrite Hcl in H.
  destruct (h_peers h !! u) as [pe|] eqn:Hu; [|inversion H].
  specialize (Hp u pe Hu). cbn in Hp. unfold peer_settled in Hp. destruct (pe_phase pe) as [|oc ld base|] eqn:Hph; try done.
  destruct (editing_client _ _ _ _ _ _ _ F Hu Hph) as (cl' & cn & Hcl' & Hcn & -> & _).
  rewrite Hcl in Hcl'. injection Hcl' as ->. rewrite Hcn in Hp. destruct Hp as (Hup & Hin & Hgot & Htail).
  cbn. split; [done|]. unfold arriving. rewrite Hin. cbn.
  eapply conn_ok_settled; [by apply (tr_conns _ _ _ _ (fo_tracks _ _ F))|].
  unfold sent_bytes, unstarted. by rewrite Htail, Hgot, append_nil_r.
Qed.

(** A connection with nothing on its way. *)
Lemma conn_ok_quiet s sid cn : session_ok (session_object (sv_tcp s) sid) -> nm_socket (cn_nm cn) = true ->
  nm_rx_buffer (cn_nm cn) = ""%string -> cn_pending cn = [] -> cn_got cn = sent_bytes s sid -> conn_ok s sid cn.
Proof.
  intros H1 H2 H3 H4 H5. split; rewrite ?H4; [done|done|constructor|done|].
  exists ""%string. by rewrite H3, H5, append_nil_r.
Qed.
End Host.

(** ** Properties *)

(** C2: the whole system refines the clients of [ManyClients], in the runs [HostStep]
    allows: joins, operations, leaves, lost connections, the document's thread, partial
    writes and reads, editors and saves, in any order, where handlers run whole, none
    overlaps another; no operation is queued at a join; who sends one may edit when it is
    handled; when an editor opens only news lies behind the answer; a received operation
    meets its client's queue without a tie of one user, a hollow delete or an overflow
    ([receivable]); nothing throws; ids and revisions are not used up; messages fit a
    frame; other work leaves the document and its users' logins alone. Then, from a loaded
    sound document nobody has open: document and queue are those of a state the clients
    reach, the same users have it open, and for each open editor controller, local
    document and messages to send are that client's, and the messages on their way to it
    are those in its connection, as frames, parts of frames or cut out. *)
Theorem system_refines_clients {J : Json} {L : JsonLaws J} CC_SHA256 D h0 d h :
  host_start CC_SHA256 D h0 d -> rtc (HostStep CC_SHA256 D) h0 h ->
  exists N, rtc NetStep (net_init d) N
  /\ hosts (sv_docs (h_sv h)) D (net_doc N) (net_ds N) /\ dom (net_clients N) = dom (h_peers h)
  /\ forall u pe oc ld base, h_peers h !! u = Some pe -> pe_phase pe = Editing oc ld base ->
     exists cn, h_conns h !! pe_session pe = Some cn
     /\ net_clients N !! u = Some (mkClient (pe_session pe) (pe_up pe) (arriving cn) oc ld base).
Proof.
  intros H0 Hs. destruct (host_reachable _ _ _ _ _ H0 Hs) as (N & HN & F & _). exists N.
  split; [done|]. split; [apply F|]. split.
  - apply set_eq. intros u. rewrite !elem_of_dom. pose proof (tr_peers _ _ _ _ _ (fo_tracks _ _ _ F) u) as H.
    destruct (h_peers h !! u), (net_clients N !! u); inversion H; first [done|split; intros _; by eexists].
  - intros u pe oc ld base Hu Hph. destruct (editing_client _ _ _ _ _ _ _ _ F Hu Hph) as (cl & cn & Hcl & Hcn & -> & _).
    eauto.
Qed.

(** C1: all users see the same text, at the level of the bytes, in runs without the
    conflicts named here. From a state of the server with the document loaded, sound and
    with nobody in it, and intact connections, in any order ([HostStep]): joins,
    operations, leaves, lost connections, the document's thread, partial writes and reads,
    edits, saves, and server work that leaves the document, its session and its users'
    logins alone. Assumed: handlers run whole, none overlaps another; no operation is
    queued at a join; who sends one may edit; when an editor opens only news lies behind
    the answer; a received operation meets its client's queue without a tie of one user,
    hollow delete or overflow ([ladder_ok]); nothing throws; ids and revisions are not
    used up; messages fit a frame. Then, when no operation waits and every client has
    handled all bytes sent to it and sent all it had, each open editor's copy has the text
    and revision of the server's document and its controller waits for nothing. *)
Theorem all_copies_agree {J : Json} {L : JsonLaws J} CC_SHA256 D h0 d0 h d ds :
  host_start CC_SHA256 D h0 d0 -> rtc (HostStep CC_SHA256 D) h0 h ->
  hosts (sv_docs (h_sv h)) D d ds -> settled h ds ->
  forall u pe oc ld base, h_peers h !! u = Some pe -> pe_phase pe = Editing oc ld base ->
    ld_content ld = doc_content d /\ ld_revision ld = doc_revision d /\ oc_state oc = Synchronized.
Proof.
  intros H0 Hs Hd Hset u pe oc ld base Hu Hph. destruct (host_reachable _ _ _ _ _ H0 Hs) as (N & HN & F & Hok).
  destruct (hosts_inj _ _ _ _ _ _ Hd (tr_document _ _ _ _ _ (fo_tracks _ _ _ F))) as [-> ->].
  destruct (editing_client _ _ _ _ _ _ _ _ F Hu Hph) as (cl & cn & Hcl & Hcn & -> & _).
  apply (net_ok_calm N Hok (settled_calm _ _ _ F Hset) u _ Hcl).
Qed.

(** ** Running the system

    Some of the steps as a function, for concrete runs. *)
Inductive HostMove :=
| HmJoin (sid : Z) | HmOperation (u : Z) | HmTake | HmWritten (sid : Z) | HmRead (sid n : Z)
| HmOpen (u : Z) | HmReceive (u : Z) | HmEdit (u : Z) (ops : list Operation).

Section Play.
Context {J : Json} (CC_SHA256 : string -> list Z) (D : Z).

Definition hosted (m : DocumentManager) : option (Document * DocumentSession) :=
  doc ← dm_documents m !! D;
  d ← hp_docs (dm_heap m) !! doc;
  match dm_sessions m !! D with
  | Some loc => o ← hp_sessions (dm_heap m) !! loc; guard (so_doc o = doc);; Some (d, so_state o)
  | None => Some (d, new_DocumentSession)
  end.
Lemma hosted_hosts m d ds : hosted m = Some (d, ds) -> hosts m D d ds.
Proof.
  unfold hosted. intros (doc & Hdoc & (d0 & Hd & H)%bind_Some)%bind_Some. exists doc.
  destruct (dm_sessions m !! D) as [loc|]; [|by simplify_eq].
  apply bind_Some in H as ([doc' st stop] & Ho & (E & _ & [= <- <-])%bind_Some). cbn in E. subst doc'.
  split_and!; [done|done|by exists stop].
Qed.

Definition host_play (mv : HostMove) (h : Host) : option Host :=
  let s := h_sv h in
  match mv with
  | HmJoin sid =>
      let u := cs_userId (session_object (sv_tcp s) sid) in
      guard (ids_left s /\ is_Some (h_conns h !! sid) /\ cs_authenticated (session_object (sv_tcp s) sid) = true
             /\ h_peers h !! u = None /\ map_Forall (fun _ pe => pe_session pe <> sid) (h_peers h)
             /\ can_read (sv_access s) D u = true);;
      '(d, ds) ← hosted (sv_docs s);
      guard (Forall (fun cmd => ~ is_operation cmd) (ds_command_queue ds));;
      payload ← serialize (client_json (CDocJoin (mkDocJoinRequestMsg D)));
      resp ← serialize (to_json_DocJoinResponseMsg (join_answer s D u d ds));
      guard (sized resp);;
      Some (mkHost (fst (handle_message CC_SHA256 sid [] "" payload s))
                   (push [(sid, resp)] (h_conns h)) (<[u := mkPeer sid [] Opening]> (h_peers h)))
  | HmOperation u =>
      pe ← h_peers h !! u;
      match pe_up pe with
      | payload :: up =>
          _ ← parse_as from_json_OperationMsg payload;
          guard (ids_left s /\ can_edit (sv_access s) D u = true);;
          Some (mkHost (fst (handle_message CC_SHA256 (pe_session pe) [] "" payload s)) (h_conns h)
                       (<[u := mkPeer (pe_session pe) up (pe_phase pe)]> (h_peers h)))
      | [] => None
      end
  | HmTake =>
      '(d, ds) ← hosted (sv_docs s);
      match ds_command_queue ds with
      | _ :: _ =>
          guard (doc_revision d + 1 < u32_mod);;
          loc ← get_session (sv_docs s) D;
          '(docs, out) ← session_step (sv_docs s) loc;
          guard (Forall (fun '(_, payload) => sized payload) out);;
          Some (mkHost (deliver_sends (with_docs s docs) out) (push out (h_conns h)) (h_peers h))
      | [] => None
      end
  | HmWritten sid =>
      guard (is_Some (h_conns h !! sid) /\ cs_write_queue (session_object (sv_tcp s) sid) <> []);;
      Some (mkHost (session_event sid (fun c => on_write c false) s) (h_conns h) (h_peers h))
  | HmRead sid n =>
      cn ← h_conns h !! sid;
      let bytes := started sid (sv_out s) in
      let at_ := slen (cn_got cn) in
      let chunk := str_mid bytes at_ n in
      guard (bytes = cn_got cn +:+ chunk +:+ str_mid bytes (at_ + slen chunk) (slen bytes));;
      let '(nm, out) := onReadyRead (cn_nm cn) ConnectedState chunk in
      Some (mkHost s
        (<[sid := mkConn (cn_got cn +:+ chunk) nm (cn_inbox cn ++ emitted out) (drop (length (emitted out)) (cn_pending cn))]>
           (h_conns h)) (h_peers h))
  | HmOpen u =>
      pe ← h_peers h !! u;
      cn ← h_conns h !! pe_session pe;
      match pe_phase pe, cn_inbox cn with
      | Opening, payload :: rest =>
          msg ← answer_of D payload;
          guard (Forall news rest);;
          Some (mkHost s (deliver_inbox h (pe_session pe) cn [])
            (<[u := mkPeer (pe_session pe) (pe_up pe)
                (Editing (new_OTController u (djm_docId msg) (djm_revision msg))
                         (mkLocalDocument (djm_content msg) (djm_revision msg)) (djm_content msg))]> (h_peers h)))
      | _, _ => None
      end
  | HmReceive u =>
      pe ← h_peers h !! u;
      cn ← h_conns h !! pe_session pe;
      match pe_phase pe, cn_inbox cn with
      | Editing oc ld base, payload :: rest =>
          guard (receivable (peer_sys oc ld base) payload);;
          '(c, d, out) ← onNetworkMessage oc ld payload;
          if fatal out then None
          else Some (mkHost s (deliver_inbox h (pe_session pe) cn rest)
            (<[u := mkPeer (pe_session pe) (pe_up pe ++ OTController.sends out)
                      (Editing c d (next_base (peer_sys oc ld base) payload))]> (h_peers h)))
      | _, _ => None
      end
  | HmEdit u ops =>
      pe ← h_peers h !! u;
      match pe_phase pe with
      | Editing oc ld base =>
          guard (Forall op_wf ops);;
          '(c, d, out) ← onLocalOperations oc ld ops;
          Some (mkHost s (h_conns h)
            (<[u := mkPeer (pe_session pe) (pe_up pe ++ OTController.sends out) (Editing c d base)]> (h_peers h)))
      | _ => None
      end
  end.

Lemma host_play_step mv h h' : host_play mv h = Some h' -> HostStep CC_SHA256 D h h'.
Proof.
  destruct mv as [sid|u| |sid|sid n|u|u|u ops]; cbn.
  - intros ((H1 & H2 & H3 & H4 & H5 & H6) & _ & ([d ds] & Hd%hosted_hosts & (H7 & _ & H)%bind_Some)%bind_Some)%bind_Some.
    apply bind_Some in H as (payload & Hp & (resp & Hr & (H8 & _ & [= <-])%bind_Some)%bind_Some). by eapply host_join.
  - intros (pe & Hu & H)%bind_Some. destruct (pe_up pe) as [|payload up] eqn:E; [done|].
    apply bind_Some in H as (msg & Hm & ([H1 H2] & _ & [= <-])%bind_Some). by eapply host_operation.
  - intros ([d ds] & Hd%hosted_hosts & H)%bind_Some. destruct (ds_command_queue ds) as [|cmd q] eqn:E; [done|].
    apply bind_Some in H as (H1 & _ & (loc & Hl & ([docs out] & Hst & (H2 & _ & [= <-])%bind_Some)%bind_Some)%bind_Some).
    by eapply host_take.
  - intros ([H1 H2] & _ & [= <-])%bind_Some. by apply host_written.
  - intros (cn & Hcn & (H1 & _ & H)%bind_Some)%bind_Some. destruct (onReadyRead _ _ _) as [nm out] eqn:E.
    injection H as <-. by eapply host_read.
  - intros (pe & Hu & (cn & Hcn & H)%bind_Some)%bind_Some. destruct (pe_phase pe) eqn:Hph; try done.
    destruct (cn_inbox cn) as [|payload rest] eqn:Hin; [done|].
    apply bind_Some in H as (msg & Hm & (H1 & _ & [= <-])%bind_Some). by eapply host_open.
  - intros (pe & Hu & (cn & Hcn & H)%bind_Some)%bind_Some. destruct (pe_phase pe) as [|oc ld base|] eqn:Hph; try done.
    destruct (cn_inbox cn) as [|payload rest] eqn:Hin; [done|].
    apply bind_Some in H as (H1 & _ & ([[c d] out] & E & H)%bind_Some).
    destruct (fatal out) eqn:Hf; [done|]. injection H as <-. by eapply host_receive.
  - intros (pe & Hu & H)%bind_Some. destruct (pe_phase pe) as [|oc ld base|] eqn:Hph; try done.
    apply bind_Some in H as (H1 & _ & ([[c d] out] & E & [= <-])%bind_Some). by eapply host_edit.
Qed.

Fixpoint host_plays (mvs : list HostMove) (h : Host) : option Host :=
  match mvs with [] => Some h | mv :: mvs => h ← host_play mv h; host_plays mvs h end.
Lemma host_plays_reachable mvs h h' : host_plays mvs h = Some h' -> rtc (HostStep CC_SHA256 D) h h'.
Proof.
  revert h. induction mvs as [|mv mvs IH]; intros h; cbn; [by intros [= ->]|].
  intros (h1 & H & Hs)%bind_Some. eapply rtc_l; [by eapply host_play_step|by apply IH].
Qed.
End Play.

(** ** A run *)

Section Concrete.
#[local] Existing Instance json_tree.

(** Two connections; ann (session 1) and bob (session 2) register, ann makes a document and
    lets bob edit it; all answers have been written. *)
Definition connected (s : Server) : Server := with_tcp s (accept (sv_tcp s) false).
Definition written (sid : Z) (s : Server) : Server := session_event sid (fun c => on_write c false) s.
Definition said (sid : Z) (m : ClientMsg) (s : Server) : Server :=
  written sid (fst (handle_message sha sid [] "" (text_of m) s)).
Definition shared_document : Server :=
  said 1 (CDocShare (mkDocShareRequestMsg 1 "bob" "editor"))
    (said 1 (CDocCreate (mkDocCreateRequestMsg "notes"))
      (said 2 (CAuth (mkAuthRequestMsg "register" "bob" "pw"))
        (said 1 (CAuth (mkAuthRequestMsg "register" "ann" "pw"))
          (connected (connected (new_Server "data" ∅)))))).

Definition up_to_date (s : Server) (sid : Z) : Conn := mkConn (sent_bytes s sid) (ensureSocket new_NetworkManager) [] [].
Definition first_host : Host :=
  mkHost shared_document {[ 1 := up_to_date shared_document 1; 2 := up_to_date shared_document 2 ]} ∅.


Definition both_edit : list HostMove :=
  [HmJoin 1; HmJoin 2; HmTake; HmTake; HmRead 1 7; HmWritten 1; HmRead 1 100000; HmRead 2 100000; HmOpen 1; HmOpen 2;
   HmEdit 1 [make_insert 0 "x" 0 0]; HmEdit 2 [make_insert 0 "y" 0 0]; HmOperation 2; HmOperation 1; HmTake; HmTake;
   HmWritten 1; HmWritten 1; HmWritten 1; HmWritten 2; HmWritten 2; HmRead 1 30; HmRead 1 100000; HmRead 2 100000; HmWritten 2;
   HmReceive 1; HmReceive 1; HmReceive 2; HmReceive 2].

Lemma shared_document_reachable : rtc (SvStep sha) (new_Server "data" ∅) shared_document.
Proof.
  assert (forall s, rtc (SvStep sha) s (connected s)) as Hc.
  { intros s. apply rtc_once, sv_io, io_accept. }
  assert (forall sid m s, ids_left s -> rtc (SvStep sha) s (said sid m s)) as Hs.
  { intros sid m s [H1 H2]. eapply rtc_l; [by apply sv_message|]. apply rtc_once, sv_io, io_written. }
  unfold shared_document.
  repeat (etrans; [|first [apply Hs; decide_now|apply Hc]]). reflexivity.
Qed.

Lemma first_host_starts : host_start sha 1 first_host (new_Document 1 "notes").
Proof.
  split.
  - exists "data"%string, ∅. apply shared_document_reachable.
  - done.
  - apply hosted_hosts. by vm_compute.
  - split; [decide_now|]. exists (mkDocLog "" []). split; [apply (refines_init 1 "notes" "")|constructor].
  - assert (forall sid, session_ok (session_object (sv_tcp shared_document) sid) ->
      conn_ok shared_document sid (up_to_date shared_document sid) /\ Forall (no_answer 1) (arriving (up_to_date shared_document sid))) as H
      by (intros sid Hok; split; [by apply conn_ok_quiet|constructor]).
    unfold first_host. cbn [h_conns h_sv].
    intros sid cn [[<- <-]|[_ [<- <-]%lookup_singleton_Some]]%lookup_insert_Some; apply H; decide_now.
  - done.
Qed.

Lemma both_edit_runs :
  match h ← host_plays sha 1 both_edit first_host; '(d, ds) ← hosted 1 (sv_docs (h_sv h)); Some (h, d, ds) with
  | Some (h, d, ds) =>
      bool_decide (settled h ds) && String.eqb (doc_content d) "xy" && bool_decide (dom (h_peers h) = {[ 1; 2 ]})
  | None => false
  end = true.
Proof. vm_compute. reflexivity. Qed.

Lemma all_copies_agree_witness :
  exists h d ds, rtc (HostStep sha 1) first_host h /\ hosts (sv_docs (h_sv h)) 1 d ds
  /\ dom (h_peers h) = {[ 1; 2 ]}
  /\ forall u pe oc ld base, h_peers h !! u = Some pe -> pe_phase pe = Editing oc ld base ->
     ld_content ld = "xy"%string.
Proof.
  pose proof both_edit_runs as H.
  destruct (host_plays sha 1 both_edit first_host) as [h|] eqn:Hs; [|discriminate H]. cbn [mbind option_bind] in H.
  destruct (hosted 1 (sv_docs (h_sv h))) as [[d ds]|] eqn:Hd; [|discriminate H]. cbn [mbind option_bind] in H.
  apply andb_prop in H as [[Hset Ht]%andb_prop Hdom].
  apply bool_decide_eq_true in Hset, Hdom. apply String.eqb_eq in Ht.
  apply host_plays_reachable in Hs. apply hosted_hosts in Hd.
  exists h, d, ds. split; [exact Hs|]. split; [exact Hd|]. split; [exact Hdom|].
  intros u pe oc ld base Hu Hph. rewrite <- Ht.
  exact (proj1 (all_copies_agree (L := json_tree_laws) sha 1 _ _ h d ds first_host_starts Hs Hd Hset u pe oc ld base Hu Hph)).
Defined.

Lemma system_refines_clients_witness :
  exists h N, rtc (HostStep sha 1) first_host h /\ rtc NetStep (net_init (new_Document 1 "notes")) N
  /\ doc_content (net_doc N) = "xy"%string /\ dom (net_clients N) = {[ 1; 2 ]}.
Proof.
  pose proof both_edit_runs as H.
  destruct (host_plays sha 1 both_edit first_host) as [h|] eqn:Hs; [|discriminate H]. cbn [mbind option_bind] in H.
  destruct (hosted 1 (sv_docs (h_sv h))) as [[d ds]|] eqn:Hd; [|discriminate H]. cbn [mbind option_bind] in H.
  apply andb_prop in H as [[Hset Ht]%andb_prop Hdom].
  apply bool_decide_eq_true in Hdom. apply String.eqb_eq in Ht.
  apply host_plays_reachable in Hs. apply hosted_hosts in Hd.
  destruct (system_refines_clients (L := json_tree_laws) sha 1 _ _ h first_host_starts Hs) as (N & HN & HdN & HdomN & _).
  exists h, N. split; [exact Hs|]. split; [exact HN|].
  destruct (hosts_inj _ _ _ _ _ _ Hd HdN) as [<- _]. split; [exact Ht|]. by rewrite HdomN.
Defined.
End Concrete.
